(* ===== verification/_CoqProject ===== *)
-Q . S2P
Prelude.v
Memory.v
Digits.v
Elf.v
Utils.v
Os.v
ElfBinary.v
ElfDynamic.v
ElfWellFormed.v
ElfFile.v
FindLibrary.v
DynLoader.v
Words.v
MapFile.v
Accept.v
Plan.v
Symbols.v
Relocate.v
Execute.v
Start.v
LibcMapping.v
LibcCode.v
Sloader.v
Program.v
Link.v
Launch.v
Session.v
Reentrant.v
ExecLoader.v
ExecLaunch.v
RawWrite.v
Samples.v
WitnessLoad.v
WitnessLink.v
WitnessStart.v
WitnessExec.v
WitnessProgram.v
WitnessLaunch.v
WitnessSession.v
WitnessReentrant.v
WitnessOrder.v
