(* ===== verification/Prelude.v ===== *)
(** * sloader: an ELF loader, verified

    sloader is a replacement for ld-linux.so: [sloader prog args] maps the ELF
    file [prog] and the shared libraries it needs, relocates them, runs their
    constructors, builds the initial stack and thread-local storage, and jumps to
    the entry point. The C library is not loaded: its names resolve to functions
    of the C library sloader itself is linked with.

    ** The program and its model

    [main] (src/sloader.cc) finds the file, checks its type, makes the global
    [DynLoader] and calls [DynLoader::Run] (src/dyn_loader.cc), which is
    [LoadDependingLibs], [Relocate] and [Execute] one after the other. The loaded
    program comes back into sloader through the functions of src/libc_mapping.cc
    and src/sloader_dl.cc. One definition stands for each function, and one for
    each loop body; it keeps the name of the function. The map of the manifest
    gives the lines.

    - Prelude: machine words, record update, outcomes, the state monad, loops
      with fuel, and the tactics and hints ([words], [fuel]) for them.
    - Memory: the byte-addressed address space of the process; hints [bytes].
    - Digits: positional notation, for HexString and the raw printing macros.
    - Elf: the records and constants of <elf.h>.
    - Utils: src/utils.h and src/utils.cc ([SplitWith], [HexString], the printers
      of relocations and symbols).
    - Os: the interfaces to the system as type classes ([Environment],
      [FileSystem], [Kernel]) with their laws ([FileSystemSpec], [KernelSpec],
      [KernelHint]), paths, the process state [proc] and [mmap].
    - ElfBinary: class [ELFBinary] of src/dyn_loader.h: constructor, [Load],
      [ParseDynamic], [GetSymbolAddr]; ElfDynamic: the specification of
      [ParseDynamic]; ElfWellFormed: when it succeeds; ElfFile: constructor and [Load] in terms of the file.
    - FindLibrary: [read_ldsoconf_dfs], [read_ldsoconf], [FindLibrary]; the relation
      of inclusion between configuration files and how deep it goes.
    - DynLoader: the state of class [DynLoader] and [LoadDependingLibs];
      Accept: the files that can be loaded, and that they are; Plan: the objects a
      search is going to load, computed from the files, and that it loads them;
      Words: the width invariant of objects and loader; MapFile: the lines of the
      map file and their reader, src/addr_to_offset.py.
    - Symbols: [SearchSym] and [TLSSymOffset]; Relocate: [Relocate];
      Execute: [Execute] and [ExecuteCore]; Start: when they succeed.
    - LibcMapping: the table of src/libc_mapping.cc; LibcCode: the functions the
      same file defines; Sloader: src/sloader.cc, src/sloader_dl.cc,
      src/tls_secure.cc, [Run] and the global loader.
    - Program: the phases put together; Link: loading and relocation from a plan;
      Launch: the whole command from a plan; Session: the running program, which
      calls [dlopen] and [dlsym], as a step relation; Reentrant: [Execute] and
      [Run] again, with constructors that make such calls while the loop over the
      objects runs.
    - ExecLoader: src/exec_loader.h, and ExecLaunch: static executables from the
      file to the jump; RawWrite: src/raw_write/raw_write.h.
    - Samples: a concrete program and library in ELF format with concrete
      parameters, and the evaluation of the whole command on them; WitnessLoad,
      WitnessLink, WitnessStart, WitnessExec, WitnessProgram, WitnessLaunch,
      WitnessSession, WitnessReentrant: every theorem with hypotheses, applied there;
      WitnessOrder: three objects that show the order of constructors.

    State corresponds to state: the members of [ELFBinary] and [DynLoader] are the
    fields of records of the same names; mapped memory, the lines written to the
    map file, the control transfers into loaded code, the stack pointer and the
    global [sloader_tls_offset] form [proc]. A function that can stop returns an
    [outcome], one that changes the process runs in [P], the state monad over
    [proc]. Every way the C++ code can stop is an [error]: a failed [CHECK], [exit],
    [abort], an access outside the mapped regions, a division by zero, the read of
    a member that was never initialised, an uncaught exception, signed overflow.
    Fields of [Elf64_*] type and addresses are [Z]; arithmetic that may wrap is
    written with [wrap64], and the theorem of Words shows that all of them stay
    within their width. Symbol names and tables are read from memory each time, as
    the code does, so relocation could in principle overwrite what it reads next;
    the theorems say when it does not ([names_off]).

    ** What the theorems show

    - Loading: the constructor reads the headers of the file
      ([ELFBinary_new_reads_file]); [Load] maps each segment with the file's bytes
      and zeros, records the mappings and stays below the base of the next object
      ([Load_image], [Load_mappings], [Load_window]); the code does not compare
      [p_filesz] with [p_memsz], and where a segment breaks that rule of the format
      the copy runs over what lies behind its pages and over nothing else
      ([spills] in [Load_image], [object_spills] in [LoadDependingLibs_images]); [ParseDynamic] computes the fields from the
      entries of the dynamic section ([ParseDynamic_spec]) and succeeds exactly on
      the well-formed ones ([ParseDynamic_succeeds]); a file that is well formed, as
      a decidable condition on its bytes alone, is loaded wherever its pages are
      free, to the object its bytes determine ([load_binary_succeeds]); the map
      file leads back to the files, with one segment too many at an address where a
      segment ends ([addr_to_offset_Load]).
    - The search: [FindLibrary] and the configuration reader meet their
      specifications ([FindLibrary_spec], [read_ldsoconf_spec]); the loader state
      after [LoadDependingLibs] is that of an abstract breadth-first search
      ([LoadDependingLibs_bfs]), every object is in memory ([.._images]), and the
      search ends if no chain of [ldsoconf_depth] configuration files include one
      another ([.._terminates], [read_ldsoconf_in_fuel]). The relation [planned] says from the
      files and the search path alone which objects a search loads, where, and
      what it makes of them; [compute_plan] computes it, and the search carries it
      out in every process that has room ([LoadDependingLibs_succeeds]).
    - Linking: [SearchSym] is the reference resolution ([SearchSym_resolve]), a
      round of the relocation loop stops for a symbol index out of range or an
      unreadable name, and otherwise carries out the reference action of its type: the
      ABI's calculation for the types of [abi_table], the loader's own one for the four
      types of [departures] (IRELATIVE, DTPMOD64, DTPOFF64, and TPOFF64 with an addend)
      ([relocate_step_action]), and the loops together leave exactly these values
      ([Relocate_links], with [Relocate_succeeds] and [Relocate_idempotent]);
      [load_and_relocate_links] composes loading and relocation, and
      [load_and_relocate_succeed] shows that from a plan whose relocations can be
      carried out both succeed, with the memory that the files predict
      ([linked_memory]).
    - Starting: the order of constructors (the reverse of the order of loading, which
      is not always dependencies first: [constructor_before_dependency]), the stack of the ABI, the thread-local
      blocks and their offsets ([Execute_order], [Execute_stack],
      [setup_tls_blocks], [TLSSymOffset_layout], [tls_variable_initialised]), and
      that starting succeeds ([Execute_succeeds]). When constructors open libraries
      the same constructors run in the same order and nothing else is called, the
      new libraries come last and only get thread-local blocks
      ([Execute_reentrant_enters]), the run ends if their own computations do - their
      calls of [dlopen] and [dlsym] are shown to return - ([Run_reentrant_terminates]), and
      when they open none this is [Execute] ([Execute_reentrant_plain]).
    - The whole: [main_succeeds] has conditions on the files ([program_files]) and
      on the process ([process_room]) under which the command enters the program;
      [main_refuses] and [main_enters_program] hold without them, and so does
      [main_terminates], for constructors that return and inclusions of bounded depth.
    - The running program: for every interleaving of steps of the program with
      calls of [dlopen] and [dlsym], the invariant of the loader
      ([session_invariant]), that addresses [dlsym] gave stay right
      ([dlsym_stable]), and that [dlopen] ends, and when it succeeds
      ([session_dlopen_terminates], [sloader_dlopen_succeeds]); the behaviour of
      single calls ([sloader_dlopen_adds], [sloader_dlsym_resolves]).
    - Static executables: a file that is well formed, as a condition on its bytes,
      is loaded at its own addresses and entered wherever its pages are free
      ([exec_launches]); what [Unload] takes away again ([exec_unload]).
    - Boundary behaviour that differs from the intention of the code, as theorems
      about the code as it is: [setup_tls_clobbers], [TLSSymOffset_libc_mirrored],
      [weak_undefined_value], [tls_get_addr_last], [find_program_path],
      [find_program_unreadable], [search_directories_unreadable], [FindLibrary_prefix], [Relocate_same_path], [addr_to_offset_Load],
      [load_segment_spills], [constructor_before_dependency], [read_ldsoconf_circular],
      [departures] in [relocate_step_action], [exec_load_rejects_boundary], [memrchr_c_correct], [libc_map_functions].

    ** Loops and fuel

    A [while] loop of the code is [while], which stops with [OutOfFuel] after
    [2 ^ 128] rounds (counted in binary, so it evaluates); a loop that decreases a
    measure below that bound never does, and this is how the termination theorems
    are proved. Reading a string or a symbol table moves through a finite address
    space, the search loads at most [2 ^ 47] bytes of objects. The configuration
    reader follows includes to a depth of [ldsoconf_depth] = 1024. It runs out of
    this bound exactly when there is a chain of that many inclusions from
    /etc/ld.so.conf ([read_ldsoconf_in_fuel]), so the termination theorems assume
    [includes_bounded], a condition on the configuration files alone; files that
    include each other in a circle break it whatever the bound is
    ([read_ldsoconf_circular]), as they exhaust the C++ stack. Range
    loops are [foldM] and structural recursion.

    ** Parameters

    Code that is not under src/ is a parameter: the environment and the file
    system (constant during a run: the loader only reads them, apart from the map
    file; a query or an iteration that throws an exception is one of its answers),
    the place [mmap] chooses - with [KernelRoom], a kernel that has an area
    for mappings without an address -, where the allocator put strings
    ([Strings]), the effect of the constructors of loaded objects on memory
    ([LoadedCode]; what is asked of it is a hypothesis of the theorems: which
    addresses it may write to, that it returns), or on memory and the loader when
    they may call it ([LoadedProgram], with the law [LoadedProgramSpec] that they
    reach the loader through [dlopen] and [dlsym] only), the addresses of the C library's functions and thread-local
    variables ([LibcMap], [CObjects]), its [dladdr] and [pthread_atfork] and the call of
    the program's [main] ([DlLibrary], [CRuntime]), and the address of
    [sloader_dummy_to_secure_tls_space] ([tls_block]).

    ** Not modelled

    - Log output: the [LOG] stream discards it. What its operands do besides is
      kept, because it can stop the loader ([ShowSym], [ShowRela]).
    - src/ldsodefs.h, a glibc header no source file includes; tests, other
      scripts and sample programs; the macros of raw_write.h for single
      instructions (no-ops, breakpoints, the exit call).
    - What a running program does between its calls into sloader, beyond that it
      keeps memory made of bytes and mappings apart: it is any step of
      [program_step]. Calls from several threads at once.
    - Page protection on access (every mapping the loader reads or writes is made
      readable and writable), memory exhaustion, and the limit on file descriptors
      (the loader never closes the files it maps): opening a file that exists
      succeeds.
    - A [std::string] made from a null pointer (a string table at address 0) is a read
      at address 0 in the model, so the error is [Segv] and not [Exception]. *)

From stdpp Require Export base gmap sets list strings list_numbers.
From Stdlib Require Export ZArith Lia.
From Stdlib Require Ascii String.
Export Stdlib.Strings.Ascii (ascii(..), ascii_of_N, N_of_ascii, N_ascii_embedding, ascii_N_embedding, ascii_dec).
Export (notations) Stdlib.Strings.Ascii.
#[global] Arguments Stdlib.Strings.String.append !_ _ / : simpl nomatch.
#[global] Open Scope Z_scope.
#[global] Set Default Goal Selector "!".

(** ** Machine words

    Addresses and the [Elf64_*] integer fields are non-negative [Z] kept below
    their width; the operations of the source that may wrap do so explicitly. *)

Definition wrap (w x : Z) : Z := x mod 2 ^ w.
Abbreviation wrap64 := (wrap 64).
Abbreviation wrap32 := (wrap 32).

(** [lia] for goals with division and remainder. *)
Ltac lia_div := Z.to_euclidean_division_equations; lia.

(** Two's complement reading of a 64-bit word. *)
Definition signed64 (x : Z) : Z :=
  if x <? 2 ^ 63 then x else x - 2 ^ 64.

Definition signed32 (x : Z) : Z :=
  if x <? 2 ^ 31 then x else x - 2 ^ 32.

Lemma signed32_small x : 0 ≤ x < 2 ^ 31 → signed32 (wrap32 x) = x.
Proof. intros. unfold signed32, wrap. rewrite Z.mod_small, (proj2 (Z.ltb_lt _ _)) by lia. done. Qed.

Definition word64 (x : Z) : Prop := 0 ≤ x < 2 ^ 64.

Lemma wrap_bound w x : 0 ≤ w → 0 ≤ wrap w x < 2 ^ w.
Proof. intros. unfold wrap. apply Z.mod_pos_bound. lia. Qed.

Lemma wrap_small w x : 0 ≤ x < 2 ^ w → wrap w x = x.
Proof. apply Z.mod_small. Qed.

Lemma wrap_wrap w x : wrap w (wrap w x) = wrap w x.
Proof. apply Zmod_mod. Qed.

Lemma wrap_add_l w x y : wrap w (wrap w x + y) = wrap w (x + y).
Proof. apply Zplus_mod_idemp_l. Qed.

Lemma wrap_add_r w x y : wrap w (x + wrap w y) = wrap w (x + y).
Proof. apply Zplus_mod_idemp_r. Qed.

Lemma wrap_sub_l w x y : wrap w (wrap w x - y) = wrap w (x - y).
Proof. apply Zminus_mod_idemp_l. Qed.

Lemma wrap_sub_r w x y : wrap w (x - wrap w y) = wrap w (x - y).
Proof. apply Zminus_mod_idemp_r. Qed.

Create Rewrite HintDb words.
#[export] Hint Rewrite wrap_wrap wrap_add_l wrap_add_r wrap_sub_l wrap_sub_r : words.

(** ** Record update

    [r <| f := v |>] is [r] with the field [f] set to [v]. A record type gives
    its eta-expansion once, as an instance of [Settable]; the setter of a field
    is found by abstracting the projection in it. *)

Class Settable (R : Type) := eta_of : R → R.
Class Setter {R T : Type} (proj : R → T) := set_field : T → R → R.

Ltac derive_setter proj :=
  lazymatch type of proj with
  | ?R → ?T =>
      let inst := constr:(_ : Settable R) in
      let body := eval hnf in inst in
      lazymatch eval pattern proj in body with
      | ?abs _ => exact (λ (v : T) (r : R), abs (λ _ : R, v) r)
      end
  end.
#[export] Hint Extern 1 (Setter ?proj) => derive_setter proj : typeclass_instances.
#[global] Arguments set_field {R T} proj {_} v r : simpl never.

Notation "r <| f := v |>" := (set_field f v r)
  (at level 1, f at level 200, left associativity, only parsing).

(** ** Outcomes

    How a run of a piece of the program ends: with a value, or in one of the
    ways the C++ code can stop. *)

Inductive error : Type :=
  | CheckFailed            (** a [CHECK] macro: message and [exit(1)] *)
  | Exited (code : Z)      (** another call of [exit] *)
  | Aborted                (** [std::abort] *)
  | Segv                   (** access to memory that is not mapped *)
  | Sigfpe                 (** integer division by zero *)
  | Indeterminate          (** read of a member that was never initialised *)
  | Exception              (** an uncaught C++ exception *)
  | SignedOverflow         (** overflow of a signed integer *)
  | OutOfFuel.             (** the bound on a loop or recursion of the model *)

#[export] Instance error_eq_dec : EqDecision error.
Proof. solve_decision. Defined.

Inductive outcome (A : Type) : Type :=
  | Ok (a : A)
  | Err (e : error).
Arguments Ok {A} a.
Arguments Err {A} e.

#[export] Instance outcome_ret : MRet outcome := @Ok.
#[export] Instance outcome_bind : MBind outcome := λ A B f m,
  match m with Ok a => f a | Err e => Err e end.
#[export] Instance outcome_throw : MThrow error outcome := @Err.

#[export] Instance outcome_eq_dec {A} `{EqDecision A} : EqDecision (outcome A).
Proof. solve_decision. Defined.

Definition is_ok {A} (o : outcome A) : bool :=
  match o with Ok _ => true | Err _ => false end.

(** A closed run is evaluated once, to its success and what can be decided of
    its result. *)
Lemma run_succeeds {A} (o : outcome A) (P : A → Prop) `{∀ a, Decision (P a)} :
  match o with Ok a => bool_decide (P a) | Err _ => false end = true → ∃ a, o = Ok a ∧ P a.
Proof. destruct o; [|done]. rewrite bool_decide_eq_true. eauto. Qed.

(** The result of an operation on [int]. *)
Definition int_result (x : Z) : outcome Z :=
  if (- 2 ^ 31 <=? x) && (x <? 2 ^ 31) then Ok x else Err SignedOverflow.

Lemma int_result_ok x y : int_result x = Ok y ↔ - 2 ^ 31 ≤ x < 2 ^ 31 ∧ y = x.
Proof.
  unfold int_result. destruct (Z.leb_spec (- 2 ^ 31) x), (Z.ltb_spec x (2 ^ 31)); cbn [andb];
    (split; [intros Hx; try discriminate Hx; injection Hx as <-; lia|intros [? ->]; done || lia]).
Qed.

(** Code that also changes a state of type [S]; a run that stops has no
    state left to observe. *)
Definition stM (S A : Type) : Type := S → outcome (A * S).

#[export] Instance stM_ret S : MRet (stM S) := λ A a s, Ok (a, s).
#[export] Instance stM_bind S : MBind (stM S) := λ A B f m s,
  match m s with Ok (a, s') => f a s' | Err e => Err e end.
#[export] Instance stM_throw S : MThrow error (stM S) := λ A e _, Err e.

Definition lift {S A} (o : outcome A) : stM S A := λ s,
  match o with Ok a => Ok (a, s) | Err e => Err e end.
Definition gets {S A} (f : S → A) : stM S A := λ s, Ok (f s, s).
Definition modify {S} (f : S → S) : stM S unit := λ s, Ok (tt, f s).

(** The [CHECK] family of macros. *)
Definition CHECK {M} `{MRet M} `{MThrow error M} (b : bool) : M unit :=
  if b then mret tt else mthrow CheckFailed.

(** A C++ range-[for] loop that threads an accumulator. *)
Fixpoint foldM {M A B} `{MRet M} `{MBind M} (f : A → B → M A) (a : A) (l : list B) : M A :=
  match l with
  | [] => mret a
  | b :: l => a' ← f a b; foldM f a' l
  end.

(** Apply a computation to each element in order. *)
Fixpoint traverse {A B} (f : A → outcome B) (l : list A) : outcome (list B) :=
  match l with
  | [] => mret []
  | x :: l => y ← f x; k ← traverse f l; mret (y :: k)
  end.

(** Monad laws and inversion of successful runs. *)

Lemma outcome_bind_ok {A B} (m : outcome A) (f : A → outcome B) b :
  m ≫= f = Ok b ↔ ∃ a, m = Ok a ∧ f a = Ok b.
Proof. destruct m as [a|e]; split; [eauto|by intros (? & [= ->] & ?)|done|by intros (? & ? & ?)]. Qed.

Lemma stM_bind_ok {S A B} (m : stM S A) (f : A → stM S B) s r :
  (m ≫= f) s = Ok r ↔ ∃ a s', m s = Ok (a, s') ∧ f a s' = Ok r.
Proof.
  unfold mbind, stM_bind. destruct (m s) as [[a s']|e].
  - split; [eauto|by intros (? & ? & [= -> ->] & ?)].
  - split; [done|by intros (? & ? & ? & ?)].
Qed.

Lemma stM_bind_run {S A B} (m : stM S A) (f : A → stM S B) s a s' :
  m s = Ok (a, s') → (m ≫= f) s = f a s'.
Proof. intros Hm. unfold mbind, stM_bind. by rewrite Hm. Qed.

Lemma bind_Ok {A B} (a : A) (f : A → outcome B) : Ok a ≫= f = f a.
Proof. reflexivity. Qed.

Lemma bind_mret {A B} (a : A) (f : A → outcome B) : mret a ≫= f = f a.
Proof. reflexivity. Qed.

Lemma outcome_bind_assoc {A B C} (m : outcome A) (f : A → outcome B) (g : B → outcome C) :
  (m ≫= f) ≫= g = m ≫= (λ a, f a ≫= g).
Proof. by destruct m. Qed.

Lemma stM_bind_assoc {S A B C} (m : stM S A) (f : A → stM S B) (g : B → stM S C) s :
  ((m ≫= f) ≫= g) s = (m ≫= (λ a, f a ≫= g)) s.
Proof. unfold mbind, stM_bind. by destruct (m s) as [[]|]. Qed.

Lemma lift_ok {S A} (o : outcome A) (s : S) a s' :
  lift o s = Ok (a, s') ↔ o = Ok a ∧ s' = s.
Proof. unfold lift. destruct o; split; intros; destruct_and?; simplify_eq; auto. Qed.

Lemma CHECK_ok b u : CHECK (M:=outcome) b = Ok u ↔ b = true ∧ u = tt.
Proof. destruct b, u; split; intros; destruct_and?; simplify_eq; auto. Qed.

Lemma CHECK_st_ok {S} b (s : S) u s' :
  CHECK (M:=stM S) b s = Ok (u, s') ↔ b = true ∧ s' = s.
Proof.
  destruct b, u; unfold CHECK, mret, stM_ret, mthrow, stM_throw;
    split; intros; destruct_and?; simplify_eq; auto.
Qed.

Lemma CHECK_true : CHECK (M:=outcome) true = Ok tt.
Proof. done. Qed.

(** Decompose hypotheses that say a monadic run succeeded. *)
Ltac inv_ok1 :=
  match goal with
  | H : Ok _ = Ok _ |- _ => simplify_eq H
  | H : Err _ = Ok _ |- _ => discriminate H
  | H : mret _ = Ok _ |- _ => unfold mret, outcome_ret in H
  | H : mret _ _ = Ok _ |- _ => unfold mret, stM_ret in H
  | H : mthrow _ = Ok _ |- _ => discriminate H
  | H : mthrow _ _ = Ok _ |- _ => discriminate H
  | H : gets _ _ = Ok _ |- _ => unfold gets in H
  | H : modify _ _ = Ok _ |- _ => unfold modify in H
  | H : lift _ _ = Ok (_, _) |- _ => apply lift_ok in H as [? ?]
  | H : CHECK _ = Ok _ |- _ => apply CHECK_ok in H as [? ?]
  | H : CHECK _ _ = Ok (_, _) |- _ => apply CHECK_st_ok in H as [? ?]
  | H : (_ ≫= _) = Ok _ |- _ => apply outcome_bind_ok in H as (? & ? & ?)
  | H : (_ ≫= _) _ = Ok _ |- _ => apply stM_bind_ok in H as (? & ? & ? & ?)
  end.
Ltac inv_ok := repeat (inv_ok1; simplify_eq/=).

Lemma traverse_ok {A B} (f : A → outcome B) l k :
  traverse f l = Ok k ↔ Forall2 (λ x y, f x = Ok y) l k.
Proof.
  revert k. induction l as [|x l IH]; intros k; simpl.
  { split; [intros [= <-]; constructor|by inversion 1]. }
  split.
  - intros Hrun. inv_ok. constructor; [done|]. by apply IH.
  - inversion 1 as [|? y ? k' Hx Hl]; subst. apply IH in Hl. by rewrite Hx, Hl.
Qed.

(** A loop that collects the results of its rounds. *)
Lemma foldM_collect {A B} (g : B → outcome A) l acc :
  foldM (λ acc i, r ← g i; mret (acc ++ [r])) acc l = (rs ← traverse g l; mret (acc ++ rs)).
Proof.
  revert acc. induction l as [|i l IH]; intros acc; simpl; [by rewrite app_nil_r|].
  destruct (g i) as [r|e]; [|done]. cbn. rewrite IH. destruct (traverse g l) as [rs|e]; [|done]. cbn. by rewrite <-app_assoc.
Qed.

(** A change of the accumulator that the rounds do not notice. *)
Lemma foldM_commutes {A B} (h : A → A) (f : A → B → outcome A) l a :
  (∀ a b, f (h a) b = (a' ← f a b; mret (h a'))) → foldM f (h a) l = (a' ← foldM f a l; mret (h a')).
Proof.
  intros Hf. revert a. induction l as [|b l IH]; intros a; cbn [foldM]; [done|].
  rewrite Hf. destruct (f a b) as [a'|e]; cbn [mbind outcome_bind mret outcome_ret]; [apply IH|done].
Qed.

Section foldM_outcome.
Context {A B : Type} (f : A → B → outcome A).

Lemma foldM_app l1 l2 a :
  foldM f a (l1 ++ l2) = foldM f a l1 ≫= λ a', foldM f a' l2.
Proof.
  revert a. induction l1 as [|b l1 IH]; intros a; simpl; [done|].
  rewrite outcome_bind_assoc. destruct (f a b); simpl; [apply IH|done].
Qed.

(** An invariant of the loop body holds at the end of the loop. *)
Lemma foldM_invariant (I : A → Prop) l a a' :
  (∀ a b a', b ∈ l → I a → f a b = Ok a' → I a') →
  I a → foldM f a l = Ok a' → I a'.
Proof.
  revert a. induction l as [|b l IH]; intros a Hstep HI Hrun; simpl in Hrun; inv_ok; [done|].
  eapply IH; [|eapply Hstep|]; eauto; set_solver.
Qed.

(** The same with an invariant that tracks the part already processed. *)
Lemma foldM_prefix (I : list B → A → Prop) l a a' :
  (∀ pre b a a', b ∈ l → I pre a → f a b = Ok a' → I (pre ++ [b]) a') →
  I [] a → foldM f a l = Ok a' → I l a'.
Proof.
  intros Hstep HI. change l with ([] ++ l) at 2. revert HI. generalize (@nil B) as pre.
  revert a. induction l as [|b l IH]; intros a pre HI Hrun; simpl in Hrun; inv_ok.
  { by rewrite app_nil_r. }
  replace (pre ++ b :: l) with ((pre ++ [b]) ++ l) by by rewrite <-app_assoc.
  eapply IH; [|eapply Hstep|]; eauto; set_solver.
Qed.

(** A body that always succeeds folds like [foldl]. *)
(** When the success of a round does not depend on the accumulator. *)
Lemma foldM_succeeds (I : A → Prop) (P : B → Prop) l a :
  (∀ a b, I a → (∃ a', f a b = Ok a') ↔ P b) → (∀ a b a', I a → f a b = Ok a' → I a') → I a →
  (∃ a', foldM f a l = Ok a') ↔ Forall P l.
Proof.
  intros HP HI. revert a. induction l as [|b l IH]; intros a Ha; simpl; [split; eauto|].
  rewrite Forall_cons, <-(HP a b Ha). split.
  - intros (a2 & (a1 & H1 & H2)%outcome_bind_ok). split; [eauto|]. eapply IH; [by eapply HI|eauto].
  - intros [[a1 H1] Hl]. rewrite H1. apply IH; [by eapply HI|done].
Qed.

Lemma foldM_pure (g : A → B → A) l a :
  (∀ a b, b ∈ l → f a b = Ok (g a b)) → foldM f a l = Ok (foldl g a l).
Proof.
  revert a. induction l as [|b l IH]; intros a Hf; simpl; [done|].
  rewrite Hf by set_solver. simpl. apply IH. set_solver.
Qed.
End foldM_outcome.

Section foldM_state.
Context {S A B : Type} (f : A → B → stM S A).

Lemma foldM_st_app l1 l2 a s :
  foldM f a (l1 ++ l2) s = (foldM f a l1 ≫= λ a', foldM f a' l2) s.
Proof.
  revert a s. induction l1 as [|b l1 IH]; intros a s; simpl; [done|].
  rewrite stM_bind_assoc. unfold mbind, stM_bind.
  destruct (f a b s) as [[]|]; [apply IH|done].
Qed.

Lemma foldM_st_invariant (I : A → S → Prop) l a s a' s' :
  (∀ a b s a' s', b ∈ l → I a s → f a b s = Ok (a', s') → I a' s') →
  I a s → foldM f a l s = Ok (a', s') → I a' s'.
Proof.
  revert a s. induction l as [|b l IH]; intros a s Hstep HI Hrun; simpl in Hrun; inv_ok; [done|].
  eapply IH; [|eapply Hstep|]; eauto; set_solver.
Qed.
End foldM_state.

(** ** Runs that do not hit a bound of the model *)

Definition in_fuel {A} (o : outcome A) : Prop := o ≠ Err OutOfFuel.

Create HintDb fuel.

Lemma in_fuel_ok {A} (a : A) : in_fuel (Ok a).
Proof. done. Qed.

Lemma in_fuel_bind {A B} (m : outcome A) (f : A → outcome B) :
  in_fuel m → (∀ a, m = Ok a → in_fuel (f a)) → in_fuel (m ≫= f).
Proof. unfold in_fuel. destruct m as [a|e]; simpl; [auto|]. congruence. Qed.

Lemma in_fuel_CHECK b : in_fuel (CHECK (M:=outcome) b).
Proof. by destruct b. Qed.

Lemma in_fuel_foldM {A B} (f : A → B → outcome A) l a :
  (∀ a b, b ∈ l → in_fuel (f a b)) → in_fuel (foldM f a l).
Proof.
  revert a. induction l as [|b l IH]; intros a Hf; simpl; [done|].
  apply in_fuel_bind; [apply Hf; set_solver|]. intros a' _. apply IH. set_solver.
Qed.

Lemma in_fuel_foldM_inv {A B} (I : A → Prop) (f : A → B → outcome A) l a :
  (∀ a b, b ∈ l → I a → in_fuel (f a b)) → (∀ a b a', b ∈ l → I a → f a b = Ok a' → I a') →
  I a → in_fuel (foldM f a l).
Proof.
  revert a. induction l as [|b l IH]; intros a Hf HI H0; simpl; [done|].
  apply in_fuel_bind; [apply Hf; [set_solver|done]|]. intros a' Hr.
  apply IH; [intros; apply Hf; [set_solver|done]|intros ??? ?; apply HI; set_solver|].
  eapply HI; [|exact H0|exact Hr]. set_solver.
Qed.

Lemma in_fuel_st_bind {S A B} (m : stM S A) (f : A → stM S B) s :
  in_fuel (m s) → (∀ a s', m s = Ok (a, s') → in_fuel (f a s')) → in_fuel ((m ≫= f) s).
Proof.
  unfold in_fuel, mbind, stM_bind. destruct (m s) as [[a s']|e]; [auto|]. congruence.
Qed.

Lemma in_fuel_st_CHECK {S} b (s : S) : in_fuel (CHECK (M:=stM S) b s).
Proof. by destruct b. Qed.

(** A loop whose body keeps an invariant under which it does not run out. *)
Lemma in_fuel_st_foldM {S A B} (I : A → S → Prop) (f : A → B → stM S A) l a s :
  (∀ a b s, b ∈ l → I a s → in_fuel (f a b s)) →
  (∀ a b s a' s', b ∈ l → I a s → f a b s = Ok (a', s') → I a' s') →
  I a s → in_fuel (foldM f a l s).
Proof.
  revert a s. induction l as [|b l IH]; intros a s Hf HI H0; simpl; [done|].
  apply in_fuel_st_bind; [apply Hf; [set_solver|done]|]. intros a' s' Hr.
  apply IH; [intros; apply Hf; [set_solver|done]|intros ????? ?; apply HI; set_solver|].
  eapply HI; [|exact H0|exact Hr]. set_solver.
Qed.

#[export] Hint Resolve in_fuel_ok in_fuel_bind in_fuel_CHECK in_fuel_foldM in_fuel_st_CHECK : fuel.

(** ** Loops

    [loop d step s] runs the body [step] up to [2 ^ d] times: [inl] is the
    state for the next iteration, [inr] leaves the loop. The depth is a
    logarithm, so the bound can be the size of the address space and the
    function still evaluates. *)

Fixpoint loop {S R : Type} (d : nat) (step : S → outcome (S + R)) (s : S) : outcome (S + R) :=
  match d with
  | O => step s
  | Datatypes.S d =>
      match loop d step s with
      | Ok (inl s') => loop d step s'
      | o => o
      end
  end.

(** A [while] loop of the source: at most [2 ^ 128] iterations. *)
Definition while {S R : Type} (step : S → outcome (S + R)) (s : S) : outcome R :=
  match loop 128 step s with
  | Ok (inr r) => Ok r
  | Ok (inl _) => Err OutOfFuel
  | Err e => Err e
  end.

(** [runs step n s o]: the loop started in [s] leaves with outcome [o] after
    [n] executions of its body. *)
Inductive runs {S R : Type} (step : S → outcome (S + R)) : nat → S → outcome R → Prop :=
  | runs_done s r : step s = Ok (inr r) → runs step 1 s (Ok r)
  | runs_err s e : step s = Err e → runs step 1 s (Err e)
  | runs_step n s s' o :
      step s = Ok (inl s') → runs step n s' o → runs step (Datatypes.S n) s o.

Section loops.
Context {S R : Type} (step : S → outcome (S + R)).

Fixpoint steps (n : nat) (s : S) : outcome (S + R) :=
  match n with
  | O => Ok (inl s)
  | Datatypes.S n =>
      match step s with Ok (inl s') => steps n s' | o => o end
  end.

Lemma steps_add n m s :
  steps (n + m) s = match steps n s with Ok (inl s') => steps m s' | o => o end.
Proof.
  revert s. induction n as [|n IH]; intros s; simpl; [done|].
  destruct (step s) as [[s'|r]|e]; auto.
Qed.

Lemma loop_steps d s : loop d step s = steps (2 ^ d) s.
Proof.
  revert s. induction d as [|d IH]; intros s.
  { simpl. by destruct (step s) as [[]|]. }
  rewrite Nat.pow_succ_r', Nat.mul_succ_l, Nat.mul_1_l, steps_add. simpl.
  rewrite IH. destruct (steps (2 ^ d) s) as [[s'|]|]; auto.
Qed.

Lemma runs_steps n k s o :
  runs step n s o → (n ≤ k)%nat →
  steps k s = match o with Ok r => Ok (inr r) | Err e => Err e end.
Proof.
  intros Hr. revert k. induction Hr as [s r E|s e E|n s s' o E _ IH]; intros k Hk;
    (destruct k as [|k]; [lia|]); simpl; rewrite E; auto with lia.
Qed.

(** The loop of the model agrees with the unbounded one whenever that one
    leaves within [2 ^ 128] iterations. *)
Lemma while_runs n s o :
  runs step n s o → Z.of_nat n ≤ 2 ^ 128 → while step s = o.
Proof.
  intros Hr Hn. unfold while. rewrite loop_steps, (runs_steps n _ _ o Hr).
  - by destruct o.
  - apply Nat2Z.inj_le. rewrite Nat2Z.inj_pow. done.
Qed.

Lemma runs_fun n1 n2 s o1 o2 : runs step n1 s o1 → runs step n2 s o2 → o1 = o2.
Proof.
  intros H1. revert n2 o2. induction H1 as [s r E|s e E|n s s' o E _ IH]; intros n2 o2 H2; inversion H2; simplify_eq; try congruence.
  match goal with Ha : step s = Ok (inl ?a), Hb : step s = Ok (inl ?b) |- _ => rewrite Ha in Hb; injection Hb as -> end. eauto.
Qed.

(** A variant that decreases in each iteration bounds the number of them. *)
Lemma runs_total (I : S → Prop) (v : S → Z) s :
  (∀ s s', I s → step s = Ok (inl s') → I s' ∧ 0 ≤ v s' < v s) →
  I s → 0 ≤ v s → ∃ n o, runs step n s o ∧ Z.of_nat n ≤ v s + 1.
Proof.
  intros Hstep HI Hv. remember (v s) as k eqn:Hk. revert s HI Hv Hk.
  induction (Z.lt_wf 0 k) as [k _ IH]. intros s HI Hv ->.
  destruct (step s) as [[s'|r]|e] eqn:E.
  - destruct (Hstep s s' HI E) as [HI' Hlt].
    edestruct (IH (v s')) as (n & o & Hr & Hn); [lia|exact HI'|lia|done|].
    exists (Datatypes.S n), o. split; [by eapply runs_step|lia].
  - exists 1%nat, (Ok r). split; [by constructor|lia].
  - exists 1%nat, (Err e). split; [by constructor|lia].
Qed.

(** So a loop with such a variant below [2 ^ 128] never runs out of fuel in
    the model unless its body does. *)
Lemma while_total (I : S → Prop) (v : S → Z) s :
  (∀ s s', I s → step s = Ok (inl s') → I s' ∧ 0 ≤ v s' < v s) →
  I s → 0 ≤ v s < 2 ^ 128 → ∃ n o, runs step n s o ∧ while step s = o.
Proof.
  intros Hstep HI Hv. destruct (runs_total I v s) as (n & o & Hr & Hn); [done..|lia|].
  exists n, o. split; [done|]. apply (while_runs n); [done|lia].
Qed.

(** Total correctness: rounds that succeed and decrease a variant. *)
Lemma while_succeeds (I : S → Prop) (v : S → Z) s :
  (∀ s, I s → ∃ r, step s = Ok r ∧ ∀ s', r = inl s' → I s' ∧ 0 ≤ v s' < v s) →
  I s → 0 ≤ v s < 2 ^ 128 → ∃ r, while step s = Ok r.
Proof.
  intros Hstep HI Hv. destruct (while_total I v s) as (n & o & Hr & ->); [|done..|].
  { intros s1 s2 H1 H2. destruct (Hstep s1 H1) as (r & Hr & Hs). apply Hs. congruence. }
  clear Hv. induction Hr as [s r _|s e He|n s s' o Hs _ IH]; [by eexists| |]; destruct (Hstep s HI) as (r & Hr & Hn).
  - congruence.
  - rewrite Hs in Hr. injection Hr as <-. apply IH. by apply Hn.
Qed.

Lemma steps_invariant (I : S → Prop) n s r :
  (∀ s s', I s → step s = Ok (inl s') → I s') →
  I s → steps n s = Ok (inr r) → ∃ s', I s' ∧ step s' = Ok (inr r).
Proof.
  intros Hstep. revert s. induction n as [|n IH]; intros s HI; simpl; [done|].
  destruct (step s) as [[s'|r']|e] eqn:E; intros Hrun; [|naive_solver|done].
  apply (IH s'); eauto.
Qed.

(** Partial correctness: an invariant of the body holds where the loop is left. *)
Lemma while_invariant (I : S → Prop) s r :
  (∀ s s', I s → step s = Ok (inl s') → I s') →
  I s → while step s = Ok r → ∃ s', I s' ∧ step s' = Ok (inr r).
Proof.
  intros Hstep HI. unfold while. rewrite loop_steps.
  destruct (steps _ s) as [[?|r']|] eqn:E; intros Hr; simplify_eq.
  by eapply steps_invariant.
Qed.

(** The errors of a loop are those of its body, and lack of fuel. *)
Lemma steps_error (P : error → Prop) n s e :
  (∀ s e, step s = Err e → P e) → steps n s = Err e → P e.
Proof.
  intros Hstep. revert s. induction n as [|n IH]; intros s; simpl; [done|].
  destruct (step s) as [[s'|r']|e'] eqn:E; intros Hrun; [by eapply IH|done|].
  simplify_eq. by eapply Hstep.
Qed.
End loops.

Lemma while_ext {S R : Type} (f g : S → outcome (S + R)) s :
  (∀ s, f s = g s) → while f s = while g s.
Proof.
  intros Hfg. unfold while.
  assert (∀ d st, loop d f st = loop d g st) as Hl.
  { induction d as [|d IH]; intros st; simpl; [done|]. rewrite IH.
    destruct (loop d g st) as [[]|]; auto. }
  by rewrite Hl.
Qed.

(** A loop whose body does, on the images of states, what another one does. *)
Lemma while_map {S R S' R' : Type} (f : S → outcome (S + R)) (g : S' → outcome (S' + R')) (h : S → S') (k : R → R') s :
  (∀ s, g (h s) = (r ← f s; mret match r with inl s' => inl (h s') | inr r => inr (k r) end)) →
  while g (h s) = (r ← while f s; mret (k r)).
Proof.
  intros Hfg. unfold while. rewrite !loop_steps. generalize (2 ^ 128)%nat as n. intros n.
  assert (steps g n (h s) = (r ← steps f n s; mret match r with inl s' => inl (h s') | inr r => inr (k r) end)) as ->.
  { revert s. induction n as [|n IH]; intros s; [done|]. cbn [steps]. rewrite Hfg. by destruct (f s) as [[s'|r]|e]; cbn. }
  by destruct (steps f n s) as [[s'|r]|e].
Qed.

(** A loop with a variant whose body does not run out does not run out. *)
Lemma in_fuel_while {S R : Type} (step : S → outcome (S + R)) (I : S → Prop) (v : S → Z) s :
  (∀ s s', I s → step s = Ok (inl s') → I s' ∧ 0 ≤ v s' < v s) →
  (∀ s, I s → in_fuel (step s)) →
  I s → 0 ≤ v s < 2 ^ 128 → in_fuel (while step s).
Proof.
  intros Hstep Hf HI Hv. destruct (while_total step I v s Hstep HI Hv) as (n & o & Hr & ->). clear Hv.
  induction Hr as [|s e He|n s s' o Hs _ IH]; [done| |].
  - intros [= ->]. by apply (Hf s HI).
  - apply IH. by apply (Hstep s).
Qed.

(** ** Runs that give the same results where both succeed *)

(** Where [o] succeeds, [o'] succeeds with the same result. *)
Definition covers {A} (o o' : outcome A) : Prop := ∀ a, o = Ok a → o' = Ok a.

Lemma covers_refl {A} (o : outcome A) : covers o o.
Proof. by intros a. Qed.

Lemma covers_bind {A B} (o o' : outcome A) (f f' : A → outcome B) :
  covers o o' → (∀ a, covers (f a) (f' a)) → covers (o ≫= f) (o' ≫= f').
Proof. intros Ho Hf b (a & Ha & Hb)%outcome_bind_ok. rewrite (Ho a Ha). by apply Hf. Qed.

Lemma covers_foldM {A B} (f f' : A → B → outcome A) l a :
  (∀ a b, covers (f a b) (f' a b)) → covers (foldM f a l) (foldM f' a l).
Proof.
  intros Hf. revert a. induction l as [|b l IH]; intros a; [apply covers_refl|]. by apply covers_bind.
Qed.

Lemma covers_loop {S R} (f f' : S → outcome (S + R)) d s :
  (∀ s, covers (f s) (f' s)) → covers (loop d f s) (loop d f' s).
Proof.
  intros Hf. revert s. induction d as [|d IH]; intros s; [apply Hf|]. intros r. cbn [loop].
  destruct (loop d f s) as [[s1|r1]|e] eqn:E; [|intros [= <-]|done]; rewrite (IH _ _ E); [apply IH|done].
Qed.

Lemma covers_while {S R} (f f' : S → outcome (S + R)) s :
  (∀ s, covers (f s) (f' s)) → covers (while f s) (while f' s).
Proof.
  intros Hf r. unfold while. destruct (loop 128 f s) as [[s1|r1]|e] eqn:E; [done| |done].
  by rewrite (covers_loop f f' 128 s Hf _ E).
Qed.

Create HintDb covers.
#[export] Hint Resolve covers_refl covers_bind covers_foldM covers_while : covers.

#[global] Opaque while.
