(* ===== verification/Memory.v ===== *)
(** * The address space

    One byte-addressed memory for the whole process: a list of mapped regions
    and the contents of the mapped bytes. Loads and stores of the C++ code that
    leave the mapped regions end the run with [Segv]. Every mapping the loader
    makes is readable and writable, so the access check is just "is mapped";
    the protection bits of a region are recorded for the theorems about them. *)

From S2P Require Import Prelude.

(** ** Little-endian words *)

Fixpoint le_split (n : nat) (x : Z) : list Z :=
  match n with
  | O => []
  | S n => x mod 256 :: le_split n (x / 256)
  end.

Fixpoint le_combine (bs : list Z) : Z :=
  match bs with
  | [] => 0
  | b :: bs => b + 256 * le_combine bs
  end.

Definition byte (b : Z) : Prop := 0 ≤ b < 256.

Lemma le_split_length n x : length (le_split n x) = n.
Proof. revert x. induction n; simpl; auto. Qed.

Lemma le_split_bytes n x : Forall byte (le_split n x).
Proof.
  revert x. induction n; simpl; constructor; [|done].
  apply Z.mod_pos_bound. lia.
Qed.

Lemma le_combine_split n x :
  le_combine (le_split n x) = x mod 256 ^ Z.of_nat n.
Proof.
  revert x. induction n as [|n IH]; intros x; simpl.
  { by rewrite Z.mod_1_r. }
  rewrite IH. replace (Z.of_nat (S n)) with (Z.of_nat n + 1) by lia.
  rewrite Z.pow_add_r, Z.pow_1_r, (Z.mul_comm (256 ^ _)) by lia.
  rewrite Z.rem_mul_r by lia. lia.
Qed.

Lemma le_combine_bound bs :
  Forall byte bs → 0 ≤ le_combine bs < 256 ^ Z.of_nat (length bs).
Proof.
  unfold byte. induction 1 as [|b bs Hb _ IH]; simpl; [lia|].
  replace (Z.of_nat (S (length bs))) with (Z.of_nat (length bs) + 1) by lia.
  rewrite Z.pow_add_r by lia. lia.
Qed.

Lemma le_split_combine bs :
  Forall byte bs → le_split (length bs) (le_combine bs) = bs.
Proof.
  unfold byte. induction 1 as [|b bs Hb _ IH]; simpl; [done|].
  f_equal.
  - rewrite Z.mul_comm, Z.mod_add by lia. apply Z.mod_small. lia.
  - rewrite Z.mul_comm, Z.div_add, Z.div_small by lia. done.
Qed.

Lemma le_combine_split64 x : word64 x → le_combine (le_split 8 x) = x.
Proof. intros Hx. rewrite le_combine_split. apply Z.mod_small. unfold word64 in Hx. lia. Qed.

(** ** Regions and memories *)

Record region := mkRegion { r_lo : Z; r_hi : Z; r_prot : Z }.

#[export] Instance region_eq_dec : EqDecision region.
Proof. solve_decision. Defined.

Definition in_region (a : Z) (r : region) : bool := (r_lo r <=? a) && (a <? r_hi r).

Record memory := mkMemory { regions : list region; byte_at : Z → Z }.

Definition mapped (m : memory) (a : Z) : bool := existsb (in_region a) (regions m).

(** Addresses [a .. a + n - 1]. *)
Definition range (a : Z) (n : Z) : list Z := seqZ a n.

Definition mapped_range (m : memory) (a n : Z) : bool := forallb (mapped m) (range a n).

Lemma in_region_spec a r : in_region a r = true ↔ r_lo r ≤ a < r_hi r.
Proof. unfold in_region. rewrite andb_true_iff, Z.leb_le, Z.ltb_lt. done. Qed.

Lemma mapped_spec m a :
  mapped m a = true ↔ ∃ r, r ∈ regions m ∧ r_lo r ≤ a < r_hi r.
Proof.
  unfold mapped. rewrite existsb_exists. setoid_rewrite in_region_spec.
  by setoid_rewrite list_elem_of_In.
Qed.

Lemma elem_of_range x a n : x ∈ range a n ↔ a ≤ x < a + n.
Proof. apply elem_of_seqZ. Qed.

Lemma length_range a n : length (range a n) = Z.to_nat n.
Proof. apply length_seqZ. Qed.

Lemma range_cons a n : 0 < n → range a n = a :: range (a + 1) (n - 1).
Proof. intros. unfold range. by rewrite seqZ_cons by lia. Qed.

Lemma range_nil a n : n ≤ 0 → range a n = [].
Proof. apply seqZ_nil. Qed.

Lemma range_app a n1 n2 : 0 ≤ n1 → 0 ≤ n2 → range a (n1 + n2) = range a n1 ++ range (a + n1) n2.
Proof. intros. apply seqZ_app; lia. Qed.

Lemma mapped_range_spec m a n :
  mapped_range m a n = true ↔ ∀ x, a ≤ x < a + n → mapped m x = true.
Proof.
  unfold mapped_range. rewrite forallb_forall. setoid_rewrite <-list_elem_of_In.
  by setoid_rewrite elem_of_range.
Qed.

Lemma mapped_regions m m' a : regions m' = regions m → mapped m' a = mapped m a.
Proof. intros Hr. unfold mapped. by rewrite Hr. Qed.

Lemma mapped_range_regions m m' a n : regions m' = regions m → mapped_range m' a n = mapped_range m a n.
Proof. intros Hr. unfold mapped_range, mapped. by rewrite Hr. Qed.

Lemma mapped_range_sub m a n a' n' :
  mapped_range m a n = true → a ≤ a' → a' + n' ≤ a + n → mapped_range m a' n' = true.
Proof. rewrite !mapped_range_spec. intros Hm ?? x Hx. apply Hm. lia. Qed.

(** ** Loads and stores *)

Definition load_byte (m : memory) (a : Z) : outcome Z :=
  if mapped m a then Ok (byte_at m a) else Err Segv.

Definition peek (m : memory) (a n : Z) : list Z := map (byte_at m) (range a n).

Definition load_bytes (m : memory) (a n : Z) : outcome (list Z) :=
  if mapped_range m a n then Ok (peek m a n) else Err Segv.

Definition load_word (m : memory) (n a : Z) : outcome Z :=
  bs ← load_bytes m a n; mret (le_combine bs).
Abbreviation load64 m a := (load_word m 8 a).

(** Overwrite [a ..] with the bytes [bs]. *)
Definition poke (m : memory) (a : Z) (bs : list Z) : memory :=
  {| regions := regions m;
     byte_at := λ x, if (a <=? x) && (x <? a + Z.of_nat (length bs))
                     then nth (Z.to_nat (x - a)) bs 0 else byte_at m x |}.

Definition store_bytes (m : memory) (a : Z) (bs : list Z) : outcome memory :=
  if mapped_range m a (Z.of_nat (length bs)) then Ok (poke m a bs) else Err Segv.

Definition store64 (m : memory) (a v : Z) : outcome memory :=
  store_bytes m a (le_split 8 v).

(** [memcpy] and [memset] of the C library. *)
Definition memcpy (m : memory) (dst src n : Z) : outcome memory :=
  bs ← load_bytes m src n; store_bytes m dst bs.

Definition memset (m : memory) (dst v n : Z) : outcome memory :=
  store_bytes m dst (replicate (Z.to_nat n) v).

(** ** Mappings *)

Definition overlaps (lo hi : Z) (r : region) : bool := (lo <? r_hi r) && (r_lo r <? hi).

(** [m] with the anonymous (zero-filled) mapping [lo .. hi). *)
Definition map_zero (m : memory) (lo len prot : Z) : memory :=
  {| regions := mkRegion lo (lo + len) prot :: regions m;
     byte_at := λ x, if (lo <=? x) && (x <? lo + len) then 0 else byte_at m x |}.

(** [m] with a private mapping of the file contents [bs], zero-filled up to
    the end of its last page. *)
Definition map_bytes (m : memory) (lo len prot : Z) (bs : list Z) : memory :=
  poke (map_zero m lo len prot) lo bs.

(** What is left of a region without the addresses [lo .. hi). *)
Definition cut_region (lo hi : Z) (r : region) : list region :=
  (if r_lo r <? Z.min (r_hi r) lo then [mkRegion (r_lo r) (Z.min (r_hi r) lo) (r_prot r)] else []) ++
  (if Z.max (r_lo r) hi <? r_hi r then [mkRegion (Z.max (r_lo r) hi) (r_hi r) (r_prot r)] else []).

Definition unmap (m : memory) (lo len : Z) : memory :=
  {| regions := concat (map (cut_region lo (lo + len)) (regions m)); byte_at := byte_at m |}.

(** ** Lemmas *)

Lemma in_range_bool a n x : (a <=? x) && (x <? a + n) = bool_decide (a ≤ x < a + n).
Proof. apply eq_bool_prop_intro. rewrite bool_decide_spec, Is_true_true, andb_true_iff, Z.leb_le, Z.ltb_lt. done. Qed.

Lemma nth_lookup_default {A} (l : list A) i d x : l !! i = Some x → nth i l d = x.
Proof. intros. by rewrite <-(nth_lookup_Some l i d x). Qed.

Lemma byte_at_poke_in m a bs i b :
  bs !! i = Some b → byte_at (poke m a bs) (a + Z.of_nat i) = b.
Proof.
  intros Hi. pose proof (lookup_lt_Some _ _ _ Hi). simpl. rewrite in_range_bool, bool_decide_true by lia.
  apply nth_lookup_default. rewrite <-Hi. f_equal. lia.
Qed.

Lemma byte_at_poke_out m a bs x :
  x < a ∨ a + Z.of_nat (length bs) ≤ x → byte_at (poke m a bs) x = byte_at m x.
Proof. intros. simpl. rewrite in_range_bool, bool_decide_false by lia. done. Qed.

Lemma mapped_poke m a bs x : mapped (poke m a bs) x = mapped m x.
Proof. done. Qed.

Lemma mapped_map_zero m lo len prot x :
  mapped (map_zero m lo len prot) x = bool_decide (lo ≤ x < lo + len) || mapped m x.
Proof. unfold mapped, in_region. simpl. by rewrite in_range_bool. Qed.

Lemma mapped_unmap m lo len x :
  0 ≤ len → mapped (unmap m lo len) x = true ↔ mapped m x = true ∧ ¬ (lo ≤ x < lo + len).
Proof.
  intros Hlen. rewrite !mapped_spec. cbn [unmap regions]. setoid_rewrite list_elem_of_In. setoid_rewrite in_concat.
  setoid_rewrite in_map_iff. split.
  - intros (r & (_ & (r0 & <- & Hr0) & Hr) & Hx). cut (r_lo r0 ≤ x < r_hi r0 ∧ ¬ (lo ≤ x < lo + len)); [naive_solver|].
    unfold cut_region in Hr. apply in_app_iff in Hr. destruct Hr as [Hr|Hr].
    + destruct (Z.ltb_spec (r_lo r0) (Z.min (r_hi r0) lo)); [|done]. destruct Hr as [<-|[]]. cbn in Hx. lia.
    + destruct (Z.ltb_spec (Z.max (r_lo r0) (lo + len)) (r_hi r0)); [|done]. destruct Hr as [<-|[]]. cbn in Hx. lia.
  - intros [(r & Hr & Hx) Hout]. destruct (Z.lt_ge_cases x lo) as [Hl|Hl].
    + exists (mkRegion (r_lo r) (Z.min (r_hi r) lo) (r_prot r)). split; [|cbn; lia]. eexists. split; [by exists r|].
      unfold cut_region. apply in_app_iff. left. rewrite (proj2 (Z.ltb_lt _ _)) by lia. by left.
    + exists (mkRegion (Z.max (r_lo r) (lo + len)) (r_hi r) (r_prot r)). split; [|cbn; lia]. eexists. split; [by exists r|].
      unfold cut_region. apply in_app_iff. right. rewrite (proj2 (Z.ltb_lt _ _)) by lia. by left.
Qed.

Lemma byte_at_map_zero_in m lo len prot x :
  lo ≤ x < lo + len → byte_at (map_zero m lo len prot) x = 0.
Proof. intros. simpl. rewrite in_range_bool, bool_decide_true by lia. done. Qed.

Lemma byte_at_map_zero_out m lo len prot x :
  ¬ (lo ≤ x < lo + len) → byte_at (map_zero m lo len prot) x = byte_at m x.
Proof. intros. simpl. rewrite in_range_bool, bool_decide_false by lia. done. Qed.

Lemma length_peek m a n : length (peek m a n) = Z.to_nat n.
Proof. unfold peek. by rewrite length_map, length_range. Qed.

Lemma peek_lookup m a n i :
  (i < Z.to_nat n)%nat → peek m a n !! i = Some (byte_at m (a + Z.of_nat i)).
Proof.
  intros. unfold peek. rewrite list_lookup_fmap. unfold range. rewrite lookup_seqZ_lt by lia. done.
Qed.

Lemma peek_ext m1 m2 a n :
  (∀ x, a ≤ x < a + n → byte_at m1 x = byte_at m2 x) → peek m1 a n = peek m2 a n.
Proof.
  intros Heq. unfold peek. apply map_ext_in. intros x Hx%list_elem_of_In.
  apply Heq. by apply elem_of_range.
Qed.

Lemma peek_poke_same m a bs : peek (poke m a bs) a (Z.of_nat (length bs)) = bs.
Proof.
  apply list_eq. intros i. destruct (bs !! i) as [b|] eqn:E.
  - pose proof (lookup_lt_Some _ _ _ E). rewrite peek_lookup by lia.
    f_equal. by apply byte_at_poke_in.
  - apply lookup_ge_None in E. apply lookup_ge_None. rewrite length_peek. lia.
Qed.

Lemma peek_poke_len m a bs n : Z.of_nat (length bs) = n → peek (poke m a bs) a n = bs.
Proof. intros <-. apply peek_poke_same. Qed.

Lemma peek_poke_other m a bs b n :
  b + n ≤ a ∨ a + Z.of_nat (length bs) ≤ b → peek (poke m a bs) b n = peek m b n.
Proof. intros. apply peek_ext. intros. apply byte_at_poke_out. lia. Qed.

Lemma load_bytes_ok m a n bs :
  load_bytes m a n = Ok bs ↔ mapped_range m a n = true ∧ bs = peek m a n.
Proof. unfold load_bytes. destruct (mapped_range _ _ _); split; intros; destruct_and?; simplify_eq; auto. Qed.

Lemma store_bytes_ok m a bs m' :
  store_bytes m a bs = Ok m' ↔ mapped_range m a (Z.of_nat (length bs)) = true ∧ m' = poke m a bs.
Proof. unfold store_bytes. destruct (mapped_range _ _ _); split; intros; destruct_and?; simplify_eq; auto. Qed.

Lemma store64_ok m a v m' :
  store64 m a v = Ok m' ↔ mapped_range m a 8 = true ∧ m' = poke m a (le_split 8 v).
Proof. unfold store64. by rewrite store_bytes_ok, le_split_length. Qed.

Lemma memcpy_ok m dst src n m' :
  memcpy m dst src n = Ok m' ↔
  mapped_range m src n = true ∧ mapped_range m dst (Z.of_nat (Z.to_nat n)) = true ∧
  m' = poke m dst (peek m src n).
Proof.
  unfold memcpy. rewrite outcome_bind_ok. setoid_rewrite load_bytes_ok.
  setoid_rewrite store_bytes_ok. split.
  - intros (bs & [? ->] & ? & ->). by rewrite length_peek in *.
  - intros (? & ? & ->). exists (peek m src n). by rewrite length_peek.
Qed.

Lemma memset_ok m dst v n m' :
  memset m dst v n = Ok m' ↔
  mapped_range m dst (Z.of_nat (Z.to_nat n)) = true ∧ m' = poke m dst (replicate (Z.to_nat n) v).
Proof. unfold memset. by rewrite store_bytes_ok, length_replicate. Qed.

(** A word that was stored is loaded back. *)
Lemma load64_poke_same m a v :
  mapped_range m a 8 = true → word64 v → load64 (poke m a (le_split 8 v)) a = Ok v.
Proof.
  intros Hm Hv. unfold load_word, load_bytes.
  change (mapped_range (poke m a (le_split 8 v)) a 8) with (mapped_range m a 8).
  rewrite Hm. unfold mbind, outcome_bind, mret, outcome_ret.
  pose proof (peek_poke_same m a (le_split 8 v)) as E. rewrite le_split_length in E.
  change (Z.of_nat 8) with 8 in E. by rewrite E, le_combine_split64.
Qed.

Lemma load_word_poke_other m a bs n b :
  b + n ≤ a ∨ a + Z.of_nat (length bs) ≤ b → load_word (poke m a bs) n b = load_word m n b.
Proof.
  intros. unfold load_word, load_bytes. rewrite peek_poke_other by done.
  by change (mapped_range (poke m a bs) b n) with (mapped_range m b n).
Qed.

(** ** Equivalence of memories

    Two memories are equivalent when they have the same regions and agree on
    every mapped byte; the bytes outside are not observable. *)

#[export] Instance memory_equiv : Equiv memory := λ m1 m2,
  regions m1 = regions m2 ∧ ∀ a, mapped m1 a = true → byte_at m1 a = byte_at m2 a.

Lemma mapped_equiv (m1 m2 : memory) a : m1 ≡ m2 → mapped m1 a = mapped m2 a.
Proof. intros [Hr _]. unfold mapped. by rewrite Hr. Qed.

#[export] Instance memory_equivalence : Equivalence (≡@{memory}).
Proof.
  split.
  - intros m. by split.
  - intros m1 m2 H. split; [by destruct H|]. intros a Ha. symmetry. apply H.
    by rewrite (mapped_equiv _ _ a H).
  - intros m1 m2 m3 H1 H2. split; [destruct H1, H2; congruence|]. intros a Ha.
    destruct H1 as [Hr H1], H2 as [_ H2]. rewrite H1 by done. apply H2.
    by rewrite <-(mapped_equiv m1) by by split.
Qed.

#[export] Instance mapped_proper : Proper ((≡) ==> (=) ==> (=)) mapped.
Proof. intros m1 m2 H a ? <-. by apply mapped_equiv. Qed.

#[export] Instance mapped_range_proper : Proper ((≡) ==> (=) ==> (=) ==> (=)) mapped_range.
Proof.
  intros m1 m2 H a ? <- n ? <-. apply eq_bool_prop_intro. rewrite !Is_true_true, !mapped_range_spec.
  by setoid_rewrite H.
Qed.

#[export] Instance load_bytes_proper : Proper ((≡) ==> (=) ==> (=) ==> (=)) load_bytes.
Proof.
  intros m1 m2 H a ? <- n ? <-. unfold load_bytes. rewrite <-H.
  destruct (mapped_range m1 a n) eqn:E; [|done]. f_equal. apply peek_ext. intros x Hx.
  apply H. by eapply mapped_range_spec.
Qed.

#[export] Instance load_word_proper : Proper ((≡) ==> (=) ==> (=) ==> (=)) load_word.
Proof. intros m1 m2 H n ? <- a ? <-. unfold load_word. by rewrite H. Qed.

#[export] Instance poke_proper : Proper ((≡) ==> (=) ==> (=) ==> (≡)) poke.
Proof.
  intros m1 m2 H a ? <- bs ? <-. split; [apply H|]. intros x Hx. simpl.
  destruct ((a <=? x) && (x <? a + Z.of_nat (length bs))); [done|]. by apply H.
Qed.

(** Stores to disjoint ranges commute. *)
Lemma poke_comm m a1 bs1 a2 bs2 :
  a1 + Z.of_nat (length bs1) ≤ a2 ∨ a2 + Z.of_nat (length bs2) ≤ a1 →
  poke (poke m a1 bs1) a2 bs2 ≡ poke (poke m a2 bs2) a1 bs1.
Proof.
  intros Hd. split; [done|]. intros x _. simpl. rewrite !in_range_bool.
  repeat case_bool_decide; first [done|lia].
Qed.

(** ** Size of the mapped part

    Used as the variant of the loops that walk over memory: they visit
    distinct mapped addresses, of which there are at most this many. *)

Definition region_size (r : region) : Z := Z.max 0 (r_hi r - r_lo r).
Definition mem_size (m : memory) : Z := foldr Z.add 0 (map region_size (regions m)).

Lemma mem_size_nonneg m : 0 ≤ mem_size m.
Proof. unfold mem_size, region_size. induction (regions m); simpl; lia. Qed.

(** The addresses of some regions. *)
Definition addresses (rs : list region) : list Z :=
  concat (map (λ r, range (r_lo r) (r_hi r - r_lo r)) rs).

Lemma length_addresses rs :
  Z.of_nat (length (addresses rs)) = foldr Z.add 0 (map region_size rs).
Proof.
  unfold addresses, region_size. induction rs as [|r rs IH]; simpl; [done|].
  rewrite length_app, length_range, Nat2Z.inj_add, IH. lia.
Qed.

Lemma elem_of_addresses x rs : x ∈ addresses rs ↔ ∃ r, r ∈ rs ∧ r_lo r ≤ x < r_hi r.
Proof.
  unfold addresses. rewrite list_elem_of_In, in_concat. split.
  - intros (l & (r & <- & Hr)%in_map_iff & Hx). exists r. apply list_elem_of_In in Hr, Hx.
    apply elem_of_range in Hx. split; [done|lia].
  - intros (r & Hr & Hx). exists (range (r_lo r) (r_hi r - r_lo r)). split.
    + apply in_map_iff. exists r. by rewrite <-list_elem_of_In.
    + apply list_elem_of_In, elem_of_range. lia.
Qed.

Lemma NoDup_length_le (l l' : list Z) : NoDup l → l ⊆ l' → (length l ≤ length l')%nat.
Proof.
  intros Hnd Hsub. apply NoDup_incl_length; [by apply NoDup_ListNoDup|].
  intros x Hx. apply list_elem_of_In, Hsub. by apply list_elem_of_In.
Qed.

(** Distinct mapped addresses are at most as many as there are mapped bytes. *)
Lemma mapped_NoDup_size m l :
  NoDup l → (∀ x, x ∈ l → mapped m x = true) → Z.of_nat (length l) ≤ mem_size m.
Proof.
  intros Hnd Hm. unfold mem_size. rewrite <-length_addresses. apply Nat2Z.inj_le, NoDup_length_le; [done|].
  intros x Hx. by apply elem_of_addresses, mapped_spec, Hm.
Qed.

Lemma mapped_range_size m a n :
  mapped_range m a n = true → n ≤ mem_size m.
Proof.
  intros Hm. rewrite mapped_range_spec in Hm.
  assert (Z.of_nat (length (range a n)) ≤ mem_size m) as Hle.
  { apply mapped_NoDup_size; [apply NoDup_seqZ|]. by intros x ?%elem_of_range; apply Hm. }
  rewrite length_range in Hle. lia.
Qed.

(** ** Well-formed address spaces

    Mappings do not overlap, and all of them lie in the lower half of the
    canonical addresses, so there are at most [2 ^ 47] mapped bytes. *)

Definition disjoint_regions (rs : list region) : Prop :=
  ∀ i j r1 r2, rs !! i = Some r1 → rs !! j = Some r2 → i ≠ j →
  overlaps (r_lo r1) (r_hi r1) r2 = false.

Lemma overlaps_false_range lo hi r x :
  overlaps lo hi r = false → r_lo r ≤ x < r_hi r → ¬ (lo ≤ x < hi).
Proof. unfold overlaps. rewrite andb_false_iff, !Z.ltb_ge. lia. Qed.

Lemma overlaps_sym r1 r2 : overlaps (r_lo r1) (r_hi r1) r2 = overlaps (r_lo r2) (r_hi r2) r1.
Proof. unfold overlaps. apply andb_comm. Qed.

Lemma disjoint_regions_cons r rs :
  (∀ r', r' ∈ rs → overlaps (r_lo r) (r_hi r) r' = false) →
  disjoint_regions rs → disjoint_regions (r :: rs).
Proof.
  intros Hr Hrs [|i] [|j] r1 r2 H1 H2 Hij; simplify_eq/=.
  - apply Hr. by eapply list_elem_of_lookup_2.
  - rewrite overlaps_sym. apply Hr. by eapply list_elem_of_lookup_2.
  - eapply Hrs; eauto.
Qed.

Lemma disjoint_regions_inv r rs :
  disjoint_regions (r :: rs) →
  disjoint_regions rs ∧ ∀ r', r' ∈ rs → overlaps (r_lo r) (r_hi r) r' = false.
Proof.
  intros Hd. split.
  - intros i j r1 r2 H1 H2 Hij. apply (Hd (S i) (S j) r1 r2); [done..|lia].
  - intros r' [j Hj]%list_elem_of_lookup. by apply (Hd 0%nat (S j) r r').
Qed.

Lemma disjoint_regions_app rs1 rs2 :
  disjoint_regions (rs1 ++ rs2) ↔
  disjoint_regions rs1 ∧ disjoint_regions rs2 ∧
  ∀ r1 r2, r1 ∈ rs1 → r2 ∈ rs2 → overlaps (r_lo r1) (r_hi r1) r2 = false.
Proof.
  induction rs1 as [|r rs1 IH]; cbn [app].
  { split; [intros Hd; split_and!; [intros [|?] ????; done|done|set_solver]|by intros (_ & ? & _)]. }
  split.
  - intros [(Hd1 & Hd2 & Hx)%IH Hr]%disjoint_regions_inv. split_and!; [|done|].
    + apply disjoint_regions_cons; [|done]. set_solver.
    + intros r1 r2 [->|Hr1]%elem_of_cons Hr2; [set_solver|by apply Hx].
  - intros ([Hd1 Hr]%disjoint_regions_inv & Hd2 & Hx). apply disjoint_regions_cons; [|apply IH; set_solver].
    intros r' [Hr'|Hr']%elem_of_app; [by apply Hr|by apply Hx; [left|]].
Qed.

Lemma disjoint_addresses rs : disjoint_regions rs → NoDup (addresses rs).
Proof.
  induction rs as [|r rs IH]; intros Hd; [constructor|].
  apply disjoint_regions_inv in Hd as [Hd Hr]. unfold addresses. cbn [map concat]. apply NoDup_app.
  split_and!; [apply NoDup_seqZ| |by apply IH].
  intros x Hx%elem_of_range (r' & Hr' & Hx')%elem_of_addresses.
  eapply overlaps_false_range; [by apply Hr|exact Hx'|lia].
Qed.

Record mem_ok (m : memory) : Prop := {
  mem_ok_disjoint : disjoint_regions (regions m);
  mem_ok_user : Forall (λ r, 0 ≤ r_lo r ∧ r_hi r ≤ 2 ^ 47) (regions m)
}.

Lemma mem_ok_size m : mem_ok m → mem_size m ≤ 2 ^ 47.
Proof.
  intros [Hd Hu]. unfold mem_size. rewrite <-length_addresses.
  assert (length (addresses (regions m)) ≤ length (range 0 (2 ^ 47)))%nat as Hle.
  { apply NoDup_length_le; [by apply disjoint_addresses|].
    intros x (r & Hr & Hx)%elem_of_addresses. rewrite Forall_forall in Hu.
    specialize (Hu r Hr). apply elem_of_range. lia. }
  rewrite length_range in Hle. apply Nat2Z.inj_le in Hle. by rewrite Z2Nat.id in Hle by lia.
Qed.

(** ** Memories that differ in a set of addresses *)

(** [m] is [m0] but for writes inside [W]. *)
Definition agree_off (W : Z → Prop) (m0 m : memory) : Prop :=
  regions m = regions m0 ∧ ∀ x, ¬ W x → byte_at m x = byte_at m0 x.

#[export] Instance agree_off_preorder W : PreOrder (agree_off W).
Proof. split; [by intros m|]. intros m1 m2 m3 [? H1] [? H2]. split; [congruence|]. intros x Hx. by rewrite H2, H1. Qed.

Lemma agree_off_weaken (W W' : Z → Prop) m m' : agree_off W m m' → (∀ x, W x → W' x) → agree_off W' m m'.
Proof. intros [Hr Hb] HW. split; [done|]. intros x Hx. apply Hb. auto. Qed.

Lemma agree_off_poke (W : Z → Prop) m a bs :
  (∀ x, a ≤ x < a + Z.of_nat (length bs) → W x) → agree_off W m (poke m a bs).
Proof.
  intros HW. split; [done|]. intros x Hx. apply byte_at_poke_out.
  destruct (decide (a ≤ x < a + Z.of_nat (length bs))); [by destruct Hx; apply HW|lia].
Qed.

Lemma agree_off_poke_r (W : Z → Prop) m0 m a bs :
  agree_off W m0 m → (∀ x, a ≤ x < a + Z.of_nat (length bs) → W x) → agree_off W m0 (poke m a bs).
Proof. intros. transitivity m; [done|]. by apply agree_off_poke. Qed.

Lemma load64_poke_split m a v :
  mapped_range m a 8 = true → load64 (poke m a (le_split 8 v)) a = Ok (wrap64 v).
Proof.
  intros Hm. unfold load_word, load_bytes.
  change (mapped_range (poke m a (le_split 8 v)) a 8) with (mapped_range m a 8). rewrite Hm.
  rewrite peek_poke_len by by rewrite le_split_length. cbn [mbind outcome_bind mret outcome_ret].
  by rewrite le_combine_split.
Qed.

Lemma load64_agree (W : Z → Prop) m m' a v :
  agree_off W m m' → (∀ x, a ≤ x < a + 8 → ¬ W x) → load64 m a = Ok v → load64 m' a = Ok v.
Proof.
  intros [Hr Hb] HW. unfold load_word, load_bytes.
  replace (mapped_range m' a 8) with (mapped_range m a 8) by (unfold mapped_range, mapped; by rewrite Hr).
  destruct (mapped_range m a 8); [|done]. rewrite (peek_ext m' m a 8); [done|]. intros x Hx. by apply Hb, HW.
Qed.

(** ** Bytes stay bytes *)

Definition bytes_ok (m : memory) : Prop := ∀ x, byte (byte_at m x).

Lemma bytes_ok_peek m a n : bytes_ok m → Forall byte (peek m a n).
Proof. intros Hm. unfold peek. apply Forall_fmap, Forall_forall. intros x _. apply Hm. Qed.

Lemma bytes_ok_poke m a bs : bytes_ok m → Forall byte bs → bytes_ok (poke m a bs).
Proof.
  intros Hm Hbs x. cbn. destruct (_ && _); [|apply Hm].
  destruct (nth_in_or_default (Z.to_nat (x - a)) bs 0) as [Hin | ->]; [|by unfold byte].
  rewrite <-list_elem_of_In in Hin. rewrite Forall_forall in Hbs. by apply Hbs.
Qed.

Lemma bytes_ok_map_zero m lo len prot : bytes_ok m → bytes_ok (map_zero m lo len prot).
Proof. intros Hm x. cbn. destruct (_ && _); [by unfold byte|apply Hm]. Qed.

Lemma bytes_ok_map_bytes m lo len prot bs :
  bytes_ok m → Forall byte bs → bytes_ok (map_bytes m lo len prot bs).
Proof. intros Hm Hbs. apply bytes_ok_poke; [by apply bytes_ok_map_zero|done]. Qed.

Lemma load_bytes_bytes m a n bs :
  bytes_ok m → load_bytes m a n = Ok bs → Forall byte bs ∧ Z.of_nat (length bs) = Z.max 0 n.
Proof.
  intros Hm [_ ->]%load_bytes_ok. split; [by apply bytes_ok_peek|]. rewrite length_peek. lia.
Qed.

#[export] Hint Resolve bytes_ok_peek bytes_ok_poke bytes_ok_map_zero bytes_ok_map_bytes : bytes.
