(* ===== verification/Digits.v ===== *)
(** * Positional notation

    The digits of a non-negative integer in a base, as the iostream manipulators
    and the [RAW_PRINT_BASE_N] macro print them, and the reading back of them. *)

From S2P Require Import Prelude.

(** Least significant digit first; never empty. *)
Fixpoint digits_go (fuel : nat) (base n : Z) : list Z :=
  match fuel with
  | O => []
  | S fuel => n mod base :: (if n / base =? 0 then [] else digits_go fuel base (n / base))
  end.

(** [log2 n + 1] digits are enough in every base from two up. *)
Definition digits (base n : Z) : list Z := digits_go (S (Z.to_nat (Z.log2 n))) base n.

Fixpoint of_digits (base : Z) (ds : list Z) : Z :=
  match ds with [] => 0 | d :: ds => d + base * of_digits base ds end.

Lemma digits_go_value fuel base n :
  2 ≤ base → 0 ≤ n < 2 ^ Z.of_nat fuel → (0 < fuel)%nat →
  of_digits base (digits_go fuel base n) = n.
Proof.
  intros Hb. revert n. induction fuel as [|fuel IH]; intros n Hn Hf; [lia|]. simpl.
  assert (n = n mod base + base * (n / base)) as Hdm by (pose proof (Z.div_mod n base); lia).
  destruct (Z.eqb_spec (n / base) 0) as [E|E]; simpl; [lia|].
  assert (Hlt : n / base < 2 ^ Z.of_nat fuel).
  { apply Z.div_lt_upper_bound; [lia|]. rewrite Nat2Z.inj_succ, Z.pow_succ_r in Hn by lia. nia. }
  assert (0 ≤ n / base) by (apply Z.div_pos; lia).
  rewrite IH; [lia|lia|]. destruct fuel; [|lia]. simpl in Hlt. lia.
Qed.

Lemma log2_fuel n : 0 ≤ n → n < 2 ^ Z.of_nat (S (Z.to_nat (Z.log2 n))).
Proof.
  intros Hn. pose proof (Z.log2_nonneg n).
  replace (Z.of_nat _) with (Z.succ (Z.log2 n)) by lia.
  destruct (Z.eq_dec n 0) as [->|]; [done|]. apply Z.log2_spec. lia.
Qed.

Lemma of_digits_digits base n : 2 ≤ base → 0 ≤ n → of_digits base (digits base n) = n.
Proof. intros. apply digits_go_value; [done| |lia]. split; [done|by apply log2_fuel]. Qed.

Lemma digits_go_bound fuel base n :
  0 < base → Forall (λ d, 0 ≤ d < base) (digits_go fuel base n).
Proof.
  intros Hb. revert n. induction fuel as [|fuel IH]; intros n; simpl; constructor.
  - by apply Z.mod_pos_bound.
  - destruct (_ =? _); [constructor|apply IH].
Qed.

Lemma digits_bound base n : 0 < base → Forall (λ d, 0 ≤ d < base) (digits base n).
Proof. apply digits_go_bound. Qed.

Lemma digits_go_length fuel base n k :
  2 ≤ base → 0 ≤ n < base ^ Z.of_nat k → (0 < k)%nat → (length (digits_go fuel base n) ≤ k)%nat.
Proof.
  intros Hb. revert n k. induction fuel as [|fuel IH]; intros n k Hn Hk; simpl; [lia|].
  destruct (Z.eqb_spec (n / base) 0) as [E|E]; simpl; [lia|].
  destruct k as [|k]; [lia|]. apply le_n_S.
  assert (Hlt : n / base < base ^ Z.of_nat k).
  { apply Z.div_lt_upper_bound; [lia|]. rewrite Nat2Z.inj_succ, Z.pow_succ_r in Hn by lia. lia. }
  assert (0 ≤ n / base) by (apply Z.div_pos; lia).
  apply IH; [lia|]. destruct k; [|lia]. simpl in Hlt. lia.
Qed.

Lemma digits_go_fuel f1 f2 base n :
  2 ≤ base → 0 ≤ n < 2 ^ Z.of_nat f1 → n < 2 ^ Z.of_nat f2 → (0 < f1)%nat → (0 < f2)%nat →
  digits_go f1 base n = digits_go f2 base n.
Proof.
  intros Hb. revert f2 n. induction f1 as [|f1 IH]; intros [|f2] n Hn1 Hn2 H1 H2; [lia..|]. cbn [digits_go].
  f_equal. destruct (Z.eqb_spec (n / base) 0) as [E|E]; [done|]. assert (0 ≤ n / base) by (apply Z.div_pos; lia).
  rewrite !Nat2Z.inj_succ, !Z.pow_succ_r in * by lia.
  assert (n / base < 2 ^ Z.of_nat f1) by (apply Z.div_lt_upper_bound; nia).
  assert (n / base < 2 ^ Z.of_nat f2) by (apply Z.div_lt_upper_bound; nia).
  apply IH; [lia|lia| |]; (destruct f1, f2; cbn in *; lia).
Qed.

(** The least significant digit comes off. *)
Lemma digits_unfold base n :
  2 ≤ base → 0 ≤ n →
  digits base n = n mod base :: (if n / base =? 0 then [] else digits base (n / base)).
Proof.
  intros Hb Hn. unfold digits at 1. cbn [digits_go]. f_equal. destruct (Z.eqb_spec (n / base) 0) as [E|E]; [done|].
  assert (0 ≤ n / base) by (apply Z.div_pos; lia). pose proof (log2_fuel (n / base) ltac:(done)).
  assert (2 ≤ n) by (destruct (Z.lt_ge_cases n base); [rewrite Z.div_small in E by lia; lia|lia]).
  pose proof (Z.log2_pos n ltac:(lia)).
  unfold digits. apply digits_go_fuel; [done| |done|lia|lia]. split; [done|]. rewrite Z2Nat.id by lia.
  apply Z.div_lt_upper_bound; [lia|]. pose proof (Z.log2_spec n ltac:(lia)) as [_ Hs].
  rewrite Z.pow_succ_r in Hs by lia. assert (0 < 2 ^ Z.log2 n) by lia. nia.
Qed.

(** A number below [base ^ k] has at most [k] digits. *)
Lemma digits_length base n k :
  2 ≤ base → 0 ≤ n < base ^ Z.of_nat k → (0 < k)%nat → (length (digits base n) ≤ k)%nat.
Proof. apply digits_go_length. Qed.

Lemma digits_nonempty base n : (0 < length (digits base n))%nat.
Proof. unfold digits. simpl. lia. Qed.

Lemma of_digits_app base ds1 ds2 :
  of_digits base (ds1 ++ ds2) = of_digits base ds1 + base ^ Z.of_nat (length ds1) * of_digits base ds2.
Proof.
  induction ds1 as [|d ds1 IH]; [simpl; lia|]. cbn [app of_digits length].
  rewrite IH, Nat2Z.inj_succ, Z.pow_succ_r by lia. lia.
Qed.

Lemma of_digits_zeros base n : of_digits base (replicate n 0) = 0.
Proof. induction n; simpl; lia. Qed.

Lemma of_digits_pad base ds n : of_digits base (ds ++ replicate n 0) = of_digits base ds.
Proof. rewrite of_digits_app, of_digits_zeros. lia. Qed.

(** ** Characters *)

Definition char_of (z : Z) : ascii := ascii_of_N (Z.to_N z).
Definition char_code (c : ascii) : Z := Z.of_N (N_of_ascii c).

(** Digit characters, with the letters from ten up starting at [letter]. *)
Definition digit_char (letter : ascii) (d : Z) : ascii :=
  if d <? 10 then char_of (48 + d) else char_of (char_code letter + (d - 10)).

Definition digit_value (c : ascii) : option Z :=
  let z := char_code c in
  if (48 <=? z) && (z <=? 57) then Some (z - 48)
  else if (65 <=? z) && (z <=? 70) then Some (z - 55)
  else if (97 <=? z) && (z <=? 102) then Some (z - 87)
  else None.

Lemma char_code_of z : 0 ≤ z < 256 → char_code (char_of z) = z.
Proof.
  intros. unfold char_code, char_of. rewrite N_ascii_embedding; [lia|]. lia.
Qed.

Lemma digit_value_char letter d :
  letter = "A"%char ∨ letter = "a"%char → 0 ≤ d < 16 →
  digit_value (digit_char letter d) = Some d.
Proof.
  intros Hl Hd.
  assert (d ∈ seqZ 0 16) as Hin by (apply elem_of_seqZ; lia). clear Hd.
  destruct Hl as [-> | ->];
    repeat (apply elem_of_cons in Hin as [-> | Hin]; [reflexivity|]);
    by apply elem_of_nil in Hin.
Qed.

(** ** Strings of digits, most significant first *)

Fixpoint string_of_list (l : list ascii) : string :=
  match l with [] => EmptyString | c :: l => String c (string_of_list l) end.
Fixpoint list_of_string (s : string) : list ascii :=
  match s with EmptyString => [] | String c s => c :: list_of_string s end.

Lemma list_of_string_of_list l : list_of_string (string_of_list l) = l.
Proof. induction l; simpl; by f_equal. Qed.

Lemma string_of_list_of_string s : string_of_list (list_of_string s) = s.
Proof. induction s; simpl; by f_equal. Qed.

Lemma list_of_string_app s1 s2 :
  list_of_string (s1 +:+ s2) = list_of_string s1 ++ list_of_string s2.
Proof. induction s1; simpl; by f_equal. Qed.

Lemma length_string_of_list l : String.length (string_of_list l) = length l.
Proof. induction l as [|c l IH]; cbn; [done|]. by rewrite IH. Qed.

Lemma string_of_list_app l1 l2 :
  string_of_list (l1 ++ l2) = string_of_list l1 +:+ string_of_list l2.
Proof. induction l1 as [|c l1 IH]; simpl; [done|]. by rewrite IH. Qed.

Lemma length_list_of_string s : length (list_of_string s) = String.length s.
Proof. induction s; simpl; auto. Qed.

Definition print_digits (letter : ascii) (ds : list Z) : string :=
  string_of_list (map (digit_char letter) (rev ds)).

(** Reading a string of digits back. *)
Definition read_digits (base : Z) (s : string) : option Z :=
  (λ ds, of_digits base (rev ds)) <$> mapM digit_value (list_of_string s).

Lemma mapM_digit_value letter ds :
  letter = "A"%char ∨ letter = "a"%char → Forall (λ d, 0 ≤ d < 16) ds →
  mapM digit_value (map (digit_char letter) ds) = Some ds.
Proof.
  intros Hl. induction 1 as [|d ds Hd _ IH]; [done|].
  cbn. rewrite digit_value_char by done. cbn. cbn in IH. by rewrite IH.
Qed.

Lemma read_print_digits base letter ds :
  letter = "A"%char ∨ letter = "a"%char → Forall (λ d, 0 ≤ d < 16) ds →
  read_digits base (print_digits letter ds) = Some (of_digits base ds).
Proof.
  intros Hl Hds. unfold read_digits, print_digits. rewrite list_of_string_of_list.
  rewrite mapM_digit_value; [|done|by apply Forall_rev]. cbn. by rewrite rev_involutive.
Qed.
