(* ===== verification/Elf.v ===== *)
(** * ELF64 data structures

    The records of [<elf.h>] the loader copies out of memory, with their layout
    on x86-64, and the macros it applies to their fields. *)

From S2P Require Import Prelude Memory Digits.

(** ** Constants *)

Definition ET_EXEC := 2.
Definition ET_DYN := 3.

Definition PT_LOAD := 1.
Definition PT_DYNAMIC := 2.
Definition PT_TLS := 7.
Definition PF_X := 1.
Definition PF_W := 2.
Definition PF_R := 4.

Definition DT_NEEDED := 1.
Definition DT_PLTRELSZ := 2.
Definition DT_STRTAB := 5.
Definition DT_SYMTAB := 6.
Definition DT_RELA := 7.
Definition DT_RELASZ := 8.
Definition DT_RELAENT := 9.
Definition DT_STRSZ := 10.
Definition DT_SYMENT := 11.
Definition DT_INIT := 12.
Definition DT_FINI := 13.
Definition DT_RPATH := 15.
Definition DT_REL := 17.
Definition DT_PLTREL := 20.
Definition DT_JMPREL := 23.
Definition DT_INIT_ARRAY := 25.
Definition DT_FINI_ARRAY := 26.
Definition DT_INIT_ARRAYSZ := 27.
Definition DT_FINI_ARRAYSZ := 28.
Definition DT_RUNPATH := 29.
Definition DT_RELACOUNT := 0x6ffffff9.

Definition SHN_UNDEF := 0.
Definition STB_WEAK := 2.
Definition STT_TLS := 6.

Definition R_X86_64_64 := 1.
Definition R_X86_64_COPY := 5.
Definition R_X86_64_GLOB_DAT := 6.
Definition R_X86_64_JUMP_SLOT := 7.
Definition R_X86_64_RELATIVE := 8.
Definition R_X86_64_DTPMOD64 := 16.
Definition R_X86_64_DTPOFF64 := 17.
Definition R_X86_64_TPOFF64 := 18.
Definition R_X86_64_IRELATIVE := 37.

Definition PROT_READ := 1.
Definition PROT_WRITE := 2.
Definition PROT_EXEC := 4.

(** ** Records *)

Record Elf64_Ehdr := mkEhdr {
  e_type : Z; e_entry : Z; e_phoff : Z; e_phentsize : Z; e_phnum : Z }.

Record Elf64_Phdr := mkPhdr {
  p_type : Z; p_flags : Z; p_offset : Z; p_vaddr : Z;
  p_paddr : Z; p_filesz : Z; p_memsz : Z; p_align : Z }.

Record Elf64_Dyn := mkDyn { d_tag : Z; d_un : Z }.

(** [r_addend] is signed in C; it is kept as its unsigned 64-bit image, which
    is what every use of it (address arithmetic, hexadecimal output) sees. *)
Record Elf64_Rela := mkRela { r_offset : Z; r_info : Z; r_addend : Z }.

Record Elf64_Sym := mkSym {
  st_name : Z; st_info : Z; st_other : Z; st_shndx : Z; st_value : Z; st_size : Z }.

#[export] Instance Elf64_Ehdr_eq_dec : EqDecision Elf64_Ehdr.
Proof. solve_decision. Defined.
#[export] Instance Elf64_Phdr_eq_dec : EqDecision Elf64_Phdr.
Proof. solve_decision. Defined.
#[export] Instance Elf64_Rela_eq_dec : EqDecision Elf64_Rela.
Proof. solve_decision. Defined.
#[export] Instance Elf64_Sym_eq_dec : EqDecision Elf64_Sym.
Proof. solve_decision. Defined.

Definition ELF64_R_SYM (i : Z) : Z := Z.shiftr i 32.
Definition ELF64_R_TYPE (i : Z) : Z := Z.land i 0xffffffff.
Definition ELF64_ST_BIND (i : Z) : Z := Z.shiftr i 4.
Definition ELF64_ST_TYPE (i : Z) : Z := Z.land i 0xf.

(** ** Reading them from memory *)

Definition field (bs : list Z) (off n : nat) : Z := le_combine (take n (drop off bs)).

Definition sizeof_Ehdr := 64.
Definition sizeof_Phdr := 56.
Definition sizeof_Dyn := 16.
Definition sizeof_Rela := 24.
Definition sizeof_Rel := 16.
Definition sizeof_Sym := 24.

Definition parse_ehdr (bs : list Z) : Elf64_Ehdr :=
  {| e_type := field bs 16 2; e_entry := field bs 24 8; e_phoff := field bs 32 8;
     e_phentsize := field bs 54 2; e_phnum := field bs 56 2 |}.

Definition parse_phdr (bs : list Z) : Elf64_Phdr :=
  {| p_type := field bs 0 4; p_flags := field bs 4 4; p_offset := field bs 8 8;
     p_vaddr := field bs 16 8; p_paddr := field bs 24 8; p_filesz := field bs 32 8;
     p_memsz := field bs 40 8; p_align := field bs 48 8 |}.

Definition parse_dyn (bs : list Z) : Elf64_Dyn :=
  {| d_tag := field bs 0 8; d_un := field bs 8 8 |}.

Definition parse_rela (bs : list Z) : Elf64_Rela :=
  {| r_offset := field bs 0 8; r_info := field bs 8 8; r_addend := field bs 16 8 |}.

Definition parse_sym (bs : list Z) : Elf64_Sym :=
  {| st_name := field bs 0 4; st_info := field bs 4 1; st_other := field bs 5 1;
     st_shndx := field bs 6 2; st_value := field bs 8 8; st_size := field bs 16 8 |}.

Definition read_ehdr (m : memory) (a : Z) : outcome Elf64_Ehdr :=
  bs ← load_bytes m a sizeof_Ehdr; mret (parse_ehdr bs).
Definition read_phdr (m : memory) (a : Z) : outcome Elf64_Phdr :=
  bs ← load_bytes m a sizeof_Phdr; mret (parse_phdr bs).
Definition read_dyn (m : memory) (a : Z) : outcome Elf64_Dyn :=
  bs ← load_bytes m a sizeof_Dyn; mret (parse_dyn bs).
Definition read_rela (m : memory) (a : Z) : outcome Elf64_Rela :=
  bs ← load_bytes m a sizeof_Rela; mret (parse_rela bs).
Definition read_sym (m : memory) (a : Z) : outcome Elf64_Sym :=
  bs ← load_bytes m a sizeof_Sym; mret (parse_sym bs).

(** Writing them, for building images. *)
Definition encode_phdr (p : Elf64_Phdr) : list Z :=
  le_split 4 (p_type p) ++ le_split 4 (p_flags p) ++ le_split 8 (p_offset p) ++
  le_split 8 (p_vaddr p) ++ le_split 8 (p_paddr p) ++ le_split 8 (p_filesz p) ++
  le_split 8 (p_memsz p) ++ le_split 8 (p_align p).
Definition encode_dyn (d : Elf64_Dyn) : list Z := le_split 8 (d_tag d) ++ le_split 8 (d_un d).
Definition encode_rela (r : Elf64_Rela) : list Z :=
  le_split 8 (r_offset r) ++ le_split 8 (r_info r) ++ le_split 8 (r_addend r).
Definition encode_sym (s : Elf64_Sym) : list Z :=
  le_split 4 (st_name s) ++ le_split 1 (st_info s) ++ le_split 1 (st_other s) ++
  le_split 2 (st_shndx s) ++ le_split 8 (st_value s) ++ le_split 8 (st_size s).
Definition encode_ehdr (h : Elf64_Ehdr) : list Z :=
  [127; 69; 76; 70; 2; 1; 1; 0; 0; 0; 0; 0; 0; 0; 0; 0] ++
  le_split 2 (e_type h) ++ le_split 2 62 ++ le_split 4 1 ++ le_split 8 (e_entry h) ++
  le_split 8 (e_phoff h) ++ le_split 8 0 ++ le_split 4 0 ++ le_split 2 64 ++
  le_split 2 (e_phentsize h) ++ le_split 2 (e_phnum h) ++ le_split 2 0 ++ le_split 2 0 ++ le_split 2 0.

(** ** C strings

    The constructor of [std::string] from a C string: the bytes up to the terminating zero. *)

Definition cstr_step (m : memory) (st : Z * list ascii) : outcome ((Z * list ascii) + string) :=
  b ← load_byte m st.1;
  mret (if b =? 0 then inr (string_of_list (rev st.2)) else inl (st.1 + 1, char_of b :: st.2)).

Definition read_cstr (m : memory) (a : Z) : outcome string := while (cstr_step m) (a, []).

(** A NUL-terminated string [s] lies at [a]. *)
Definition cstr_at (m : memory) (a : Z) (s : string) : Prop :=
  mapped_range m a (Z.of_nat (S (String.length s))) = true ∧
  (∀ i c, list_of_string s !! i = Some c →
     byte_at m (a + Z.of_nat i) ≠ 0 ∧ char_of (byte_at m (a + Z.of_nat i)) = c) ∧
  byte_at m (a + Z.of_nat (String.length s)) = 0.

Lemma load_byte_mapped m a : mapped m a = true → load_byte m a = Ok (byte_at m a).
Proof. unfold load_byte. by intros ->. Qed.

Lemma cstr_runs m (l : list ascii) a acc :
  mapped_range m a (Z.of_nat (S (length l))) = true →
  (∀ i c, l !! i = Some c →
     byte_at m (a + Z.of_nat i) ≠ 0 ∧ char_of (byte_at m (a + Z.of_nat i)) = c) →
  byte_at m (a + Z.of_nat (length l)) = 0 →
  runs (cstr_step m) (S (length l)) (a, acc) (Ok (string_of_list (rev acc ++ l))).
Proof.
  revert a acc. induction l as [|c l IH]; intros a acc Hm Hl Hz; rewrite mapped_range_spec in Hm.
  - constructor. unfold cstr_step. simpl. rewrite load_byte_mapped by (apply Hm; simpl; lia).
    simpl in Hz. rewrite Z.add_0_r in Hz. simpl. rewrite Hz. simpl. by rewrite app_nil_r.
  - destruct (Hl 0%nat c eq_refl) as [Hnz Hc]. rewrite Z.add_0_r in Hnz, Hc.
    eapply runs_step with (s' := (a + 1, c :: acc)).
    + unfold cstr_step. simpl. rewrite load_byte_mapped by (apply Hm; simpl; lia). simpl.
      apply Z.eqb_neq in Hnz. by rewrite Hnz, Hc.
    + replace (rev acc ++ c :: l) with (rev (c :: acc) ++ l) by (simpl; by rewrite <-app_assoc).
      apply IH.
      * apply mapped_range_spec. intros x Hx. apply Hm. simpl length. lia.
      * intros i c' Hi. specialize (Hl (S i) c' Hi).
        by replace (a + 1 + Z.of_nat i) with (a + Z.of_nat (S i)) by lia.
      * rewrite <-Hz. f_equal. simpl length. lia.
Qed.

Lemma read_cstr_at m a s :
  mem_size m < 2 ^ 64 → cstr_at m a s → read_cstr m a = Ok s.
Proof.
  intros Hsz (Hm & Hs & Hz). pose proof (mapped_range_size _ _ _ Hm) as Hle.
  rewrite <-length_list_of_string in *.
  pose proof (cstr_runs m (list_of_string s) a [] Hm Hs Hz) as Hr.
  simpl in Hr. rewrite string_of_list_of_string in Hr. eapply while_runs; [done|]. lia.
Qed.

(** Reading a string ends with the string or a fault: the bytes it visits are
    distinct mapped addresses. *)
Lemma read_cstr_ends m a :
  mem_size m < 2 ^ 64 → in_fuel (read_cstr m a).
Proof.
  intros Hsz.
  destruct (while_total (cstr_step m) (λ st, mapped_range m a (st.1 - a) = true ∧ a ≤ st.1)
              (λ st, mem_size m - (st.1 - a)) (a, [])) as (n & o & Hr & Ho).
  - intros st st' [HI Hle] Hst. unfold cstr_step, load_byte in Hst.
    destruct (mapped m st.1) eqn:E; [|done]. simpl in Hst. inv_ok. destruct (_ =? _) in *; simplify_eq/=.
    assert (HI' : mapped_range m a (st.1 + 1 - a) = true).
    { apply mapped_range_spec. intros x Hx. destruct (Z.eq_dec x st.1) as [->|]; [done|].
      eapply mapped_range_spec; [exact HI|]. lia. }
    pose proof (mapped_range_size _ _ _ HI'). repeat split; [done|lia..].
  - simpl. split; [|lia]. apply mapped_range_spec. lia.
  - simpl. pose proof (mem_size_nonneg m). lia.
  - unfold in_fuel, read_cstr. rewrite Ho. clear Ho. induction Hr; [done| |done].
    unfold cstr_step, load_byte in *. intros [= ->]. by destruct (mapped m s.1).
Qed.

(** What is read is a string that lies there. *)
Lemma read_cstr_inv m a s : read_cstr m a = Ok s → cstr_at m a s.
Proof.
  intros Hrun. apply (while_invariant _ (λ st, st.1 = a + Z.of_nat (length st.2) ∧
    (∀ i c, rev st.2 !! i = Some c → mapped m (a + Z.of_nat i) = true ∧
       byte_at m (a + Z.of_nat i) ≠ 0 ∧ char_of (byte_at m (a + Z.of_nat i)) = c))) in Hrun
    as ([x acc] & [Hx Hacc] & Hstep).
  - cbn [fst snd] in *. unfold cstr_step, load_byte in Hstep. cbn [fst snd] in Hstep.
    destruct (mapped m x) eqn:Em; [|done]. cbn in Hstep. destruct (Z.eqb_spec (byte_at m x) 0) as [E|]; [|done].
    injection Hstep as <-. assert (Hlen : String.length (string_of_list (rev acc)) = length acc).
    { by rewrite <-length_list_of_string, list_of_string_of_list, length_rev. }
    split_and!.
    + apply mapped_range_spec. intros y Hy. rewrite Hlen in Hy. destruct (decide (y = x)) as [->|]; [done|].
      destruct (lookup_lt_is_Some_2 (rev acc) (Z.to_nat (y - a))) as [c Hc]; [rewrite length_rev; lia|].
      destruct (Hacc _ _ Hc) as [Hm _]. by replace (a + Z.of_nat (Z.to_nat (y - a))) with y in Hm by lia.
    + intros i c. rewrite list_of_string_of_list. intros Hc. by apply Hacc.
    + by rewrite Hlen, <-Hx.
  - intros [x acc] st' [Hx Hacc] Hstep. cbn [fst snd] in *. unfold cstr_step, load_byte in Hstep. cbn [fst snd] in Hstep.
    destruct (mapped m x) eqn:Em; [|done]. cbn in Hstep. destruct (Z.eqb_spec (byte_at m x) 0); [done|].
    injection Hstep as <-. cbn [fst snd length rev]. split; [lia|]. intros i c Hi.
    apply lookup_app_Some in Hi as [Hi|[Hlen Hi]]; [by apply Hacc|]. rewrite length_rev in *.
    apply list_lookup_singleton_Some in Hi as [Hi <-]. replace (a + Z.of_nat i) with x by lia. done.
  - cbn. split; [lia|]. done.
Qed.

(** Reading a string depends on its bytes alone. *)
Lemma read_cstr_frame m0 m a s :
  mem_size m < 2 ^ 64 → read_cstr m0 a = Ok s →
  (∀ x, a ≤ x ≤ a + Z.of_nat (String.length s) → mapped m x = mapped m0 x ∧ byte_at m x = byte_at m0 x) →
  read_cstr m a = Ok s.
Proof.
  intros Hsz (Hm & Hs & Hz)%read_cstr_inv Heq. apply read_cstr_at; [done|]. rewrite mapped_range_spec in Hm.
  split_and!.
  - apply mapped_range_spec. intros x Hx. rewrite (proj1 (Heq x ltac:(lia))). apply Hm. lia.
  - intros i c Hi. pose proof (lookup_lt_Some _ _ _ Hi) as Hlt. rewrite length_list_of_string in Hlt.
    rewrite (proj2 (Heq (a + Z.of_nat i) ltac:(lia))). by apply Hs.
  - rewrite (proj2 (Heq (a + Z.of_nat (String.length s)) ltac:(lia))). done.
Qed.

#[export] Instance read_cstr_proper : Proper ((≡) ==> (=) ==> (=)) read_cstr.
Proof.
  intros m1 m2 H a ? <-. apply while_ext. intros st. unfold cstr_step, load_byte.
  rewrite <-(mapped_equiv _ _ _ H). destruct (mapped m1 st.1) eqn:E; [|done]. by rewrite (proj2 H).
Qed.

(** ** Reads of records *)

Lemma in_fuel_load_bytes m a n : in_fuel (load_bytes m a n).
Proof. unfold load_bytes. by destruct (mapped_range m a n). Qed.

Lemma in_fuel_load_word m n a : in_fuel (load_word m n a).
Proof. apply in_fuel_bind; [apply in_fuel_load_bytes|done]. Qed.

Lemma in_fuel_read_dyn m a : in_fuel (read_dyn m a).
Proof. apply in_fuel_bind; [apply in_fuel_load_bytes|done]. Qed.

Lemma in_fuel_read_rela m a : in_fuel (read_rela m a).
Proof. apply in_fuel_bind; [apply in_fuel_load_bytes|done]. Qed.

Lemma in_fuel_read_sym m a : in_fuel (read_sym m a).
Proof. apply in_fuel_bind; [apply in_fuel_load_bytes|done]. Qed.

#[export] Hint Resolve in_fuel_load_bytes in_fuel_load_word in_fuel_read_dyn in_fuel_read_rela
  in_fuel_read_sym : fuel.

Lemma read_sym_ok m a s :
  read_sym m a = Ok s → mapped_range m a sizeof_Sym = true ∧ s = parse_sym (peek m a sizeof_Sym).
Proof. unfold read_sym. intros Hrun. inv_ok. by apply load_bytes_ok in H as [? ->]. Qed.

(** The first member of an entry is its name, so a look at the name alone
    agrees with a copy of the whole entry. *)
Lemma read_sym_name m a s : read_sym m a = Ok s → load_word m 4 a = Ok (st_name s).
Proof.
  intros [Hm ->]%read_sym_ok. rewrite mapped_range_spec in Hm. unfold load_word, load_bytes.
  rewrite (proj2 (mapped_range_spec m a 4)) by (intros; apply Hm; unfold sizeof_Sym; lia).
  simpl. unfold parse_sym, field, mret, outcome_ret. simpl. do 2 f_equal.
Qed.
