(* ===== verification/Utils.v ===== *)
(** * utils.h and utils.cc

    String splitting, the hexadecimal formatting template, and the printers of
    relocations and symbols. The [LOG] stream discards its output but evaluates
    its operands, so [ShowSym] runs on every symbol of a loaded binary, and what
    it does (reading names, aborting on an unknown type) is part of the loader's
    behaviour. *)

From S2P Require Import Prelude Memory Digits Elf.

(** ** Searching strings *)

(** [s.starts_with(p)]. *)
Fixpoint starts_with (p s : string) : bool :=
  match p, s with
  | EmptyString, _ => true
  | String c p, String d s => if ascii_dec c d then starts_with p s else false
  | String _ _, EmptyString => false
  end.

(** [s.find(p)]: position of the first occurrence, [None] for [npos]. *)
Fixpoint str_find (p s : string) : option nat :=
  if starts_with p s then Some 0%nat
  else match s with EmptyString => None | String _ s => S <$> str_find p s end.

Definition str_contains (p s : string) : bool := bool_decide (is_Some (str_find p s)).

(** [s.substr(0, n)] and what [s.erase(0, n)] leaves. *)
Fixpoint str_take (n : nat) (s : string) : string :=
  match n, s with
  | S n, String c s => String c (str_take n s)
  | _, _ => EmptyString
  end.
Fixpoint str_drop (n : nat) (s : string) : string :=
  match n, s with
  | S n, String _ s => str_drop n s
  | _, _ => s
  end.

Lemma str_length_app s1 s2 : String.length (s1 +:+ s2) = (String.length s1 + String.length s2)%nat.
Proof. induction s1 as [|c s1 IH]; [done|]. cbn. by f_equal. Qed.

Lemma str_app_assoc s1 s2 s3 : (s1 +:+ s2) +:+ s3 = s1 +:+ (s2 +:+ s3).
Proof. induction s1 as [|c s1 IH]; [done|]. cbn. by f_equal. Qed.

Lemma str_app_nil_r s : s +:+ EmptyString = s.
Proof. induction s as [|c s IH]; [done|]. cbn. by f_equal. Qed.

Lemma starts_with_spec p s : starts_with p s = true ↔ ∃ t, s = p +:+ t.
Proof.
  revert s. induction p as [|c p IH]; intros [|d s]; cbn.
  1-2: by split; eauto.
  - split; [done|]. by intros [].
  - destruct (ascii_dec c d) as [->|Hne].
    + rewrite IH. split; intros [t Ht]; exists t; [by rewrite Ht|by simplify_eq].
    + split; [done|]. intros [t Ht]. by simplify_eq.
Qed.

Lemma str_take_drop n s : str_take n s +:+ str_drop n s = s.
Proof. revert s. induction n; intros [|c s]; cbn; [done..|]. by f_equal. Qed.

Lemma str_take_app s1 s2 : str_take (String.length s1) (s1 +:+ s2) = s1.
Proof. induction s1 as [|c s1 IH]; cbn; [by destruct s2|]. by f_equal. Qed.

Lemma str_drop_app n s1 s2 : str_drop (String.length s1 + n) (s1 +:+ s2) = str_drop n s2.
Proof. induction s1 as [|c s1 IH]; cbn; [done|]. apply IH. Qed.

Lemma str_drop_0 s : str_drop 0 s = s.
Proof. by destruct s. Qed.

Lemma str_drop_length n s : String.length (str_drop n s) = (String.length s - n)%nat.
Proof. revert s. induction n as [|n IH]; intros [|c s]; cbn; auto. Qed.

(** The position found is an occurrence, and there is none before it. *)
Lemma str_find_some p s n :
  str_find p s = Some n → ∃ t, s = str_take n s +:+ p +:+ t ∧ String.length (str_take n s) = n.
Proof.
  revert n. induction s as [|c s IH]; intros n; cbn [str_find].
  - destruct p; cbn; [|done]. intros [= <-]. by exists EmptyString.
  - destruct (starts_with p (String c s)) eqn:E.
    + intros [= <-]. apply starts_with_spec in E as [t Ht]. exists t. by rewrite Ht.
    + destruct (str_find p s) as [k|]; [|done]. intros [= <-].
      destruct (IH k eq_refl) as (t & Ht & Hl). exists t. cbn. by rewrite <-Ht, Hl.
Qed.

Lemma str_find_app_none p s n :
  str_find p s = Some n → ∀ k, (k < n)%nat → starts_with p (str_drop k s) = false.
Proof.
  revert n. induction s as [|c s IH]; intros n; cbn [str_find].
  - destruct (starts_with p EmptyString); [|done]. intros [= <-] k Hk. lia.
  - destruct (starts_with p (String c s)) eqn:E.
    + intros [= <-] k Hk. lia.
    + destruct (str_find p s) as [m|]; [|done]. intros [= <-] [|k] Hk; [done|].
      cbn. apply (IH m); [done|lia].
Qed.

Lemma str_contains_spec p s : str_contains p s = true ↔ ∃ a b, s = a +:+ p +:+ b.
Proof.
  unfold str_contains. rewrite bool_decide_eq_true. split.
  - intros [n Hn]. destruct (str_find_some _ _ _ Hn) as (t & Ht & _). eauto.
  - intros (a & b & ->). induction a as [|c a IH].
    + cbn. assert (starts_with p (p +:+ b) = true) as E by (apply starts_with_spec; eauto).
      destruct (p +:+ b); cbn [str_find]; rewrite E; eauto.
    + cbn [String.append str_find]. destruct (starts_with _ _); [by eauto|].
      destruct IH as [n ->]. cbn. eauto.
Qed.

(** ** SplitWith *)

Definition SplitWith_step (delimiter : string) (st : string * list string) :
    outcome ((string * list string) + list string) :=
  let '(str, ret) := st in
  match str_find delimiter str with
  | Some pos => Ok (inl (str_drop (pos + String.length delimiter) str, ret ++ [str_take pos str]))
  | None => Ok (inr ret)
  end.

Definition SplitWith (str delimiter : string) : outcome (list string) :=
  while (SplitWith_step delimiter) (str, []).

(** ** HexString

    [size] is [sizeof(T)]; the value is printed as an unsigned integer of the
    promoted type. The overload for pointers has size 8 and default width 16. *)

Definition pad_left (width : Z) (s : string) : string :=
  string_of_list (replicate (Z.to_nat width - String.length s) "0"%char) +:+ s.

Definition hex (n : Z) : string := print_digits "A"%char (digits 16 n).

Definition HexString (size num length : Z) : string :=
  let length := if length =? -1 then size / 2 else length in
  "0x" +:+ pad_left length (hex (wrap (8 * Z.max 4 size) num)).

Definition HexString_ptr (num length : Z) : string :=
  let length := if length =? -1 then 16 else length in
  "0x" +:+ pad_left length (hex (wrap64 num)).

Definition decimal (n : Z) : string := print_digits "a"%char (digits 10 n).

(** Reading back what [HexString] prints, as [int(s, 16)] does. *)
Definition parse_hex (s : string) : option Z :=
  match s with
  | String "0" (String "x" s) => read_digits 16 s
  | _ => None
  end.

(** ** The printers *)

Definition relocation_names : list (Z * string) :=
  [(0, "R_X86_64_NONE"); (1, "R_X86_64_64"); (2, "R_X86_64_PC32"); (3, "R_X86_64_GOT32");
   (4, "R_X86_64_PLT32"); (5, "R_X86_64_COPY"); (6, "R_X86_64_GLOB_DAT");
   (7, "R_X86_64_JUMP_SLOT"); (8, "R_X86_64_RELATIVE"); (9, "R_X86_64_GOTPCREL");
   (10, "R_X86_64_32"); (11, "R_X86_64_32S"); (12, "R_X86_64_16"); (13, "R_X86_64_PC16");
   (14, "R_X86_64_8"); (15, "R_X86_64_PC8"); (16, "R_X86_64_DTPMOD64");
   (17, "R_X86_64_DTPOFF64"); (18, "R_X86_64_TPOFF64"); (19, "R_X86_64_TLSGD");
   (20, "R_X86_64_TLSLD"); (21, "R_X86_64_DTPOFF32"); (22, "R_X86_64_GOTTPOFF");
   (23, "R_X86_64_TPOFF32"); (24, "R_X86_64_PC64"); (25, "R_X86_64_GOTOFF64");
   (26, "R_X86_64_GOTPC32"); (27, "R_X86_64_GOT64"); (28, "R_X86_64_GOTPCREL64");
   (29, "R_X86_64_GOTPC64"); (30, "R_X86_64_GOTPLT64"); (31, "R_X86_64_PLTOFF64");
   (32, "R_X86_64_SIZE32"); (33, "R_X86_64_SIZE64"); (34, "R_X86_64_GOTPC32_TLSDESC");
   (36, "R_X86_64_TLSDESC"); (37, "R_X86_64_IRELATIVE"); (38, "R_X86_64_RELATIVE64");
   (41, "R_X86_64_GOTPCRELX"); (42, "R_X86_64_REX_GOTPCRELX"); (43, "R_X86_64_NUM")]%string.

(** The [switch] of the source: the cases are the pairs of the table. *)
Definition ShowRelocationType (type : Z) : string :=
  match find (λ '(n, _), type =? n) relocation_names with
  | Some (_, name) => name
  | None => HexString 4 type 4
  end.

Definition ShowRela (r : Elf64_Rela) : string :=
  ("Elf_Rela{r_offset=" +:+ HexString 8 (r_offset r) 8 +:+
   ", r_info=" +:+ HexString 8 (r_info r) 8 +:+
   ", ELF64_R_SYM(r.r_info)=" +:+ HexString 8 (ELF64_R_SYM (r_info r)) 4 +:+
   ", ELF64_R_TYPE(r.r_info)=" +:+ ShowRelocationType (ELF64_R_TYPE (r_info r)) +:+
   ", r_addend=" +:+ HexString 8 (r_addend r) 8 +:+ "}")%string.

Definition ShowSTB (bind : Z) : string :=
  match find (λ '(n, _), bind =? n)
    [(0, "STB_LOCAL"); (1, "STB_GLOBAL"); (2, "STB_WEAK"); (3, "STB_NUM");
     (10, "STB_GNU_UNIQUE"); (12, "STB_HIOS"); (13, "STB_LOPROC"); (15, "STB_HIPROC")]%string with
  | Some (_, name) => name
  | None => decimal bind
  end.

Definition ShowSTT (type : Z) : outcome string :=
  match find (λ '(n, _), type =? n)
    [(0, "STT_NOTYPE"); (1, "STT_OBJECT"); (2, "STT_FUNC"); (3, "STT_SECTION");
     (4, "STT_FILE"); (5, "STT_COMMON"); (6, "STT_TLS"); (7, "STT_NUM");
     (10, "STT_GNU_IFUNC")]%string with
  | Some (_, name) => Ok name
  | None => Err Aborted
  end.

Definition ShowSym (m : memory) (s : Elf64_Sym) (strtab : Z) : outcome string :=
  name ← read_cstr m (wrap64 (strtab + st_name s));
  stt ← ShowSTT (ELF64_ST_TYPE (st_info s));
  mret ("Elf64_Sym{st_name=" +:+ name +:+
        ", ELF64_ST_BIND(st_info)=" +:+ ShowSTB (ELF64_ST_BIND (st_info s)) +:+
        ", ELF64_ST_TYPE(st_info)=" +:+ stt +:+
        ", st_other=" +:+ String (char_of (st_other s)) EmptyString +:+
        ", st_shndx=" +:+ decimal (st_shndx s) +:+
        ", st_value=" +:+ HexString 8 (st_value s) (-1) +:+
        ", st_size=" +:+ HexString 8 (st_size s) (-1) +:+ "}")%string.

(** ** SplitWith: what it returns

    [join_with d parts last] puts [d] between the parts and before [last]. *)

Definition join_with (d : string) (parts : list string) (last : string) : string :=
  foldr (λ p acc, p +:+ d +:+ acc) last parts.

Lemma str_find_fresh c p s :
  c ∉ list_of_string p →
  str_find (String c EmptyString) (p +:+ String c s) = Some (String.length p).
Proof.
  induction p as [|d p IH]; intros Hp; cbn.
  - by destruct (ascii_dec c c).
  - cbn in Hp. apply not_elem_of_cons in Hp as [Hne Hp].
    destruct (ascii_dec c d) as [->|_]; [done|]. by rewrite IH.
Qed.

Lemma str_find_absent c p :
  c ∉ list_of_string p → str_find (String c EmptyString) p = None.
Proof.
  induction p as [|d p IH]; intros Hp; cbn; [done|].
  cbn in Hp. apply not_elem_of_cons in Hp as [Hne Hp].
  destruct (ascii_dec c d) as [->|_]; [done|]. by rewrite IH.
Qed.

Lemma SplitWith_runs c parts last ret :
  Forall (λ p, c ∉ list_of_string p) (parts ++ [last]) →
  let d := String c EmptyString in
  runs (SplitWith_step d) (S (length parts)) (join_with d parts last, ret) (Ok (ret ++ parts)).
Proof.
  intros Hp d. revert ret Hp. induction parts as [|p parts IH]; intros ret Hp; cbn in Hp.
  - apply Forall_cons in Hp as [Hl _]. constructor. cbn [join_with foldr SplitWith_step].
    unfold d. by rewrite str_find_absent, app_nil_r.
  - apply Forall_cons in Hp as [Hh Hp]. eapply runs_step.
    + cbn [join_with foldr SplitWith_step]. unfold d. cbn [String.append].
      rewrite str_find_fresh by done. cbn [String.length].
      rewrite str_take_app, str_drop_app. reflexivity.
    + replace (ret ++ p :: parts) with ((ret ++ [p]) ++ parts) by by rewrite <-app_assoc.
      by apply IH.
Qed.

(** Splitting a text at a single-character delimiter returns the parts that
    are followed by a delimiter and drops whatever comes after the last one, so
    the last directory of [PATH] is never among the parts. *)
Lemma SplitWith_drops_last (c : ascii) (parts : list string) (last : string) :
  Forall (λ p, c ∉ list_of_string p) (parts ++ [last]) → Z.of_nat (length parts) < 2 ^ 64 →
  SplitWith (join_with (String c EmptyString) parts last) (String c EmptyString) = Ok parts.
Proof.
  intros Hp Hlen. pose proof (SplitWith_runs c parts last [] Hp) as Hr. cbn in Hr.
  eapply while_runs; [exact Hr|]. lia.
Qed.

Lemma SplitWith_drops_last_witness :
  SplitWith "/usr/local/bin:/usr/bin:/bin" ":" = Ok ["/usr/local/bin"; "/usr/bin"]%string.
Proof.
  apply (SplitWith_drops_last ":" ["/usr/local/bin"; "/usr/bin"]%string "/bin").
  - apply (bool_decide_unpack _). vm_compute. exact I.
  - simpl. lia.
Defined.

(** ** HexString: the printed number reads back *)

Lemma list_of_string_pad w s :
  list_of_string (pad_left w s) =
  replicate (Z.to_nat w - String.length s) "0"%char ++ list_of_string s.
Proof. unfold pad_left. by rewrite list_of_string_app, list_of_string_of_list. Qed.

Lemma hex_pad_digits w n :
  0 ≤ n → pad_left w (hex n) =
  print_digits "A"%char (digits 16 n ++ replicate (Z.to_nat w - String.length (hex n)) 0).
Proof.
  intros Hn. rewrite <-(string_of_list_of_string (pad_left w (hex n))), list_of_string_pad.
  set (k := (Z.to_nat w - String.length (hex n))%nat). unfold hex, print_digits. f_equal.
  rewrite list_of_string_of_list, rev_app_distr, map_app. f_equal.
  rewrite rev_alt. change (rev_append (replicate k 0) []) with (reverse (replicate k 0)).
  rewrite reverse_replicate. induction k; cbn; by f_equal.
Qed.

(** For a value in the range of its type, the text that [HexString] prints
    reads back as that value, whatever minimal width was asked for. *)
Lemma HexString_roundtrip (size n length : Z) :
  0 ≤ n < 2 ^ (8 * size) → 0 ≤ size →
  parse_hex (HexString size n length) = Some n.
Proof.
  intros Hn Hs. unfold HexString. rewrite wrap_small.
  2: { split; [lia|]. eapply Z.lt_le_trans; [apply Hn|]. apply Z.pow_le_mono_r; lia. }
  cbn [String.append parse_hex]. rewrite hex_pad_digits by lia.
  rewrite read_print_digits; [by rewrite of_digits_pad, of_digits_digits by lia|by left|].
  apply Forall_app. split; [by apply digits_bound|]. apply Forall_replicate. lia.
Qed.

Lemma pad_left_length w s : String.length (pad_left w s) = Nat.max (Z.to_nat w) (String.length s).
Proof.
  rewrite <-!length_list_of_string, list_of_string_pad, length_app, length_replicate,
    !length_list_of_string. lia.
Qed.

(** A 64-bit value printed with width 16 takes exactly 18 characters. *)
Lemma HexString_length16 n :
  word64 n → String.length (HexString 8 n 16) = 18%nat.
Proof.
  intros Hn. unfold HexString. rewrite wrap_small by exact Hn.
  cbn [String.append String.length Z.eqb]. rewrite pad_left_length.
  assert (String.length (hex n) ≤ 16)%nat.
  { unfold hex, print_digits. rewrite <-length_list_of_string, list_of_string_of_list, length_map, length_rev.
    apply digits_length; [done| |lia]. change (16 ^ Z.of_nat 16) with (2 ^ 64). exact Hn. }
  change (Z.to_nat 16) with 16%nat. lia.
Qed.

(** ** ShowSTT *)

Lemma ShowSTT_ok t : is_ok (ShowSTT t) = true ↔ (0 ≤ t ≤ 7 ∨ t = 10).
Proof.
  unfold ShowSTT. cbn [find].
  repeat match goal with
  | |- context [t =? ?k] => destruct (Z.eqb_spec t k) as [->|?]; [cbn; split; intros; [lia|reflexivity]|]
  end.
  cbn. split; [discriminate|lia].
Qed.

Lemma ShowSym_type m s strtab r :
  ShowSym m s strtab = Ok r → is_ok (ShowSTT (ELF64_ST_TYPE (st_info s))) = true.
Proof.
  unfold ShowSym. destruct (read_cstr _ _); [|discriminate].
  by destruct (ShowSTT _).
Qed.

Lemma ShowSym_succeeds m s strtab :
  (∃ r, ShowSym m s strtab = Ok r) ↔
  (∃ n, read_cstr m (wrap64 (strtab + st_name s)) = Ok n) ∧ is_ok (ShowSTT (ELF64_ST_TYPE (st_info s))) = true.
Proof.
  unfold ShowSym. destruct (read_cstr _ _) as [n|], (ShowSTT _) as [t|]; cbn; split; intros [? ?]; destruct_and?; naive_solver.
Qed.

Lemma in_fuel_ShowSym m s strtab : mem_size m < 2 ^ 64 → in_fuel (ShowSym m s strtab).
Proof.
  intros Hsz. apply in_fuel_bind; [by apply read_cstr_ends|]. intros name _.
  apply in_fuel_bind; [|done]. unfold ShowSTT. by destruct (find _ _) as [[]|].
Qed.

#[global] Opaque ShowSym.
