(* ===== verification/Os.v ===== *)
(** * The operating system and the process

    What the loader uses of Linux and of the C++ file-system library, as type
    classes; the laws of [mmap] the theorems rely on; path manipulation; and the
    state of the process the loader runs in. *)

From S2P Require Import Prelude Memory Digits Elf Utils.

(** ** Interfaces *)

(** The environment of the process and its auxiliary vector. *)
Class Environment := {
  getenv : string → option string;
  getauxval : Z → Z
}.

(** The files the process sees. Nothing the loader does changes them. A query of
    std::filesystem that throws - permission denied, too many links - is [None];
    the iteration of a directory may throw after some entries, or at once. *)
Class FileSystem := {
  open_file : string → option (list Z);      (** bytes of a file that can be opened *)
  path_exists : string → option bool;
  is_regular_file : string → option bool;
  is_directory : string → option bool;
  directory_entries : string → list string;  (** names, in iteration order *)
  directory_throws : string → bool;          (** whether an exception ends the iteration *)
  glob : string → list string
}.

Definition fs_query {A} (answer : option A) : outcome A :=
  match answer with Some a => Ok a | None => Err Exception end.

(** A file size is an [off_t], and a file consists of bytes. *)
Class FileSystemSpec `(FileSystem) : Prop := {
  file_size path bs : open_file path = Some bs → Z.of_nat (length bs) < 2 ^ 63;
  file_contents path bs : open_file path = Some bs → Forall byte bs
}.

(** Where the kernel puts a mapping of [len] bytes with address hint [hint]
    (zero for none); [None] when [mmap] fails. *)
Class Kernel := { mmap_place : list region → Z → Z → option Z }.

(** mmap(2): the address is a page boundary in the user half of the address
    space, and, without [MAP_FIXED], no existing mapping is touched. *)
Class KernelSpec `(Kernel) : Prop := {
  mmap_aligned regs hint len a :
    mmap_place regs hint len = Some a → a mod 4096 = 0;
  mmap_fresh regs hint len a r :
    mmap_place regs hint len = Some a → r ∈ regs → overlaps a (a + len) r = false;
  mmap_user regs hint len a :
    mmap_place regs hint len = Some a → 0 < a ∧ 0 < len ∧ a + len ≤ 2 ^ 47
}.

(** mmap(2): "the kernel takes [addr] as a hint about where to place the
    mapping", and uses it when the range is free. *)
Class KernelHint `(Kernel) : Prop := {
  mmap_at_hint regs hint len :
    hint mod 4096 = 0 → 0x10000 ≤ hint → 0 < len → hint + len ≤ 2 ^ 47 →
    (∀ r, r ∈ regs → overlaps hint (hint + len) r = false) →
    mmap_place regs hint len = Some hint
}.

(** A kernel that follows these rules: the hint when it is usable and free,
    otherwise the first page boundary above every mapping. *)
Definition page_ceil (x : Z) : Z := (x + 4095) / 4096 * 4096.

Definition usable (regs : list region) (a len : Z) : bool :=
  (a mod 4096 =? 0) && (0x10000 <=? a) && (0 <? len) && (a + len <=? 2 ^ 47) &&
  forallb (λ r, negb (overlaps a (a + len) r)) regs.

Definition above_all (regs : list region) : Z :=
  page_ceil (foldr Z.max 0x10000 (map r_hi regs)).

Definition first_fit (regs : list region) (hint len : Z) : option Z :=
  if usable regs hint len then Some hint
  else let a := above_all regs in if usable regs a len then Some a else None.

Definition first_fit_kernel : Kernel := {| mmap_place := first_fit |}.

Lemma usable_spec regs a len :
  usable regs a len = true ↔
  a mod 4096 = 0 ∧ 0x10000 ≤ a ∧ 0 < len ∧ a + len ≤ 2 ^ 47 ∧
  ∀ r, r ∈ regs → overlaps a (a + len) r = false.
Proof.
  unfold usable. rewrite !andb_true_iff, Z.eqb_eq, !Z.leb_le, Z.ltb_lt, forallb_forall.
  setoid_rewrite <-list_elem_of_In. setoid_rewrite negb_true_iff. tauto.
Qed.

Lemma first_fit_usable regs hint len a :
  first_fit regs hint len = Some a → usable regs a len = true.
Proof.
  unfold first_fit. destruct (usable regs hint len) eqn:E; [by intros [= <-]|].
  destruct (usable regs (above_all regs) len) eqn:E'; [by intros [= <-]|done].
Qed.

#[export] Instance first_fit_spec : KernelSpec first_fit_kernel.
Proof.
  split; simpl; intros regs hint len a; [intros H|intros r H|intros H];
    apply first_fit_usable, usable_spec in H as (? & ? & ? & ? & Hr); [done|by apply Hr|lia].
Qed.

#[export] Instance first_fit_hint : KernelHint first_fit_kernel.
Proof.
  split. intros regs hint len H1 H2 H3 H4 H5. simpl. unfold first_fit.
  rewrite (proj2 (usable_spec regs hint len)); [done|]. by repeat split.
Qed.

(** ** Paths *)

(** [path.filename()]: what follows the last slash. *)
Fixpoint path_filename_go (acc : string) (s : string) : string :=
  match s with
  | EmptyString => acc
  | String c s =>
      if ascii_dec c "/"%char then path_filename_go EmptyString s
      else path_filename_go (acc +:+ String c EmptyString) s
  end.
Definition path_filename (p : string) : string := path_filename_go EmptyString p.

Definition path_is_absolute (p : string) : bool := starts_with "/" p.

Fixpoint ends_with_slash (p : string) : bool :=
  match p with
  | EmptyString => false
  | String c EmptyString => bool_decide (c = "/"%char)
  | String _ p => ends_with_slash p
  end.

(** [a / b] of two paths. *)
Definition path_append (a b : string) : string :=
  if path_is_absolute b then b
  else if bool_decide (a = EmptyString) || ends_with_slash a then a +:+ b
  else a +:+ "/" +:+ b.

(** The elements a path is compared by: the root, then the names between
    slashes, where several slashes count as one and a trailing slash leaves an
    empty last element. *)
Fixpoint path_names (cur : string) (s : string) : list string :=
  match s with
  | EmptyString => [cur]
  | String c s =>
      if ascii_dec c "/"%char
      then (if bool_decide (cur = EmptyString) then path_names cur s
            else cur :: path_names EmptyString s)
      else path_names (cur +:+ String c EmptyString) s
  end.
Definition path_elems (p : string) : list string :=
  if bool_decide (p = EmptyString) then []
  else if path_is_absolute p then
    "/"%string :: (match path_names EmptyString p with [EmptyString] => [] | l => l end)
  else path_names EmptyString p.

(** ** The process *)

(** Control transfers into loaded code. [EvInit] is a call of a constructor
    with the values of its three arguments, the arrays as the words they hold;
    [EvJump] is the final jump with the stack pointer at that moment. *)
Inductive event : Type :=
  | EvInit (fn argc : Z) (argv env : list Z)
  | EvJump (entry rsp : Z).

#[export] Instance event_eq_dec : EqDecision event.
Proof. solve_decision. Defined.

Record proc := mkProc {
  p_mem : memory;
  p_map_file : list string;   (** lines written to the map file *)
  p_trace : list event;
  p_rsp : Z;                  (** stack pointer *)
  sloader_tls_offset : Z      (** the global of tls_secure.cc *)
}.

Definition set_mem (m : memory) (s : proc) : proc :=
  {| p_mem := m; p_map_file := p_map_file s; p_trace := p_trace s; p_rsp := p_rsp s;
     sloader_tls_offset := sloader_tls_offset s |}.
Definition add_map_line (l : string) (s : proc) : proc :=
  {| p_mem := p_mem s; p_map_file := p_map_file s ++ [l]; p_trace := p_trace s; p_rsp := p_rsp s;
     sloader_tls_offset := sloader_tls_offset s |}.
Definition add_event (e : event) (s : proc) : proc :=
  {| p_mem := p_mem s; p_map_file := p_map_file s; p_trace := p_trace s ++ [e]; p_rsp := p_rsp s;
     sloader_tls_offset := sloader_tls_offset s |}.
Definition set_rsp (a : Z) (s : proc) : proc :=
  {| p_mem := p_mem s; p_map_file := p_map_file s; p_trace := p_trace s; p_rsp := a;
     sloader_tls_offset := sloader_tls_offset s |}.
Definition set_tls_offset (o : Z) (s : proc) : proc :=
  {| p_mem := p_mem s; p_map_file := p_map_file s; p_trace := p_trace s; p_rsp := p_rsp s;
     sloader_tls_offset := o |}.

Abbreviation P := (stM proc).

(** Run a computation that only reads memory, and one that updates it. *)
Definition with_mem {A} (f : memory → outcome A) : P A := λ s,
  match f (p_mem s) with Ok a => Ok (a, s) | Err e => Err e end.
Definition update_mem (f : memory → outcome memory) : P unit := λ s,
  match f (p_mem s) with Ok m => Ok (tt, set_mem m s) | Err e => Err e end.

Lemma with_mem_ok {A} (f : memory → outcome A) s a s' :
  with_mem f s = Ok (a, s') ↔ f (p_mem s) = Ok a ∧ s' = s.
Proof. unfold with_mem. destruct (f _); split; intros; destruct_and?; simplify_eq; auto. Qed.

Lemma update_mem_ok f s u s' :
  update_mem f s = Ok (u, s') ↔ ∃ m, f (p_mem s) = Ok m ∧ s' = set_mem m s.
Proof.
  unfold update_mem. destruct (f _) as [m|], u; split.
  - intros [= <-]. eauto.
  - by intros (? & [= <-] & ->).
  - done.
  - by intros (? & ? & ?).
Qed.

Lemma in_fuel_with_mem {A} (f : memory → outcome A) s : in_fuel (f (p_mem s)) → in_fuel (with_mem f s).
Proof. unfold with_mem, in_fuel. destruct (f _); congruence. Qed.

Lemma in_fuel_update_mem f s : in_fuel (f (p_mem s)) → in_fuel (update_mem f s).
Proof. unfold update_mem, in_fuel. destruct (f _); congruence. Qed.

#[export] Hint Resolve in_fuel_with_mem in_fuel_update_mem : fuel.

Ltac inv_proc1 :=
  match goal with
  | H : with_mem _ _ = Ok (_, _) |- _ => apply with_mem_ok in H as [? ?]
  | H : update_mem _ _ = Ok (_, _) |- _ => apply update_mem_ok in H as (? & ? & ?)
  | _ => inv_ok1
  end.
Ltac inv_proc := repeat (inv_proc1; simplify_eq/=).

(** ** mmap *)

(** [(x) & ~0xfff] on an [unsigned long]: the mask is sign-extended. *)
Definition page_mask (x : Z) : Z := Z.land x (Z.lnot 0xfff).
(** [(x + 0xfff) & ~0xfff]. *)
Definition page_up (x : Z) : Z := page_mask (wrap64 (x + 0xfff)).

Lemma page_mask_floor x : page_mask x = x / 4096 * 4096.
Proof.
  unfold page_mask. rewrite <-Z.ldiff_land. change 0xfff with (Z.ones 12).
  rewrite Z.ldiff_ones_r, Z.shiftl_mul_pow2, Z.shiftr_div_pow2 by lia. done.
Qed.

Lemma page_mask_bound x : page_mask x ≤ x < page_mask x + 4096.
Proof. rewrite page_mask_floor. lia_div. Qed.

Lemma page_mask_aligned x : page_mask x mod 4096 = 0.
Proof. rewrite page_mask_floor. by rewrite Z.mod_mul by lia. Qed.

(** Without wrap-around [page_up] is the least page boundary not below [x]. *)
Lemma page_up_word x : word64 (page_up x).
Proof.
  unfold page_up. rewrite page_mask_floor. destruct (wrap_bound 64 (x + 0xfff)) as [Hlo Hhi]; [lia|].
  unfold word64, wrap64 in *. lia_div.
Qed.

Lemma page_up_ceil x : 0 ≤ x → x + 0xfff < 2 ^ 64 → page_up x = page_ceil x.
Proof. intros. unfold page_up, page_ceil. rewrite wrap_small by lia. by rewrite page_mask_floor. Qed.

Lemma page_ceil_bound x : x ≤ page_ceil x < x + 4096.
Proof. unfold page_ceil. lia_div. Qed.

Lemma page_ceil_aligned x : page_ceil x mod 4096 = 0.
Proof. unfold page_ceil. by rewrite Z.mod_mul by lia. Qed.

Definition MAP_FAILED : Z := 2 ^ 64 - 1.

Section mmap.
Context `{Kernel}.

(** [mmap(hint, len, prot, MAP_SHARED | MAP_ANONYMOUS, -1, 0)]. *)
Definition mmap_anonymous (hint len prot : Z) : P Z := λ s,
  match mmap_place (regions (p_mem s)) hint len with
  | Some a => Ok (a, set_mem (map_zero (p_mem s) a len prot) s)
  | None => Ok (MAP_FAILED, s)
  end.

(** [mmap(NULL, len, prot, MAP_PRIVATE, fd, 0)] of a file with contents [bs]. *)
Definition mmap_file (len prot : Z) (bs : list Z) : P Z := λ s,
  match mmap_place (regions (p_mem s)) 0 len with
  | Some a => Ok (a, set_mem (map_bytes (p_mem s) a len prot bs) s)
  | None => Ok (MAP_FAILED, s)
  end.
End mmap.

(** [munmap(addr, len)]: whole pages; an address that is not on a page boundary, an
    empty range and one outside of the user address space are refused ([EINVAL]).
    Memory that is not mapped may be part of the range. *)
Definition munmap (addr len : Z) : P unit := λ s,
  if (addr mod 4096 =? 0) && (0 <? len) && (0 <=? addr) && (addr + page_ceil len <=? 2 ^ 47)
  then Ok (tt, set_mem (unmap (p_mem s) addr (page_ceil len)) s)
  else Ok (tt, s).
