(* ===== verification/ElfBinary.v ===== *)
(** * ELFBinary (dyn_loader.h, dyn_loader.cc)

    One loaded object: its constructor (map the file, read the program
    headers), [Load] (map and fill the segments), [ParseDynamic] (read the
    dynamic section, the relocation tables and the symbol table back from the
    loaded image) and [GetSymbolAddr]. *)

From S2P Require Import Prelude Memory Digits Elf Utils Os.

Record ELFBinary := mkELFBinary {
  path_ : string;
  file_base_addr_ : Z;
  base_addr_ : Z;
  end_addr_ : Z;
  ehdr_ : Elf64_Ehdr;
  rela_ : Z;
  jmprel_ : Z;
  relas_ : list Elf64_Rela;
  pltrelas_ : list Elf64_Rela;
  relasz_ : Z;
  relacount_ : Z;
  relaent_ : Z;
  pltrelsz_ : Z;
  pltrel_ : Z;
  pltrelent_ : Z;
  init_ : Z;
  fini_ : Z;
  init_arraysz_ : Z;
  init_array_ : Z;
  fini_arraysz_ : Z;
  fini_array_ : Z;
  symtab_ : Z;
  symtabs_ : list Elf64_Sym;
  syment_ : Z;
  file_phdrs_ : list Elf64_Phdr;
  file_dynamic_ : Elf64_Phdr;
  has_tls_ : bool;
  file_tls_ : option Elf64_Phdr;   (** [None]: the member is still indeterminate *)
  neededs_ : list string;
  runpath_ : option string;
  rpath_ : option string;
  strtab_ : Z;
  strsz_ : Z
}.

#[export] Instance ELFBinary_settable : Settable ELFBinary := λ b,
  mkELFBinary (path_ b) (file_base_addr_ b) (base_addr_ b) (end_addr_ b) (ehdr_ b) (rela_ b)
    (jmprel_ b) (relas_ b) (pltrelas_ b) (relasz_ b) (relacount_ b) (relaent_ b) (pltrelsz_ b)
    (pltrel_ b) (pltrelent_ b) (init_ b) (fini_ b) (init_arraysz_ b) (init_array_ b)
    (fini_arraysz_ b) (fini_array_ b) (symtab_ b) (symtabs_ b) (syment_ b) (file_phdrs_ b)
    (file_dynamic_ b) (has_tls_ b) (file_tls_ b) (neededs_ b) (runpath_ b) (rpath_ b)
    (strtab_ b) (strsz_ b).

#[export] Instance ELFBinary_eq_dec : EqDecision ELFBinary.
Proof. solve_decision. Defined.

(** The default member initialisers of the class. *)
Definition new_binary (path : string) (file_base : Z) (h : Elf64_Ehdr) : ELFBinary :=
  mkELFBinary path file_base 0 0 h 0 0 [] [] 0 0 0 0 0 0 0 0 0 0 0 0 0 [] 0 []
    (mkPhdr 0 0 0 0 0 0 0 0) false None [] None None 0 0.

(** ** Constructor *)

(** The address of the [i]-th program header; the product of the two 16-bit
    integers is one of [int]. *)
Definition phdr_address (file_base : Z) (h : Elf64_Ehdr) (i : Z) : outcome Z :=
  off ← int_result (i * e_phentsize h);
  mret (wrap64 (file_base + e_phoff h + off)).

Definition read_phdrs_step (m : memory) (b : ELFBinary) (i : Z) : outcome ELFBinary :=
  a ← phdr_address (file_base_addr_ b) (ehdr_ b) i;
  ph ← read_phdr m a;
  let b := b <| file_phdrs_ := file_phdrs_ b ++ [ph] |> in
  mret (if p_type ph =? PT_DYNAMIC then b <| file_dynamic_ := ph |>
        else if p_type ph =? PT_TLS then b <| has_tls_ := true |> <| file_tls_ := Some ph |>
        else b).

Section constructor.
Context `{FileSystem} `{Kernel}.

Definition ELFBinary_new (path : string) : P ELFBinary :=
  contents ← (match open_file path with
              | Some bs => mret bs
              | None => mthrow CheckFailed          (* CHECK(fd >= 0) *)
              end : P (list Z));
  let size := Z.of_nat (length contents) in
  CHECK (8 + 16 <? size) ;;
  let mapped_size := page_up size in
  file_base ← mmap_file mapped_size (PROT_READ + PROT_WRITE + PROT_EXEC) contents;
  CHECK (negb (file_base =? MAP_FAILED)) ;;
  h ← with_mem (λ m, read_ehdr m file_base);
  with_mem (λ m, foldM (read_phdrs_step m) (new_binary path file_base h) (seqZ 0 (e_phnum h))).
End constructor.

(** ** ParseDynamic *)

Definition dyn_addr (b : ELFBinary) (i : Z) : Z :=
  wrap64 (base_addr_ b + p_vaddr (file_dynamic_ b) + sizeof_Dyn * i).

(** First pass: the string table. *)
Definition parse_strtab_step (b : ELFBinary) (dyn : Elf64_Dyn) : ELFBinary :=
  if d_tag dyn =? DT_STRTAB then b <| strtab_ := wrap64 (d_un dyn + base_addr_ b) |>
  else if d_tag dyn =? DT_STRSZ then b <| strsz_ := d_un dyn |>
  else b.

(** Second pass: everything else. The strings are read where the pointer points;
    for the pointer 0 the constructor of [std::string] throws where the model reads
    at address 0. *)
Definition parse_dyn_step (m : memory) (b : ELFBinary) (dyn : Elf64_Dyn) : outcome ELFBinary :=
  let tag := d_tag dyn in
  let val := d_un dyn in
  if tag =? DT_NEEDED then
    needed ← read_cstr m (wrap64 (strtab_ b + val));
    mret (b <| neededs_ := neededs_ b ++ [needed] |>)
  else if tag =? DT_RUNPATH then
    s ← read_cstr m (wrap64 (strtab_ b + val)); mret (b <| runpath_ := Some s |>)
  else if tag =? DT_RPATH then
    s ← read_cstr m (wrap64 (strtab_ b + val)); mret (b <| rpath_ := Some s |>)
  else if tag =? DT_RELA then mret (b <| rela_ := wrap64 (base_addr_ b + val) |>)
  else if tag =? DT_RELASZ then mret (b <| relasz_ := val |>)
  else if tag =? DT_RELAENT then mret (b <| relaent_ := val |>)
  else if tag =? DT_RELACOUNT then mret (b <| relacount_ := val |>)
  else if tag =? DT_JMPREL then mret (b <| jmprel_ := wrap64 (base_addr_ b + val) |>)
  else if tag =? DT_PLTRELSZ then mret (b <| pltrelsz_ := val |>)
  else if tag =? DT_PLTREL then
    CHECK ((val =? DT_RELA) || (val =? DT_REL)) ;;
    mret (b <| pltrel_ := val |>
            <| pltrelent_ := if val =? DT_RELA then sizeof_Rela else sizeof_Rel |>)
  else if tag =? DT_SYMTAB then mret (b <| symtab_ := wrap64 (base_addr_ b + val) |>)
  else if tag =? DT_SYMENT then
    CHECK (val =? sizeof_Sym) ;; mret (b <| syment_ := val |>)
  else if tag =? DT_INIT then mret (b <| init_ := val |>)
  else if tag =? DT_FINI then mret (b <| fini_ := val |>)
  else if tag =? DT_INIT_ARRAY then mret (b <| init_array_ := val |>)
  else if tag =? DT_INIT_ARRAYSZ then mret (b <| init_arraysz_ := val |>)
  else if tag =? DT_FINI_ARRAY then mret (b <| fini_array_ := val |>)
  else if tag =? DT_FINI_ARRAYSZ then mret (b <| fini_arraysz_ := val |>)
  else mret b.

Definition umod (a b : Z) : outcome Z := if b =? 0 then Err Sigfpe else Ok (a mod b).

(** A table of [Elf64_Rela]: the stride is the size of the record. *)
Definition read_relas (m : memory) (a n : Z) : outcome (list Elf64_Rela) :=
  foldM (λ acc i, r ← read_rela m (wrap64 (a + sizeof_Rela * i)); mret (acc ++ [r])) [] (seqZ 0 n).

Definition parse_relas (m : memory) (b : ELFBinary) : outcome ELFBinary :=
  if rela_ b =? 0 then mret b
  else
    rem ← umod (relasz_ b) (relaent_ b);
    CHECK (rem =? 0) ;;
    rs ← read_relas m (rela_ b) (relasz_ b / relaent_ b);
    mret (b <| relas_ := relas_ b ++ rs |>).

Definition parse_pltrelas (m : memory) (b : ELFBinary) : outcome ELFBinary :=
  if jmprel_ b =? 0 then mret b
  else
    rem ← umod (pltrelsz_ b) (pltrelent_ b);
    CHECK (rem =? 0) ;;
    CHECK (pltrel_ b =? DT_RELA) ;;
    rs ← read_relas m (jmprel_ b) (pltrelsz_ b / pltrelent_ b);
    mret (b <| pltrelas_ := pltrelas_ b ++ rs |>).

(** The walk over the symbol table: it goes on as long as the name of the next
    entry is an offset into the string table. *)
Definition symtab_step (m : memory) (strsz : Z) (st : Z * list Elf64_Sym) :
    outcome ((Z * list Elf64_Sym) + list Elf64_Sym) :=
  name ← load_word m 4 st.1;
  if name <? strsz then
    s ← read_sym m st.1; mret (inl (st.1 + sizeof_Sym, st.2 ++ [s]))
  else mret (inr st.2).

Definition parse_symtab (m : memory) (b : ELFBinary) : outcome ELFBinary :=
  if symtab_ b =? 0 then mret b
  else
    s ← read_sym m (symtab_ b);
    syms ← while (symtab_step m (strsz_ b)) (symtab_ b + sizeof_Sym, symtabs_ b ++ [s]);
    (* LOG(INFO) << ShowSym(s, strtab_) is evaluated for every symbol *)
    foldM (λ _ s, ShowSym m s (strtab_ b) ;; mret tt) tt syms ;;
    mret (b <| symtabs_ := syms |>).

Definition ParseDynamic (m : memory) (b : ELFBinary) : outcome ELFBinary :=
  CHECK (negb (base_addr_ b =? 0) || (e_type (ehdr_ b) =? ET_EXEC)) ;;
  CHECK (p_filesz (file_dynamic_ b) mod sizeof_Dyn =? 0) ;;
  let entries := seqZ 0 (p_filesz (file_dynamic_ b) / sizeof_Dyn) in
  b ← foldM (λ b i, dyn ← read_dyn m (dyn_addr b i); mret (parse_strtab_step b dyn)) b entries;
  CHECK (negb (strtab_ b =? 0) || (e_type (ehdr_ b) =? ET_EXEC)) ;;
  b ← foldM (λ b i, dyn ← read_dyn m (dyn_addr b i); parse_dyn_step m b dyn) b entries;
  b ← parse_relas m b;
  b ← parse_pltrelas m b;
  parse_symtab m b.

(** ** Load *)

Definition has_flag (flags f : Z) : bool := negb (Z.land flags f =? 0).

(** The protection and its text. Write access is always asked for. *)
Definition segment_prot (p_flags : Z) : Z :=
  Z.lor (Z.lor (if has_flag p_flags PF_R then PROT_READ else 0) PROT_WRITE)
        (if has_flag p_flags PF_X then PROT_EXEC else 0).
Definition segment_flags_str (p_flags : Z) : string :=
  ((if has_flag p_flags PF_R then "r" else "_") +:+ "w" +:+
   (if has_flag p_flags PF_X then "x" else "_"))%string.

Definition seg_start (base : Z) (ph : Elf64_Phdr) : Z := page_mask (wrap64 (p_vaddr ph + base)).
Definition seg_end (base : Z) (ph : Elf64_Phdr) : Z := page_up (p_vaddr ph + p_memsz ph + base).

Definition map_line (path : string) (base : Z) (ph : Elf64_Phdr) : string :=
  (path +:+ " " +:+ HexString 8 (p_offset ph) 16 +:+ "-" +:+
   HexString 8 (p_offset ph + p_filesz ph) 16 +:+ " " +:+
   segment_flags_str (p_flags ph) +:+ " " +:+ HexString 8 (p_filesz ph) 16 +:+ " => " +:+
   HexString_ptr (seg_start base ph) 16 +:+ "-" +:+ HexString_ptr (seg_end base ph) 16)%string.

Definition round_base (x : Z) : Z := wrap64 (x + (0x400000 - 1)) / 0x400000 * 0x400000.

Section load.
Context `{Kernel}.

Definition load_segment (b : ELFBinary) (ph : Elf64_Phdr) : P ELFBinary :=
  if negb (p_type ph =? PT_LOAD) then mret b
  else
    let base := base_addr_ b in
    let mmap_start := seg_start base ph in
    let mmap_end := seg_end base ph in
    let b := b <| end_addr_ := mmap_end |> in
    let mmap_size := wrap64 (mmap_end - mmap_start) in
    p ← mmap_anonymous mmap_start mmap_size (segment_prot (p_flags ph));
    CHECK (mmap_start =? p) ;;
    CHECK (mmap_start <=? wrap64 (p_vaddr ph + base)) ;;
    CHECK (wrap64 (p_vaddr ph + base + p_memsz ph) <=? mmap_end) ;;
    modify (add_map_line (map_line (path_ b) base ph)) ;;
    update_mem (λ m, memcpy m (wrap64 (p_vaddr ph + base))
                            (wrap64 (file_base_addr_ b + p_offset ph)) (p_filesz ph)) ;;
    mret b.

(** Returns the base address for the next binary and the updated object. *)
Definition Load (b : ELFBinary) (base_addr_arg : Z) : P (Z * ELFBinary) :=
  let base := if e_type (ehdr_ b) =? ET_DYN then base_addr_arg else 0 in
  let b := b <| base_addr_ := base |> <| end_addr_ := base |> in
  b ← foldM load_segment b (file_phdrs_ b);
  b ← with_mem (λ m, ParseDynamic m b);
  mret (round_base (end_addr_ b), b).
End load.

(** ** Accessors

    The other ones are the fields themselves. *)

Definition filename (b : ELFBinary) : string := path_filename (path_ b).

(** ** GetSymbolAddr *)

Definition GetSymbolAddr (b : ELFBinary) (symbol_index : nat) : outcome Z :=
  match symtabs_ b !! symbol_index with
  | Some s => Ok (wrap64 (st_value s + base_addr_ b))
  | None => Err CheckFailed                        (* CHECK_LT(symbol_index, size) *)
  end.

(** * Loading segments *)

(** [m'] has everything [m] has: the mapped bytes of [m] are still mapped and
    hold the same values. *)
Definition extends (m m' : memory) : Prop :=
  ∀ x, mapped m x = true → mapped m' x = true ∧ byte_at m' x = byte_at m x.

#[export] Instance extends_preorder : PreOrder extends.
Proof.
  split; [by intros m x|]. intros m1 m2 m3 H1 H2 x Hx.
  destruct (H1 x Hx) as [Hx2 E1]. destruct (H2 x Hx2) as [Hx3 E2]. by rewrite E2.
Qed.

Lemma extends_range m m' a n :
  extends m m' → mapped_range m a n = true →
  mapped_range m' a n = true ∧ peek m' a n = peek m a n.
Proof.
  intros He Hm. rewrite mapped_range_spec in Hm. split.
  - apply mapped_range_spec. intros x Hx. by apply He, Hm.
  - apply peek_ext. intros x Hx. by apply He, Hm.
Qed.

(** Everything that was mapped still is, and has changed at most inside [W]. *)
Definition kept_off (W : Z → Prop) (m m' : memory) : Prop :=
  ∀ x, mapped m x = true → mapped m' x = true ∧ (¬ W x → byte_at m' x = byte_at m x).

#[export] Instance kept_off_preorder W : PreOrder (kept_off W).
Proof.
  split; [by intros m x|]. intros m1 m2 m3 H1 H2 x Hx.
  destruct (H1 x Hx) as [Hx2 E1]. destruct (H2 x Hx2) as [Hx3 E2]. split; [done|]. intros HW. by rewrite E2, E1.
Qed.

Lemma kept_off_weaken (W W' : Z → Prop) m m' : kept_off W m m' → (∀ x, W x → W' x) → kept_off W' m m'.
Proof. intros Hk HW x Hx. destruct (Hk x Hx) as [? Hb]. split; [done|]. auto. Qed.

Lemma extends_kept_off W m m' : extends m m' → kept_off W m m'.
Proof. intros He x Hx. by destruct (He x Hx). Qed.

Lemma kept_off_extends (W : Z → Prop) m m' : kept_off W m m' → (∀ x, ¬ W x) → extends m m'.
Proof. intros Hk HW x Hx. destruct (Hk x Hx) as [? Hb]. auto. Qed.

(** The addresses of a segment do not wrap around. *)
Definition seg_nowrap (base : Z) (ph : Elf64_Phdr) : Prop :=
  0 ≤ base ∧ 0 ≤ p_vaddr ph ∧ 0 ≤ p_memsz ph ∧
  p_vaddr ph + p_memsz ph + base + 0xfff < 2 ^ 64.

Definition seg_va (base : Z) (ph : Elf64_Phdr) : Z := wrap64 (p_vaddr ph + base).

Lemma seg_va_nowrap base ph : seg_nowrap base ph → seg_va base ph = p_vaddr ph + base.
Proof. intros (? & ? & ? & ?). apply wrap_small. lia. Qed.

Lemma seg_bounds base ph :
  seg_nowrap base ph →
  seg_start base ph ≤ seg_va base ph ∧ seg_va base ph + p_memsz ph ≤ seg_end base ph ∧
  seg_start base ph mod 4096 = 0 ∧ seg_end base ph mod 4096 = 0 ∧
  seg_end base ph < seg_va base ph + p_memsz ph + 4096 ∧ 0 ≤ seg_start base ph.
Proof.
  intros Hn. rewrite (seg_va_nowrap _ _ Hn). destruct Hn as (? & ? & ? & ?).
  unfold seg_start, seg_end. rewrite page_up_ceil, wrap_small by lia.
  pose proof (page_mask_bound (p_vaddr ph + base)).
  pose proof (page_ceil_bound (p_vaddr ph + p_memsz ph + base)).
  rewrite page_mask_aligned, page_ceil_aligned. repeat split; try lia.
  rewrite page_mask_floor. lia_div.
Qed.

Definition loads (phs : list Elf64_Phdr) : list Elf64_Phdr :=
  filter (λ ph, p_type ph = PT_LOAD) phs.

Lemma elem_of_loads ph phs : ph ∈ loads phs ↔ p_type ph = PT_LOAD ∧ ph ∈ phs.
Proof. unfold loads. by rewrite list_elem_of_filter. Qed.

(** Where the file's bytes of a segment run past its last page: nothing keeps
    [p_filesz] below [p_memsz]. *)
Definition spill (base : Z) (ph : Elf64_Phdr) (x : Z) : Prop :=
  seg_end base ph ≤ x < seg_va base ph + p_filesz ph.
Definition spills (base : Z) (phs : list Elf64_Phdr) (x : Z) : Prop :=
  ∃ ph, ph ∈ loads phs ∧ spill base ph x.

Lemma spill_none base ph x : seg_nowrap base ph → p_filesz ph ≤ p_memsz ph → ¬ spill base ph x.
Proof. intros Hn Hsz. unfold spill. pose proof (seg_bounds base ph Hn). lia. Qed.

(** What an executable file promises about a loadable segment, and that its
    bytes are part of the mapped file. *)
Record seg_wf (m : memory) (base file_base : Z) (ph : Elf64_Phdr) : Prop := {
  seg_wf_nowrap : seg_nowrap base ph;
  seg_wf_filesz : 0 ≤ p_filesz ph ≤ p_memsz ph;
  seg_wf_file : mapped_range m (wrap64 (file_base + p_offset ph)) (p_filesz ph) = true
}.

(** The segment is in memory as the program header says: the bytes of the file
    ([m0] is the memory that holds the mapped file), then zeros. *)
Record seg_image (m0 m : memory) (base file_base : Z) (ph : Elf64_Phdr) : Prop := {
  seg_image_mapped : mapped_range m (seg_va base ph) (p_memsz ph) = true;
  seg_image_file : peek m (seg_va base ph) (p_filesz ph) =
                   peek m0 (wrap64 (file_base + p_offset ph)) (p_filesz ph);
  seg_image_bss : ∀ x, seg_va base ph + p_filesz ph ≤ x < seg_va base ph + p_memsz ph →
                  byte_at m x = 0
}.

Lemma seg_image_extends m0 m m' base fb ph :
  0 ≤ p_filesz ph ≤ p_memsz ph →
  extends m m' → seg_image m0 m base fb ph → seg_image m0 m' base fb ph.
Proof.
  intros Hf He [Hm Hfile Hbss]. destruct (extends_range _ _ _ _ He Hm) as [Hm' Hp].
  rewrite mapped_range_spec in Hm. split; [done| |].
  - rewrite <-Hfile. apply peek_ext. intros x Hx. apply He, Hm. lia.
  - intros x Hx. rewrite <-(Hbss x Hx). apply He, Hm. lia.
Qed.

Section load_lemmas.
Context `{KernelSpec}.

Lemma mmap_anonymous_ok hint len prot s a s' :
  mmap_anonymous hint len prot s = Ok (a, s') →
  (a = MAP_FAILED ∧ s' = s) ∨
  (mmap_place (regions (p_mem s)) hint len = Some a ∧
   s' = set_mem (map_zero (p_mem s) a len prot) s).
Proof. unfold mmap_anonymous. destruct (mmap_place _ _ _); intros; simplify_eq; auto. Qed.

(** One segment: the kernel gave exactly the wanted range, and the memory
    afterwards is the old one with that range mapped and filled. *)
Lemma load_segment_ok b ph s b' s' :
  load_segment b ph s = Ok (b', s') → p_type ph = PT_LOAD →
  let base := base_addr_ b in
  let start := seg_start base ph in
  let len := wrap64 (seg_end base ph - start) in
  let m1 := map_zero (p_mem s) start len (segment_prot (p_flags ph)) in
  let src := wrap64 (file_base_addr_ b + p_offset ph) in
  mmap_place (regions (p_mem s)) start len = Some start ∧
  b' = b <| end_addr_ := seg_end base ph |> ∧
  mapped_range m1 src (p_filesz ph) = true ∧
  p_mem s' = poke m1 (seg_va base ph) (peek m1 src (p_filesz ph)) ∧
  p_map_file s' = p_map_file s ++ [map_line (path_ b) base ph].
Proof.
  intros Hrun Ht. unfold load_segment in Hrun. rewrite Ht in Hrun. simpl in Hrun. inv_proc.
  match goal with H : (_ =? _) = true |- _ => apply Z.eqb_eq in H; subst end.
  match goal with H : mmap_anonymous _ _ _ _ = _ |- _ =>
    apply mmap_anonymous_ok in H as [[Hf ->]|[Hplace ->]] end.
  { exfalso. unfold MAP_FAILED in Hf. pose proof (page_mask_aligned (wrap64 (p_vaddr ph + base_addr_ b))) as Ha.
    unfold seg_start in Hf. rewrite Hf in Ha. vm_compute in Ha. done. }
  match goal with H : memcpy _ _ _ _ = _ |- _ => apply memcpy_ok in H as (? & ? & ->) end.
  done.
Qed.

Lemma load_segment_skip b ph s : p_type ph ≠ PT_LOAD → load_segment b ph s = Ok (b, s).
Proof. intros Ht. unfold load_segment. apply Z.eqb_neq in Ht. by rewrite Ht. Qed.

(** Mapping a range the kernel chose leaves the existing mappings alone. *)
Lemma map_zero_extends m hint len a prot :
  mmap_place (regions m) hint len = Some a → extends m (map_zero m a len prot).
Proof.
  intros Hp x Hx. rewrite mapped_map_zero, Hx, orb_true_r. split; [done|].
  apply byte_at_map_zero_out. apply mapped_spec in Hx as (r & Hr & Hx).
  eapply overlaps_false_range; [|exact Hx]. by eapply mmap_fresh.
Qed.

Lemma load_segment_image b ph s b' s' :
  load_segment b ph s = Ok (b', s') → p_type ph = PT_LOAD →
  seg_wf (p_mem s) (base_addr_ b) (file_base_addr_ b) ph →
  extends (p_mem s) (p_mem s') ∧
  seg_image (p_mem s) (p_mem s') (base_addr_ b) (file_base_addr_ b) ph.
Proof.
  intros Hrun Ht [Hn Hf Hfile]. destruct (load_segment_ok _ _ _ _ _ Hrun Ht) as (Hp & _ & _ & -> & _).
  set (base := base_addr_ b) in *. set (start := seg_start base ph) in *.
  set (len := wrap64 (seg_end base ph - start)) in *.
  set (src := wrap64 (file_base_addr_ b + p_offset ph)) in *.
  set (m1 := map_zero (p_mem s) start len (segment_prot (p_flags ph))) in *.
  destruct (seg_bounds base ph Hn) as (Hb1 & Hb2 & _ & _ & _ & Hb3).
  destruct (mmap_user _ _ _ _ Hp) as (Hu1 & Hu2 & Hu3).
  assert (Hlen : len = seg_end base ph - start).
  { unfold len. apply wrap_small. destruct Hn as (?&?&?&?). rewrite seg_va_nowrap in * by done.
    pose proof (seg_bounds base ph ltac:(done)) as Hb. rewrite seg_va_nowrap in Hb by done.
    unfold start. lia. }
  pose proof (map_zero_extends _ _ _ _ (segment_prot (p_flags ph)) Hp) as He1.
  destruct (extends_range _ _ _ _ He1 Hfile) as [_ Hpeek]. fold m1 in Hpeek.
  assert (Hl : Z.of_nat (length (peek m1 src (p_filesz ph))) = p_filesz ph)
    by (rewrite length_peek; lia).
  assert (Hin : ∀ x, mapped (p_mem s) x = true → ¬ (start ≤ x < start + len)).
  { intros x (r & Hr & Hx)%mapped_spec. eapply overlaps_false_range; [|exact Hx].
    by eapply mmap_fresh. }
  split; [|split].
  - intros x Hx. rewrite mapped_poke, byte_at_poke_out; [by apply He1|].
    rewrite Hl. specialize (Hin x Hx). lia.
  - apply mapped_range_spec. intros x Hx. rewrite mapped_poke. unfold m1.
    rewrite mapped_map_zero, bool_decide_true by lia. done.
  - fold src. rewrite <-Hpeek. by apply peek_poke_len.
  - intros x Hx. rewrite byte_at_poke_out by (rewrite Hl; lia).
    apply byte_at_map_zero_in. lia.
Qed.

(** Without any promise about the sizes: the segment may overwrite what is mapped
    behind its pages, and it does when its file part is long enough. *)
Lemma load_segment_range b ph s b' s' :
  load_segment b ph s = Ok (b', s') → p_type ph = PT_LOAD →
  let base := base_addr_ b in
  wrap64 (seg_end base ph - seg_start base ph) = seg_end base ph - seg_start base ph ∧
  seg_start base ph ≤ seg_va base ph < seg_end base ph ∧
  ∀ x, mapped (p_mem s) x = true → ¬ (seg_start base ph ≤ x < seg_end base ph).
Proof.
  intros Hrun Ht base. destruct (load_segment_ok _ _ _ _ _ Hrun Ht) as (Hp & _). fold base in Hp.
  destruct (mmap_user _ _ _ _ Hp) as (Hu1 & Hu2 & Hu3).
  assert (Hlen : wrap64 (seg_end base ph - seg_start base ph) = seg_end base ph - seg_start base ph).
  { pose proof (page_up_word (p_vaddr ph + p_memsz ph + base)) as He. unfold seg_end, word64, wrap in *. lia_div. }
  split; [exact Hlen|]. split.
  { rewrite Hlen in Hu2. clear -Hu2. unfold seg_end, page_up, seg_start in *. fold (seg_va base ph) in *.
    rewrite !page_mask_floor in *. lia_div. }
  intros x (r & Hr & Hx)%mapped_spec Hin. pose proof (mmap_fresh _ _ _ _ r Hp Hr) as Hov. rewrite Hlen in Hov.
  eapply overlaps_false_range; [exact Hov|exact Hx|lia].
Qed.

Lemma load_segment_frame b ph s b' s' :
  load_segment b ph s = Ok (b', s') → p_type ph = PT_LOAD →
  kept_off (spill (base_addr_ b) ph) (p_mem s) (p_mem s').
Proof.
  intros Hrun Ht. destruct (load_segment_range _ _ _ _ _ Hrun Ht) as (Hlen & Hstart & Hfree).
  destruct (load_segment_ok _ _ _ _ _ Hrun Ht) as (Hp & _ & _ & -> & _). set (base := base_addr_ b) in *.
  intros x Hx. destruct (map_zero_extends _ _ _ _ (segment_prot (p_flags ph)) Hp x Hx) as [Hx1 Hb1].
  split; [by rewrite mapped_poke|]. intros Hns. rewrite byte_at_poke_out; [exact Hb1|].
  rewrite length_peek. specialize (Hfree x Hx). unfold spill in Hns. lia.
Qed.

Lemma load_segment_spills b ph s b' s' x :
  load_segment b ph s = Ok (b', s') → p_type ph = PT_LOAD →
  let src := wrap64 (file_base_addr_ b + p_offset ph) in
  mapped_range (p_mem s) src (p_filesz ph) = true → spill (base_addr_ b) ph x →
  byte_at (p_mem s') x = byte_at (p_mem s) (src + (x - seg_va (base_addr_ b) ph)).
Proof.
  intros Hrun Ht src Hsrc Hx. destruct (load_segment_range _ _ _ _ _ Hrun Ht) as (Hlen & Hstart & _).
  destruct (load_segment_ok _ _ _ _ _ Hrun Ht) as (Hp & _ & _ & -> & _). fold src. set (base := base_addr_ b) in *.
  destruct (mmap_user _ _ _ _ Hp) as (Hu1 & Hu2 & Hu3). unfold spill in Hx.
  set (m1 := map_zero _ _ _ _). assert (He : extends (p_mem s) m1) by by eapply map_zero_extends.
  rewrite mapped_range_spec in Hsrc.
  destruct (He (src + (x - seg_va base ph))) as [_ <-]; [apply Hsrc; lia|].
  set (va := seg_va base ph) in *. replace x with (va + Z.of_nat (Z.to_nat (x - va))) by lia.
  rewrite (byte_at_poke_in _ _ _ _ (byte_at m1 (src + Z.of_nat (Z.to_nat (x - va))))); [f_equal; lia|].
  apply peek_lookup. lia.
Qed.

(** The loop over the program headers. *)
Lemma load_segments_frame phs b s b' s' :
  foldM load_segment b phs s = Ok (b', s') →
  kept_off (spills (base_addr_ b) phs) (p_mem s) (p_mem s').
Proof.
  revert b s. induction phs as [|ph phs IH]; intros b s Hrun; simpl in Hrun; inv_proc; [done|].
  assert (∀ y, spills (base_addr_ b) phs y → spills (base_addr_ b) (ph :: phs) y) as Hsub.
  { intros y (ph' & [? ?]%elem_of_loads & ?). exists ph'. split; [apply elem_of_loads; set_solver|done]. }
  destruct (decide (p_type ph = PT_LOAD)) as [Ht|Ht].
  2: { rewrite load_segment_skip in * by done. simplify_eq. eapply kept_off_weaken; [by apply IH|exact Hsub]. }
  match goal with H : load_segment _ _ _ = _, H' : foldM _ _ _ _ = _ |- _ =>
    pose proof (load_segment_ok _ _ _ _ _ H Ht) as (_ & -> & _);
    apply load_segment_frame in H as Hk1; [|exact Ht]; pose proof (IH _ _ H') as Hk2 end.
  etrans; [eapply kept_off_weaken; [exact Hk1|]|eapply kept_off_weaken; [exact Hk2|exact Hsub]].
  intros y Hy. exists ph. split; [apply elem_of_loads; split; [done|left]|exact Hy].
Qed.

Lemma load_segments_image phs b s b' s' :
  foldM load_segment b phs s = Ok (b', s') →
  (∀ ph, ph ∈ phs → p_type ph = PT_LOAD →
     seg_wf (p_mem s) (base_addr_ b) (file_base_addr_ b) ph) →
  extends (p_mem s) (p_mem s') ∧
  ∀ ph, ph ∈ phs → p_type ph = PT_LOAD →
    seg_image (p_mem s) (p_mem s') (base_addr_ b) (file_base_addr_ b) ph.
Proof.
  revert b s. induction phs as [|ph phs IH]; intros b s Hrun Hwf; simpl in Hrun; inv_proc.
  { split; [done|]. by intros ? ?%elem_of_nil. }
  destruct (decide (p_type ph = PT_LOAD)) as [Ht|Ht].
  2: { rewrite load_segment_skip in * by done. simplify_eq.
       destruct (IH _ _ ltac:(done)) as [He Himg]; [set_solver|].
       split; [done|]. intros ph' [->|?]%elem_of_cons ?; [done|auto]. }
  match goal with H : load_segment _ _ _ = _ |- _ =>
    pose proof (load_segment_ok _ _ _ _ _ H Ht) as (_ & -> & _);
    apply load_segment_image in H as [He1 Himg1]; [|done|apply Hwf; [set_solver|done]] end.
  match goal with H : foldM _ _ _ ?s1 = _ |- _ => destruct (IH _ _ H) as [He2 Himg2] end.
  { simpl. intros ph' Hin Ht'. destruct (Hwf ph') as [? ? Hfile]; [set_solver|done|].
    split; [done..|]. by eapply extends_range. }
  simpl in *. split; [by etrans|]. intros ph' [->|Hin]%elem_of_cons Ht'.
  - eapply seg_image_extends; [apply Hwf; [set_solver|done]|done|done].
  - destruct (Himg2 ph' Hin Ht') as [? Hfile ?]. split; [done| |done]. rewrite Hfile.
    destruct (Hwf ph') as [? ? Hfm]; [set_solver|done|].
    by destruct (extends_range _ _ _ _ He1 Hfm).
Qed.
End load_lemmas.

(** ** ParseDynamic only fills in what it parses *)

Record same_image (b b' : ELFBinary) : Prop := {
  si_path : path_ b' = path_ b;
  si_file : file_base_addr_ b' = file_base_addr_ b;
  si_base : base_addr_ b' = base_addr_ b;
  si_end : end_addr_ b' = end_addr_ b;
  si_ehdr : ehdr_ b' = ehdr_ b;
  si_phdrs : file_phdrs_ b' = file_phdrs_ b;
  si_dynamic : file_dynamic_ b' = file_dynamic_ b;
  si_has_tls : has_tls_ b' = has_tls_ b;
  si_tls : file_tls_ b' = file_tls_ b
}.

#[export] Instance same_image_preorder : PreOrder same_image.
Proof. split; [done|]. intros b1 b2 b3 [] []. split; congruence. Qed.

Lemma parse_strtab_step_image b dyn : same_image b (parse_strtab_step b dyn).
Proof. unfold parse_strtab_step. repeat case_match; split; reflexivity. Qed.

Lemma parse_dyn_step_image m b dyn b' : parse_dyn_step m b dyn = Ok b' → same_image b b'.
Proof.
  unfold parse_dyn_step. intros Hrun.
  repeat match type of Hrun with (if ?c then _ else _) = _ => destruct c end.
  all: inv_ok; split; reflexivity.
Qed.

Lemma parse_relas_image m b b' : parse_relas m b = Ok b' → same_image b b'.
Proof. unfold parse_relas. destruct (rela_ b =? 0); intros; inv_ok; split; reflexivity. Qed.

Lemma parse_pltrelas_image m b b' : parse_pltrelas m b = Ok b' → same_image b b'.
Proof. unfold parse_pltrelas. destruct (jmprel_ b =? 0); intros; inv_ok; split; reflexivity. Qed.

Lemma parse_symtab_image m b b' : parse_symtab m b = Ok b' → same_image b b'.
Proof. unfold parse_symtab. destruct (symtab_ b =? 0); intros; inv_ok; split; reflexivity. Qed.

Lemma parse_strtab_loop_image m b l b' :
  foldM (λ b i, dyn ← read_dyn m (dyn_addr b i); mret (parse_strtab_step b dyn)) b l = Ok b' →
  same_image b b'.
Proof.
  apply (foldM_invariant _ (same_image b)); [|done].
  intros; inv_ok. etrans; [eassumption|]. apply parse_strtab_step_image.
Qed.

Lemma parse_dyn_loop_image m b l b' :
  foldM (λ b i, dyn ← read_dyn m (dyn_addr b i); parse_dyn_step m b dyn) b l = Ok b' →
  same_image b b'.
Proof.
  apply (foldM_invariant _ (same_image b)); [|done].
  intros; inv_ok. etrans; [eassumption|]. by eapply parse_dyn_step_image.
Qed.

Lemma ParseDynamic_image m b b' : ParseDynamic m b = Ok b' → same_image b b'.
Proof.
  unfold ParseDynamic. intros Hrun. inv_ok.
  repeat match goal with
  | H : foldM _ _ _ = Ok _ |- _ => first [apply parse_strtab_loop_image in H | apply parse_dyn_loop_image in H]
  | H : parse_relas _ _ = Ok _ |- _ => apply parse_relas_image in H
  | H : parse_pltrelas _ _ = Ok _ |- _ => apply parse_pltrelas_image in H
  | H : parse_symtab _ _ = Ok _ |- _ => apply parse_symtab_image in H
  end.
  by repeat (etrans; [eassumption|]).
Qed.

(** ** The mappings a load makes *)

Definition seg_region (base : Z) (ph : Elf64_Phdr) : region :=
  mkRegion (seg_start base ph) (seg_end base ph) (segment_prot (p_flags ph)).

(** The base address the loader uses for an object of its type. *)
Definition load_base (b : ELFBinary) (base_addr_arg : Z) : Z :=
  if e_type (ehdr_ b) =? ET_DYN then base_addr_arg else 0.

Lemma last_end_cons base d ph phs :
  from_option (seg_end base) d (last (ph :: phs)) = from_option (seg_end base) (seg_end base ph) (last phs).
Proof. rewrite last_cons. by destruct (last phs). Qed.

Section load_regions.
Context `{KernelSpec}.

Lemma load_segments_regions phs b s b' s' :
  foldM load_segment b phs s = Ok (b', s') →
  (∀ ph, ph ∈ phs → p_type ph = PT_LOAD → seg_nowrap (base_addr_ b) ph) →
  let base := base_addr_ b in
  b' = b <| end_addr_ := from_option (seg_end base) (end_addr_ b) (last (loads phs)) |> ∧
  regions (p_mem s') = rev (map (seg_region base) (loads phs)) ++ regions (p_mem s) ∧
  p_map_file s' = p_map_file s ++ map (map_line (path_ b) base) (loads phs) ∧
  (disjoint_regions (regions (p_mem s)) → disjoint_regions (regions (p_mem s'))) ∧
  (∀ ph, ph ∈ loads phs → 0 < seg_start base ph < seg_end base ph ∧ seg_end base ph ≤ 2 ^ 47).
Proof.
  revert b s. induction phs as [|ph phs IH]; intros b s Hrun Hn base; simpl in Hrun; inv_proc.
  { simpl. rewrite app_nil_r. split_and!; [by destruct b'|done..|]. by intros ? ?%elem_of_nil. }
  unfold loads. rewrite filter_cons. destruct (decide (p_type ph = PT_LOAD)) as [Ht|Ht].
  2: { rewrite load_segment_skip in * by done. simplify_eq. apply IH; [done|]. set_solver. }
  match goal with H : load_segment _ _ _ = _ |- _ =>
    apply load_segment_ok in H as (Hp & -> & _ & Hm & Hl); [|done] end.
  match goal with H : foldM _ _ _ ?s1 = _ |- _ =>
    destruct (IH _ _ H) as (-> & Hr & Hf & Hd & Hb); [set_solver|] end.
  change (base_addr_ (b <| end_addr_ := seg_end base ph |>)) with base in Hr, Hf, Hb |- *.
  change (path_ (b <| end_addr_ := seg_end base ph |>)) with (path_ b) in Hf.
  fold base in Hp, Hm, Hl.
  destruct (mmap_user _ _ _ _ Hp) as (Hu1 & Hu2 & Hu3).
  assert (Hlen : wrap64 (seg_end base ph - seg_start base ph) = seg_end base ph - seg_start base ph).
  { apply wrap_small. assert (Hnph : seg_nowrap base ph) by (apply Hn; [set_solver|done]).
    pose proof (seg_bounds base ph Hnph) as Hb'. rewrite seg_va_nowrap in Hb' by done.
    destruct Hnph as (? & ? & ? & ?). lia. }
  rewrite Hlen in *. rewrite last_end_cons.
  match goal with H : p_mem ?s0 = poke _ _ _ |- _ => rename s0 into s1 end.
  assert (Hreg : regions (p_mem s1) = seg_region base ph :: regions (p_mem s)).
  { rewrite Hm. simpl. unfold seg_region. do 2 f_equal. lia. }
  rewrite Hreg in Hr, Hd. split_and!.
  - reflexivity.
  - rewrite Hr. simpl. by rewrite <-app_assoc.
  - rewrite Hf, Hl. simpl. by rewrite <-app_assoc.
  - intros Hd0. apply Hd, disjoint_regions_cons; [|done]. intros r Hin. simpl.
    pose proof (mmap_fresh _ _ _ _ r Hp Hin) as Hov. by rewrite Zplus_minus in Hov.
  - intros ph' [->|Hin]%elem_of_cons; [lia|by apply Hb].
Qed.
End load_regions.

(** * Load *)

Lemma round_base_spec x :
  0 ≤ x → x + 0x3fffff < 2 ^ 64 →
  x ≤ round_base x < x + 0x400000 ∧ round_base x mod 0x400000 = 0.
Proof.
  intros. unfold round_base. rewrite wrap_small by lia. rewrite Z.mod_mul by lia. split; [|done]. lia_div.
Qed.

Section load_theorems.
Context `{KernelSpec}.

Lemma Load_ok b arg s next b' s' :
  Load b arg s = Ok ((next, b'), s') →
  let b0 := b <| base_addr_ := load_base b arg |> <| end_addr_ := load_base b arg |> in
  ∃ b1, foldM load_segment b0 (file_phdrs_ b) s = Ok (b1, s') ∧
        ParseDynamic (p_mem s') b1 = Ok b' ∧ next = round_base (end_addr_ b').
Proof. intros Hrun b0. unfold Load in Hrun. inv_proc. eauto. Qed.

(** C21: what a successful [Load] does to memory. For every file, nothing that
    was mapped before is unmapped, and it changes at most where the file part of a
    segment runs past the segment's own pages: the code does not compare [p_filesz]
    with [p_memsz], and overwrites what lies there ([load_segment_spills]). When the
    segments keep the rules of the format - addresses that do not wrap,
    [p_filesz <= p_memsz], the bytes in the mapped file - nothing that was mapped
    before has changed, and every loadable segment is in memory at its address
    relative to the base: the file's bytes, then zeros up to the memory size. *)
Theorem Load_image b arg s next b' s' :
  Load b arg s = Ok ((next, b'), s') →
  let base := load_base b arg in
  kept_off (spills base (file_phdrs_ b)) (p_mem s) (p_mem s') ∧
  ((∀ ph, ph ∈ loads (file_phdrs_ b) → seg_wf (p_mem s) base (file_base_addr_ b) ph) →
   extends (p_mem s) (p_mem s') ∧
   ∀ ph, ph ∈ loads (file_phdrs_ b) → seg_image (p_mem s) (p_mem s') base (file_base_addr_ b) ph).
Proof.
  intros (b1 & Hsegs & _ & _)%Load_ok base. split; [exact (load_segments_frame _ _ _ _ _ Hsegs)|]. intros Hwf.
  destruct (load_segments_image _ _ _ _ _ Hsegs) as [He Hi].
  - intros ph ? ?. by apply Hwf, elem_of_loads.
  - split; [exact He|]. intros ph [? ?]%elem_of_loads. by apply Hi.
Qed.

(** C30: the mappings a successful [Load] adds are exactly the page ranges of
    the loadable segments with their protections, in order; one line per segment
    goes to the map file; and mappings that were disjoint stay disjoint. *)
Theorem Load_mappings b arg s next b' s' :
  Load b arg s = Ok ((next, b'), s') →
  (∀ ph, ph ∈ file_phdrs_ b → p_type ph = PT_LOAD → seg_nowrap (load_base b arg) ph) →
  let base := load_base b arg in
  let segs := loads (file_phdrs_ b) in
  base_addr_ b' = base ∧
  end_addr_ b' = from_option (seg_end base) base (last segs) ∧
  regions (p_mem s') = rev (map (seg_region base) segs) ++ regions (p_mem s) ∧
  p_map_file s' = p_map_file s ++ map (map_line (path_ b) base) segs ∧
  (disjoint_regions (regions (p_mem s)) → disjoint_regions (regions (p_mem s'))).
Proof.
  intros (b1 & Hsegs & Hdyn & _)%Load_ok Hn base segs.
  apply load_segments_regions in Hsegs as (-> & ? & ? & ? & _); [|exact Hn].
  apply ParseDynamic_image in Hdyn as [_ _ Hb He _ _ _ _ _].
  by rewrite Hb, He.
Qed.

(** C31: the address [Load] returns for the next object is a multiple of 4 MiB,
    and when the program headers are in ascending order all the mappings that
    [Load] made lie below it and, for a page-aligned base, not below the base:
    consecutive objects get disjoint windows. *)
Theorem Load_window b arg s next b' s' :
  Load b arg s = Ok ((next, b'), s') →
  let base := load_base b arg in
  let segs := loads (file_phdrs_ b) in
  0 ≤ base ≤ 2 ^ 47 → base mod 4096 = 0 →
  (∀ ph, ph ∈ segs → seg_nowrap base ph) →
  (∀ ph ph', ph ∈ segs → last segs = Some ph' → seg_end base ph ≤ seg_end base ph') →
  next mod 0x400000 = 0 ∧ base ≤ next ∧ next < 2 ^ 48 ∧
  ∀ ph, ph ∈ segs → base ≤ seg_start base ph ∧ seg_end base ph ≤ next.
Proof.
  intros (b1 & Hsegs & Hdyn & ->)%Load_ok base segs Hbase Hal Hn Hasc.
  apply load_segments_regions in Hsegs as (-> & _ & _ & _ & Hb).
  2: { intros ph ? ?. apply Hn. by apply elem_of_loads. }
  apply ParseDynamic_image in Hdyn as [_ _ _ He _ _ _ _ _]. rewrite He.
  change (end_addr_ _) with (from_option (seg_end base) base (last segs)).
  change (∀ ph, ph ∈ segs → 0 < seg_start base ph < seg_end base ph ∧ seg_end base ph ≤ 2 ^ 47) in Hb.
  assert (Hlow : ∀ ph, ph ∈ segs → base ≤ seg_start base ph).
  { intros ph Hph. pose proof (Hn ph Hph) as Hnph. pose proof (seg_va_nowrap _ _ Hnph) as Hva.
    destruct Hnph as (? & ? & ? & ?). unfold seg_start. fold (seg_va base ph). rewrite Hva, page_mask_floor. lia_div. }
  destruct (last segs) as [l|] eqn:El; simpl.
  - assert (Hl : l ∈ segs) by (apply last_Some in El as [? ->]; set_solver).
    pose proof (Hb l Hl). pose proof (Hlow l Hl).
    destruct (round_base_spec (seg_end base l)) as [? ?]; [lia..|].
    split_and!; [done|lia|lia|]. intros ph Hph. split; [by apply Hlow|].
    pose proof (Hasc ph l Hph eq_refl). lia.
  - apply last_None in El as El'. destruct (round_base_spec base) as [? ?]; [lia..|].
    split_and!; [done|lia|lia|]. intros ph Hph. rewrite El' in Hph. by apply elem_of_nil in Hph.
Qed.
End load_theorems.

(** ** When loading the segments succeeds *)

Section load_succeeds.
Context `{K : Kernel} `{!KernelSpec K} `{!KernelHint K}.

(** A segment the address space has room for. *)
Record seg_fits (m : memory) (base : Z) (ph : Elf64_Phdr) : Prop := {
  seg_fits_low : 0x10000 ≤ seg_start base ph;
  seg_fits_high : seg_end base ph ≤ 2 ^ 47;
  seg_fits_size : 0 < p_memsz ph;
  seg_fits_free : ∀ r, r ∈ regions m → overlaps (seg_start base ph) (seg_end base ph) r = false
}.

Lemma load_segment_succeeds b ph s :
  p_type ph = PT_LOAD →
  seg_wf (p_mem s) (base_addr_ b) (file_base_addr_ b) ph →
  seg_fits (p_mem s) (base_addr_ b) ph →
  ∃ s', load_segment b ph s = Ok (b <| end_addr_ := seg_end (base_addr_ b) ph |>, s') ∧
        extends (p_mem s) (p_mem s') ∧
        regions (p_mem s') = seg_region (base_addr_ b) ph :: regions (p_mem s).
Proof.
  intros Ht Hwf [Hlow Hhigh Hsz Hfree]. pose proof (seg_wf_nowrap _ _ _ _ Hwf) as Hn.
  pose proof (seg_va_nowrap _ _ Hn) as Hva.
  destruct (seg_bounds _ _ Hn) as (Hb1 & Hb2 & Hal & _ & _ & _). rewrite Hva in Hb1, Hb2.
  set (base := base_addr_ b) in *.
  assert (Hlen : wrap64 (seg_end base ph - seg_start base ph) = seg_end base ph - seg_start base ph)
    by (apply wrap_small; lia).
  assert (Hplace : mmap_place (regions (p_mem s)) (seg_start base ph) (seg_end base ph - seg_start base ph)
                   = Some (seg_start base ph)).
  { apply mmap_at_hint; [done|done|lia|lia|]. by rewrite Zplus_minus. }
  set (m1 := map_zero (p_mem s) (seg_start base ph) (seg_end base ph - seg_start base ph)
               (segment_prot (p_flags ph))).
  assert (He : extends (p_mem s) m1) by by eapply map_zero_extends.
  assert (Hcopy : memcpy m1 (p_vaddr ph + base) (wrap64 (file_base_addr_ b + p_offset ph)) (p_filesz ph)
            = Ok (poke m1 (p_vaddr ph + base) (peek m1 (wrap64 (file_base_addr_ b + p_offset ph)) (p_filesz ph)))).
  { apply memcpy_ok. destruct Hwf as [_ Hf Hfile]. split_and!; [by eapply extends_range| |done].
    apply mapped_range_spec. intros x Hx. unfold m1. rewrite mapped_map_zero, bool_decide_true; [done|lia]. }
  assert (Hrun : ∃ s', load_segment b ph s = Ok (b <| end_addr_ := seg_end base ph |>, s')).
  { unfold load_segment. rewrite Ht. simpl. fold base. rewrite Hlen.
    unfold mbind, stM_bind, mmap_anonymous. rewrite Hplace, Z.eqb_refl. simpl.
    fold (seg_va base ph). rewrite Hva, (proj2 (Z.leb_le _ _) Hb1).
    replace (wrap64 (p_vaddr ph + base + p_memsz ph)) with (p_vaddr ph + base + p_memsz ph)
      by (symmetry; apply wrap_small; destruct Hn as (? & ? & ? & ?); lia).
    rewrite (proj2 (Z.leb_le _ _) Hb2). simpl. unfold update_mem. simpl. fold m1.
    change (file_base_addr_ (b <| end_addr_ := seg_end base ph |>)) with (file_base_addr_ b).
    rewrite Hcopy. eauto. }
  destruct Hrun as [s' Hrun]. exists s'. split; [done|].
  destruct (load_segment_image _ _ _ _ _ Hrun Ht Hwf) as [? _]. split; [done|].
  destruct (load_segment_ok _ _ _ _ _ Hrun Ht) as (_ & _ & _ & -> & _). simpl. fold base.
  unfold seg_region. rewrite Hlen. do 2 f_equal. lia.
Qed.

(** With a kernel that honours free address hints, the segment loop of
    [Load] succeeds for every file whose loadable segments are well formed,
    mutually disjoint at page granularity, and find their pages free. *)
Lemma load_segments_succeed phs b s :
  (∀ ph, ph ∈ loads phs →
     seg_wf (p_mem s) (base_addr_ b) (file_base_addr_ b) ph ∧ seg_fits (p_mem s) (base_addr_ b) ph) →
  disjoint_regions (map (seg_region (base_addr_ b)) (loads phs)) →
  ∃ b' s', foldM load_segment b phs s = Ok (b', s').
Proof.
  revert b s. induction phs as [|ph phs IH]; intros b s Hwf Hd; [by eexists _, _|].
  unfold loads in Hwf, Hd. rewrite filter_cons in Hwf, Hd. simpl.
  destruct (decide (p_type ph = PT_LOAD)) as [Ht|Ht].
  2: { unfold mbind, stM_bind. rewrite load_segment_skip by done. by apply IH. }
  destruct (Hwf ph) as [Hwf1 Hfit1]; [set_solver|].
  destruct (load_segment_succeeds b ph s Ht Hwf1 Hfit1) as (s1 & Hrun & He & Hr).
  unfold mbind, stM_bind. rewrite Hrun. apply IH.
  - intros ph' Hin. destruct (Hwf ph') as [[Hn Hf Hfile] [? ? ? Hfree]]; [set_solver|].
    split; [split; [done..|by eapply extends_range]|]. split; [done..|].
    intros r. rewrite Hr. intros [->|Hin']%elem_of_cons; [|by apply Hfree].
    apply list_elem_of_lookup in Hin as [i Hi].
    refine (Hd (S i) 0%nat (seg_region _ ph') (seg_region _ ph) _ _ _); [|done|done].
    simpl. rewrite list_lookup_fmap. unfold loads in Hi. by rewrite Hi.
  - intros i j r1 r2 H1 H2 Hij. apply (Hd (S i) (S j)); [done..|lia].
Qed.
End load_succeeds.
