(* ===== verification/ElfDynamic.v ===== *)
(** * What ParseDynamic computes

    The dynamic section as an abstract list of entries, and the theorem that the
    two passes, the table readers and the symbol walk of [ParseDynamic] compute
    from it exactly the fields of the object: for each tag the last entry wins,
    the needed names come out in order, whatever the position of [DT_STRTAB]. *)

From S2P Require Import Prelude Memory Digits Elf Utils Os ElfBinary.

(** ** The entries and their values *)

Definition dyn_entries (m : memory) (b : ELFBinary) : outcome (list Elf64_Dyn) :=
  traverse (λ i, read_dyn m (dyn_addr b i)) (seqZ 0 (p_filesz (file_dynamic_ b) / sizeof_Dyn)).

Definition dyn_all (tag : Z) (ds : list Elf64_Dyn) : list Z :=
  map d_un (filter (λ d, d_tag d = tag) ds).
Definition dyn_last (tag : Z) (ds : list Elf64_Dyn) : option Z := last (dyn_all tag ds).

Lemma dyn_all_snoc tag ds d :
  dyn_all tag (ds ++ [d]) = dyn_all tag ds ++ (if d_tag d =? tag then [d_un d] else []).
Proof.
  unfold dyn_all. rewrite filter_app, map_app. f_equal. rewrite filter_cons.
  destruct (Z.eqb_spec (d_tag d) tag); case_decide; done.
Qed.

Lemma dyn_last_snoc tag ds d :
  dyn_last tag (ds ++ [d]) = if d_tag d =? tag then Some (d_un d) else dyn_last tag ds.
Proof.
  unfold dyn_last. rewrite dyn_all_snoc. destruct (d_tag d =? tag); [by rewrite last_snoc|by rewrite app_nil_r].
Qed.

(** A loop that reads the entries one by one runs its body over the list. *)
Lemma foldM_read {A B C} (rd : A → B → outcome C) (rd0 : B → outcome C) (f : A → C → outcome A)
    (I : A → Prop) l a a' :
  (∀ a i, I a → rd a i = rd0 i) → (∀ a c a', I a → f a c = Ok a' → I a') → I a →
  foldM (λ a i, c ← rd a i; f a c) a l = Ok a' →
  ∃ cs, traverse rd0 l = Ok cs ∧ foldM f a cs = Ok a'.
Proof.
  intros Hrd Hf. revert a. induction l as [|i l IH]; intros a HI Hrun; simpl in Hrun; inv_ok.
  { by exists []. }
  rewrite Hrd in * by done.
  match goal with H : f _ ?c = Ok ?a1 |- _ =>
    destruct (IH a1) as (cs & Hcs & Hfold); [by eapply Hf|done|]; exists (c :: cs) end.
  split; simpl.
  - match goal with H : rd0 i = _ |- _ => rewrite H end. simpl. by rewrite Hcs.
  - match goal with H : f _ _ = Ok _ |- _ => rewrite H end. done.
Qed.

(** ** The fields as functions of the entries *)

(** The plain numeric fields: the last entry with the tag, else the old value. *)
Definition dyn_value (tag : Z) (ds : list Elf64_Dyn) (old : Z) : Z :=
  from_option id old (dyn_last tag ds).
Definition dyn_ptr (tag : Z) (base : Z) (ds : list Elf64_Dyn) (old : Z) : Z :=
  from_option (λ v, wrap64 (base + v)) old (dyn_last tag ds).
(** The size of an entry of the procedure linkage table's relocations. *)
Definition dyn_entsize (ds : list Elf64_Dyn) (old : Z) : Z :=
  from_option (λ v, if v =? DT_RELA then sizeof_Rela else sizeof_Rel) old (dyn_last DT_PLTREL ds).
(** The string fields, read from the string table at [strtab]. *)
Definition dyn_string (m : memory) (strtab tag : Z) (ds : list Elf64_Dyn) (old new : option string) : Prop :=
  match dyn_last tag ds with
  | None => new = old
  | Some v => ∃ s, read_cstr m (wrap64 (strtab + v)) = Ok s ∧ new = Some s
  end.

Record dyn_fields (m : memory) (b0 : ELFBinary) (ds : list Elf64_Dyn) (b : ELFBinary) : Prop := {
  df_needed : ∃ names, neededs_ b = neededs_ b0 ++ names ∧
    Forall2 (λ v n, read_cstr m (wrap64 (strtab_ b0 + v)) = Ok n) (dyn_all DT_NEEDED ds) names;
  df_runpath : dyn_string m (strtab_ b0) DT_RUNPATH ds (runpath_ b0) (runpath_ b);
  df_rpath : dyn_string m (strtab_ b0) DT_RPATH ds (rpath_ b0) (rpath_ b);
  df_rela : rela_ b = dyn_ptr DT_RELA (base_addr_ b0) ds (rela_ b0);
  df_relasz : relasz_ b = dyn_value DT_RELASZ ds (relasz_ b0);
  df_relaent : relaent_ b = dyn_value DT_RELAENT ds (relaent_ b0);
  df_relacount : relacount_ b = dyn_value DT_RELACOUNT ds (relacount_ b0);
  df_jmprel : jmprel_ b = dyn_ptr DT_JMPREL (base_addr_ b0) ds (jmprel_ b0);
  df_pltrelsz : pltrelsz_ b = dyn_value DT_PLTRELSZ ds (pltrelsz_ b0);
  df_pltrel : pltrel_ b = dyn_value DT_PLTREL ds (pltrel_ b0);
  df_pltrelent : pltrelent_ b = dyn_entsize ds (pltrelent_ b0);
  df_symtab : symtab_ b = dyn_ptr DT_SYMTAB (base_addr_ b0) ds (symtab_ b0);
  df_syment : syment_ b = dyn_value DT_SYMENT ds (syment_ b0);
  df_init : init_ b = dyn_value DT_INIT ds (init_ b0);
  df_fini : fini_ b = dyn_value DT_FINI ds (fini_ b0);
  df_init_array : init_array_ b = dyn_value DT_INIT_ARRAY ds (init_array_ b0);
  df_init_arraysz : init_arraysz_ b = dyn_value DT_INIT_ARRAYSZ ds (init_arraysz_ b0);
  df_fini_array : fini_array_ b = dyn_value DT_FINI_ARRAY ds (fini_array_ b0);
  df_fini_arraysz : fini_arraysz_ b = dyn_value DT_FINI_ARRAYSZ ds (fini_arraysz_ b0);
  df_strtab : strtab_ b = strtab_ b0;
  df_strsz : strsz_ b = strsz_ b0;
  df_tables : relas_ b = relas_ b0 ∧ pltrelas_ b = pltrelas_ b0 ∧ symtabs_ b = symtabs_ b0;
  df_image : same_image b0 b
}.

Lemma dyn_fields_nil m b : dyn_fields m b [] b.
Proof. split; try reflexivity; [|done]. exists []. rewrite app_nil_r. split; [done|constructor]. Qed.

Lemma dyn_value_snoc tag ds d old :
  dyn_value tag (ds ++ [d]) old = if d_tag d =? tag then d_un d else dyn_value tag ds old.
Proof. unfold dyn_value. rewrite dyn_last_snoc. by destruct (d_tag d =? tag). Qed.

Lemma dyn_ptr_snoc tag base ds d old :
  dyn_ptr tag base (ds ++ [d]) old = if d_tag d =? tag then wrap64 (base + d_un d) else dyn_ptr tag base ds old.
Proof. unfold dyn_ptr. rewrite dyn_last_snoc. by destruct (d_tag d =? tag). Qed.

Lemma dyn_entsize_snoc ds d old :
  dyn_entsize (ds ++ [d]) old =
  if d_tag d =? DT_PLTREL then (if d_un d =? DT_RELA then sizeof_Rela else sizeof_Rel) else dyn_entsize ds old.
Proof. unfold dyn_entsize. rewrite dyn_last_snoc. by destruct (d_tag d =? DT_PLTREL). Qed.

Lemma dyn_string_snoc m strtab tag ds d old new :
  dyn_string m strtab tag (ds ++ [d]) old new ↔
  if d_tag d =? tag then ∃ s, read_cstr m (wrap64 (strtab + d_un d)) = Ok s ∧ new = Some s
  else dyn_string m strtab tag ds old new.
Proof. unfold dyn_string. rewrite dyn_last_snoc. by destruct (d_tag d =? tag). Qed.

Create Rewrite HintDb dyn_snoc.
#[export] Hint Rewrite dyn_value_snoc dyn_ptr_snoc dyn_entsize_snoc dyn_string_snoc dyn_all_snoc : dyn_snoc.

(** Decide comparisons of constants. *)
Ltac decide_eqb :=
  repeat match goal with
  | |- context [?a =? ?b] =>
      let v := eval vm_compute in (a =? b) in
      lazymatch v with
      | true => change (a =? b) with true
      | false => change (a =? b) with false
      end
  end; cbv iota.

(** One step of the second pass, by cases on the tag. *)
Lemma dyn_fields_snoc m b0 ds b d b' :
  dyn_fields m b0 ds b → parse_dyn_step m b d = Ok b' → dyn_fields m b0 (ds ++ [d]) b'.
Proof.
  intros [(names & Hn1 & Hn2) Hrp Hr H1 H2 H3 H4 H5 H6 H7 H8 H9 H10 H11 H12 H13 H14 H15 H16 Hst Hsz Ht Hi] Hrun.
  pose proof (parse_dyn_step_image _ _ _ _ Hrun) as Hi'.
  pose proof (si_base _ _ Hi) as Hb. unfold parse_dyn_step in Hrun. cbv zeta in Hrun. rewrite Hst, Hb in Hrun.
  repeat match type of Hrun with (if ?c then _ else _) = _ => destruct c eqn:? end.
  all: inv_ok.
  all: split; autorewrite with dyn_snoc; try (by etrans);
    first [match goal with H : (d_tag _ =? _) = true |- _ => apply Z.eqb_eq in H as -> end; decide_eqb
          |repeat match goal with H : (d_tag _ =? _) = false |- _ => rewrite H; clear H end];
    rewrite ?app_nil_r; try assumption.
  all: try (by eauto).
  exists (names ++ [x]). rewrite app_assoc, <-Hn1. split; [done|].
  apply Forall2_app; [done|]. by constructor.
Qed.

Lemma parse_dyn_loop_fields m b ds b' :
  foldM (parse_dyn_step m) b ds = Ok b' → dyn_fields m b ds b'.
Proof.
  apply (foldM_prefix _ (λ pre b', dyn_fields m b pre b')); [|apply dyn_fields_nil].
  intros. by eapply dyn_fields_snoc.
Qed.

(** ** The string table *)

Lemma parse_strtab_loop_fields b ds :
  let b' := foldl parse_strtab_step b ds in
  strtab_ b' = from_option (λ v, wrap64 (v + base_addr_ b)) (strtab_ b) (dyn_last DT_STRTAB ds) ∧
  strsz_ b' = dyn_value DT_STRSZ ds (strsz_ b) ∧
  b' = b <| strtab_ := strtab_ b' |> <| strsz_ := strsz_ b' |>.
Proof.
  induction ds as [|d ds IH] using rev_ind; simpl; [by destruct b|].
  rewrite foldl_app. simpl. rewrite dyn_value_snoc, dyn_last_snoc.
  set (b' := foldl parse_strtab_step b ds) in *. destruct IH as (IH1 & IH2 & IH3).
  unfold parse_strtab_step. destruct (Z.eqb_spec (d_tag d) DT_STRTAB) as [->|Ht].
  - decide_eqb. split_and!; [|done|]; rewrite IH3; reflexivity.
  - destruct (d_tag d =? DT_STRSZ); split_and!; try done; rewrite IH3; reflexivity.
Qed.

(** ** The relocation tables *)

(** [rs] is the table of relocations at [tab] of [sz] bytes with entries of
    [ent] bytes; there is none at the null pointer. *)
Definition rela_table (m : memory) (tab sz ent : Z) (rs : list Elf64_Rela) : Prop :=
  if tab =? 0 then rs = []
  else ent ≠ 0 ∧ sz mod ent = 0 ∧
       Forall2 (λ i r, read_rela m (wrap64 (tab + sizeof_Rela * i)) = Ok r) (seqZ 0 (sz / ent)) rs.

Lemma read_relas_ok m a n rs :
  read_relas m a n = Ok rs →
  Forall2 (λ i r, read_rela m (wrap64 (a + sizeof_Rela * i)) = Ok r) (seqZ 0 n) rs.
Proof.
  unfold read_relas. apply (foldM_prefix _ (λ pre acc,
    Forall2 (λ i r, read_rela m (wrap64 (a + sizeof_Rela * i)) = Ok r) pre acc)); [|constructor].
  intros pre i acc acc' _ HI Hrun. inv_ok. apply Forall2_app; [done|]. by constructor.
Qed.

(** ** The symbol walk *)

(** [syms] is the table that starts at [a] and stops before the first entry
    whose name is not an offset into a string table of size [strsz]. *)
Definition symtab_at (m : memory) (strsz a : Z) (syms : list Elf64_Sym) : Prop :=
  (∀ i s, syms !! i = Some s →
     read_sym m (a + sizeof_Sym * Z.of_nat i) = Ok s ∧ st_name s < strsz) ∧
  ∃ name, load_word m 4 (a + sizeof_Sym * Z.of_nat (length syms)) = Ok name ∧ strsz ≤ name.

Lemma symtab_walk_ok m strsz a acc syms :
  while (symtab_step m strsz) (a, acc) = Ok syms →
  ∃ tail, syms = acc ++ tail ∧ symtab_at m strsz a tail.
Proof.
  intros Hrun. eapply (while_invariant _ (λ st, ∃ tail, st = (a + sizeof_Sym * Z.of_nat (length tail), acc ++ tail) ∧
    ∀ i s, tail !! i = Some s → read_sym m (a + sizeof_Sym * Z.of_nat i) = Ok s ∧ st_name s < strsz)) in Hrun.
  - destruct Hrun as (? & (tail & -> & Ht) & Hstep). unfold symtab_step in Hstep. inv_ok.
    destruct (Z.ltb_spec x strsz) as [|Hge]; inv_ok. exists tail. split; [done|]. split; [done|]. eauto.
  - intros st st' (tail & -> & Ht) Hstep. unfold symtab_step in Hstep. inv_ok.
    destruct (Z.ltb_spec x strsz) as [Hlt|]; inv_ok.
    match goal with H : read_sym _ _ = Ok ?y |- _ => rename y into s; rename H into Hs end.
    pose proof (read_sym_name _ _ _ Hs) as Hname. exists (tail ++ [s]). split.
    + rewrite length_app, <-app_assoc. f_equal. simpl length. unfold sizeof_Sym. lia.
    + intros i s' [Hi|[Hlen Hi]]%lookup_app_Some; [by apply Ht|].
      apply list_lookup_singleton_Some in Hi as [Hi <-].
      replace i with (length tail) by lia. split; [done|]. congruence.
  - exists []. simpl. rewrite app_nil_r. unfold sizeof_Sym. split; [f_equal; lia|].
    intros i s Hi. by rewrite lookup_nil in Hi.
Qed.

Lemma symtab_walk_ends m strsz a acc :
  mem_size m < 2 ^ 64 → in_fuel (while (symtab_step m strsz) (a, acc)).
Proof.
  intros Hsz.
  destruct (while_total (symtab_step m strsz) (λ st, mapped_range m a (st.1 - a) = true ∧ a ≤ st.1)
              (λ st, mem_size m - (st.1 - a)) (a, acc)) as (n & o & Hr & Ho).
  - intros st st' [HI Hle] Hst. unfold symtab_step in Hst. inv_ok.
    destruct (x <? strsz); inv_ok.
    match goal with H : read_sym _ _ = Ok _ |- _ => apply read_sym_ok in H as [Hm _] end.
    rewrite mapped_range_spec in Hm. unfold sizeof_Sym in *.
    assert (HI' : mapped_range m a (st.1 + 24 - a) = true).
    { apply mapped_range_spec. intros y Hy. destruct (Z.lt_ge_cases y st.1); [|apply Hm; lia].
      eapply mapped_range_spec; [exact HI|]. lia. }
    pose proof (mapped_range_size _ _ _ HI'). split_and!; [done|lia..].
  - simpl. split; [|lia]. apply mapped_range_spec. lia.
  - simpl. pose proof (mem_size_nonneg m). lia.
  - rewrite Ho. clear Ho. induction Hr as [|st e Hst|]; [done| |done]. intros [= ->].
    unfold symtab_step in Hst. revert Hst. change (in_fuel (symtab_step m strsz st)).
    apply in_fuel_bind; [auto with fuel|]. intros name _. destruct (name <? strsz); [|done].
    apply in_fuel_bind; [auto with fuel|done].
Qed.

(** ** ParseDynamic *)

(** The symbol types [ShowSTT] has a name for. *)
Definition known_type (s : Elf64_Sym) : Prop :=
  0 ≤ ELF64_ST_TYPE (st_info s) ≤ 7 ∨ ELF64_ST_TYPE (st_info s) = 10.

(** [syms] is the symbol table at [tab]: its first entry, whatever it is, and the
    walk from there; with it the table [all] of the object has known types only. *)
Definition symbol_table (m : memory) (strsz tab : Z) (all syms : list Elf64_Sym) : Prop :=
  if tab =? 0 then syms = []
  else ∃ s rest, syms = s :: rest ∧ read_sym m tab = Ok s ∧
       symtab_at m strsz (tab + sizeof_Sym) rest ∧ ∀ s, s ∈ all → known_type s.

(** What the fields of [b'] are, given the entries [ds] of the dynamic section
    of the freshly mapped object [b]. *)
Record dynamic_spec (m : memory) (b : ELFBinary) (ds : list Elf64_Dyn) (b' : ELFBinary) : Prop := {
  ds_strtab : strtab_ b' = from_option (λ v, wrap64 (v + base_addr_ b)) (strtab_ b) (dyn_last DT_STRTAB ds);
  ds_strsz : strsz_ b' = dyn_value DT_STRSZ ds (strsz_ b);
  ds_needed : ∃ names, neededs_ b' = neededs_ b ++ names ∧
    Forall2 (λ v n, read_cstr m (wrap64 (strtab_ b' + v)) = Ok n) (dyn_all DT_NEEDED ds) names;
  ds_runpath : dyn_string m (strtab_ b') DT_RUNPATH ds (runpath_ b) (runpath_ b');
  ds_rpath : dyn_string m (strtab_ b') DT_RPATH ds (rpath_ b) (rpath_ b');
  ds_init : init_ b' = dyn_value DT_INIT ds (init_ b) ∧
    init_array_ b' = dyn_value DT_INIT_ARRAY ds (init_array_ b) ∧
    init_arraysz_ b' = dyn_value DT_INIT_ARRAYSZ ds (init_arraysz_ b);
  ds_fini : fini_ b' = dyn_value DT_FINI ds (fini_ b) ∧
    fini_array_ b' = dyn_value DT_FINI_ARRAY ds (fini_array_ b) ∧
    fini_arraysz_ b' = dyn_value DT_FINI_ARRAYSZ ds (fini_arraysz_ b);
  ds_relas : ∃ rs, relas_ b' = relas_ b ++ rs ∧
    rela_table m (dyn_ptr DT_RELA (base_addr_ b) ds (rela_ b)) (dyn_value DT_RELASZ ds (relasz_ b))
      (dyn_value DT_RELAENT ds (relaent_ b)) rs;
  ds_pltrelas : let tab := dyn_ptr DT_JMPREL (base_addr_ b) ds (jmprel_ b) in
    ∃ rs, pltrelas_ b' = pltrelas_ b ++ rs ∧
    rela_table m tab (dyn_value DT_PLTRELSZ ds (pltrelsz_ b)) (dyn_entsize ds (pltrelent_ b)) rs ∧
    (tab ≠ 0 → dyn_value DT_PLTREL ds (pltrel_ b) = DT_RELA);
  ds_symtab : let tab := dyn_ptr DT_SYMTAB (base_addr_ b) ds (symtab_ b) in
    ∃ syms, symtabs_ b' = symtabs_ b ++ syms ∧ symbol_table m (strsz_ b') tab (symtabs_ b') syms
}.

Lemma umod_ok a b r : umod a b = Ok r ↔ b ≠ 0 ∧ r = a mod b.
Proof. unfold umod. destruct (Z.eqb_spec b 0); split; intros; destruct_and?; simplify_eq; auto. Qed.

Lemma parse_relas_ok m b b' :
  parse_relas m b = Ok b' →
  ∃ rs, b' = b <| relas_ := relas_ b ++ rs |> ∧ rela_table m (rela_ b) (relasz_ b) (relaent_ b) rs.
Proof.
  unfold parse_relas, rela_table. destruct (rela_ b =? 0); intros Hrun; inv_ok.
  { exists []. rewrite app_nil_r. by destruct b'. }
  match goal with H : umod _ _ = _ |- _ => apply umod_ok in H as [? ->] end.
  match goal with H : read_relas _ _ _ = Ok ?rs |- _ => exists rs; apply read_relas_ok in H end.
  split_and!; [done|done|by apply Z.eqb_eq|done].
Qed.

Lemma parse_pltrelas_ok m b b' :
  parse_pltrelas m b = Ok b' →
  ∃ rs, b' = b <| pltrelas_ := pltrelas_ b ++ rs |> ∧
    rela_table m (jmprel_ b) (pltrelsz_ b) (pltrelent_ b) rs ∧ (jmprel_ b ≠ 0 → pltrel_ b = DT_RELA).
Proof.
  unfold parse_pltrelas, rela_table. destruct (Z.eqb_spec (jmprel_ b) 0); intros Hrun; inv_ok.
  { exists []. rewrite app_nil_r. by destruct b'. }
  match goal with H : umod _ _ = _ |- _ => apply umod_ok in H as [? ->] end.
  match goal with H : read_relas _ _ _ = Ok ?rs |- _ => exists rs; apply read_relas_ok in H end.
  rewrite Z.eqb_eq in *. split_and!; done.
Qed.

(** The logging of the symbols stops the run at a symbol of unknown type. *)
Lemma show_syms_ok m strtab syms u :
  foldM (λ _ s, ShowSym m s strtab ;; mret tt) tt syms = Ok u →
  ∀ s, s ∈ syms → known_type s.
Proof.
  intros Hrun. refine (foldM_prefix _ (λ pre _, ∀ s, s ∈ pre → known_type s) syms tt u _ _ Hrun).
  - intros pre s ? ? _ HI Hs s' Hin. apply elem_of_app in Hin as [?|Hin]; [by apply HI|].
    apply list_elem_of_singleton in Hin as ->.
    apply ShowSTT_ok. destruct (ShowSym m s strtab) as [r|] eqn:E; [|discriminate].
    by eapply ShowSym_type.
  - intros s Hs. by apply elem_of_nil in Hs.
Qed.

Lemma parse_symtab_ok m b b' :
  parse_symtab m b = Ok b' →
  ∃ syms, b' = b <| symtabs_ := symtabs_ b ++ syms |> ∧ symbol_table m (strsz_ b) (symtab_ b) (symtabs_ b') syms.
Proof.
  unfold parse_symtab, symbol_table. destruct (symtab_ b =? 0); intros Hrun; inv_ok.
  { exists []. rewrite app_nil_r. by destruct b'. }
  match goal with H : while _ _ = Ok _ |- _ => apply symtab_walk_ok in H as (rest & -> & Hat) end.
  match goal with H : foldM _ _ _ = Ok _ |- _ => pose proof (show_syms_ok _ _ _ _ H) end.
  match goal with H : read_sym _ _ = Ok ?s |- _ => exists (s :: rest); split; [by rewrite <-app_assoc|] end.
  by eexists _, _.
Qed.

(** The two passes are the two steps over one list of entries. *)
Lemma strtab_pass m b b1 l :
  foldM (λ b i, dyn ← read_dyn m (dyn_addr b i); mret (parse_strtab_step b dyn)) b l = Ok b1 →
  ∃ ds, traverse (λ i, read_dyn m (dyn_addr b i)) l = Ok ds ∧ foldl parse_strtab_step b ds = b1.
Proof.
  intros Hp. apply (foldM_read _ (λ i, read_dyn m (dyn_addr b i))
    (λ b d, Ok (parse_strtab_step b d)) (same_image b)) in Hp as (ds & Hds & Hp).
  - rewrite (foldM_pure _ parse_strtab_step) in Hp by done. injection Hp as Hp. eauto.
  - intros b3 i Hsi. unfold dyn_addr. by rewrite (si_base _ _ Hsi), (si_dynamic _ _ Hsi).
  - intros b3 d b4 Hsi [= <-]. etrans; [exact Hsi|]. apply parse_strtab_step_image.
  - done.
Qed.

Lemma dyn_pass m b b1 b2 l :
  same_image b b1 →
  foldM (λ b i, dyn ← read_dyn m (dyn_addr b i); parse_dyn_step m b dyn) b1 l = Ok b2 →
  ∃ ds, traverse (λ i, read_dyn m (dyn_addr b i)) l = Ok ds ∧ dyn_fields m b1 ds b2.
Proof.
  intros Hi Hp. apply (foldM_read _ (λ i, read_dyn m (dyn_addr b i)) (parse_dyn_step m) (same_image b)) in Hp
    as (ds & Hds & Hp); [|..|exact Hi].
  - exists ds. split; [exact Hds|]. by apply parse_dyn_loop_fields.
  - intros b3 i Hsi. unfold dyn_addr. by rewrite (si_base _ _ Hsi), (si_dynamic _ _ Hsi).
  - intros b3 d b4 Hsi Hstep. etrans; [exact Hsi|]. by eapply parse_dyn_step_image.
Qed.

(** The stages of a successful run. *)
Lemma ParseDynamic_stages m b b' :
  ParseDynamic m b = Ok b' →
  ∃ ds b1 b2 rs rs' syms, dyn_entries m b = Ok ds ∧ foldl parse_strtab_step b ds = b1 ∧ dyn_fields m b1 ds b2 ∧
    rela_table m (rela_ b2) (relasz_ b2) (relaent_ b2) rs ∧
    rela_table m (jmprel_ b2) (pltrelsz_ b2) (pltrelent_ b2) rs' ∧ (jmprel_ b2 ≠ 0 → pltrel_ b2 = DT_RELA) ∧
    symbol_table m (strsz_ b2) (symtab_ b2) (symtabs_ b') syms ∧
    b' = b2 <| relas_ := relas_ b2 ++ rs |> <| pltrelas_ := pltrelas_ b2 ++ rs' |> <| symtabs_ := symtabs_ b2 ++ syms |>.
Proof.
  unfold ParseDynamic. intros Hrun. apply outcome_bind_ok in Hrun as (_ & _ & Hrun).
  apply outcome_bind_ok in Hrun as (_ & _ & Hrun). cbv zeta in Hrun.
  apply outcome_bind_ok in Hrun as (b1 & Hp1 & Hrun). apply outcome_bind_ok in Hrun as (_ & _ & Hrun).
  apply outcome_bind_ok in Hrun as (b2 & Hp2 & Hrun). apply outcome_bind_ok in Hrun as (b3 & Hr & Hrun).
  apply outcome_bind_ok in Hrun as (b4 & Hpr & Hs).
  apply parse_relas_ok in Hr as (rs & -> & Hrs). apply parse_pltrelas_ok in Hpr as (rs' & -> & Hrs' & Hpl).
  apply parse_symtab_ok in Hs as (syms & -> & Hsyms).
  pose proof (parse_strtab_loop_image _ _ _ _ Hp1) as Hi. apply strtab_pass in Hp1 as (ds & Hds & Hb1).
  destruct (dyn_pass _ _ _ _ _ Hi Hp2) as (ds' & Hds' & Hf). rewrite Hds in Hds'. injection Hds' as <-.
  exists ds, b1, b2, rs, rs', syms.
  split_and!; [exact Hds|exact Hb1|exact Hf|exact Hrs|exact Hrs'|exact Hpl|exact Hsyms|reflexivity].
Qed.

(** C22: the object after a successful [ParseDynamic] is determined by the
    entries of its dynamic section: the last entry of each tag, the needed
    names in order looked up in the string table wherever its entry stands, the
    relocation tables of the stated sizes, and the symbols up to the first entry
    whose name offset leaves the string table. *)
Theorem ParseDynamic_spec m b b' :
  ParseDynamic m b = Ok b' →
  ∃ ds, dyn_entries m b = Ok ds ∧ dynamic_spec m b ds b'.
Proof.
  intros (ds & b1 & b2 & rs & rs' & syms & Hds & <- & Hf & Hrs & Hrs' & Hpl & Hsyms & Hb')%ParseDynamic_stages.
  exists ds. split; [exact Hds|]. destruct (parse_strtab_loop_fields b ds) as (Hst & Hsz & Hb1).
  revert Hf Hst Hsz Hb1. generalize (foldl parse_strtab_step b ds) as b1. intros b1 Hf Hst Hsz Hb1.
  destruct Hf as [Hneed Hrp Hr Hrela Hrelasz Hrelaent _ Hj Hjsz Hjt Hje Hsym _ Hi Hfi Hia Hias Hfa Hfas Hst2 Hsz2 (Hrs2 & Hps2 & Hss2) _].
  revert Hst Hsz Hb1. generalize (strtab_ b1) as st, (strsz_ b1) as sz. intros st sz Hst Hsz ->. subst b'.
  change (strtab_ b2 = st) in Hst2. change (strsz_ b2 = sz) in Hsz2.
  rewrite Hrela, Hrelasz, Hrelaent in Hrs. rewrite Hj, Hjsz, Hje in Hrs'. rewrite Hj, Hjt in Hpl. rewrite Hsym in Hsyms.
  split.
  - exact (eq_trans Hst2 Hst).
  - exact (eq_trans Hsz2 Hsz).
  - rewrite <-Hst2 in Hneed. exact Hneed.
  - rewrite <-Hst2 in Hrp. exact Hrp.
  - rewrite <-Hst2 in Hr. exact Hr.
  - exact (conj Hi (conj Hia Hias)).
  - exact (conj Hfi (conj Hfa Hfas)).
  - exists rs. exact (conj (f_equal (.++ rs) Hrs2) Hrs).
  - exists rs'. exact (conj (f_equal (.++ rs') Hps2) (conj Hrs' Hpl)).
  - exists syms. exact (conj (f_equal (.++ syms) Hss2) Hsyms).
Qed.

(** On an address space of less than 2^64 mapped bytes [ParseDynamic] always
    ends: the strings and the symbol walk cannot run forever. *)
Lemma ParseDynamic_in_fuel m b :
  mem_size m < 2 ^ 64 → in_fuel (ParseDynamic m b).
Proof.
  intros Hsz. assert (∀ a, in_fuel (read_cstr m a)) by (intros; by apply read_cstr_ends).
  assert (Hu : ∀ x y, in_fuel (umod x y)) by (intros x y; unfold umod; by destruct (y =? 0)).
  assert (Hr : ∀ a n, in_fuel (read_relas m a n)).
  { intros. apply in_fuel_foldM. intros. apply in_fuel_bind; [auto with fuel|done]. }
  unfold ParseDynamic.
  repeat first [done | apply in_fuel_bind; [|intros ? _] | apply in_fuel_foldM; intros | by auto with fuel].
  - unfold parse_dyn_step. cbv zeta.
    repeat match goal with |- in_fuel (if ?c then _ else _) => destruct c end; try done.
    all: apply in_fuel_bind; [auto with fuel|done].
  - unfold parse_relas. case_match; [done|].
    repeat first [done | apply in_fuel_bind; [|intros ? _] | by auto with fuel].
  - unfold parse_pltrelas. case_match; [done|].
    repeat first [done | apply in_fuel_bind; [|intros ? _] | by auto with fuel].
  - unfold parse_symtab. case_match; [done|].
    apply in_fuel_bind; [auto with fuel|intros ? _]. apply in_fuel_bind; [by apply symtab_walk_ends|intros ? _].
    apply in_fuel_bind; [|done]. apply in_fuel_foldM. intros. apply in_fuel_bind; [by apply in_fuel_ShowSym|done].
Qed.
