(* ===== verification/ElfWellFormed.v ===== *)
(** * When ParseDynamic succeeds

    The conditions on a dynamic section under which [ParseDynamic] returns an
    object; every other section stops the run in one of its errors. Together with
    the specification of the result this determines [ParseDynamic]. *)

From S2P Require Import Prelude Memory Digits Elf Utils Os ElfBinary ElfDynamic.

(** ** Well-formed sections *)

Definition readable (m : memory) (a : Z) : Prop := ∃ s, read_cstr m (wrap64 a) = Ok s.

(** What the second pass asks of one entry: names must be readable, and the two
    entries that are checked must have the values of this architecture. *)
Definition dyn_entry_ok (m : memory) (strtab : Z) (d : Elf64_Dyn) : Prop :=
  (d_tag d = DT_NEEDED ∨ d_tag d = DT_RUNPATH ∨ d_tag d = DT_RPATH → readable m (strtab + d_un d)) ∧
  (d_tag d = DT_PLTREL → d_un d = DT_RELA ∨ d_un d = DT_REL) ∧
  (d_tag d = DT_SYMENT → d_un d = sizeof_Sym).

(** The symbols that are logged have readable names and known types. *)
Definition symbol_shown (m : memory) (strtab : Z) (s : Elf64_Sym) : Prop :=
  readable m (strtab + st_name s) ∧ known_type s.

Definition strtab_of (b : ELFBinary) (ds : list Elf64_Dyn) : Z :=
  from_option (λ v, wrap64 (v + base_addr_ b)) (strtab_ b) (dyn_last DT_STRTAB ds).

(** The tables of relocations and symbols. *)
Definition tables_wf (m : memory) (b : ELFBinary) (ds : list Elf64_Dyn) : Prop :=
  (∃ rs, rela_table m (dyn_ptr DT_RELA (base_addr_ b) ds (rela_ b)) (dyn_value DT_RELASZ ds (relasz_ b))
    (dyn_value DT_RELAENT ds (relaent_ b)) rs) ∧
  (let tab := dyn_ptr DT_JMPREL (base_addr_ b) ds (jmprel_ b) in
   (∃ rs, rela_table m tab (dyn_value DT_PLTRELSZ ds (pltrelsz_ b)) (dyn_entsize ds (pltrelent_ b)) rs) ∧
   (tab ≠ 0 → dyn_value DT_PLTREL ds (pltrel_ b) = DT_RELA)) ∧
  let tab := dyn_ptr DT_SYMTAB (base_addr_ b) ds (symtab_ b) in
  tab = 0 ∨ ∃ s rest, read_sym m tab = Ok s ∧ symtab_at m (dyn_value DT_STRSZ ds (strsz_ b)) (tab + sizeof_Sym) rest ∧
    Forall (symbol_shown m (strtab_of b ds)) (symtabs_ b ++ s :: rest).

Record dynamic_wf (m : memory) (b : ELFBinary) (ds : list Elf64_Dyn) : Prop := {
  dw_base : base_addr_ b ≠ 0 ∨ e_type (ehdr_ b) = ET_EXEC;
  dw_size : p_filesz (file_dynamic_ b) mod sizeof_Dyn = 0;
  dw_strtab : strtab_of b ds ≠ 0 ∨ e_type (ehdr_ b) = ET_EXEC;
  dw_entries : Forall (dyn_entry_ok m (strtab_of b ds)) ds;
  dw_tables : tables_wf m b ds
}.

(** ** The pieces *)

Lemma read_relas_succeeds m a n rs :
  read_relas m a n = Ok rs ↔ Forall2 (λ i r, read_rela m (wrap64 (a + sizeof_Rela * i)) = Ok r) (seqZ 0 n) rs.
Proof.
  rewrite <-traverse_ok. unfold read_relas. rewrite foldM_collect. by destruct (traverse _ _).
Qed.

Lemma parse_relas_succeeds m b :
  (∃ b', parse_relas m b = Ok b') ↔ ∃ rs, rela_table m (rela_ b) (relasz_ b) (relaent_ b) rs.
Proof.
  split; [intros (b' & (rs & _ & Hrs)%parse_relas_ok); eauto|]. intros (rs & Hrs).
  unfold parse_relas, rela_table in *. destruct (rela_ b =? 0); [by eexists|]. destruct Hrs as (Hne & Hmod & Hrs).
  rewrite (proj2 (umod_ok _ _ _) (conj Hne eq_refl)), bind_Ok, Hmod, Z.eqb_refl, CHECK_true, bind_Ok.
  rewrite (proj2 (read_relas_succeeds _ _ _ _) Hrs). by eexists.
Qed.

Lemma parse_pltrelas_succeeds m b :
  (∃ b', parse_pltrelas m b = Ok b') ↔
  (∃ rs, rela_table m (jmprel_ b) (pltrelsz_ b) (pltrelent_ b) rs) ∧ (jmprel_ b ≠ 0 → pltrel_ b = DT_RELA).
Proof.
  split; [intros (b' & (rs & _ & Hrs & Hp)%parse_pltrelas_ok); eauto|]. intros [(rs & Hrs) Hp].
  unfold parse_pltrelas, rela_table in *. destruct (Z.eqb_spec (jmprel_ b) 0) as [|Hj]; [by eexists|].
  destruct Hrs as (Hne & Hmod & Hrs).
  rewrite (proj2 (umod_ok _ _ _) (conj Hne eq_refl)), bind_Ok, Hmod, Z.eqb_refl, CHECK_true, bind_Ok, (Hp Hj).
  rewrite (proj2 (read_relas_succeeds _ _ _ _) Hrs). by eexists.
Qed.

(** The walk finds every table that is there: its length is bounded by the
    mapped part of the address space. *)
Lemma symtab_walk_runs m strsz a acc tail :
  symtab_at m strsz a tail → runs (symtab_step m strsz) (S (length tail)) (a, acc) (Ok (acc ++ tail)).
Proof.
  revert a acc. induction tail as [|s tail IH]; intros a acc [Hs (name & Hn & Hle)].
  - constructor. unfold symtab_step. cbn [length fst snd] in *. rewrite Z.add_0_r in Hn. rewrite Hn, bind_Ok.
    rewrite (proj2 (Z.ltb_ge _ _)) by lia. by rewrite app_nil_r.
  - destruct (Hs 0%nat s eq_refl) as [Hr Hlt]. rewrite Z.add_0_r in Hr.
    eapply runs_step with (s' := (a + sizeof_Sym, acc ++ [s])).
    + unfold symtab_step. cbn [fst snd]. rewrite (read_sym_name _ _ _ Hr), bind_Ok.
      rewrite (proj2 (Z.ltb_lt _ _)) by lia. by rewrite Hr.
    + replace (acc ++ s :: tail) with ((acc ++ [s]) ++ tail) by by rewrite <-app_assoc. apply IH. split.
      * intros i s' Hi. destruct (Hs (S i) s' Hi) as [Hr' ?]. split; [|done]. rewrite <-Hr'. f_equal. unfold sizeof_Sym. lia.
      * exists name. split; [|done]. rewrite <-Hn. cbn [length]. f_equal. unfold sizeof_Sym. lia.
Qed.

Lemma symtab_at_mapped m strsz a tail :
  symtab_at m strsz a tail → mapped_range m a (sizeof_Sym * Z.of_nat (length tail)) = true.
Proof.
  intros [Hs _]. apply mapped_range_spec. intros x Hx. set (i := (x - a) / sizeof_Sym).
  assert (0 ≤ i ∧ a + sizeof_Sym * i ≤ x < a + sizeof_Sym * i + sizeof_Sym) as [Hi0 Hi]
    by (unfold i, sizeof_Sym; lia_div). clearbody i.
  destruct (lookup_lt_is_Some_2 tail (Z.to_nat i)) as [s Hl]; [unfold sizeof_Sym in *; lia|].
  destruct (Hs _ _ Hl) as [[Hm _]%read_sym_ok _]. rewrite mapped_range_spec in Hm. apply Hm. unfold sizeof_Sym in *. lia.
Qed.

Lemma symtab_walk_succeeds m strsz a acc tail :
  mem_size m < 2 ^ 64 → symtab_at m strsz a tail → while (symtab_step m strsz) (a, acc) = Ok (acc ++ tail).
Proof.
  intros Hsz Hat. apply (while_runs _ _ _ _ (symtab_walk_runs _ _ _ _ _ Hat)).
  apply symtab_at_mapped, mapped_range_size in Hat. unfold sizeof_Sym in *. lia.
Qed.

Lemma show_syms_succeed m strtab syms :
  (∃ u, foldM (λ _ s, ShowSym m s strtab ;; mret tt) tt syms = Ok u) ↔ Forall (symbol_shown m strtab) syms.
Proof.
  apply (foldM_succeeds _ (λ _, True)); [|done..]. intros ? s _. unfold symbol_shown, known_type, readable.
  rewrite <-ShowSTT_ok, <-ShowSym_succeeds. destruct (ShowSym m s strtab) as [r|e]; cbn; split; intros [? ?]; eauto; done.
Qed.

Lemma parse_symtab_succeeds m b :
  mem_size m < 2 ^ 64 →
  (∃ b', parse_symtab m b = Ok b') ↔
  symtab_ b = 0 ∨ ∃ s rest, read_sym m (symtab_ b) = Ok s ∧ symtab_at m (strsz_ b) (symtab_ b + sizeof_Sym) rest ∧
    Forall (symbol_shown m (strtab_ b)) (symtabs_ b ++ s :: rest).
Proof.
  intros Hsz. unfold parse_symtab. destruct (Z.eqb_spec (symtab_ b) 0) as [|Hne]; [split; eauto|]. split.
  - intros (b' & Hrun). right. inv_ok. match goal with H : while _ _ = Ok _ |- _ => apply symtab_walk_ok in H as (rest & -> & Hat) end.
    rewrite <-app_assoc in *. match goal with H : foldM _ _ _ = Ok _ |- _ => pose proof (ex_intro (λ u, _ = Ok u) _ H) as Hsh end.
    apply show_syms_succeed in Hsh. eauto.
  - intros [?|(s & rest & Hs & Hat & Hsh)]; [done|]. rewrite Hs, bind_Ok.
    rewrite (symtab_walk_succeeds _ _ _ _ _ Hsz Hat), bind_Ok, <-app_assoc.
    apply show_syms_succeed in Hsh as [u Hsh]. cbn [app]. rewrite Hsh. by eexists.
Qed.

Lemma bind_ret_succeeds {A B} (o : outcome A) (f : A → B) : (∃ b, (x ← o; mret (f x)) = Ok b) ↔ ∃ x, o = Ok x.
Proof. destruct o; cbn; split; intros [? ?]; eauto; done. Qed.

Lemma CHECK_succeeds c : (∃ u, CHECK (M:=outcome) c = Ok u) ↔ c = true.
Proof. destruct c; cbn; (split; [by intros [? ?]|intros; by eauto]). Qed.

Lemma parse_dyn_step_succeeds m b d :
  (∃ b', parse_dyn_step m b d = Ok b') ↔ dyn_entry_ok m (strtab_ b) d.
Proof.
  unfold parse_dyn_step, dyn_entry_ok, readable. destruct d as [tag val]. cbv zeta. cbn [d_tag d_un].
  repeat match goal with
  | |- (∃ b', (if tag =? ?c then _ else _) = _) ↔ _ => destruct (Z.eqb_spec tag c) as [->|?]
  end.
  all: rewrite ?bind_ret_succeeds, ?CHECK_succeeds, ?orb_true_iff, ?Z.eqb_eq.
  all: unfold DT_NEEDED, DT_RUNPATH, DT_RPATH, DT_PLTREL, DT_SYMENT in *; split; [intros ?; split_and!|intros (H1 & H2 & H3)].
  all: try done; try (by eexists); intros; destruct_or?; eauto; done.
Qed.

Lemma parse_dyn_loop_succeeds m b ds :
  (∃ b', foldM (parse_dyn_step m) b ds = Ok b') ↔ Forall (dyn_entry_ok m (strtab_ b)) ds.
Proof.
  apply (foldM_succeeds _ (λ b', strtab_ b' = strtab_ b)); [|intros ???|done].
  - intros b' d <-. apply parse_dyn_step_succeeds.
  - intros Hst Hrun. rewrite <-Hst. apply (df_strtab m _ [b0]).
    change [b0] with ([] ++ [b0]). by eapply dyn_fields_snoc; [apply dyn_fields_nil|].
Qed.

(** ** The whole *)

(** The tables that are read after the two passes. *)
Definition parse_tables (m : memory) (b : ELFBinary) : outcome ELFBinary :=
  b ← parse_relas m b; b ← parse_pltrelas m b; parse_symtab m b.

Lemma parse_tables_succeeds m b :
  mem_size m < 2 ^ 64 →
  (∃ b', parse_tables m b = Ok b') ↔
  (∃ rs, rela_table m (rela_ b) (relasz_ b) (relaent_ b) rs) ∧
  ((∃ rs, rela_table m (jmprel_ b) (pltrelsz_ b) (pltrelent_ b) rs) ∧ (jmprel_ b ≠ 0 → pltrel_ b = DT_RELA)) ∧
  (symtab_ b = 0 ∨ ∃ s rest, read_sym m (symtab_ b) = Ok s ∧ symtab_at m (strsz_ b) (symtab_ b + sizeof_Sym) rest ∧
    Forall (symbol_shown m (strtab_ b)) (symtabs_ b ++ s :: rest)).
Proof.
  intros Hsz. rewrite <-parse_relas_succeeds, <-parse_pltrelas_succeeds, <-parse_symtab_succeeds by done.
  unfold parse_tables. split.
  - intros (b' & (b1 & H1 & (b2 & H2 & H3)%outcome_bind_ok)%outcome_bind_ok).
    split; [by exists b1|]. pose proof (parse_relas_ok _ _ _ H1) as (rs & -> & _).
    pose proof (parse_pltrelas_ok _ _ _ H2) as (rs' & -> & Hp).
    split; [apply parse_pltrelas_succeeds; destruct Hp; eauto|].
    apply (parse_symtab_succeeds m b Hsz). exact (proj1 (parse_symtab_succeeds m _ Hsz) (ex_intro _ b' H3)).
  - intros ((b1 & H1) & H2 & H3). rewrite H1, bind_Ok. pose proof (parse_relas_ok _ _ _ H1) as (rs & -> & _).
    apply parse_pltrelas_succeeds in H2.
    match goal with |- context [parse_pltrelas m ?b1] => destruct (proj2 (parse_pltrelas_succeeds m b1) H2) as [b2 H2'] end.
    rewrite H2', bind_Ok.
    pose proof (parse_pltrelas_ok _ _ _ H2') as (rs' & -> & _). apply (parse_symtab_succeeds m b Hsz) in H3.
    by apply (parse_symtab_succeeds m _ Hsz).
Qed.

(** A pass over a section whose entries can be read runs over the entries. *)
Lemma foldM_read_eq {A B C} (rd : A → B → outcome C) (rd0 : B → outcome C) (f : A → C → outcome A)
    (I : A → Prop) l cs a :
  (∀ a i, I a → rd a i = rd0 i) → (∀ a c a', I a → f a c = Ok a' → I a') → I a →
  traverse rd0 l = Ok cs → foldM (λ a i, c ← rd a i; f a c) a l = foldM f a cs.
Proof.
  intros Hrd Hf HI Hcs%traverse_ok. revert a HI. induction Hcs as [|i c l cs Hi _ IH]; intros a HI; [done|].
  cbn [foldM]. rewrite Hrd, Hi, bind_Ok by done. destruct (f a c) as [a'|e] eqn:E; [|done]. apply IH. by eapply Hf.
Qed.

Lemma ParseDynamic_eq m b ds :
  dyn_entries m b = Ok ds →
  ParseDynamic m b =
  (CHECK (negb (base_addr_ b =? 0) || (e_type (ehdr_ b) =? ET_EXEC)) ;;
   CHECK (p_filesz (file_dynamic_ b) mod sizeof_Dyn =? 0) ;;
   let b1 := foldl parse_strtab_step b ds in
   CHECK (negb (strtab_ b1 =? 0) || (e_type (ehdr_ b1) =? ET_EXEC)) ;;
   b2 ← foldM (parse_dyn_step m) b1 ds;
   parse_tables m b2).
Proof.
  intros Hds. unfold ParseDynamic, parse_tables. cbv zeta. assert (Hrd : ∀ b0 b3 : ELFBinary, same_image b0 b3 → ∀ i, dyn_addr b3 i = dyn_addr b0 i).
  { intros b0 b3 Hi i. unfold dyn_addr. by rewrite (si_base _ _ Hi), (si_dynamic _ _ Hi). }
  rewrite (foldM_read_eq _ (λ i, read_dyn m (dyn_addr b i)) (λ b d, Ok (parse_strtab_step b d)) (same_image b) _ ds);
    [|intros b3 i Hi; by rewrite (Hrd _ _ Hi)| |reflexivity|exact Hds].
  2: { intros b3 d b4 Hi [= <-]. etrans; [exact Hi|]. apply parse_strtab_step_image. }
  rewrite (foldM_pure _ parse_strtab_step) by done. rewrite bind_Ok.
  assert (same_image b (foldl parse_strtab_step b ds)) as Hi.
  { destruct (parse_strtab_loop_fields b ds) as (_ & _ & ->). split; reflexivity. }
  rewrite (foldM_read_eq _ (λ i, read_dyn m (dyn_addr b i)) (parse_dyn_step m) (same_image b) _ ds);
    [done|intros b3 i Hi3; by rewrite (Hrd _ _ Hi3)| |exact Hi|exact Hds].
  intros b3 d b4 Hi3 Hstep. etrans; [exact Hi3|]. by eapply parse_dyn_step_image.
Qed.

(** C23: [ParseDynamic] succeeds exactly on the well-formed dynamic sections:
    the entries can be read, the names and checked values are in order, the
    tables have the stated sizes and are mapped, and every symbol has a
    readable name and a known type. On any other section it stops in an error. *)
Theorem ParseDynamic_succeeds m b :
  mem_size m < 2 ^ 64 →
  (∃ b', ParseDynamic m b = Ok b') ↔ ∃ ds, dyn_entries m b = Ok ds ∧ dynamic_wf m b ds.
Proof.
  intros Hsz. assert (∀ ds, dyn_entries m b = Ok ds → (∃ b', ParseDynamic m b = Ok b') ↔ dynamic_wf m b ds) as Hiff.
  2: { split; [intros (b' & Hrun)|intros (ds & Hds & Hwf); by apply (Hiff ds)].
       pose proof (ParseDynamic_stages _ _ _ Hrun) as (ds & _ & _ & _ & _ & _ & Hds & _).
       exists ds. split; [done|]. apply Hiff; eauto. }
  intros ds Hds. rewrite (ParseDynamic_eq _ _ _ Hds). cbv zeta.
  destruct (parse_strtab_loop_fields b ds) as (Hst & Hss & Hb1). fold (strtab_of b ds) in Hst. rewrite Hst, Hss in Hb1.
  rewrite Hb1. set (b1 := b <| strtab_ := _ |> <| strsz_ := _ |>).
  pose proof (parse_dyn_loop_succeeds m b1 ds) as Hloop. change (strtab_ b1) with (strtab_of b ds) in *.
  change (ehdr_ b1) with (ehdr_ b).
  assert (∀ c, negb (c =? 0) || (e_type (ehdr_ b) =? ET_EXEC) = true ↔ c ≠ 0 ∨ e_type (ehdr_ b) = ET_EXEC) as Hor.
  { intros c. rewrite orb_true_iff, negb_true_iff, Z.eqb_neq, Z.eqb_eq. done. }
  assert (∀ b2, foldM (parse_dyn_step m) b1 ds = Ok b2 → (∃ b', parse_tables m b2 = Ok b') ↔ tables_wf m b ds) as Htab.
  { intros b2 Hb2%parse_dyn_loop_fields. rewrite (parse_tables_succeeds m b2 Hsz).
    destruct Hb2 as [_ _ _ -> -> -> _ -> -> -> -> -> _ _ _ _ _ _ _ -> -> (_ & _ & ->) _]. reflexivity. }
  split.
  - intros (b' & (? & [H1 _]%CHECK_ok & (? & [H2 _]%CHECK_ok & (? & [H3 _]%CHECK_ok &
      (b2 & Hb2 & Hb')%outcome_bind_ok)%outcome_bind_ok)%outcome_bind_ok)%outcome_bind_ok).
    apply Hor in H1, H3. split; [done|by apply Z.eqb_eq|done|apply Hloop; eauto|apply (Htab b2 Hb2); eauto].
  - intros [H1 H2 H3 H4 Ht]. apply Hor in H1, H3. apply Hloop in H4 as [b2 Hb2].
    rewrite H1, H2, H3, Hb2, Z.eqb_refl, !CHECK_true, !bind_Ok. by apply (Htab b2 Hb2).
Qed.
