(* ===== verification/ElfFile.v ===== *)
(** * Loading a file as a whole

    The constructor of [ELFBinary] followed by [Load], related to the bytes of
    the file: what the parsed headers are, what the image in memory is; that
    both keep the address space well formed; and how much a load can add to the
    list of needed libraries. *)

From S2P Require Import Prelude Memory Digits Elf Utils Os ElfBinary ElfDynamic.

(** ** The bytes of a file, with zeros after its end *)

Definition file_bytes (bs : list Z) (off n : Z) : list Z :=
  map (λ x, nth (Z.to_nat x) bs 0) (range off n).

Lemma peek_map_bytes m lo len prot bs off n :
  0 ≤ off → off + n ≤ len → peek (map_bytes m lo len prot bs) (lo + off) n = file_bytes bs off n.
Proof.
  intros Ho Hn. unfold peek, file_bytes, range, seqZ. rewrite !map_map. apply map_ext_in.
  intros i Hi. apply in_seq in Hi. unfold map_bytes, poke, map_zero. cbn [byte_at].
  rewrite !in_range_bool. case_bool_decide as H1; [f_equal; lia|]. rewrite bool_decide_true by lia.
  by rewrite nth_overflow by lia.
Qed.

Lemma file_bytes_app bs off n1 n2 :
  0 ≤ n1 → 0 ≤ n2 → file_bytes bs off (n1 + n2) = file_bytes bs off n1 ++ file_bytes bs (off + n1) n2.
Proof. intros. unfold file_bytes. by rewrite range_app, map_app by done. Qed.

(** ** The constructor *)

(** The segment of a type that comes last. *)
Definition last_of (ty : Z) (phs : list Elf64_Phdr) : option Elf64_Phdr :=
  last (filter (λ ph, p_type ph = ty) phs).

Definition no_phdr : Elf64_Phdr := mkPhdr 0 0 0 0 0 0 0 0.

Definition with_phdrs (b : ELFBinary) (phs : list Elf64_Phdr) : ELFBinary :=
  b <| file_phdrs_ := phs |>
    <| file_dynamic_ := default no_phdr (last_of PT_DYNAMIC phs) |>
    <| has_tls_ := bool_decide (is_Some (last_of PT_TLS phs)) |>
    <| file_tls_ := last_of PT_TLS phs |>.

Lemma last_of_snoc ty phs ph :
  last_of ty (phs ++ [ph]) = if decide (p_type ph = ty) then Some ph else last_of ty phs.
Proof.
  unfold last_of. rewrite filter_app, filter_cons, filter_nil. destruct (decide _); [by rewrite last_snoc|].
  by rewrite app_nil_r.
Qed.

Lemma phdr_address_ok base h i a :
  phdr_address base h i = Ok a ↔
  - 2 ^ 31 ≤ i * e_phentsize h < 2 ^ 31 ∧ a = wrap64 (base + e_phoff h + i * e_phentsize h).
Proof.
  unfold phdr_address. split.
  - by intros (off & [? ->]%int_result_ok & [= <-])%outcome_bind_ok.
  - intros [Hi ->]. by rewrite (proj2 (int_result_ok _ _) (conj Hi eq_refl)).
Qed.

Lemma read_phdrs_step_with m path base h phs i :
  read_phdrs_step m (with_phdrs (new_binary path base h) phs) i =
  (a ← phdr_address base h i; ph ← read_phdr m a;
   mret (with_phdrs (new_binary path base h) (phs ++ [ph]))).
Proof.
  set (b := with_phdrs _ phs). unfold read_phdrs_step. change (file_base_addr_ b) with base. change (ehdr_ b) with h.
  unfold b. clear b. destruct (phdr_address _ _ _) as [a|]; [|done]. rewrite !bind_Ok.
  destruct (read_phdr _ _) as [ph|]; [|done]. rewrite !bind_Ok. unfold with_phdrs. rewrite !last_of_snoc.
  assert (PT_DYNAMIC ≠ PT_TLS) by done.
  destruct (Z.eqb_spec (p_type ph) PT_DYNAMIC), (decide (p_type ph = PT_DYNAMIC)); try congruence;
    destruct (Z.eqb_spec (p_type ph) PT_TLS), (decide (p_type ph = PT_TLS)); try congruence; done.
Qed.

Lemma read_phdrs_ok m path base h l b :
  foldM (read_phdrs_step m) (new_binary path base h) l = Ok b →
  ∃ phs, b = with_phdrs (new_binary path base h) phs ∧
    Forall2 (λ i ph, read_phdr m (wrap64 (base + e_phoff h + i * e_phentsize h)) = Ok ph) l phs.
Proof.
  apply (foldM_prefix _ (λ l b, ∃ phs, b = with_phdrs (new_binary path base h) phs ∧
    Forall2 (λ i ph, read_phdr m (wrap64 (base + e_phoff h + i * e_phentsize h)) = Ok ph) l phs)).
  2: by exists [].
  intros pre i b0 b1 _ (phs & -> & Hphs) Hrun. rewrite read_phdrs_step_with in Hrun. inv_ok.
  match goal with H : phdr_address _ _ _ = Ok _ |- _ => apply phdr_address_ok in H as [_ ->] end.
  eexists. split; [reflexivity|]. apply Forall2_app; [done|by repeat constructor].
Qed.

Lemma read_phdrs_succeed m path base h f l :
  (∀ i, i ∈ l → - 2 ^ 31 ≤ i * e_phentsize h < 2 ^ 31 ∧
     read_phdr m (wrap64 (base + e_phoff h + i * e_phentsize h)) = Ok (f i)) →
  foldM (read_phdrs_step m) (new_binary path base h) l = Ok (with_phdrs (new_binary path base h) (map f l)).
Proof.
  induction l as [|i l IH] using rev_ind; intros Hl; [done|].
  rewrite foldM_app, IH, bind_Ok by set_solver. cbn [foldM].
  destruct (Hl i) as [Hi Hr]; [set_solver|].
  rewrite read_phdrs_step_with, (proj2 (phdr_address_ok _ _ _ _) (conj Hi eq_refl)), bind_Ok, Hr. by rewrite map_app.
Qed.

(** Where the header table says the [i]-th program header is. *)
Definition phdr_off (h : Elf64_Ehdr) (i : Z) : Z := e_phoff h + i * e_phentsize h.

(** The [i]-th program header is inside the [size] bytes of the mapped file, and not
    so far from the first one that the [int] overflows. *)
Definition phdr_inside (h : Elf64_Ehdr) (size i : Z) : Prop :=
  0 ≤ phdr_off h i ∧ phdr_off h i + 56 ≤ size ∧ - 2 ^ 31 ≤ i * e_phentsize h < 2 ^ 31.

(** The state after a step has a well-formed address space with at least as much
    mapped, if the one before was well formed. *)
Definition grows (s s' : proc) : Prop :=
  mem_ok (p_mem s) → mem_ok (p_mem s') ∧ mem_size (p_mem s) ≤ mem_size (p_mem s').

#[export] Instance grows_preorder : PreOrder grows.
Proof.
  split; [by intros s|]. intros s1 s2 s3 H1 H2 Hok.
  destruct (H1 Hok) as [Hok2 ?]. destruct (H2 Hok2) as [Hok3 ?]. split; [done|lia].
Qed.

Lemma grows_poke s m a bs s' :
  mem_ok m → mem_size (p_mem s) ≤ mem_size m → regions (p_mem s') = regions (poke m a bs) →
  mem_ok (p_mem s') ∧ mem_size (p_mem s) ≤ mem_size (p_mem s').
Proof.
  intros [Hd Hu] Hsz Hr. unfold mem_size in *. rewrite Hr. split; [|done].
  by split; rewrite Hr.
Qed.

Section address_space.
Context `{KernelSpec}.

Lemma map_zero_mem_ok m hint len a prot :
  mmap_place (regions m) hint len = Some a → mem_ok m →
  mem_ok (map_zero m a len prot) ∧ mem_size (map_zero m a len prot) = mem_size m + len ∧ 0 < len.
Proof.
  intros Hp [Hd Hu]. destruct (mmap_user _ _ _ _ Hp) as (? & ? & ?). split_and!; [split| |done]; cbn [map_zero regions].
  - apply disjoint_regions_cons; [|done]. intros r Hr. by apply (mmap_fresh _ _ _ _ _ Hp).
  - constructor; [|done]. cbn. lia.
  - unfold mem_size, region_size. cbn [map_zero regions map foldr r_lo r_hi]. lia.
Qed.

Lemma load_segment_grows b ph s b' s' : load_segment b ph s = Ok (b', s') → grows s s'.
Proof.
  intros Hrun Hok. destruct (decide (p_type ph = PT_LOAD)) as [Ht|Ht].
  2: { rewrite load_segment_skip in Hrun by done. by simplify_eq. }
  destruct (load_segment_ok _ _ _ _ _ Hrun Ht) as (Hp & _ & _ & Hm & _).
  destruct (map_zero_mem_ok _ _ _ _ (segment_prot (p_flags ph)) Hp Hok) as (Hok' & Hsz & ?).
  eapply grows_poke; [exact Hok'|lia|by rewrite Hm].
Qed.

Lemma Load_grows b arg s next b' s' : Load b arg s = Ok ((next, b'), s') → grows s s'.
Proof.
  intros (b1 & Hsegs & _)%Load_ok.
  eapply (foldM_st_invariant _ (λ _, grows s)); [|done|exact Hsegs].
  intros ??????? Hrun. etrans; [done|]. by eapply load_segment_grows.
Qed.
End address_space.

(** ** What the constructor does *)

Section constructor_lemmas.
Context `{FileSystemSpec} `{KernelSpec}.

Lemma ELFBinary_new_ok path s b s' :
  ELFBinary_new path s = Ok (b, s') →
  ∃ bs base phs,
    let size := page_ceil (Z.of_nat (length bs)) in
    let h := ehdr_ b in
    open_file path = Some bs ∧ 24 < Z.of_nat (length bs) ∧
    mmap_place (regions (p_mem s)) 0 size = Some base ∧
    s' = set_mem (map_bytes (p_mem s) base size 7 bs) s ∧
    read_ehdr (p_mem s') base = Ok h ∧
    b = with_phdrs (new_binary path base h) phs ∧
    Forall2 (λ i ph, read_phdr (p_mem s') (wrap64 (base + e_phoff h + i * e_phentsize h)) = Ok ph)
      (seqZ 0 (e_phnum h)) phs.
Proof.
  unfold ELFBinary_new. destruct (open_file path) as [bs|] eqn:Eo; [|done]. intros Hrun.
  pose proof (file_size _ _ Eo) as Hsz. inv_proc.
  match goal with H : foldM _ _ _ = Ok _ |- _ => apply read_phdrs_ok in H as (phs & -> & Hphs) end.
  match goal with H : mmap_file _ _ _ _ = Ok (?a, _) |- _ =>
    unfold mmap_file in H; rename a into base, H into Hmap end.
  rewrite page_up_ceil in Hmap by lia.
  destruct (mmap_place _ _ _) as [a|] eqn:Ep; simplify_eq.
  eexists _, base, phs. cbn. split_and!; [done|lia|done..].
Qed.

Lemma ELFBinary_new_grows path s b s' :
  ELFBinary_new path s = Ok (b, s') → mem_ok (p_mem s) →
  mem_ok (p_mem s') ∧ mem_size (p_mem s) < mem_size (p_mem s').
Proof.
  intros (bs & base & phs & _ & _ & Hp & -> & _)%ELFBinary_new_ok Hok.
  destruct (map_zero_mem_ok _ _ _ _ 7 Hp Hok) as ([Hd Hu] & Hsz & ?).
  split; [by split|]. unfold mem_size in *. cbn in *. lia.
Qed.

(** Mapping a file leaves everything else as it was. *)
Lemma map_file_extends m base bs :
  mmap_place (regions m) 0 (page_ceil (Z.of_nat (length bs))) = Some base →
  extends m (map_bytes m base (page_ceil (Z.of_nat (length bs))) 7 bs).
Proof.
  intros Hp x Hx. pose proof (map_zero_extends _ _ _ _ 7 Hp) as He. destruct (He x Hx) as [Hx' Hb].
  unfold map_bytes. rewrite mapped_poke. split; [done|]. rewrite byte_at_poke_out; [done|].
  apply mapped_spec in Hx as (r & Hr & Hx). pose proof (mmap_fresh _ _ _ _ _ Hp Hr) as Hov.
  pose proof (page_ceil_bound (Z.of_nat (length bs))).
  pose proof (overlaps_false_range _ _ _ _ Hov Hx). lia.
Qed.

Lemma load_file_bytes m base bs off n :
  mmap_place (regions m) 0 (page_ceil (Z.of_nat (length bs))) = Some base →
  0 ≤ off → 0 ≤ n → off + n ≤ page_ceil (Z.of_nat (length bs)) →
  let m' := map_bytes m base (page_ceil (Z.of_nat (length bs))) 7 bs in
  wrap64 (base + off) = base + off ∧
  mapped_range m' (base + off) n = true ∧ peek m' (base + off) n = file_bytes bs off n.
Proof.
  intros Hp Ho Hn Hon m'. destruct (mmap_user _ _ _ _ Hp) as (? & ? & ?). split_and!.
  - apply wrap_small. lia.
  - apply mapped_range_spec. intros x Hx. unfold m', map_bytes.
    rewrite mapped_poke, mapped_map_zero, bool_decide_true by lia. done.
  - by apply peek_map_bytes.
Qed.

Lemma ELFBinary_new_ehdr path s b s' :
  ELFBinary_new path s = Ok (b, s') →
  ∃ bs, open_file path = Some bs ∧ path_ b = path ∧ ehdr_ b = parse_ehdr (file_bytes bs 0 64).
Proof.
  intros (bs & base & phs & Ho & Hlen & Hp & -> & Hh & Hb & _)%ELFBinary_new_ok.
  exists bs. split_and!; [done|by rewrite Hb|].
  cbn [set_mem p_mem] in Hh. unfold read_ehdr in Hh. inv_ok.
  destruct (load_file_bytes _ _ bs 0 64 Hp) as (_ & _ & Hpk); [lia..| |].
  { pose proof (page_ceil_bound (Z.of_nat (length bs))) as Hc. unfold page_ceil in *. lia_div. }
  rewrite Z.add_0_r in Hpk.
  match goal with H : load_bytes _ _ _ = Ok _ |- _ => apply load_bytes_ok in H as [_ ->] end.
  by rewrite <-Hpk.
Qed.

(** C35: the constructor maps the file and reads its headers: the ELF header is
    the first 64 bytes, the program headers are the entries of the table it
    describes, the dynamic segment is the last [PT_DYNAMIC] and the thread-local
    one the last [PT_TLS], and nothing else in memory changes. *)
Theorem ELFBinary_new_reads_file path s b s' :
  ELFBinary_new path s = Ok (b, s') →
  ∃ bs, open_file path = Some bs ∧ path_ b = path ∧ extends (p_mem s) (p_mem s') ∧
    ehdr_ b = parse_ehdr (file_bytes bs 0 64) ∧
    ((∀ i, 0 ≤ i < e_phnum (ehdr_ b) →
        0 ≤ phdr_off (ehdr_ b) i ∧ phdr_off (ehdr_ b) i + 56 ≤ page_ceil (Z.of_nat (length bs))) →
     let phs := map (λ i, parse_phdr (file_bytes bs (phdr_off (ehdr_ b) i) 56)) (seqZ 0 (e_phnum (ehdr_ b))) in
     file_phdrs_ b = phs ∧
     file_dynamic_ b = default no_phdr (last_of PT_DYNAMIC phs) ∧
     has_tls_ b = bool_decide (is_Some (last_of PT_TLS phs)) ∧
     file_tls_ b = last_of PT_TLS phs).
Proof.
  intros Hrun. destruct (ELFBinary_new_ehdr _ _ _ _ Hrun) as (bs' & Ho' & Hpath & Hehdr).
  apply ELFBinary_new_ok in Hrun as (bs & base & phs & Ho & Hlen & Hp & -> & Hh & Hb & Hphs).
  rewrite Ho in Ho'. injection Ho' as <-.
  exists bs. split_and!; [done|done|by apply map_file_extends|done|].
  - intros Hin. assert (Hphs' : phs = map (λ i, parse_phdr (file_bytes bs (phdr_off (ehdr_ b) i) 56))
      (seqZ 0 (e_phnum (ehdr_ b)))).
    { clear Hb. assert (∀ i, i ∈ seqZ 0 (e_phnum (ehdr_ b)) → 0 ≤ i < e_phnum (ehdr_ b)) as Hi
        by (by intros i ?%elem_of_seqZ; lia).
      induction Hphs as [|i ph l phs Hph _ IH]; [done|]. cbn. rewrite IH by set_solver. f_equal.
      destruct (Hin i) as [? ?]; [apply Hi; set_solver|].
      destruct (load_file_bytes _ _ bs (phdr_off (ehdr_ b) i) 56 Hp) as (Hw & _ & Hpk); [lia..|].
      unfold phdr_off in Hw at 1. rewrite Z.add_assoc in Hw. unfold read_phdr in Hph. rewrite Hw in Hph. inv_ok.
      match goal with H : load_bytes _ _ _ = Ok _ |- _ => apply load_bytes_ok in H as [_ ->] end.
      f_equal. rewrite <-Hpk. unfold phdr_off. by rewrite Z.add_assoc. }
    rewrite <-Hphs'. by rewrite Hb.
Qed.
End constructor_lemmas.

(** ** The number of needed libraries of one object *)

Lemma read_dyn_mapped m a d : read_dyn m a = Ok d → mapped m a = true.
Proof.
  unfold read_dyn. intros Hrun. inv_ok.
  match goal with H : load_bytes _ _ _ = Ok _ |- _ => apply load_bytes_ok in H as [Hm _] end.
  rewrite mapped_range_spec in Hm. apply Hm. unfold sizeof_Dyn. lia.
Qed.

Lemma dyn_addr_image b b' i : same_image b b' → dyn_addr b' i = dyn_addr b i.
Proof. intros []. unfold dyn_addr. congruence. Qed.

Lemma strtab_loop_mapped m b l b' :
  foldM (λ b i, dyn ← read_dyn m (dyn_addr b i); mret (parse_strtab_step b dyn)) b l = Ok b' →
  Forall (λ i, mapped m (dyn_addr b i) = true) l.
Proof.
  revert b. induction l as [|i l IH]; intros b Hrun; simpl in Hrun; inv_ok; [constructor|].
  match goal with H : read_dyn _ _ = Ok ?d |- _ => apply read_dyn_mapped in H as Hm;
    pose proof (parse_strtab_step_image b d) as Himg end.
  match goal with H : foldM _ _ _ = Ok _ |- _ => apply IH in H as Hl end.
  constructor; [done|]. eapply Forall_impl; [exact Hl|]. intros j. simpl. by rewrite (dyn_addr_image _ _ _ Himg).
Qed.

Lemma parse_dyn_step_neededs m b dyn b' :
  parse_dyn_step m b dyn = Ok b' → (length (neededs_ b') ≤ S (length (neededs_ b)))%nat.
Proof.
  unfold parse_dyn_step. intros Hrun. destruct (d_tag dyn =? DT_NEEDED).
  { inv_ok. rewrite length_app. cbn. lia. }
  repeat match type of Hrun with (if ?c then _ else _) = _ => destruct c end.
  all: inv_ok; cbn; lia.
Qed.

Lemma dyn_loop_neededs m b l b' :
  foldM (λ b i, dyn ← read_dyn m (dyn_addr b i); parse_dyn_step m b dyn) b l = Ok b' →
  (length (neededs_ b') ≤ length (neededs_ b) + length l)%nat.
Proof.
  revert b. induction l as [|i l IH]; intros b Hrun; simpl in Hrun; inv_ok; [lia|].
  match goal with H : parse_dyn_step _ _ _ = Ok _ |- _ => apply parse_dyn_step_neededs in H end.
  match goal with H : foldM _ _ _ = Ok _ |- _ => apply IH in H end. simpl. lia.
Qed.

(** A table whose entries are all in memory is not longer than memory is large. *)
Lemma dyn_table_bound m b n :
  mem_size m < 2 ^ 59 → Forall (λ i, mapped m (dyn_addr b i) = true) (seqZ 0 n) → n ≤ mem_size m.
Proof.
  intros Hsz Hm. destruct (Z.le_gt_cases n (mem_size m)) as [|Hn]; [done|exfalso].
  pose proof (mem_size_nonneg m). set (k := mem_size m + 1) in *.
  assert (Z.of_nat (length (map (dyn_addr b) (seqZ 0 k))) ≤ mem_size m) as Hle.
  { apply mapped_NoDup_size.
    - apply NoDup_fmap_2_strong; [|apply NoDup_seqZ]. intros x y Hx%elem_of_seqZ Hy%elem_of_seqZ Heq.
      unfold dyn_addr, wrap, sizeof_Dyn in Heq. set (c := base_addr_ b + _) in Heq. clearbody c. lia_div.
    - intros x (i & -> & Hi)%list_elem_of_fmap. rewrite Forall_forall in Hm. apply Hm.
      apply elem_of_seqZ in Hi. apply elem_of_seqZ. lia. }
  rewrite length_map, length_seqZ in Hle. lia.
Qed.

Lemma ParseDynamic_neededs m b b' :
  mem_size m < 2 ^ 59 → ParseDynamic m b = Ok b' →
  Z.of_nat (length (neededs_ b')) ≤ Z.of_nat (length (neededs_ b)) + mem_size m.
Proof.
  intros Hsz Hrun. unfold ParseDynamic in Hrun. inv_ok.
  assert (∀ b1 b2 : ELFBinary, parse_relas m b1 = Ok b2 → neededs_ b2 = neededs_ b1) as Hr.
  { intros b1 b2. unfold parse_relas. destruct (rela_ b1 =? 0); intros; inv_ok; done. }
  assert (∀ b1 b2 : ELFBinary, parse_pltrelas m b1 = Ok b2 → neededs_ b2 = neededs_ b1) as Hp.
  { intros b1 b2. unfold parse_pltrelas. destruct (jmprel_ b1 =? 0); intros; inv_ok; done. }
  assert (∀ b1 b2 : ELFBinary, parse_symtab m b1 = Ok b2 → neededs_ b2 = neededs_ b1) as Hs.
  { intros b1 b2. unfold parse_symtab. destruct (symtab_ b1 =? 0); intros; inv_ok; done. }
  assert (∀ l b1 b2, foldM (λ b i, dyn ← read_dyn m (dyn_addr b i); mret (parse_strtab_step b dyn)) b1 l = Ok b2 →
            neededs_ b2 = neededs_ b1) as Ht.
  { intros l b1 b2. apply (foldM_invariant _ (λ b2, neededs_ b2 = neededs_ b1)); [|done].
    intros b3 i b4 _ <- Hstep. inv_ok. unfold parse_strtab_step. by repeat case_match. }
  match goal with H : foldM (λ b i, dyn ← _; mret (parse_strtab_step b dyn)) _ _ = Ok _ |- _ =>
    apply Ht in H as Hn1; apply strtab_loop_mapped, dyn_table_bound in H; [|done] end.
  match goal with H : foldM _ _ _ = Ok _ |- _ => apply dyn_loop_neededs in H as Hn2 end.
  rewrite length_seqZ in Hn2.
  repeat match goal with
  | H : parse_relas _ _ = Ok _ |- _ => apply Hr in H
  | H : parse_pltrelas _ _ = Ok _ |- _ => apply Hp in H
  | H : parse_symtab _ _ = Ok _ |- _ => apply Hs in H
  end.
  pose proof (mem_size_nonneg m). rewrite Hn1 in Hn2.
  repeat match goal with H : neededs_ _ = neededs_ _ |- _ => rewrite H in * end. lia.
Qed.

Section fuel.
Context `{KernelSpec}.

Lemma Load_neededs b arg s next b' s' :
  Load b arg s = Ok ((next, b'), s') → mem_ok (p_mem s) →
  Z.of_nat (length (neededs_ b')) ≤ Z.of_nat (length (neededs_ b)) + 2 ^ 47.
Proof.
  intros Hrun Hok. pose proof (Load_grows _ _ _ _ _ _ Hrun Hok) as [Hok' _].
  apply mem_ok_size in Hok'. destruct (Load_ok _ _ _ _ _ _ Hrun) as (b1 & Hsegs & Hdyn & _).
  apply ParseDynamic_neededs in Hdyn; [|lia].
  assert (neededs_ b1 = neededs_ b) as Hn.
  { eapply (foldM_st_invariant _ (λ b1 _, neededs_ b1 = neededs_ b)); [| |exact Hsegs]; [|done].
    intros b2 ph s2 b3 s3 _ Hb2 Hrun2. destruct (decide (p_type ph = PT_LOAD)) as [Ht|Ht].
    - by destruct (load_segment_ok _ _ _ _ _ Hrun2 Ht) as (_ & -> & _).
    - rewrite load_segment_skip in Hrun2 by done. by simplify_eq. }
  rewrite Hn in Hdyn. lia.
Qed.

Lemma in_fuel_load_segment b ph s : in_fuel (load_segment b ph s).
Proof.
  unfold load_segment. destruct (negb _); [done|].
  repeat (apply in_fuel_st_bind; [|intros ? ? _]); try done; [..|]; auto with fuel.
  - unfold mmap_anonymous. by destruct (mmap_place _ _ _).
  - unfold update_mem, memcpy, load_bytes, store_bytes.
    destruct (mapped_range _ _ _); [cbn|done]. by destruct (mapped_range _ _ _).
Qed.

Lemma in_fuel_Load b arg s : mem_ok (p_mem s) → in_fuel (Load b arg s).
Proof.
  intros Hok. unfold Load. apply in_fuel_st_bind.
  - apply (in_fuel_st_foldM (λ _ _, True)); [|done|done]. intros. apply in_fuel_load_segment.
  - intros b1 s1 Hsegs. apply in_fuel_st_bind; [|done]. apply in_fuel_with_mem.
    assert (grows s s1) as Hg.
    { eapply (foldM_st_invariant _ (λ _, grows s)); [|done|exact Hsegs].
      intros ??????? Hrun. etrans; [done|]. by eapply load_segment_grows. }
    destruct (Hg Hok) as [Hok1%mem_ok_size _]. apply ParseDynamic_in_fuel. lia.
Qed.

Lemma in_fuel_ELFBinary_new `{FileSystem} path s : in_fuel (ELFBinary_new path s).
Proof.
  unfold ELFBinary_new.
  repeat (apply in_fuel_st_bind; [|intros ? ? _]); auto with fuel.
  - by destruct (open_file path).
  - unfold mmap_file. by destruct (mmap_place _ _ _).
  - apply in_fuel_with_mem. unfold read_ehdr, load_bytes. by destruct (mapped_range _ _ _).
  - apply in_fuel_with_mem, in_fuel_foldM. intros. unfold read_phdrs_step, phdr_address. apply in_fuel_bind.
    { apply in_fuel_bind; [unfold int_result; by destruct (_ && _)|done]. }
    intros a' _. apply in_fuel_bind; [|done].
    unfold read_phdr, load_bytes. by destruct (mapped_range _ _ _).
Qed.
End fuel.
