(* ===== verification/FindLibrary.v ===== *)
(** * Where libraries are looked for (read_ldsoconf and FindLibrary of dyn_loader.cc)

    The reader of /etc/ld.so.conf, a loop over the words of a stream that calls
    itself for the files an [include] names, and the search of a library in the
    directories of the search path. *)

From S2P Require Import Prelude Memory Digits Elf Utils Os.

(** ** Input streams

    A stream is the text that is still to be read. [f >> word] skips white space
    and takes the characters up to the next white space; it fails, and so does
    every later extraction, when there is no word left. *)

Definition is_space (c : ascii) : bool :=
  bool_decide (c ∈ [" "; "009"; "010"; "011"; "012"; "013"]%char).

Fixpoint skip_spaces (s : string) : string :=
  match s with
  | String c s' => if is_space c then skip_spaces s' else s
  | EmptyString => EmptyString
  end.

Fixpoint take_word (s : string) : string * string :=
  match s with
  | String c s' =>
      if is_space c then (EmptyString, s)
      else let '(w, rest) := take_word s' in (String c w, rest)
  | EmptyString => (EmptyString, EmptyString)
  end.

Definition read_word (s : string) : option (string * string) :=
  match skip_spaces s with
  | EmptyString => None
  | s' => Some (take_word s')
  end.

(** What [std::getline] leaves in the stream. *)
Fixpoint skip_line (s : string) : string :=
  match s with
  | String c s' => if ascii_dec c "010"%char then s' else skip_line s'
  | EmptyString => EmptyString
  end.

Definition text_of (bs : list Z) : string := string_of_list (map char_of bs).

(** ** read_ldsoconf *)

Section ldsoconf.
Context `{FileSystem}.

(** One round of [while (f >> head)]; [rec] reads another file. *)
Definition ldsoconf_step (rec : list string → string → outcome (list string))
    (st : list string * string) : outcome ((list string * string) + list string) :=
  let '(res, f) := st in
  match read_word f with
  | None => mret (inr res)
  | Some (head, f) =>
      if bool_decide (str_take 1 head = "#") then mret (inl (res, skip_line f))
      else if bool_decide (head = "include") then
        let '(descendants, f) := default (EmptyString, EmptyString) (read_word f) in
        res ← foldM rec res (glob descendants);
        mret (inl (res, f))
      else mret (inl (res ++ [head], f))
  end.

Fixpoint read_ldsoconf_dfs (fuel : nat) (res : list string) (filename : string) : outcome (list string) :=
  match fuel with
  | O => Err OutOfFuel
  | S fuel =>
      match open_file filename with
      | None => mret res
      | Some bs =>
          if str_contains "i386" filename || str_contains "lib32" filename then mret res
          else while (ldsoconf_step (read_ldsoconf_dfs fuel)) (res, text_of bs)
      end
  end.

(** The deepest nesting of [include] the model follows. *)
Definition ldsoconf_depth : nat := 1024.

Definition read_ldsoconf : outcome (list string) := read_ldsoconf_dfs ldsoconf_depth [] "/etc/ld.so.conf".
End ldsoconf.

(** ** FindLibrary *)

Section find_library.
Context `{Environment} `{FileSystem}.

Definition library_directories (runpath rpath : option string) : outcome (list string) :=
  let sloader_library_path := default EmptyString (getenv "SLOADER_LIBRARY_PATH") in
  ldsoconfs ← read_ldsoconf;
  mret ((if bool_decide (sloader_library_path = EmptyString) then [] else [sloader_library_path]) ++
        option_list runpath ++ option_list rpath ++ ldsoconfs ++
        ["/lib"; "/usr/lib"; "/usr/lib64"; "/usr/lib/x86_64-linux-gnu"; "."]%string).

(** The two nested loops: the first entry with the prefix in the first directory that has one. *)
Fixpoint search_directories (searching_filename : string) (dirs : list string) : outcome (option string) :=
  match dirs with
  | [] => mret None
  | d :: dirs =>
      dir ← fs_query (is_directory d);
      if negb dir then search_directories searching_filename dirs
      else match find (starts_with searching_filename) (directory_entries d) with
           | Some entry => mret (Some (path_append d entry))
           | None => if directory_throws d then mthrow Exception else search_directories searching_filename dirs
           end
  end.

Definition FindLibrary (library_name : string) (runpath rpath : option string) : outcome string :=
  found ← (if path_is_absolute library_name then fs_query (path_exists library_name) else mret false);
  if found : bool then mret library_name
  else
    library_directory ← library_directories runpath rpath;
    entry ← search_directories (path_filename library_name) library_directory;
    match entry with
    | Some p => mret p
    | None => mthrow Aborted
    end.
End find_library.

(** * Reading a configuration file

    A configuration is a list of items; its text has one item on a line. *)

Inductive item : Type :=
  | Dir (path : string)
  | Include (pattern : string)
  | Comment (text : string).

Definition newline : string := String "010"%char EmptyString.

Definition print_item (i : item) : string :=
  match i with
  | Dir d => d +:+ newline
  | Include p => "include " +:+ p +:+ newline
  | Comment t => "#" +:+ t +:+ newline
  end.

Definition print_conf (c : list item) : string := foldr (λ i s, print_item i +:+ s) EmptyString c.

Definition word_chars (s : string) : Prop := Forall (λ c, is_space c = false) (list_of_string s).

(** A word the reader takes for itself: not empty, no white space. *)
Definition is_word (s : string) : Prop := s ≠ EmptyString ∧ word_chars s.

Definition item_wf (i : item) : Prop :=
  match i with
  | Dir d => is_word d ∧ starts_with "#" d = false ∧ d ≠ "include"%string
  | Include p => is_word p
  | Comment t => "010"%char ∉ list_of_string t
  end.

Lemma take_word_app w c s :
  word_chars w → is_space c = true → take_word (w +:+ String c s) = (w, String c s).
Proof.
  unfold word_chars. induction w as [|d w IH]; cbn.
  - intros _ Hc. by rewrite Hc.
  - intros [Hd Hw]%Forall_cons Hc. by rewrite Hd, IH.
Qed.

Lemma read_word_app w c s :
  is_word w → is_space c = true → read_word (w +:+ String c s) = Some (w, String c s).
Proof.
  intros [Hne Hw] Hc. unfold read_word. destruct w as [|d w]; [done|].
  rewrite <-(take_word_app (String d w) c s Hw Hc).
  apply Forall_cons in Hw as [Hd _]. cbn. by rewrite !Hd.
Qed.

Lemma read_word_space c s : is_space c = true → read_word (String c s) = read_word s.
Proof. intros Hc. unfold read_word. cbn. by rewrite Hc. Qed.

(** Every word that is read makes the stream shorter. *)
Lemma take_word_shorter s : (String.length (take_word s).2 ≤ String.length s)%nat.
Proof.
  induction s as [|c s IH]; cbn; [done|]. destruct (is_space c); [done|].
  destruct (take_word s) as [w r]. cbn in *. lia.
Qed.

Lemma skip_spaces_shorter s : (String.length (skip_spaces s) ≤ String.length s)%nat.
Proof. induction s as [|c s IH]; cbn; [done|]. destruct (is_space c); cbn; lia. Qed.

Lemma skip_spaces_head s c r : skip_spaces s = String c r → is_space c = false.
Proof.
  induction s as [|d s IH]; cbn; [done|]. destruct (is_space d) eqn:E; [done|]. by intros [= -> _].
Qed.

Lemma skip_line_shorter s : (String.length (skip_line s) ≤ String.length s)%nat.
Proof. induction s as [|c s IH]; cbn; [done|]. destruct (ascii_dec _ _); lia. Qed.

Lemma read_word_shorter s w r : read_word s = Some (w, r) → (String.length r < String.length s)%nat.
Proof.
  unfold read_word. pose proof (skip_spaces_shorter s) as Hs. destruct (skip_spaces s) as [|c s'] eqn:E; [done|].
  cbn in Hs. cbn. rewrite (skip_spaces_head _ _ _ E).
  destruct (take_word s') as [w' r'] eqn:Et. pose proof (take_word_shorter s') as Ht. rewrite Et in Ht. cbn in *.
  intros [= <- <-]. lia.
Qed.

Lemma skip_line_app t s :
  "010"%char ∉ list_of_string t → skip_line (t +:+ newline +:+ s) = s.
Proof.
  induction t as [|c t IH]; cbn; [by destruct s|]. intros Hn.
  destruct (ascii_dec c "010"%char) as [->|]; [set_solver|]. apply IH. set_solver.
Qed.

(** The rest of a comment is dropped wherever its first word ends. *)
Lemma skip_line_comment t s :
  "010"%char ∉ list_of_string t → skip_line (take_word (t +:+ newline +:+ s)).2 = s.
Proof.
  induction t as [|c t IH]; cbn; [by destruct s|]. intros Hn. destruct (is_space c) eqn:E; cbn.
  - destruct (ascii_dec c "010"%char) as [->|]; [set_solver|].
    apply skip_line_app. set_solver.
  - specialize (IH ltac:(set_solver)). cbn in IH. by destruct (take_word _).
Qed.

Definition bytes_of (s : string) : list Z := map char_code (list_of_string s).

Lemma text_of_bytes s : text_of (bytes_of s) = s.
Proof.
  unfold text_of, bytes_of. induction s as [|c s IH]; cbn; [done|]. rewrite IH. f_equal.
  unfold char_of, char_code. by rewrite N2Z.id, ascii_N_embedding.
Qed.

(** The files [read_ldsoconf_dfs] leaves alone. *)
Definition skipped (f : string) : bool := str_contains "i386" f || str_contains "lib32" f.

(** What an item means, when [ds] gives the directories each file stands for. *)
Definition item_dirs `{FileSystem} (ds : string → list string) (i : item) : list string :=
  match i with
  | Dir d => [d]
  | Include p => glob p ≫= ds
  | Comment _ => []
  end.

Section ldsoconf_lemmas.
Context `{FileSystem} (rec : list string → string → outcome (list string)).

Lemma step_newline res s : ldsoconf_step rec (res, newline +:+ s) = ldsoconf_step rec (res, s).
Proof. unfold ldsoconf_step. cbn [String.append newline]. by rewrite read_word_space. Qed.

Lemma runs_newline n res s o :
  runs (ldsoconf_step rec) n (res, s) o → runs (ldsoconf_step rec) n (res, newline +:+ s) o.
Proof.
  inversion 1; subst; [apply runs_done|apply runs_err|eapply runs_step; [|eassumption]];
    by rewrite step_newline.
Qed.

Lemma step_dir res d s :
  is_word d → starts_with "#" d = false → d ≠ "include"%string →
  ldsoconf_step rec (res, d +:+ newline +:+ s) = Ok (inl (res ++ [d], newline +:+ s)).
Proof.
  intros Hd Hc Hi. unfold ldsoconf_step. cbn [newline String.append] in *.
  rewrite read_word_app, (bool_decide_false (d = _)) by done.
  destruct Hd as [Hne _]. destruct d as [|c d]; [done|].
  rewrite bool_decide_false; [done|]. cbn. intros [= ->]. done.
Qed.

Lemma step_include res p s ds :
  is_word p → foldM rec res (glob p) = Ok ds →
  ldsoconf_step rec (res, "include " +:+ p +:+ newline +:+ s) = Ok (inl (ds, newline +:+ s)).
Proof.
  intros Hp Hds. unfold ldsoconf_step.
  change ("include " +:+ p +:+ newline +:+ s) with ("include" +:+ String " " (p +:+ newline +:+ s)).
  rewrite read_word_app; [|split; [done|repeat constructor]|done]. cbn [str_take].
  rewrite (bool_decide_true ("include"%string = _)) by done. cbn [bool_decide decide].
  rewrite read_word_space by done. cbn [newline String.append].
  rewrite read_word_app by done. cbn -[newline]. by rewrite Hds.
Qed.

Lemma step_comment res t s :
  "010"%char ∉ list_of_string t →
  ldsoconf_step rec (res, "#" +:+ t +:+ newline +:+ s) = Ok (inl (res, s)).
Proof.
  intros Ht. pose proof (skip_line_comment t s Ht) as Hl. destruct (take_word _) as [w r] eqn:Ew.
  assert (read_word ("#" +:+ t +:+ newline +:+ s) = Some (String "#" w, r)) as Hw.
  { unfold read_word. cbn -[is_space newline]. change (is_space "#") with false. cbv iota. by rewrite Ew. }
  unfold ldsoconf_step. rewrite Hw. cbn [str_take]. destruct w; by rewrite bool_decide_true, <-Hl.
Qed.

(** The loop over a printed configuration, given that the files it includes are read right. *)
Lemma ldsoconf_runs ds c res :
  Forall item_wf c →
  (∀ p g res, Include p ∈ c → g ∈ glob p → rec res g = Ok (res ++ ds g)) →
  runs (ldsoconf_step rec) (S (length c)) (res, print_conf c) (Ok (res ++ (c ≫= item_dirs ds))).
Proof.
  intros Hwf Hrec. revert res. induction Hwf as [|i c Hi Hwf IH]; intros res; cbn [length].
  { constructor. cbn. by rewrite app_nil_r. }
  specialize (IH ltac:(set_solver)). cbn [print_conf foldr mbind list_bind]. fold (print_conf c).
  destruct i as [d|p|t]; cbn [print_item item_dirs] in *.
  - destruct Hi as (? & ? & ?). eapply runs_step; [rewrite str_app_assoc; by apply step_dir|].
    apply runs_newline. rewrite app_assoc. apply IH.
  - eapply runs_step.
    + rewrite !str_app_assoc. apply (step_include _ _ _ (res ++ (glob p ≫= ds))); [done|].
      assert (∀ l, (∀ g, g ∈ l → g ∈ glob p) → ∀ res, foldM rec res l = Ok (res ++ (l ≫= ds))) as Hl;
        [|by apply Hl]. clear res. induction l as [|g l IHl]; intros Hl res; cbn; [by rewrite app_nil_r|].
      rewrite (Hrec p) by set_solver. cbn. rewrite IHl by set_solver. by rewrite <-app_assoc.
    + apply runs_newline. rewrite app_assoc. apply IH.
  - eapply runs_step; [rewrite !str_app_assoc; by apply step_comment|]. apply IH.
Qed.
End ldsoconf_lemmas.

(** A set of files that are absent, skipped, or printed configurations that
    include only files of the set, lower in a ranking (so that inclusion is not
    circular); [ds] gives the directories of each. *)
Record conf_files `{FileSystem} (files : string → Prop) (rank : string → nat)
    (ds : string → list string) : Prop := {
  conf_absent f : files f → open_file f = None ∨ skipped f = true → ds f = [];
  conf_text f bs : files f → open_file f = Some bs → skipped f = false →
    ∃ c, bs = bytes_of (print_conf c) ∧ Forall item_wf c ∧ Z.of_nat (length c) < 2 ^ 64 ∧
      ds f = c ≫= item_dirs ds ∧
      ∀ p g, Include p ∈ c → g ∈ glob p → files g ∧ (rank g < rank f)%nat
}.

Section ldsoconf_theorems.
Context `{FileSystem}.

Lemma read_ldsoconf_dfs_spec files rank ds :
  conf_files files rank ds →
  ∀ fuel f res, files f → (rank f < fuel)%nat → read_ldsoconf_dfs fuel res f = Ok (res ++ ds f).
Proof.
  intros [Habs Htext] fuel. induction fuel as [|fuel IH]; intros f res Hf Hr; [lia|]. cbn [read_ldsoconf_dfs].
  destruct (open_file f) as [bs|] eqn:Eo.
  2: { rewrite (Habs f) by auto. by rewrite app_nil_r. }
  fold (skipped f). destruct (skipped f) eqn:Es.
  { rewrite (Habs f) by auto. by rewrite app_nil_r. }
  destruct (Htext f bs Hf Eo Es) as (c & -> & Hwf & Hlen & -> & Hinc). rewrite text_of_bytes.
  eapply while_runs; [apply ldsoconf_runs; [done|]|lia].
  intros p g res' Hp Hg. destruct (Hinc p g Hp Hg). apply IH; [done|lia].
Qed.

(** C34: for configuration files without circular inclusion (and nested less
    deep than the bound of the model) the reader terminates, and the list it
    returns is the depth-first one: the directories in textual order, each
    [include] replaced by those of the files its pattern stands for, comments
    and files for 32-bit libraries left out. *)
Theorem read_ldsoconf_spec files rank ds :
  conf_files files rank ds → files "/etc/ld.so.conf"%string →
  (rank "/etc/ld.so.conf"%string < ldsoconf_depth)%nat →
  read_ldsoconf = Ok (ds "/etc/ld.so.conf"%string).
Proof. intros Hc Hf Hr. exact (read_ldsoconf_dfs_spec files rank ds Hc _ _ [] Hf Hr). Qed.
End ldsoconf_theorems.

(** ** How deep inclusion goes

    The recursion of [read_ldsoconf_dfs] follows the inclusions of the files.
    Whether it ends is a question about the files alone. *)

(** One item of a text, and the rest: the pattern of an [include], or nothing. *)
Definition next_item (s : string) : option (option string * string) :=
  match read_word s with
  | None => None
  | Some (head, s) =>
      if bool_decide (str_take 1 head = "#"%string) then Some (None, skip_line s)
      else if bool_decide (head = "include"%string) then
        let '(p, s) := default (EmptyString, EmptyString) (read_word s) in Some (Some p, s)
      else Some (None, s)
  end.

Inductive mentions : string → string → Prop :=
  | mentions_here s p s' : next_item s = Some (Some p, s') → mentions s p
  | mentions_later s i s' p : next_item s = Some (i, s') → mentions s' p → mentions s p.

Definition includes `{FileSystem} (f g : string) : Prop :=
  ∃ bs p, open_file f = Some bs ∧ skipped f = false ∧ mentions (text_of bs) p ∧ g ∈ glob p.

(** No chain of [ldsoconf_depth] inclusions starts at the main file; in
    particular, no file that is reached includes itself by way of others. *)
Definition includes_bounded `{FileSystem} : Prop :=
  ∀ f, ¬ nsteps includes ldsoconf_depth "/etc/ld.so.conf"%string f.

Lemma next_item_shorter s i s' : next_item s = Some (i, s') → (String.length s' < String.length s)%nat.
Proof.
  unfold next_item. destruct (read_word s) as [[w r]|] eqn:Ew; [|done]. apply read_word_shorter in Ew.
  case_bool_decide; [intros [= <- <-]; pose proof (skip_line_shorter r); lia|].
  case_bool_decide; [|by intros [= <- <-]].
  destruct (read_word r) as [[p r']|] eqn:Ep; cbn [default id]; intros [= <- <-]; [apply read_word_shorter in Ep; lia|].
  cbn. lia.
Qed.

Section inclusion.
Context `{FileSystem} (rec : list string → string → outcome (list string)) (ends : string → Prop).
Context (Hrec : ∀ res g, in_fuel (rec res g) ↔ ends g) (Herr : ∀ res g e, rec res g = Err e → e = OutOfFuel).

Lemma foldM_rec_ends l res :
  (Forall ends l ∧ is_ok (foldM rec res l) = true) ∨ (¬ Forall ends l ∧ foldM rec res l = Err OutOfFuel).
Proof.
  revert res. induction l as [|g l IH]; intros res; cbn [foldM]; [by left|].
  destruct (rec res g) as [res'|e] eqn:Eg.
  - assert (ends g) as Hg by (apply (Hrec res); rewrite Eg; done).
    rewrite bind_Ok, Forall_cons. destruct (IH res') as [[? ?]|[? ?]]; [by left|right; naive_solver].
  - right. pose proof (Herr _ _ _ Eg) as ->. split; [|done]. intros [Hg _]%Forall_cons.
    apply (proj2 (Hrec res g) Hg). exact Eg.
Qed.

(** The loop over a text runs out of fuel just when a file it includes does. *)
Lemma ldsoconf_loop_ends n res s :
  (String.length s < n)%nat →
  ∃ k o, runs (ldsoconf_step rec) k (res, s) o ∧ (k ≤ n)%nat ∧
    (∀ e, o = Err e → e = OutOfFuel) ∧ (in_fuel o ↔ ∀ p g, mentions s p → g ∈ glob p → ends g).
Proof.
  revert res s. induction n as [|n IH]; intros res s Hn; [lia|].
  assert (Hstep : match next_item s with
    | None => ldsoconf_step rec (res, s) = Ok (inr res)
    | Some (Some p, s') => ldsoconf_step rec (res, s) = res' ← foldM rec res (glob p); Ok (inl (res', s'))
    | Some (None, s') => ∃ res', ldsoconf_step rec (res, s) = Ok (inl (res', s'))
    end).
  { unfold ldsoconf_step, next_item. destruct (read_word s) as [[w r]|]; [|done].
    case_bool_decide; [by eexists|]. case_bool_decide; [|by eexists]. by destruct (default _ _). }
  destruct (next_item s) as [[i s']|] eqn:Ei.
  2: { exists 1%nat, (Ok res). split; [by constructor|]. split; [lia|]. split; [done|]. split; [|done].
       intros _ p g Hm. inversion Hm; congruence. }
  assert (Hlt : (String.length s' < n)%nat) by (apply next_item_shorter in Ei; lia).
  assert (Hm : ∀ p, mentions s p ↔ i = Some p ∨ mentions s' p).
  { intros p. split; [inversion 1; naive_solver congruence|]. intros [->|?]; by econstructor. }
  setoid_rewrite Hm. destruct i as [p|].
  - destruct (foldM_rec_ends (glob p) res) as [[Hall Hok]|[Hnot Herr']].
    + destruct (foldM rec res (glob p)) as [res'|] eqn:Ef; [|done]. rewrite bind_Ok in Hstep.
      destruct (IH res' s' Hlt) as (k & o & Hr & Hk & He & Hi). exists (S k), o.
      split; [by eapply runs_step|]. split; [lia|]. split; [done|]. rewrite Hi. rewrite Forall_forall in Hall. naive_solver.
    + rewrite Herr' in Hstep. exists 1%nat, (Err OutOfFuel). split; [by constructor|]. split; [lia|].
      split; [naive_solver|]. split; [done|]. intros Hall. destruct Hnot. apply Forall_forall. naive_solver.
  - destruct Hstep as [res' Hstep]. destruct (IH res' s' Hlt) as (k & o & Hr & Hk & He & Hi). exists (S k), o.
    split; [by eapply runs_step|]. split; [lia|]. split; [done|]. rewrite Hi. naive_solver.
Qed.
End inclusion.

Section inclusion_depth.
Context `{FS : FileSystem} `{!FileSystemSpec FS}.

Lemma read_ldsoconf_dfs_depth n res f :
  (∀ e, read_ldsoconf_dfs n res f = Err e → e = OutOfFuel) ∧
  (in_fuel (read_ldsoconf_dfs n res f) ↔ ∀ g, ¬ nsteps includes n f g).
Proof.
  revert res f. induction n as [|n IH]; intros res f.
  { cbn [read_ldsoconf_dfs]. split; [by intros e [= <-]|]. split; [done|]. intros Hn. by destruct (Hn f); constructor. }
  assert (Hsteps : (∀ g, ¬ nsteps includes (S n) f g) ↔ ∀ h, includes f h → ∀ g, ¬ nsteps includes n h g).
  { split; [intros Hn h Hh g Hg; by apply (Hn g); econstructor|]. intros Hn g Hg. inversion Hg; subst. by eapply Hn. }
  rewrite Hsteps. cbn [read_ldsoconf_dfs]. destruct (open_file f) as [bs|] eqn:Eo.
  2: { split; [done|]. split; [|done]. intros _ h (bs & p & Ho & _). congruence. }
  fold (skipped f). destruct (skipped f) eqn:Es.
  { split; [done|]. split; [|done]. intros _ h (? & ? & _ & Hs & _). congruence. }
  destruct (ldsoconf_loop_ends (read_ldsoconf_dfs n) (λ g, ∀ h, ¬ nsteps includes n g h)
    (λ res g, proj2 (IH res g)) (λ res g, proj1 (IH res g)) (S (length bs)) res (text_of bs)) as (k & o & Hr & Hk & He & Hi).
  { unfold text_of. rewrite length_string_of_list, length_map. lia. }
  pose proof (file_size _ _ Eo). rewrite (while_runs _ _ _ _ Hr) by lia. split; [exact He|]. rewrite Hi. split.
  - intros Hall h (bs' & p & Ho & _ & Hm & Hg). simplify_eq. by eapply Hall.
  - intros Hall p g Hm Hg. apply Hall. by exists bs, p.
Qed.

Lemma read_ldsoconf_in_fuel : in_fuel read_ldsoconf ↔ includes_bounded.
Proof. apply read_ldsoconf_dfs_depth. Qed.

(** Files that include each other in a circle: the recursion goes deeper than
    any bound. *)
Lemma read_ldsoconf_circular f :
  rtc includes "/etc/ld.so.conf"%string f → tc includes f f →
  ∀ depth, read_ldsoconf_dfs depth [] "/etc/ld.so.conf" = Err OutOfFuel.
Proof.
  intros [j Hj]%rtc_nsteps [k [Hk Hkf]]%tc_nsteps n.
  assert (Hloop : nsteps includes (k * n) f f).
  { clear -Hkf. induction n as [|n IH]; [rewrite Nat.mul_0_r; constructor|].
    rewrite Nat.mul_succ_r, Nat.add_comm. by eapply nsteps_trans. }
  pose proof (nsteps_trans _ _ _ _ _ Hj Hloop) as Hall.
  replace (j + k * n)%nat with (n + (j + k * n - n))%nat in Hall by nia.
  apply nsteps_add_inv in Hall as (g & Hg & _).
  destruct (read_ldsoconf_dfs_depth n [] "/etc/ld.so.conf") as [He Hi].
  destruct (read_ldsoconf_dfs n [] _) as [r|e] eqn:E; [|by rewrite (He e eq_refl)].
  by destruct (proj1 Hi ltac:(done) g).
Qed.
End inclusion_depth.

(** * The search *)

(** Everything in the search path that has the wanted prefix, in search order,
    with the exceptions on the way. *)
Definition candidates `{FileSystem} (name : string) (dirs : list string) : list (outcome string) :=
  dirs ≫= λ d,
    match is_directory d with
    | None => [Err Exception]
    | Some false => []
    | Some true =>
        map (λ e, Ok (path_append d e)) (filter (λ e, starts_with name e = true) (directory_entries d)) ++
        if directory_throws d then [Err Exception] else []
    end.

Section find_theorems.
Context `{Environment} `{FileSystem}.

Lemma find_head_filter {A} (p : A → bool) l : find p l = head (filter (λ x, p x = true) l).
Proof.
  induction l as [|x l IH]; [done|]. cbn [find]. rewrite filter_cons, IH.
  destruct (p x) eqn:E; [by rewrite decide_True|by rewrite decide_False by congruence].
Qed.

Lemma search_directories_spec name dirs :
  search_directories name dirs =
  match candidates name dirs with [] => Ok None | Ok p :: _ => Ok (Some p) | Err e :: _ => Err e end.
Proof.
  unfold candidates. induction dirs as [|d dirs IH]; [done|]. cbn [search_directories mbind list_bind].
  destruct (is_directory d) as [[]|]; cbn [fs_query negb]; rewrite ?bind_Ok; cbn [negb]; [|exact IH|done].
  rewrite find_head_filter. destruct (filter _ (directory_entries d)) as [|e es]; [|done]. cbn [head map app].
  destruct (directory_throws d); [done|exact IH].
Qed.

(** The directory the environment asks for, if it is not empty. *)
Lemma override_directory :
  (if bool_decide (default EmptyString (getenv "SLOADER_LIBRARY_PATH") = EmptyString) then []
   else [default EmptyString (getenv "SLOADER_LIBRARY_PATH")]) =
  filter (λ d, d ≠ EmptyString) (option_list (getenv "SLOADER_LIBRARY_PATH")).
Proof.
  destruct (getenv _) as [e|]; [|done]. cbn -[bool_decide filter]. rewrite filter_cons. case_bool_decide.
  - by rewrite decide_False by auto.
  - by rewrite decide_True by auto.
Qed.

(** C33: [FindLibrary] returns an absolute name that exists as it is, else the
    first directory entry in search order (the override of the environment,
    RUNPATH, RPATH, ld.so.conf, the defaults) whose name has the wanted file
    name as a prefix. It aborts exactly when there is none, and ends in an exception
    when asking the file system throws before one is found. *)
Theorem FindLibrary_spec library_name runpath rpath ldsoconfs :
  read_ldsoconf = Ok ldsoconfs →
  FindLibrary library_name runpath rpath =
  match (if path_is_absolute library_name then path_exists library_name else Some false) with
  | None => Err Exception
  | Some true => Ok library_name
  | Some false =>
    let dirs := filter (λ d, d ≠ EmptyString) (option_list (getenv "SLOADER_LIBRARY_PATH")) ++
                option_list runpath ++ option_list rpath ++ ldsoconfs ++
                ["/lib"; "/usr/lib"; "/usr/lib64"; "/usr/lib/x86_64-linux-gnu"; "."]%string in
    default (Err Aborted) (head (candidates (path_filename library_name) dirs))
  end.
Proof.
  intros Hconf. unfold FindLibrary, library_directories. cbv zeta. rewrite Hconf, override_directory.
  assert ((if path_is_absolute library_name then fs_query (path_exists library_name) else mret false) =
    fs_query (if path_is_absolute library_name then path_exists library_name else Some false)) as -> by by destruct (path_is_absolute _).
  destruct (if path_is_absolute library_name then _ else _) as [[]|]; [done| |done].
  cbn -[candidates search_directories filter]. rewrite search_directories_spec.
  by destruct (candidates _ _) as [|[]].
Qed.

(** The result need not be the library asked for: when an entry with a
    longer name comes first in the directory, it is returned although the exact
    name is there too. *)
Lemma FindLibrary_prefix library_name suffix d pre post rest runpath rpath :
  path_is_absolute library_name = false → path_filename library_name = library_name →
  getenv "SLOADER_LIBRARY_PATH" = Some d → d ≠ EmptyString → is_directory d = Some true →
  is_ok read_ldsoconf = true →
  directory_entries d = pre ++ (library_name +:+ suffix) :: post ++ library_name :: rest →
  Forall (λ e, starts_with library_name e = false) pre →
  FindLibrary library_name runpath rpath = Ok (path_append d (library_name +:+ suffix)).
Proof.
  intros Ha Hfn He Hd Hdir Hok Hent Hpre. destruct read_ldsoconf as [confs|] eqn:Hc; [|done].
  unfold FindLibrary, library_directories. rewrite Ha, He, Hc, Hfn. cbn [default mbind outcome_bind mret outcome_ret].
  rewrite bool_decide_false by done. cbn [id app mret mbind outcome_ret outcome_bind search_directories].
  rewrite Hdir, Hent. cbn [fs_query negb mbind outcome_bind]. rewrite find_head_filter, filter_app, filter_cons.
  replace (filter _ pre) with (@nil string).
  2: { symmetry. clear Hent. induction Hpre as [|e pre He' _ IH]; [done|].
       rewrite filter_cons, decide_False by congruence. exact IH. }
  rewrite decide_True by (apply starts_with_spec; eauto). done.
Qed.

(** A directory of the search path that cannot be opened is not skipped: unless
    the library is found before it, its exception ends the search, although a
    later directory may have the library. *)
Lemma search_directories_unreadable name before d after :
  candidates name before = [] → is_directory d = Some true → directory_throws d = true → directory_entries d = [] →
  search_directories name (before ++ d :: after) = Err Exception.
Proof.
  intros Hb Hd Ht He. rewrite search_directories_spec. unfold candidates in *.
  by rewrite bind_app, Hb, bind_cons, Hd, Ht, He.
Qed.
End find_theorems.

(** * A concrete system

    /etc/ld.so.conf includes one file, which has a comment and two directories. *)

Module Demo.
Definition main_conf : list item := [Comment " system"; Include "/etc/conf.d/*.conf"; Dir "/opt/lib"].
Definition sub_conf : list item := [Dir "/usr/local/lib"; Comment ""].

#[export] Instance environment : Environment :=
  {| getenv := λ n, if bool_decide (n = "SLOADER_LIBRARY_PATH"%string) then Some "/sl"%string else None;
     getauxval := λ _, 0 |}.

#[export] Instance file_system : FileSystem := {|
  open_file := λ f,
    if bool_decide (f = "/etc/ld.so.conf"%string) then Some (bytes_of (print_conf main_conf))
    else if bool_decide (f = "/etc/conf.d/a.conf"%string) then Some (bytes_of (print_conf sub_conf))
    else None;
  path_exists := λ _, Some false;
  is_regular_file := λ _, Some false;
  is_directory := λ d, Some (bool_decide (d ∈ ["/sl"; "/secret"; "/opt/lib"]%string));
  directory_throws := λ d, bool_decide (d ∈ ["/secret"; "/opt/lib"]%string);
  directory_entries := λ d,
    if bool_decide (d = "/sl"%string) then ["libm.so.60"; "libm.so.6"]%string
    else if bool_decide (d = "/opt/lib"%string) then ["libc.so.6"]%string else [];
  glob := λ p, if bool_decide (p = "/etc/conf.d/*.conf"%string) then ["/etc/conf.d/a.conf"]%string else []
|}.

Definition files (f : string) : Prop := f = "/etc/ld.so.conf"%string ∨ f = "/etc/conf.d/a.conf"%string.
Definition rank (f : string) : nat := if bool_decide (f = "/etc/ld.so.conf"%string) then 1 else 0.
Definition dirs (f : string) : list string :=
  if bool_decide (f = "/etc/ld.so.conf"%string) then ["/usr/local/lib"; "/opt/lib"]%string
  else ["/usr/local/lib"]%string.

Lemma confs : conf_files files rank dirs.
Proof.
  split.
  - intros f [-> | ->] [Ho|Hs]; vm_compute in *; done.
  - intros f bs [-> | ->] Ho _; cbv -[bytes_of print_conf main_conf sub_conf] in Ho; injection Ho as <-.
    + exists main_conf. split_and!; [done| |done|done|].
      * repeat constructor; try done; vm_compute; set_solver.
      * intros p g Hp Hg. unfold main_conf in Hp. apply elem_of_cons in Hp as [Hp|Hp]; [done|].
        apply elem_of_cons in Hp as [Hp|Hp]; [|set_solver]. injection Hp as ->.
        apply list_elem_of_singleton in Hg as ->. split; [by right|]. vm_compute. lia.
    + exists sub_conf. split_and!; [done| |done|done|set_solver].
      repeat constructor; try done; vm_compute; set_solver.
Qed.
End Demo.
Import Demo.

Lemma read_ldsoconf_spec_witness :
  read_ldsoconf = Ok ["/usr/local/lib"; "/opt/lib"]%string.
Proof.
  apply (read_ldsoconf_spec files rank dirs confs); [by left|].
  vm_compute. lia.
Defined.

Lemma FindLibrary_spec_witness :
  read_ldsoconf = Ok ["/usr/local/lib"; "/opt/lib"]%string ∧
  FindLibrary "libc.so.6" None None = Ok "/opt/lib/libc.so.6"%string.
Proof.
  assert (read_ldsoconf = Ok ["/usr/local/lib"; "/opt/lib"]%string) as Hc
    by exact (read_ldsoconf_dfs_spec files rank dirs confs
                ldsoconf_depth "/etc/ld.so.conf" [] ltac:(by left) ltac:(vm_compute; lia)).
  split; [exact Hc|]. rewrite (FindLibrary_spec "libc.so.6" None None _ Hc). vm_compute. reflexivity.
Defined.

Lemma search_directories_unreadable_witness :
  search_directories "libc.so.6" ["/sl"; "/secret"; "/opt/lib"] = Err Exception.
Proof. by apply (search_directories_unreadable "libc.so.6" ["/sl"%string] "/secret" ["/opt/lib"%string]). Defined.

Lemma FindLibrary_prefix_witness :
  FindLibrary "libm.so.6" None None = Ok "/sl/libm.so.60"%string.
Proof.
  apply (FindLibrary_prefix "libm.so.6" "0" "/sl" [] [] [] None None); [reflexivity..|discriminate| | | |constructor];
    vm_compute; reflexivity.
Defined.
