(* ===== verification/DynLoader.v ===== *)
(** * DynLoader: loading the object and its dependencies (dyn_loader.h, dyn_loader.cc)

    The loader's own state, its constructor and [LoadDependingLibs]: the
    breadth-first search over the needed libraries. *)

From S2P Require Import Prelude Memory Digits Elf Utils Os ElfBinary ElfDynamic ElfFile FindLibrary.

Record DynLoader := mkDynLoader {
  binaries_ : list ELFBinary;
  main_path_ : string;
  map_file_ : string;             (** the name of the file behind the stream *)
  args_ : list string;
  envs_ : list string;
  next_base_addr_ : Z;
  loaded_ : gset string;
  relocated_ : gmap (list string) bool   (** keyed by paths, compared element by element *)
}.

#[export] Instance DynLoader_settable : Settable DynLoader := λ d,
  mkDynLoader (binaries_ d) (main_path_ d) (map_file_ d) (args_ d) (envs_ d) (next_base_addr_ d)
    (loaded_ d) (relocated_ d).

Definition DynLoader_new `{Environment} (main_path : string) (args envs : list string) : DynLoader :=
  mkDynLoader [] main_path (default "/tmp/sloader_map"%string (getenv "SLOADER_MAP_FILE")) args envs
    0x1400000 ∅ ∅.

(** An entry of the queue: a library and the search paths of the object that needs it. *)
Record request := mkRequest { rq_name : string; rq_runpath : option string; rq_rpath : option string }.

Definition requests (b : ELFBinary) : list request :=
  map (λ n, mkRequest n (runpath_ b) (rpath_ b)) (neededs_ b).

(** The dynamic loader and the C library are never loaded. *)
Definition skip_library (library_name : string) : bool :=
  str_contains "ld-linux" library_name || str_contains "libc.so" library_name.

Section loading.
Context `{Environment} `{FileSystem} `{Kernel}.

(** [binaries_.emplace_back(ELFBinary(path))] and the [Load] of the new element. *)
Definition load_binary (dl : DynLoader) (path : string) : P (ELFBinary * DynLoader) :=
  b ← ELFBinary_new path;
  '(next, b) ← Load b (next_base_addr_ dl);
  mret (b, dl <| binaries_ := binaries_ dl ++ [b] |> <| next_base_addr_ := next |>).

(** One round of [while (!queue.empty())]. *)
Definition deps_step (st : DynLoader * list request * proc) :
    outcome ((DynLoader * list request * proc) + (DynLoader * proc)) :=
  let '(dl, queue, s) := st in
  match queue with
  | [] => Ok (inr (dl, s))
  | rq :: queue =>
      if bool_decide (rq_name rq ∈ loaded_ dl) then Ok (inl (dl, queue, s))
      else
        let dl := dl <| loaded_ := {[rq_name rq]} ∪ loaded_ dl |> in
        if skip_library (rq_name rq) then Ok (inl (dl, queue, s))
        else
          library_path ← FindLibrary (rq_name rq) (rq_runpath rq) (rq_rpath rq);
          r ← load_binary dl library_path s;
          let '(b, dl, s) := r in
          Ok (inl (dl, queue ++ requests b, s))
  end.

Definition LoadDependingLibs (dl : DynLoader) (root_path : string) : P DynLoader := λ s,
  r ← load_binary dl root_path s;
  let '(b, dl, s) := r in
  let dl := dl <| loaded_ := {[path_filename root_path]} ∪ loaded_ dl |> in
  while deps_step (dl, requests b, s).
End loading.

(** * The reference: breadth-first order

    The libraries that get loaded are determined by the list of all requests, in
    the order of the objects that make them: a request counts when its name has
    not been seen before and is not one of the skipped ones. *)

Fixpoint fresh (seen : gset string) (rqs : list request) : list request :=
  match rqs with
  | [] => []
  | rq :: rqs =>
      if bool_decide (rq_name rq ∈ seen) then fresh seen rqs
      else if skip_library (rq_name rq) then fresh ({[rq_name rq]} ∪ seen) rqs
      else rq :: fresh ({[rq_name rq]} ∪ seen) rqs
  end.

Definition names_of (rqs : list request) : gset string := list_to_set (map rq_name rqs).

Lemma fresh_app seen rqs1 rqs2 :
  fresh seen (rqs1 ++ rqs2) = fresh seen rqs1 ++ fresh (names_of rqs1 ∪ seen) rqs2.
Proof.
  revert seen. induction rqs1 as [|rq rqs1 IH]; intros seen; cbn [app fresh].
  { unfold names_of. cbn. by rewrite union_empty_l_L. }
  assert (names_of (rq :: rqs1) ∪ seen = names_of rqs1 ∪ ({[rq_name rq]} ∪ seen)) as E
    by (unfold names_of; cbn; set_solver).
  rewrite E. case_bool_decide as Hin; [|by destruct (skip_library _); rewrite IH].
  rewrite IH. do 2 f_equal. set_solver.
Qed.

(** What the fresh requests are: each name once, none of them seen or skipped,
    and all the names there are. *)
Lemma fresh_NoDup seen rqs :
  NoDup (map rq_name (fresh seen rqs)) ∧ ∀ rq, rq ∈ fresh seen rqs →
    rq ∈ rqs ∧ rq_name rq ∉ seen ∧ skip_library (rq_name rq) = false.
Proof.
  revert seen. induction rqs as [|rq rqs IH]; intros seen; cbn [fresh]; [split; [constructor|set_solver]|].
  case_bool_decide as Hin.
  { destruct (IH seen) as [? Hf]. split; [done|]. intros rq' ?%Hf. set_solver. }
  destruct (IH ({[rq_name rq]} ∪ seen)) as [Hnd Hf]. destruct (skip_library (rq_name rq)) eqn:Es.
  { split; [done|]. intros rq' ?%Hf. set_solver. }
  split.
  - cbn. constructor; [|done]. intros (rq' & Heq & Hrq')%list_elem_of_fmap. apply Hf in Hrq'. set_solver.
  - intros rq' [->|Hrq']%elem_of_cons; [set_solver|]. apply Hf in Hrq'. set_solver.
Qed.

Lemma fresh_complete seen rqs rq :
  rq ∈ rqs → rq_name rq ∈ seen ∨ skip_library (rq_name rq) = true ∨
  ∃ rq', rq' ∈ fresh seen rqs ∧ rq_name rq' = rq_name rq.
Proof.
  revert seen. induction rqs as [|rq0 rqs IH]; intros seen Hin; [set_solver|]. cbn [fresh].
  apply elem_of_cons in Hin as [->|Hin].
  - case_bool_decide; [by left|]. destruct (skip_library _) eqn:E; [auto|].
    right. right. exists rq0. split; [set_solver|done].
  - case_bool_decide; [by apply IH|].
    destruct (IH ({[rq_name rq0]} ∪ seen) Hin) as [Hs|[Hs|(rq' & Hf & Hn)]]; [|auto|].
    + apply elem_of_union in Hs as [Heq%elem_of_singleton|Hs]; [|auto].
      destruct (skip_library (rq_name rq0)) eqn:E; [rewrite Heq; auto|].
      right. right. exists rq0. split; [set_solver|done].
    + right. right. exists rq'. split; [|done]. destruct (skip_library (rq_name rq0)); [done|by constructor].
Qed.

(** * Theorems about the search *)

Section search.
Context `{Environment} `{FileSystemSpec} `{KernelSpec}.

Lemma load_binary_ok dl path s b dl' s' :
  load_binary dl path s = Ok ((b, dl'), s') →
  ∃ b0 s1 next, ELFBinary_new path s = Ok (b0, s1) ∧ Load b0 (next_base_addr_ dl) s1 = Ok ((next, b), s') ∧
    dl' = dl <| binaries_ := binaries_ dl ++ [b] |> <| next_base_addr_ := next |>.
Proof.
  unfold load_binary. intros Hrun. apply stM_bind_ok in Hrun as (b0 & s1 & Hn & Hrun).
  apply stM_bind_ok in Hrun as ([next b1] & s2 & Hl & Hrun). inv_ok. eauto 10.
Qed.

Lemma Load_path b arg s next b' s' : Load b arg s = Ok ((next, b'), s') → path_ b' = path_ b.
Proof.
  intros (b1 & Hsegs & Hdyn & _)%Load_ok. destruct (ParseDynamic_image _ _ _ Hdyn) as [-> _ _ _ _ _ _ _ _].
  eapply (foldM_st_invariant _ (λ b1 _, path_ b1 = path_ b)); [| |exact Hsegs]; [|done].
  intros b2 ph s2 b3 s3 _ Hb2 Hrun2. destruct (decide (p_type ph = PT_LOAD)) as [Ht|Ht].
  - by destruct (load_segment_ok _ _ _ _ _ Hrun2 Ht) as (_ & -> & _).
  - rewrite load_segment_skip in Hrun2 by done. by simplify_eq.
Qed.

Lemma ELFBinary_new_fields path s b s' :
  ELFBinary_new path s = Ok (b, s') → path_ b = path ∧ neededs_ b = [].
Proof. intros (bs & base & phs & _ & _ & _ & _ & _ & -> & _)%ELFBinary_new_ok. done. Qed.

Lemma load_binary_path dl path s b dl' s' :
  load_binary dl path s = Ok ((b, dl'), s') → path_ b = path.
Proof.
  intros (b0 & s1 & next & Hn & Hl & _)%load_binary_ok.
  rewrite (Load_path _ _ _ _ _ _ Hl). by apply ELFBinary_new_fields in Hn as [-> _].
Qed.

(** The fields a search leaves alone. *)
Definition same_config (dl dl' : DynLoader) : Prop :=
  main_path_ dl' = main_path_ dl ∧ map_file_ dl' = map_file_ dl ∧ args_ dl' = args_ dl ∧
  envs_ dl' = envs_ dl ∧ relocated_ dl' = relocated_ dl.

Definition found (rq : request) (lib : ELFBinary) : Prop :=
  FindLibrary (rq_name rq) (rq_runpath rq) (rq_rpath rq) = Ok (path_ lib).

(** The invariant of the loop: some of the requests of the objects loaded so
    far are done, the others make up the queue. *)
Definition bfs_invariant (dl0 : DynLoader) (root : ELFBinary) (seen : gset string)
    (st : DynLoader * list request * proc) : Prop :=
  let '(dl, queue, s) := st in
  ∃ libs done,
    binaries_ dl = binaries_ dl0 ++ root :: libs ∧
    (root :: libs) ≫= requests = done ++ queue ∧
    Forall2 found (fresh seen done) libs ∧
    loaded_ dl = names_of done ∪ seen ∧ same_config dl0 dl.

(** The loop ends with the queue. *)
Lemma deps_step_leaves dl queue s r : deps_step (dl, queue, s) = Ok (inr r) → queue = [] ∧ r = (dl, s).
Proof.
  destruct queue as [|rq queue]; cbn [deps_step]; [by intros [= <-]|].
  case_bool_decide; [done|]. destruct (skip_library _); [done|].
  by intros (path & _ & ([[b dl1] s1] & _ & ?)%outcome_bind_ok)%outcome_bind_ok.
Qed.

Lemma deps_step_invariant dl0 root seen st st' :
  bfs_invariant dl0 root seen st → deps_step st = Ok (inl st') → bfs_invariant dl0 root seen st'.
Proof.
  destruct st as [[dl queue] s]. intros (libs & dn & Hbin & Hreq & Hf & Hl & Hc) Hrun.
  destruct queue as [|rq queue]; [done|]. cbn [deps_step] in Hrun.
  assert (Hnames : names_of (dn ++ [rq]) ∪ seen = {[rq_name rq]} ∪ loaded_ dl).
  { rewrite Hl. unfold names_of. rewrite map_app. cbn. set_solver. }
  assert (Hdone : (root :: libs) ≫= requests = (dn ++ [rq]) ++ queue) by by rewrite <-app_assoc.
  case_bool_decide as Hin.
  { simplify_eq. exists libs, (dn ++ [rq]). split_and!; [done|done| |set_solver|done].
    rewrite fresh_app. cbn [fresh]. rewrite bool_decide_true by by rewrite <-Hl. by rewrite app_nil_r. }
  destruct (skip_library (rq_name rq)) eqn:Es.
  { simplify_eq. exists libs, (dn ++ [rq]). split_and!; [done|done| |done|done].
    rewrite fresh_app. cbn [fresh]. rewrite bool_decide_false, Es by by rewrite <-Hl. by rewrite app_nil_r. }
  apply outcome_bind_ok in Hrun as (path & Hfind & Hrun).
  apply outcome_bind_ok in Hrun as ([[b dl1] s1] & Hload & Hrun). simplify_eq.
  pose proof (load_binary_path _ _ _ _ _ _ Hload) as Hp.
  apply load_binary_ok in Hload as (b0 & s2 & next & _ & _ & ->).
  exists (libs ++ [b]), (dn ++ [rq]). split_and!; [| | |done|done].
  - transitivity (binaries_ dl ++ [b]); [reflexivity|]. by rewrite Hbin, <-app_assoc.
  - rewrite app_comm_cons, bind_app, Hdone. cbn. by rewrite app_nil_r, !app_assoc.
  - rewrite fresh_app. apply Forall2_app; [done|]. cbn [fresh].
    rewrite bool_decide_false, Es by by rewrite <-Hl. repeat constructor. unfold found. by rewrite Hp.
Qed.

Lemma LoadDependingLibs_ok dl root_path s dl' s' :
  LoadDependingLibs dl root_path s = Ok (dl', s') →
  ∃ root dl1 s1, load_binary dl root_path s = Ok ((root, dl1), s1) ∧
    while deps_step (dl1 <| loaded_ := {[path_filename root_path]} ∪ loaded_ dl1 |>, requests root, s1) = Ok (dl', s').
Proof.
  unfold LoadDependingLibs. intros Hrun. apply outcome_bind_ok in Hrun as ([[root dl1] s1] & Hl & Hrun). eauto.
Qed.

Lemma load_binary_grows dl path s b dl' s' :
  load_binary dl path s = Ok ((b, dl'), s') → mem_ok (p_mem s) →
  mem_ok (p_mem s') ∧ mem_size (p_mem s) < mem_size (p_mem s') ∧
  Z.of_nat (length (neededs_ b)) ≤ 2 ^ 47.
Proof.
  intros (b0 & s1 & next & Hn & Hl & _)%load_binary_ok Hok.
  destruct (ELFBinary_new_grows _ _ _ _ Hn Hok) as [Hok1 ?].
  destruct (Load_grows _ _ _ _ _ _ Hl Hok1) as [Hok2 ?].
  pose proof (Load_neededs _ _ _ _ _ _ Hl Hok1) as Hlen.
  apply ELFBinary_new_fields in Hn as [_ Hne]. rewrite Hne in Hlen. split_and!; [done|lia|exact Hlen].
Qed.

Lemma in_fuel_load_binary dl path s : mem_ok (p_mem s) → in_fuel (load_binary dl path s).
Proof.
  intros Hok. unfold load_binary. apply in_fuel_st_bind; [apply in_fuel_ELFBinary_new|]. intros b s1 Hn.
  destruct (ELFBinary_new_grows _ _ _ _ Hn Hok) as [Hok1 _].
  apply in_fuel_st_bind; [by apply in_fuel_Load|]. by intros [next b1] s2 _.
Qed.

Lemma in_fuel_query {A} (o : option A) : in_fuel (fs_query o).
Proof. by destruct o. Qed.

Lemma in_fuel_search_directories name dirs : in_fuel (search_directories name dirs).
Proof.
  rewrite search_directories_spec. destruct (candidates name dirs) as [|[p|e] rest] eqn:E; [done..|].
  assert (Err e ∈ candidates name dirs) as Hin by (rewrite E; by left). unfold candidates in Hin.
  apply list_elem_of_bind in Hin as (d & Hin & _). destruct (is_directory d) as [[]|].
  - apply elem_of_app in Hin as [Hin|Hin]; [by apply list_elem_of_fmap in Hin as (? & ? & _)|].
    destruct (directory_throws d); [|by apply elem_of_nil in Hin]. apply list_elem_of_singleton in Hin as [= ->]. done.
  - by apply elem_of_nil in Hin.
  - apply list_elem_of_singleton in Hin as [= ->]. done.
Qed.

Lemma in_fuel_FindLibrary name runpath rpath :
  in_fuel read_ldsoconf → in_fuel (FindLibrary name runpath rpath).
Proof.
  intros Hf. unfold FindLibrary, library_directories. apply in_fuel_bind.
  { destruct (path_is_absolute name); [apply in_fuel_query|done]. }
  intros [] _; [done|]. apply in_fuel_bind; [by apply in_fuel_bind|]. intros dirs _.
  apply in_fuel_bind; [apply in_fuel_search_directories|]. by intros [] _.
Qed.

Lemma in_fuel_deps_step dl queue s :
  in_fuel read_ldsoconf → mem_ok (p_mem s) → in_fuel (deps_step (dl, queue, s)).
Proof.
  intros Hf Hok. destruct queue as [|rq queue]; [done|]. cbn [deps_step].
  case_bool_decide; [done|]. destruct (skip_library _); [done|].
  apply in_fuel_bind; [by apply in_fuel_FindLibrary|]. intros path _.
  apply in_fuel_bind; [by apply in_fuel_load_binary|]. by intros [[b dl1] s1] _.
Qed.

(** Each round either takes a request from the queue or also maps a file, and
    the address space has room for finitely many of those. *)
Definition deps_variant (st : DynLoader * list request * proc) : Z :=
  let '(_, queue, s) := st in
  Z.of_nat (length queue) + 2 ^ 47 * (2 ^ 47 - mem_size (p_mem s)).

Lemma deps_step_variant st st' :
  mem_ok (p_mem st.2) → deps_step st = Ok (inl st') →
  mem_ok (p_mem st'.2) ∧ 0 ≤ deps_variant st' < deps_variant st.
Proof.
  destruct st as [[dl queue] s]. intros Hok Hrun. destruct queue as [|rq queue]; [done|].
  cbn [deps_step snd] in *. pose proof (mem_ok_size _ Hok) as Hsz.
  case_bool_decide; [simplify_eq; cbn [deps_variant snd length]; split; [done|lia]|].
  destruct (skip_library _); [simplify_eq; cbn [deps_variant snd length]; split; [done|lia]|].
  apply outcome_bind_ok in Hrun as (path & _ & Hrun).
  apply outcome_bind_ok in Hrun as ([[b dl1] s1] & Hload & Hrun). simplify_eq.
  destruct (load_binary_grows _ _ _ _ _ _ Hload Hok) as (Hok1 & ? & ?). cbn [snd deps_variant length].
  pose proof (mem_ok_size _ Hok1). split; [done|].
  unfold requests. rewrite length_app, length_map. lia.
Qed.

(** The loop starts from the root and only adds objects. *)
Lemma deps_loop_bfs dl0 root_path s0 root dl1 s1 dl' s' :
  load_binary dl0 root_path s0 = Ok ((root, dl1), s1) →
  while deps_step (dl1 <| loaded_ := {[path_filename root_path]} ∪ loaded_ dl1 |>, requests root, s1) = Ok (dl', s') →
  bfs_invariant dl0 root ({[path_filename root_path]} ∪ loaded_ dl0) (dl', [], s').
Proof.
  intros Hl Hrun. apply load_binary_ok in Hl as (b0 & s2 & next & _ & _ & ->).
  eapply (while_invariant _ (bfs_invariant dl0 root ({[path_filename root_path]} ∪ loaded_ dl0))) in Hrun
    as ([[dl2 queue] s3] & Hi & Hstep).
  - by apply deps_step_leaves in Hstep as [-> [= -> ->]].
  - intros; by eapply deps_step_invariant.
  - exists [], []. cbn. split_and!; [done|by rewrite app_nil_r|constructor| |done].
    unfold names_of. cbn. set_solver.
Qed.

Lemma LoadDependingLibs_prefix dl root_path s dl' s' :
  LoadDependingLibs dl root_path s = Ok (dl', s') →
  ∃ root libs dl1 s1, load_binary dl root_path s = Ok ((root, dl1), s1) ∧ binaries_ dl' = binaries_ dl ++ root :: libs.
Proof.
  intros (root & dl1 & s1 & Hl & Hrun)%LoadDependingLibs_ok.
  destruct (deps_loop_bfs _ _ _ _ _ _ _ _ Hl Hrun) as (libs & dn & Hb & _). by exists root, libs, dl1, s1.
Qed.

(** C6: [LoadDependingLibs] is a breadth-first search. Take the requests of
    all the objects it adds, in the order of the objects: the libraries after
    the root are exactly the objects [FindLibrary] finds for the fresh requests
    among them - those whose name is new and not the dynamic loader or the C
    library - in that order. So every dependency is loaded or skipped, once. *)
Theorem LoadDependingLibs_bfs dl root_path s dl' s' :
  LoadDependingLibs dl root_path s = Ok (dl', s') →
  ∃ root libs,
    let seen := {[path_filename root_path]} ∪ loaded_ dl in
    let rqs := (root :: libs) ≫= requests in
    binaries_ dl' = binaries_ dl ++ root :: libs ∧ path_ root = root_path ∧
    Forall2 found (fresh seen rqs) libs ∧
    loaded_ dl' = names_of rqs ∪ seen ∧ same_config dl dl'.
Proof.
  intros (root & dl1 & s1 & Hl & Hrun)%LoadDependingLibs_ok.
  pose proof (load_binary_path _ _ _ _ _ _ Hl) as Hp.
  destruct (deps_loop_bfs _ _ _ _ _ _ _ _ Hl Hrun) as (libs & dn & Hb & Hreq & Hf & Hld & Hc).
  rewrite app_nil_r in Hreq. exists root, libs. cbv zeta. by rewrite Hreq.
Qed.

Lemma LoadDependingLibs_mem_ok dl root_path s dl' s' :
  LoadDependingLibs dl root_path s = Ok (dl', s') → mem_ok (p_mem s) → mem_ok (p_mem s').
Proof.
  intros (root & dl1 & s1 & Hload & Hrun)%LoadDependingLibs_ok Hok.
  apply (while_invariant _ (λ st, mem_ok (p_mem st.2))) in Hrun as ([[dl2 queue] s2] & Hok2 & Hstep).
  - by apply deps_step_leaves in Hstep as [-> [= -> ->]].
  - intros st st' Hst Hstep. by apply (deps_step_variant st).
  - by destruct (load_binary_grows _ _ _ _ _ _ Hload Hok).
Qed.

(** The search ends, for every file system and every dependency graph
    (circular ones included), without a bound on the number of libraries: each
    load takes address space, of which there is a finite amount. *)
Lemma LoadDependingLibs_terminates dl root_path s :
  in_fuel read_ldsoconf → mem_ok (p_mem s) → in_fuel (LoadDependingLibs dl root_path s).
Proof.
  intros Hf Hok. unfold LoadDependingLibs. apply in_fuel_bind; [by apply in_fuel_load_binary|].
  intros [[b dl1] s1] Hload. destruct (load_binary_grows _ _ _ _ _ _ Hload Hok) as (Hok1 & ? & ?).
  pose proof (mem_ok_size _ Hok1). pose proof (mem_size_nonneg (p_mem s1)).
  apply (in_fuel_while _ (λ st, mem_ok (p_mem st.2)) deps_variant).
  - intros st st' Hst Hstep. by apply deps_step_variant.
  - intros [[dl2 queue] s2] Hst. by apply in_fuel_deps_step.
  - exact Hok1.
  - cbn [deps_variant]. unfold requests. rewrite length_map. lia.
Qed.
End search.

(** * The images of the loaded objects *)

(** What a file promises about its loadable segments: sizes that fit the file
    and the address space. *)
Definition segment_wf (base size : Z) (ph : Elf64_Phdr) : Prop :=
  seg_nowrap base ph ∧ 0 ≤ p_filesz ph ≤ p_memsz ph ∧ 0 ≤ p_offset ph ∧
  p_offset ph + p_filesz ph ≤ page_ceil size.

Definition object_wf `{FileSystem} (b : ELFBinary) : Prop :=
  ∀ bs ph, open_file (path_ b) = Some bs → ph ∈ loads (file_phdrs_ b) →
  segment_wf (base_addr_ b) (Z.of_nat (length bs)) ph.

(** Every segment of the object is in memory: the bytes of its file, then zeros. *)
Definition in_memory `{FileSystem} (m : memory) (b : ELFBinary) : Prop :=
  ∃ bs, open_file (path_ b) = Some bs ∧ ∀ ph, ph ∈ loads (file_phdrs_ b) →
  let va := p_vaddr ph + base_addr_ b in
  mapped_range m va (p_memsz ph) = true ∧
  peek m va (p_filesz ph) = file_bytes bs (p_offset ph) (p_filesz ph) ∧
  ∀ x, va + p_filesz ph ≤ x < va + p_memsz ph → byte_at m x = 0.

Lemma in_memory_extends `{FileSystem} m m' b :
  object_wf b → extends m m' → in_memory m b → in_memory m' b.
Proof.
  intros Hwf He (bs & Ho & Hsegs). exists bs. split; [done|]. intros ph Hph va.
  destruct (Hwf bs ph Ho Hph) as (_ & Hsz & _). destruct (Hsegs ph Hph) as (Hm & Hp & Hz). fold va in Hm, Hp, Hz.
  rewrite mapped_range_spec in Hm. split_and!.
  - apply mapped_range_spec. intros x Hx. by apply He, Hm.
  - rewrite <-Hp. apply peek_ext. intros x Hx. apply He, Hm. lia.
  - intros x Hx. rewrite <-(Hz x Hx). apply He, Hm. lia.
Qed.

Section images.
Context `{Environment} `{FileSystemSpec} `{KernelSpec}.

Lemma load_segment_fields b ph s b' s' :
  load_segment b ph s = Ok (b', s') →
  path_ b' = path_ b ∧ base_addr_ b' = base_addr_ b ∧ file_phdrs_ b' = file_phdrs_ b ∧ ehdr_ b' = ehdr_ b.
Proof.
  intros Hrun. destruct (decide (p_type ph = PT_LOAD)) as [Ht|Ht].
  - by destruct (load_segment_ok _ _ _ _ _ Hrun Ht) as (_ & -> & _).
  - rewrite load_segment_skip in Hrun by done. by simplify_eq.
Qed.

Lemma Load_fields b arg s next b' s' :
  Load b arg s = Ok ((next, b'), s') →
  path_ b' = path_ b ∧ base_addr_ b' = load_base b arg ∧ file_phdrs_ b' = file_phdrs_ b ∧ ehdr_ b' = ehdr_ b.
Proof.
  intros (b1 & Hsegs & Hdyn & _)%Load_ok. destruct (ParseDynamic_image _ _ _ Hdyn) as [-> _ -> _ -> -> _ _ _].
  eapply (foldM_st_invariant _ (λ b1 _, path_ b1 = path_ b ∧ base_addr_ b1 = load_base b arg ∧
    file_phdrs_ b1 = file_phdrs_ b ∧ ehdr_ b1 = ehdr_ b)); [| |exact Hsegs]; [|done].
  intros b2 ph s2 b3 s3 _ (<- & <- & <- & <-) Hrun2. by apply load_segment_fields in Hrun2.
Qed.

Lemma load_binary_image dl path s b dl' s' :
  load_binary dl path s = Ok ((b, dl'), s') → object_wf b →
  extends (p_mem s) (p_mem s') ∧ in_memory (p_mem s') b.
Proof.
  intros (b0 & s1 & next & Hn & Hl & _)%load_binary_ok Hwf.
  destruct (Load_fields _ _ _ _ _ _ Hl) as (Hpath & Hbase & Hphs & _).
  apply ELFBinary_new_ok in Hn as (bs & base & phs & Ho & _ & Hp & -> & _ & Hb0 & _).
  assert (Hfields : path_ b0 = path ∧ file_base_addr_ b0 = base) by by rewrite Hb0.
  destruct Hfields as [Hpath0 Hfb]. rewrite Hpath0 in Hpath.
  unfold object_wf in Hwf. rewrite Hpath, Hbase, Hphs in Hwf.
  destruct (Load_ok _ _ _ _ _ _ Hl) as (b1 & Hsegs & _). cbn [p_mem set_mem] in Hsegs.
  set (s1 := set_mem _ s) in *.
  destruct (load_segments_image _ _ _ _ _ Hsegs) as [He Himg].
  { intros ph Hin Ht. destruct (Hwf bs ph Ho) as (Hnw & Hsz & Hoff & Hend); [by apply elem_of_loads|].
    split; [exact Hnw|exact Hsz|]. change (file_base_addr_ _) with (file_base_addr_ b0). rewrite Hfb.
    destruct (load_file_bytes _ _ _ _ (p_filesz ph) Hp Hoff) as (Hw & Hm & _); [lia|lia|]. by rewrite Hw. }
  split; [etrans; [by apply map_file_extends|exact He]|].
  exists bs. rewrite Hpath, Hbase, Hphs. split; [done|]. intros ph Hph va.
  destruct (Hwf bs ph Ho Hph) as (Hnw & Hsz & Hoff & Hend). pose proof Hph as [Ht Hin]%elem_of_loads.
  assert (seg_image (p_mem s1) (p_mem s') (load_base b0 (next_base_addr_ dl)) (file_base_addr_ b0) ph)
    as [Hm Hf Hz] by exact (Himg ph Hin Ht).
  rewrite (seg_va_nowrap _ _ Hnw) in Hm, Hf, Hz. split_and!; [exact Hm| |exact Hz].
  etrans; [exact Hf|]. rewrite Hfb.
  destruct (load_file_bytes _ _ _ _ (p_filesz ph) Hp Hoff) as (Hw & _ & Hpk); [lia|lia|]. by rewrite Hw.
Qed.

(** Where the segments of an object run past their pages. *)
Definition object_spills (b : ELFBinary) : Z → Prop := spills (base_addr_ b) (file_phdrs_ b).

Lemma load_binary_frame dl path s b dl' s' :
  load_binary dl path s = Ok ((b, dl'), s') → kept_off (object_spills b) (p_mem s) (p_mem s').
Proof.
  intros (b0 & s1 & next & Hn & Hl & _)%load_binary_ok.
  destruct (Load_fields _ _ _ _ _ _ Hl) as (_ & Hbase & Hphs & _).
  apply ELFBinary_new_ok in Hn as (bs & base & phs & _ & _ & Hp & -> & _).
  apply Load_ok in Hl as (b1 & Hsegs%load_segments_frame & _). unfold object_spills. rewrite Hbase, Hphs.
  etrans; [apply extends_kept_off; by apply map_file_extends|exact Hsegs].
Qed.

Definition image_invariant (dl0 : DynLoader) (m0 : memory) (dl : DynLoader) (m : memory) : Prop :=
  ∃ new, binaries_ dl = binaries_ dl0 ++ new ∧
    kept_off (λ x, ∃ b, b ∈ new ∧ object_spills b x) m0 m ∧
    (Forall object_wf new → extends m0 m ∧ Forall (in_memory m) new).

Lemma load_binary_image_invariant dl0 m0 dl path s b dl' s' :
  load_binary dl path s = Ok ((b, dl'), s') →
  image_invariant dl0 m0 dl (p_mem s) → image_invariant dl0 m0 dl' (p_mem s').
Proof.
  intros Hload (new & Hb & Hk & Hi). exists (new ++ [b]). split_and!.
  - apply load_binary_ok in Hload as (b0 & s1 & next & _ & _ & ->).
    transitivity (binaries_ dl ++ [b]); [reflexivity|]. by rewrite Hb, app_assoc.
  - apply load_binary_frame in Hload.
    etrans; [eapply kept_off_weaken; [exact Hk|]|eapply kept_off_weaken; [exact Hload|]].
    + intros x (b' & Hb' & Hx). exists b'. split; [apply elem_of_app; by left|exact Hx].
    + intros x Hx. exists b. split; [apply elem_of_app; right; left|exact Hx].
  - intros [Hwf [Hwfb _]%Forall_cons]%Forall_app. destruct (Hi Hwf) as [He Hin].
    destruct (load_binary_image _ _ _ _ _ _ Hload Hwfb) as [He' Hinb]. split; [by etrans|].
    apply Forall_app. split; [|by repeat constructor].
    rewrite Forall_forall in Hin, Hwf |- *. intros b' Hb'. eapply in_memory_extends; [by apply Hwf|done|by apply Hin].
Qed.

Lemma LoadDependingLibs_image dl root_path s dl' s' :
  LoadDependingLibs dl root_path s = Ok (dl', s') →
  ∃ new, binaries_ dl' = binaries_ dl ++ new ∧
    kept_off (λ x, ∃ b, b ∈ new ∧ object_spills b x) (p_mem s) (p_mem s') ∧
    (Forall object_wf new → extends (p_mem s) (p_mem s') ∧ Forall (in_memory (p_mem s')) new).
Proof.
  intros (root & dl1 & s1 & Hl & Hrun)%LoadDependingLibs_ok.
  eapply (while_invariant _ (λ st, image_invariant dl (p_mem s) st.1.1 (p_mem st.2))) in Hrun
    as ([[dl2 queue] s2] & Hi & Hstep).
  - by apply deps_step_leaves in Hstep as [-> [= -> ->]].
  - intros [[dl2 queue] s2] st' Hi Hstep. cbn [fst snd] in Hi. destruct queue as [|rq queue]; [done|].
    cbn [deps_step] in Hstep. case_bool_decide; [by simplify_eq|].
    destruct (skip_library _); [by simplify_eq|].
    apply outcome_bind_ok in Hstep as (path & _ & Hstep).
    apply outcome_bind_ok in Hstep as ([[b dl3] s3] & Hload & Hstep). simplify_eq.
    eapply load_binary_image_invariant; [exact Hload|exact Hi].
  - eapply (load_binary_image_invariant dl (p_mem s)) in Hl; [exact Hl|].
    exists []. rewrite app_nil_r. by split_and!.
Qed.

(** C8: what the search does to memory. For every file, nothing that was mapped
    before is unmapped, and it changes at most where the file part of a segment of
    a new object runs past the segment's pages, which the code does not prevent.
    When the new objects keep the rules of the format ([object_wf]: addresses do not
    wrap, [p_filesz <= p_memsz], offsets inside the file) nothing that was in memory
    before has changed, and every object the search added is in memory as its file
    says - the later loads have not touched the earlier images. *)
Theorem LoadDependingLibs_images dl root_path s dl' s' :
  LoadDependingLibs dl root_path s = Ok (dl', s') →
  ∃ new, binaries_ dl' = binaries_ dl ++ new ∧
    kept_off (λ x, ∃ b, b ∈ new ∧ object_spills b x) (p_mem s) (p_mem s') ∧
    (Forall object_wf new → extends (p_mem s) (p_mem s') ∧ Forall (in_memory (p_mem s')) new).
Proof. apply LoadDependingLibs_image. Qed.
End images.
