(* ===== verification/Words.v ===== *)
(** * The widths of the integers

    The model keeps the [Elf64_*] fields and the addresses of the loader as
    integers. Here is the invariant that they stay within the width of their C
    type, on any memory that consists of bytes: for the records parsed from
    memory, for the objects the loader makes, and for the loader as a whole. *)

From S2P Require Import Prelude Memory Digits Elf Utils Os ElfBinary ElfDynamic ElfFile FindLibrary DynLoader.

(** ** Records read from memory *)

Record phdr_words (ph : Elf64_Phdr) : Prop := {
  pw_32 : 0 ≤ p_type ph < 2 ^ 32 ∧ 0 ≤ p_flags ph < 2 ^ 32;
  pw_64 : word64 (p_offset ph) ∧ word64 (p_vaddr ph) ∧ word64 (p_paddr ph) ∧ word64 (p_filesz ph) ∧
          word64 (p_memsz ph) ∧ word64 (p_align ph)
}.

Record ehdr_words (h : Elf64_Ehdr) : Prop := {
  hw_16 : 0 ≤ e_type h < 2 ^ 16 ∧ 0 ≤ e_phentsize h < 2 ^ 16 ∧ 0 ≤ e_phnum h < 2 ^ 16;
  hw_64 : word64 (e_entry h) ∧ word64 (e_phoff h)
}.

Definition dyn_words (d : Elf64_Dyn) : Prop := word64 (d_tag d) ∧ word64 (d_un d).

Definition rela_words (r : Elf64_Rela) : Prop := word64 (r_offset r) ∧ word64 (r_info r) ∧ word64 (r_addend r).

Record sym_words (s : Elf64_Sym) : Prop := {
  sw_small : 0 ≤ st_name s < 2 ^ 32 ∧ 0 ≤ st_info s < 2 ^ 8 ∧ 0 ≤ st_other s < 2 ^ 8 ∧ 0 ≤ st_shndx s < 2 ^ 16;
  sw_64 : word64 (st_value s) ∧ word64 (st_size s)
}.

Lemma field_bound bs off (n : nat) : Forall byte bs → 0 ≤ field bs off n < 256 ^ Z.of_nat n.
Proof.
  intros Hbs. unfold field.
  assert (Forall byte (take n (drop off bs))) as Hf by by apply Forall_take, Forall_drop.
  apply le_combine_bound in Hf. rewrite length_take in Hf.
  pose proof (Z.pow_le_mono_r 256 (Z.of_nat (n `min` length (drop off bs))) (Z.of_nat n)). lia.
Qed.

(** Fields of 1, 2, 4 and 8 bytes. *)
Ltac field_words := repeat split; try (apply (field_bound _ _ 1) || apply (field_bound _ _ 2) ||
  apply (field_bound _ _ 4) || apply (field_bound _ _ 8)); assumption.

(** A record made of the fields at its address. *)
Ltac read_words rd :=
  unfold rd; intros Hrun; inv_ok;
  match goal with
  | Hm : bytes_ok ?m, H : load_bytes ?m _ _ = _ |- _ => apply (load_bytes_bytes _ _ _ _ Hm) in H as [? _]
  end;
  field_words.

Section reads.
Context (m : memory) (Hm : bytes_ok m).

Lemma read_phdr_words a ph : read_phdr m a = Ok ph → phdr_words ph.
Proof. read_words read_phdr. Qed.

Lemma read_ehdr_words a h : read_ehdr m a = Ok h → ehdr_words h.
Proof. read_words read_ehdr. Qed.

Lemma read_dyn_words a d : read_dyn m a = Ok d → dyn_words d.
Proof. read_words read_dyn. Qed.

Lemma read_rela_words a r : read_rela m a = Ok r → rela_words r.
Proof. read_words read_rela. Qed.

Lemma read_sym_words a s : read_sym m a = Ok s → sym_words s.
Proof. read_words read_sym. Qed.

Lemma rela_table_words tab sz ent rs : rela_table m tab sz ent rs → Forall rela_words rs.
Proof.
  unfold rela_table. destruct (tab =? 0); [intros ->; constructor|]. intros (_ & _ & Hrs).
  induction Hrs; constructor; [by eapply read_rela_words|done].
Qed.

Lemma symbol_table_words strsz tab all syms : symbol_table m strsz tab all syms → Forall sym_words syms.
Proof.
  unfold symbol_table. destruct (tab =? 0); [intros ->; constructor|].
  intros (s & rest & -> & Hs & [Hrest _] & _). constructor; [by eapply read_sym_words|].
  apply Forall_lookup. intros i s' Hi. destruct (Hrest i s' Hi) as [Hr _]. by eapply read_sym_words.
Qed.

Lemma dyn_entries_words b ds : dyn_entries m b = Ok ds → Forall dyn_words ds.
Proof. intros Hds%traverse_ok. induction Hds; constructor; [by eapply read_dyn_words|done]. Qed.
End reads.

(** ** Objects *)

(** The integers the dynamic section sets. *)
Definition dyn_ints (b : ELFBinary) : list Z :=
  [rela_ b; relasz_ b; relaent_ b; relacount_ b; jmprel_ b; pltrelsz_ b; pltrel_ b; pltrelent_ b; symtab_ b; syment_ b;
   init_ b; fini_ b; init_array_ b; init_arraysz_ b; fini_array_ b; fini_arraysz_ b; strtab_ b; strsz_ b].

Record binary_words (b : ELFBinary) : Prop := {
  bw_base : word64 (file_base_addr_ b) ∧ word64 (base_addr_ b) ∧ word64 (end_addr_ b);
  bw_ehdr : ehdr_words (ehdr_ b);
  bw_phdrs : Forall phdr_words (file_phdrs_ b) ∧ phdr_words (file_dynamic_ b) ∧
             ∀ ph, file_tls_ b = Some ph → phdr_words ph;
  bw_dyn : Forall word64 (dyn_ints b);
  bw_relas : Forall rela_words (relas_ b) ∧ Forall rela_words (pltrelas_ b);
  bw_syms : Forall sym_words (symtabs_ b)
}.

Lemma wrap64_word x : word64 (wrap64 x).
Proof. apply wrap_bound. lia. Qed.

Section values.
Context (ds : list Elf64_Dyn) (Hds : Forall dyn_words ds).

Lemma dyn_last_word tag v : dyn_last tag ds = Some v → word64 v.
Proof.
  unfold dyn_last, dyn_all. intros Hl. apply last_Some_elem_of in Hl.
  apply list_elem_of_fmap in Hl as (d & -> & [_ Hd]%list_elem_of_filter). rewrite Forall_forall in Hds. by apply Hds.
Qed.

Lemma dyn_value_word tag old : word64 old → word64 (dyn_value tag ds old).
Proof. intros. unfold dyn_value. destruct (dyn_last tag ds) eqn:E; [by eapply dyn_last_word|done]. Qed.

Lemma dyn_ptr_word tag base old : word64 old → word64 (dyn_ptr tag base ds old).
Proof. intros. unfold dyn_ptr. destruct (dyn_last tag ds); [apply wrap64_word|done]. Qed.

Lemma dyn_entsize_word old : word64 old → word64 (dyn_entsize ds old).
Proof.
  intros. unfold dyn_entsize. destruct (dyn_last DT_PLTREL ds) as [v|]; [|done]. cbn.
  destruct (v =? DT_RELA); unfold word64, sizeof_Rela, sizeof_Rel; lia.
Qed.
End values.

#[local] Hint Resolve dyn_value_word dyn_ptr_word dyn_entsize_word wrap64_word : bytes.

Lemma strtab_pass_words b ds : Forall dyn_words ds → binary_words b → binary_words (foldl parse_strtab_step b ds).
Proof.
  intros Hds [Hb He Hp Hd Hr Hs]. destruct (parse_strtab_loop_fields b ds) as (Hst & Hsz & Hb1).
  assert (word64 (strtab_ (foldl parse_strtab_step b ds)) ∧ word64 (strsz_ (foldl parse_strtab_step b ds))) as [Hw1 Hw2].
  { rewrite Hst, Hsz. unfold dyn_ints in Hd. rewrite !Forall_cons in Hd. clear Hb He Hp Hr Hs. destruct_and!.
    split; [destruct (dyn_last _ _); cbn|]; auto with bytes. }
  rewrite Hb1. revert Hw1 Hw2. generalize (strtab_ (foldl parse_strtab_step b ds)), (strsz_ (foldl parse_strtab_step b ds)).
  intros st sz Hw1 Hw2. split; [exact Hb|exact He|exact Hp| |exact Hr|exact Hs].
  change (dyn_ints _) with (take 16 (dyn_ints b) ++ [st; sz]).
  apply Forall_app_2; [by apply Forall_take|]. apply Forall_cons; split; [done|]. apply Forall_cons; split; [done|]. apply Forall_nil_2.
Qed.

Lemma dyn_pass_words m b1 ds b2 :
  Forall dyn_words ds → dyn_fields m b1 ds b2 → binary_words b1 → binary_words b2.
Proof.
  intros Hds [_ _ _ H1 H2 H3 H4 H5 H6 H7 H8 H9 H10 H11 H12 H13 H14 H15 H16 H17 H18 (Hr & Hp & Hs) Hi] [Hb He Hph Hd Hrs Hss].
  split.
  - by rewrite (si_file _ _ Hi), (si_base _ _ Hi), (si_end _ _ Hi).
  - by rewrite (si_ehdr _ _ Hi).
  - by rewrite (si_phdrs _ _ Hi), (si_dynamic _ _ Hi), (si_tls _ _ Hi).
  - clear Hb He Hph Hrs Hss Hi Hr Hp Hs. unfold dyn_ints in *. rewrite !Forall_cons in Hd. destruct_and!.
    rewrite H1, H2, H3, H4, H5, H6, H7, H8, H9, H10, H11, H12, H13, H14, H15, H16, H17, H18.
    rewrite !Forall_cons. split_and!; auto with bytes.
  - by rewrite Hr, Hp.
  - by rewrite Hs.
Qed.

Lemma ParseDynamic_words m b b' : bytes_ok m → ParseDynamic m b = Ok b' → binary_words b → binary_words b'.
Proof.
  intros Hm (ds & b1 & b2 & rs & rs' & syms & Hds & Hb1 & Hf & Hrs & Hrs' & _ & Hsyms & ->)%ParseDynamic_stages Hw.
  pose proof (dyn_entries_words _ Hm _ _ Hds) as Hdw.
  assert (binary_words b1) as Hw1 by (rewrite <-Hb1; by apply strtab_pass_words).
  destruct (dyn_pass_words _ _ _ _ Hdw Hf Hw1) as [Hb He Hp Hd [Hr Hpr] Hs].
  apply (rela_table_words _ Hm) in Hrs, Hrs'. apply (symbol_table_words _ Hm) in Hsyms.
  split; [exact Hb|exact He|exact Hp|exact Hd| |].
  - split; [exact (Forall_app_2 _ _ _ Hr Hrs)|exact (Forall_app_2 _ _ _ Hpr Hrs')].
  - exact (Forall_app_2 _ _ _ Hs Hsyms).
Qed.

(** ** The loader *)

Lemma round_base_word x : word64 (round_base x).
Proof.
  unfold round_base. destruct (wrap_bound 64 (x + (0x400000 - 1))) as [Hlo Hhi]; [lia|].
  unfold word64, wrap64 in *. lia_div.
Qed.

Section loader.
Context `{Environment} `{FileSystemSpec} `{KernelSpec}.

Lemma ELFBinary_new_words path s b s' :
  ELFBinary_new path s = Ok (b, s') → bytes_ok (p_mem s) → binary_words b ∧ bytes_ok (p_mem s').
Proof.
  intros (bs & base & phs & Ho & _ & Hp & -> & Hh & Hb & Hphs)%ELFBinary_new_ok Hm.
  assert (bytes_ok (map_bytes (p_mem s) base (page_ceil (Z.of_nat (length bs))) 7 bs)) as Hm'
    by (apply bytes_ok_map_bytes; [done|by eapply file_contents]).
  split; [|exact Hm']. cbn [set_mem p_mem] in *.
  apply (read_ehdr_words _ Hm') in Hh. destruct (mmap_user _ _ _ _ Hp) as (? & ? & ?).
  assert (Forall phdr_words phs) as Hw.
  { clear Hb. induction Hphs; constructor; [by eapply read_phdr_words|done]. }
  assert (∀ ty ph, last_of ty phs = Some ph → phdr_words ph) as Hlast.
  { intros ty ph Hl. apply last_Some_elem_of, list_elem_of_filter in Hl as [_ Hl].
    rewrite Forall_forall in Hw. by apply Hw. }
  assert (phdr_words no_phdr) by (repeat split; cbn; lia).
  rewrite Hb. split; [|rewrite Hb in Hh; exact Hh| | |by split; apply Forall_nil_2|by apply Forall_nil_2].
  - change (word64 base ∧ word64 0 ∧ word64 0). unfold word64. lia.
  - split_and!; [exact Hw| |intros ph; apply Hlast].
    change (phdr_words (default no_phdr (last_of PT_DYNAMIC phs))).
    destruct (last_of PT_DYNAMIC phs) eqn:E; [by eapply Hlast|done].
  - change (dyn_ints _) with (replicate 18 0). apply Forall_replicate. unfold word64. lia.
Qed.

Lemma load_segment_words b ph s b' s' :
  load_segment b ph s = Ok (b', s') → bytes_ok (p_mem s) → binary_words b → binary_words b' ∧ bytes_ok (p_mem s').
Proof.
  intros Hrun Hm Hw. destruct (decide (p_type ph = PT_LOAD)) as [Ht|Ht].
  2: { rewrite load_segment_skip in Hrun by done. by simplify_eq. }
  destruct (load_segment_ok _ _ _ _ _ Hrun Ht) as (_ & -> & _ & -> & _). split.
  - destruct Hw as [(Hf & Hb & He) Hh Hp Hd Hr Hs].
    split; [exact (conj Hf (conj Hb (page_up_word _)))|exact Hh|exact Hp|exact Hd|exact Hr|exact Hs].
  - auto with bytes.
Qed.

Lemma Load_words b arg s next b' s' :
  Load b arg s = Ok ((next, b'), s') → bytes_ok (p_mem s) → binary_words b → word64 arg →
  binary_words b' ∧ bytes_ok (p_mem s') ∧ word64 next.
Proof.
  intros (b1 & Hsegs & Hdyn & ->)%Load_ok Hm Hw Ha.
  assert (binary_words b1 ∧ bytes_ok (p_mem s')) as [Hw1 Hm1].
  { eapply (foldM_st_invariant _ (λ b s, binary_words b ∧ bytes_ok (p_mem s))); [|split; [|exact Hm]|exact Hsegs].
    - intros b2 ph s2 b3 s3 _ [Hw2 Hm2] Hrun. by eapply load_segment_words.
    - assert (word64 (load_base b arg)) as Hl by (unfold load_base; destruct (_ =? _); [done|unfold word64; lia]).
      destruct Hw as [(Hf & _ & _) Hh Hp Hd Hr Hs].
      split; [exact (conj Hf (conj Hl Hl))|exact Hh|exact Hp|exact Hd|exact Hr|exact Hs]. }
  split_and!; [by eapply ParseDynamic_words|done|apply round_base_word].
Qed.

(** The state of the loader: every object and the next base address are in
    range, and memory consists of bytes. *)
Record loader_words (dl : DynLoader) (s : proc) : Prop := {
  lw_binaries : Forall binary_words (binaries_ dl);
  lw_next : word64 (next_base_addr_ dl);
  lw_memory : bytes_ok (p_mem s)
}.

Lemma load_binary_words dl path s b dl' s' :
  load_binary dl path s = Ok ((b, dl'), s') → loader_words dl s → loader_words dl' s'.
Proof.
  intros (b0 & s1 & next & Hnew & Hload & ->)%load_binary_ok [Hb Hn Hm].
  destruct (ELFBinary_new_words _ _ _ _ Hnew Hm) as [Hw Hm1].
  destruct (Load_words _ _ _ _ _ _ Hload Hm1 Hw Hn) as (Hw' & Hm' & Hn').
  split; [|exact Hn'|exact Hm'].
  change (binaries_ _) with (binaries_ dl ++ [b]). apply Forall_app_2; [done|]. apply Forall_cons; split; [done|apply Forall_nil_2].
Qed.

Lemma deps_step_words dl queue s dl' queue' s' :
  deps_step (dl, queue, s) = Ok (inl (dl', queue', s')) → loader_words dl s → loader_words dl' s'.
Proof.
  destruct queue as [|rq queue]; [done|]. cbn [deps_step]. intros Hrun [Hb Hn Hm].
  case_bool_decide; [by simplify_eq|]. destruct (skip_library _); [by simplify_eq|].
  apply outcome_bind_ok in Hrun as (path & _ & Hrun).
  apply outcome_bind_ok in Hrun as ([[b dl1] s1] & Hload & Hrun). simplify_eq.
  by eapply load_binary_words.
Qed.

Lemma loader_words_kept dl root_path s dl' s' :
  LoadDependingLibs dl root_path s = Ok (dl', s') → loader_words dl s → loader_words dl' s'.
Proof.
  intros (root & dl1 & s1 & Hload & Hrun)%LoadDependingLibs_ok Hw.
  apply (while_invariant _ (λ st, loader_words st.1.1 st.2)) in Hrun as ([[dl2 queue] s2] & Hw2 & Hstep).
  - by apply deps_step_leaves in Hstep as [-> [= -> ->]].
  - intros [[dl2 queue] s2] [[dl3 queue3] s3] Hw2 Hstep. by eapply deps_step_words.
  - destruct (load_binary_words _ _ _ _ _ _ Hload Hw) as [Hb Hn Hm]. by split.
Qed.

(** C18: the integers of the loader keep the width of their C types: from a
    loader state whose objects are in range, on a memory of bytes,
    [LoadDependingLibs] leads to another one - so the model's unbounded integers
    stand for the machine words of the source. *)
Theorem LoadDependingLibs_words dl root_path s dl' s' :
  LoadDependingLibs dl root_path s = Ok (dl', s') → loader_words dl s → loader_words dl' s'.
Proof. apply loader_words_kept. Qed.
End loader.
