(* ===== verification/MapFile.v ===== *)
(** * The map file and its reader (addr_to_offset.py)

    [ELFBinary::Load] writes a line for each segment it maps; the script
    addr_to_offset.py reads these lines to turn an address of the running program
    back into an offset in a file. Here is the script, and what it gives on the
    lines of a load. *)

From S2P Require Import Prelude Memory Digits Elf Utils Os ElfBinary ElfDynamic ElfFile FindLibrary DynLoader Words.

(** ** The script *)

(** [s.split(c)]: the parts between the separators, empty ones included. *)
Fixpoint py_split (c : ascii) (s : string) : list string :=
  match s with
  | EmptyString => [EmptyString]
  | String d s =>
      if ascii_dec d c then EmptyString :: py_split c s
      else match py_split c s with
           | w :: ws => String d w :: ws
           | [] => [String d EmptyString]
           end
  end.

(** [s[i:j]]. *)
Definition py_slice (i j : nat) (s : string) : string := str_take (j - i) (str_drop i s).

(** [int(s, 16)] of a text in the form [HexString] writes; [None] for the others. *)
Definition int_16 (s : string) : option Z :=
  if bool_decide (s = "0x"%string) then None else parse_hex s.

Record map_entry := mkMapEntry {
  me_filename : string; me_file_start : Z; me_file_end : Z; me_mem_start : Z; me_mem_end : Z
}.

Definition read_map_line (line : string) : option map_entry :=
  let fields := py_split " " line in
  filename ← fields !! 0%nat;
  f1 ← fields !! 1%nat;
  file_start ← int_16 (py_slice 0 18 f1);
  file_end ← int_16 (py_slice 19 37 f1);
  f5 ← fields !! 5%nat;
  mem_start ← int_16 (py_slice 0 18 f5);
  mem_end ← int_16 (py_slice 19 37 f5);
  mret (mkMapEntry filename file_start file_end mem_start mem_end).

(** What is printed for an entry: the file and the offset. *)
Definition locate (address : Z) (e : map_entry) : option (string * Z) :=
  if (me_mem_start e <=? address) && (address <=? me_mem_end e)
  then Some (me_filename e, address - me_mem_start e + me_file_start e) else None.

(** The loop over the lines of the file, each with its newline. *)
Definition addr_to_offset (lines : list string) (address : Z) : option (list (string * Z)) :=
  entries ← mapM read_map_line lines;
  mret (omap (locate address) entries).

(** *** The command *)

Definition newline : string := String "010" EmptyString.

(** [int(s)] of a text of decimal digits; [None] for the others. *)
Definition int_10 (s : string) : option Z :=
  let cs := list_of_string s in
  if bool_decide (cs ≠ [] ∧ Forall (λ c, 48 ≤ char_code c ≤ 57) cs) then read_digits 10 s else None.

Definition parse_address (s : string) : option Z := if starts_with "0x" s then int_16 s else int_10 s.

(** [hex(n)] of a number that is not negative. *)
Definition py_hex (n : Z) : string := "0x" +:+ print_digits "a" (digits 16 n).

Section command.
(** The lines of a file, and what addr2line, with its arguments, answers. *)
Context (readlines : string → option (list string)) (addr2line : list string → string).

Definition print_location (loc : string * Z) : string :=
  loc.1 +:+ " : " +:+ py_hex loc.2 +:+ newline +:+
  addr2line ["addr2line"; "-e"; loc.1; py_hex loc.2]%string.

(** The text printed; [None] when an exception ends the script. *)
Definition addr_to_offset_main (map_file address : string) : option string :=
  address ← parse_address address;
  lines ← readlines map_file;
  locs ← addr_to_offset lines address;
  mret (foldr String.append EmptyString (map print_location locs)).
End command.

(** Both notations of an address are read back. *)
Lemma print_digits_chars base n c :
  2 ≤ base ≤ 16 → c ∈ list_of_string (print_digits "a" (digits base n)) →
  ∃ d, 0 ≤ d < base ∧ c = digit_char "a" d.
Proof.
  intros Hb. unfold print_digits. rewrite list_of_string_of_list. intros (d & -> & Hin)%list_elem_of_fmap.
  exists d. split; [|done]. rewrite list_elem_of_In, <-in_rev, <-list_elem_of_In in Hin.
  pose proof (digits_bound base n ltac:(lia)) as Hd. rewrite Forall_forall in Hd. by apply Hd.
Qed.

Lemma read_printed base n :
  2 ≤ base ≤ 16 → 0 ≤ n → read_digits base (print_digits "a" (digits base n)) = Some n.
Proof.
  intros Hb Hn. rewrite read_print_digits; [by rewrite of_digits_digits by lia|by right|].
  eapply Forall_impl; [apply digits_bound; lia|]. simpl. lia.
Qed.

Lemma print_digits_nonempty base n : list_of_string (print_digits "a" (digits base n)) ≠ [].
Proof.
  unfold print_digits. rewrite list_of_string_of_list. pose proof (digits_nonempty base n) as Hne. intros E.
  apply (f_equal length) in E. rewrite length_map, length_rev in E. cbn in E. lia.
Qed.

Lemma parse_address_hex n : 0 ≤ n → parse_address (py_hex n) = Some n.
Proof.
  intros Hn. unfold parse_address, py_hex, int_16. pose proof (print_digits_nonempty 16 n) as Hne.
  pose proof (read_printed 16 n ltac:(lia) Hn) as Hr. revert Hne Hr.
  generalize (print_digits "a" (digits 16 n)) as s. intros s Hne Hr. cbn [String.append starts_with].
  rewrite bool_decide_false by (intros [= ->]; by destruct Hne).
  exact Hr.
Qed.

Lemma parse_address_decimal n : 0 ≤ n → parse_address (decimal n) = Some n.
Proof.
  intros Hn. unfold parse_address, decimal. destruct (starts_with _ _) eqn:E.
  - apply starts_with_spec in E as (t & Ht). exfalso.
    destruct (print_digits_chars 10 n "x"%char ltac:(lia)) as (d & Hd & Hc); [rewrite Ht; cbn; set_solver|].
    pose proof (digit_value_char "a" d ltac:(by right) ltac:(lia)) as Hv. by rewrite <-Hc in Hv.
  - unfold int_10. cbv zeta. rewrite bool_decide_true; [apply read_printed; lia|].
    split; [apply print_digits_nonempty|]. apply Forall_forall. intros c (d & Hd & ->)%(print_digits_chars 10 n); [|lia].
    unfold digit_char. rewrite (proj2 (Z.ltb_lt d 10)) by lia. rewrite char_code_of; lia.
Qed.

(** The command prints the locations, whichever way the address is written. *)
Lemma addr_to_offset_main_prints readlines addr2line map_file lines x locs :
  0 ≤ x → readlines map_file = Some lines → addr_to_offset lines x = Some locs →
  let out := Some (foldr String.append EmptyString (map (print_location addr2line) locs)) in
  addr_to_offset_main readlines addr2line map_file (py_hex x) = out ∧
  addr_to_offset_main readlines addr2line map_file (decimal x) = out.
Proof.
  intros Hx Hl Hlocs out. unfold addr_to_offset_main.
  rewrite parse_address_hex, parse_address_decimal by done. cbn [mbind option_bind]. rewrite Hl. cbn [mbind option_bind].
  by rewrite Hlocs.
Qed.

(** ** Splitting *)

Lemma py_split_cons c p s : c ∉ list_of_string p → py_split c (p +:+ String c s) = p :: py_split c s.
Proof.
  induction p as [|d p IH]; intros Hp; cbn in *; [by destruct (ascii_dec c c)|].
  apply not_elem_of_cons in Hp as [Hne Hp]. destruct (ascii_dec d c) as [->|_]; [done|]. by rewrite IH.
Qed.

Lemma py_split_last c p : c ∉ list_of_string p → py_split c p = [p].
Proof.
  induction p as [|d p IH]; intros Hp; cbn in *; [done|].
  apply not_elem_of_cons in Hp as [Hne Hp]. destruct (ascii_dec d c) as [->|_]; [done|]. by rewrite IH.
Qed.

Lemma not_elem_of_str_app c s1 s2 :
  c ∉ list_of_string s1 → c ∉ list_of_string s2 → c ∉ list_of_string (s1 +:+ s2).
Proof. rewrite list_of_string_app. set_solver. Qed.

(** A printed number has no spaces in it. *)
Lemma HexString_no_space n : word64 n → " "%char ∉ list_of_string (HexString 8 n 16).
Proof.
  intros Hn. unfold HexString. rewrite wrap_small by exact Hn. cbn [Z.eqb]. rewrite hex_pad_digits by apply Hn.
  set (ds := digits 16 n ++ _). assert (Forall (λ d, 0 ≤ d < 16) ds) as Hds.
  { apply Forall_app. split; [by apply digits_bound|]. apply Forall_replicate. lia. }
  cbn [String.append list_of_string]. apply not_elem_of_cons; split; [done|]. apply not_elem_of_cons; split; [done|].
  unfold print_digits. rewrite list_of_string_of_list. intros (d & Hd & Hin)%list_elem_of_fmap.
  rewrite list_elem_of_In, <-in_rev, <-list_elem_of_In in Hin. rewrite Forall_forall in Hds.
  pose proof (digit_value_char "A" d ltac:(by left) (Hds d Hin)) as Hv. rewrite <-Hd in Hv. discriminate Hv.
Qed.

Lemma int_16_HexString n : word64 n → int_16 (HexString 8 n 16) = Some n.
Proof.
  intros Hn. unfold int_16. rewrite bool_decide_false; [by apply HexString_roundtrip|].
  intros Hs. pose proof (HexString_length16 n Hn) as Hl. rewrite Hs in Hl. discriminate Hl.
Qed.

(** The two numbers of a range [start-end]. *)
Definition range_text (x y : Z) (rest : string) : string :=
  HexString 8 x 16 +:+ "-" +:+ HexString 8 y 16 +:+ rest.

Lemma range_text_reads x y rest :
  word64 x → word64 y →
  int_16 (py_slice 0 18 (range_text x y rest)) = Some x ∧ int_16 (py_slice 19 37 (range_text x y rest)) = Some y.
Proof.
  intros Hx Hy. pose proof (HexString_length16 x Hx) as Hlx. pose proof (HexString_length16 y Hy) as Hly.
  unfold py_slice, range_text. rewrite str_drop_0. change (18 - 0)%nat with 18%nat. change (37 - 19)%nat with 18%nat.
  pose proof (str_drop_app 1 (HexString 8 x 16) ("-" +:+ HexString 8 y 16 +:+ rest)) as Hd. rewrite Hlx in Hd.
  change (18 + 1)%nat with 19%nat in Hd. rewrite Hd. cbn [String.append str_drop].
  pose proof (str_take_app (HexString 8 x 16) (String "-" (HexString 8 y 16 +:+ rest))) as Htx. rewrite Hlx in Htx.
  pose proof (str_take_app (HexString 8 y 16) rest) as Hty. rewrite Hly in Hty. rewrite Htx, Hty.
  split; by apply int_16_HexString.
Qed.

(** ** The lines of a load *)

Lemma HexString_wrap n : HexString 8 n 16 = HexString 8 (wrap64 n) 16.
Proof. unfold HexString. change (8 * Z.max 4 8) with 64. by rewrite wrap_wrap. Qed.

Definition line_entry (path : string) (base : Z) (ph : Elf64_Phdr) : map_entry :=
  mkMapEntry path (p_offset ph) (wrap64 (p_offset ph + p_filesz ph)) (seg_start base ph) (seg_end base ph).

Lemma map_line_fields path base ph :
  " "%char ∉ list_of_string path → word64 (p_offset ph) → word64 (p_filesz ph) →
  word64 (seg_start base ph) → word64 (seg_end base ph) →
  py_split " " (map_line path base ph +:+ newline) =
  [path; range_text (p_offset ph) (wrap64 (p_offset ph + p_filesz ph)) ""; segment_flags_str (p_flags ph);
   HexString 8 (p_filesz ph) 16; "=>"%string; range_text (seg_start base ph) (seg_end base ph) newline].
Proof.
  intros Hpath Ho Hf Hs He. set (sum := wrap64 (p_offset ph + p_filesz ph)).
  assert (map_line path base ph +:+ newline = path +:+ String " " (range_text (p_offset ph) sum "" +:+
    String " " (segment_flags_str (p_flags ph) +:+ String " " (HexString 8 (p_filesz ph) 16 +:+ String " " ("=>" +:+
    String " " (range_text (seg_start base ph) (seg_end base ph) newline)))))%string) as ->.
  { unfold map_line, range_text, sum. rewrite (HexString_wrap (p_offset ph + p_filesz ph)), str_app_nil_r, !str_app_assoc.
    reflexivity. }
  assert (word64 sum) as Hw by (apply wrap_bound; lia).
  assert (∀ x y rest, word64 x → word64 y → " "%char ∉ list_of_string rest →
    " "%char ∉ list_of_string (range_text x y rest)) as Hr.
  { intros x y rest Hx Hy Hrest. apply not_elem_of_str_app; [by apply HexString_no_space|].
    apply not_elem_of_str_app; [set_solver|]. apply not_elem_of_str_app; [by apply HexString_no_space|done]. }
  rewrite !py_split_cons, py_split_last; [done|apply Hr; set_solver|set_solver|by apply HexString_no_space| |apply Hr; set_solver|done].
  unfold segment_flags_str. destruct (has_flag _ PF_R), (has_flag _ PF_X); set_solver.
Qed.

Lemma read_map_line_spec path base ph :
  " "%char ∉ list_of_string path → word64 (p_offset ph) → word64 (p_filesz ph) →
  word64 (seg_start base ph) → word64 (seg_end base ph) →
  read_map_line (map_line path base ph +:+ newline) = Some (line_entry path base ph).
Proof.
  intros Hpath Ho Hf Hs He. unfold read_map_line. rewrite map_line_fields by done. cbv zeta. cbn [lookup list_lookup].
  destruct (range_text_reads (p_offset ph) (wrap64 (p_offset ph + p_filesz ph)) "") as [E1 E2]; [done|apply wrap_bound; lia|].
  destruct (range_text_reads (seg_start base ph) (seg_end base ph) newline) as [E3 E4]; [done..|].
  cbn [mbind option_bind]. rewrite E1, E2, E3, E4. done.
Qed.

Lemma read_map_lines path base phs :
  " "%char ∉ list_of_string path → Forall phdr_words phs →
  mapM read_map_line (map (λ l, l +:+ newline) (map (map_line path base) phs)) = Some (map (line_entry path base) phs).
Proof.
  intros Hpath. induction 1 as [|ph phs Hph _ IH]; [done|].
  assert (word64 (seg_start base ph)) as Hs.
  { unfold seg_start. rewrite page_mask_floor. destruct (wrap_bound 64 (p_vaddr ph + base)) as [Hlo Hhi]; [lia|].
    unfold word64, wrap64 in *. lia_div. }
  destruct (pw_64 _ Hph) as (Ho & _ & _ & Hf & _).
  cbn [map mapM mbind option_bind]. rewrite read_map_line_spec by (done || apply page_up_word). cbn [mbind option_bind].
  by rewrite IH.
Qed.

Lemma seg_start_offset base ph : seg_start base ph = seg_va base ph - seg_va base ph mod 4096.
Proof. unfold seg_start. fold (seg_va base ph). rewrite page_mask_floor. lia_div. Qed.

Section map_file.
Context `{KernelSpec}.

Lemma locate_line path base ph x :
  locate x (line_entry path base ph) =
  if bool_decide (seg_start base ph ≤ x ≤ seg_end base ph)
  then Some (path, p_offset ph + (x - seg_va base ph) + seg_va base ph mod 4096) else None.
Proof.
  unfold locate, line_entry. cbn [me_mem_start me_mem_end me_filename me_file_start].
  destruct (Z.leb_spec (seg_start base ph) x), (Z.leb_spec x (seg_end base ph)); cbn [andb];
    [rewrite bool_decide_true by lia|rewrite bool_decide_false by lia; done..].
  do 2 f_equal. rewrite seg_start_offset. lia.
Qed.

Lemma omap_locate_lines path base x phs :
  omap (locate x) (map (line_entry path base) phs) =
  map (λ ph, (path, p_offset ph + (x - seg_va base ph) + seg_va base ph mod 4096))
    (filter (λ ph, seg_start base ph ≤ x ≤ seg_end base ph) phs).
Proof.
  induction phs as [|ph phs IH]; [done|]. cbn [map omap list_omap]. rewrite locate_line, filter_cons.
  case_bool_decide; [rewrite decide_True by done|rewrite decide_False by done]; cbn [map]; [by rewrite <-IH|exact IH].
Qed.

(** C32: the map file and its reader: what the script prints for an address from
    the lines that [Load] writes, exactly. It lists, in the order of the program
    headers, the segments from the start of whose first page to the end of whose
    last page - the end included - the address lies, so for the first address
    behind a mapping it reports that mapping too. The offset it prints is too large
    by the place of the segment within its first page, as the line has the rounded
    start of the mapping next to the offset that belongs to the unrounded one; it is
    right exactly for segments that start on a page boundary. *)
Theorem addr_to_offset_Load b arg s next b' s' x :
  Load b arg s = Ok ((next, b'), s') → p_map_file s = [] → Forall phdr_words (file_phdrs_ b) →
  " "%char ∉ list_of_string (path_ b) →
  let base := load_base b arg in
  let segs := loads (file_phdrs_ b) in
  (∀ ph, ph ∈ segs → seg_nowrap base ph) →
  addr_to_offset (map (λ l, l +:+ newline) (p_map_file s')) x =
  Some (map (λ ph, (path_ b, p_offset ph + (x - seg_va base ph) + seg_va base ph mod 4096))
         (filter (λ ph, seg_start base ph ≤ x ≤ seg_end base ph) segs)).
Proof.
  intros (b1 & Hsegs & _)%Load_ok Hempty Hw Hpath base segs Hn.
  apply load_segments_regions in Hsegs as (_ & _ & Hf & _).
  2: { intros ph ? ?. apply Hn. by apply elem_of_loads. }
  rewrite Hempty in Hf. change (p_map_file s' = map (map_line (path_ b) base) segs) in Hf.
  assert (Forall phdr_words segs) as Hws.
  { apply Forall_forall. intros ph [_ Hph]%elem_of_loads. rewrite Forall_forall in Hw. by apply Hw. }
  unfold addr_to_offset. rewrite Hf, read_map_lines by done. cbn [mbind option_bind mret option_ret].
  f_equal. apply omap_locate_lines.
Qed.

(** The first address behind a mapping is reported as part of it. *)
Lemma addr_to_offset_end path base ph :
  seg_start base ph ≤ seg_end base ph →
  locate (seg_end base ph) (line_entry path base ph) =
  Some (path, p_offset ph + (seg_end base ph - seg_va base ph) + seg_va base ph mod 4096).
Proof. intros. rewrite locate_line, bool_decide_true by lia. done. Qed.
End map_file.
