(* ===== verification/Accept.v ===== *)
(** * Loading a well-formed file succeeds

    What an ELF file must look like, as a condition on its bytes and the base
    address alone, for the loader to accept it; and the theorem that it is then
    loaded in every process where its pages are free. The dynamic section is
    judged on the image that the file promises; that the real address space gives
    the same result is the monotonicity of [ParseDynamic] in the memory. *)

From S2P Require Import Prelude Memory Digits Elf Utils Os ElfBinary ElfDynamic ElfFile FindLibrary DynLoader.

(** ** A larger memory gives the same results *)

Section larger.
Context (m m' : memory) (He : extends m m').

Lemma load_bytes_covers a n : covers (load_bytes m a n) (load_bytes m' a n).
Proof.
  intros bs [Hm ->]%load_bytes_ok. destruct (extends_range _ _ _ _ He Hm) as [Hm' Hp].
  apply load_bytes_ok. by rewrite Hp.
Qed.

Lemma load_byte_covers a : covers (load_byte m a) (load_byte m' a).
Proof.
  intros b. unfold load_byte. destruct (mapped m a) eqn:Hm; [|done]. destruct (He a Hm) as [-> ->]. done.
Qed.

Hint Resolve load_bytes_covers load_byte_covers : covers.

Lemma load_word_covers n a : covers (load_word m n a) (load_word m' n a).
Proof. unfold load_word. auto with covers. Qed.

Lemma read_cstr_covers a : covers (read_cstr m a) (read_cstr m' a).
Proof. apply covers_while. intros st. unfold cstr_step. auto with covers. Qed.

Lemma read_ehdr_covers a : covers (read_ehdr m a) (read_ehdr m' a).
Proof. unfold read_ehdr. auto with covers. Qed.

Lemma read_phdr_covers a : covers (read_phdr m a) (read_phdr m' a).
Proof. unfold read_phdr. auto with covers. Qed.

Lemma read_dyn_covers a : covers (read_dyn m a) (read_dyn m' a).
Proof. unfold read_dyn. auto with covers. Qed.

Lemma read_rela_covers a : covers (read_rela m a) (read_rela m' a).
Proof. unfold read_rela. auto with covers. Qed.

Lemma read_sym_covers a : covers (read_sym m a) (read_sym m' a).
Proof. unfold read_sym. auto with covers. Qed.

Hint Resolve load_word_covers read_cstr_covers read_dyn_covers read_rela_covers read_sym_covers : covers.

#[local] Transparent ShowSym.
Lemma ShowSym_covers s strtab : covers (ShowSym m s strtab) (ShowSym m' s strtab).
Proof. unfold ShowSym. auto with covers. Qed.
#[local] Opaque ShowSym.

Lemma parse_dyn_step_covers b d : covers (parse_dyn_step m b d) (parse_dyn_step m' b d).
Proof.
  unfold parse_dyn_step. cbv zeta.
  repeat match goal with |- covers (if ?c then _ else _) _ => destruct c end; auto with covers.
Qed.

Lemma read_relas_covers a n : covers (read_relas m a n) (read_relas m' a n).
Proof. unfold read_relas. auto with covers. Qed.

Hint Resolve ShowSym_covers parse_dyn_step_covers read_relas_covers : covers.

Lemma parse_tables_cover b :
  covers (b ← parse_relas m b; b ← parse_pltrelas m b; parse_symtab m b)
         (b ← parse_relas m' b; b ← parse_pltrelas m' b; parse_symtab m' b).
Proof.
  apply covers_bind; [unfold parse_relas; destruct (_ =? 0); auto 6 with covers|]. intros b1.
  apply covers_bind; [unfold parse_pltrelas; destruct (_ =? 0); auto 7 with covers|]. intros b2.
  unfold parse_symtab. destruct (_ =? 0); [auto with covers|]. apply covers_bind; [auto with covers|]. intros s.
  apply covers_bind; [|auto 6 with covers]. apply covers_while. intros st. unfold symtab_step.
  apply covers_bind; [auto with covers|]. intros name. destruct (name <? _); auto with covers.
Qed.

(** The dynamic section is parsed in the same way wherever more is mapped. *)
Lemma ParseDynamic_covers b : covers (ParseDynamic m b) (ParseDynamic m' b).
Proof.
  unfold ParseDynamic. cbv zeta. pose proof parse_tables_cover as Ht. auto 10 with covers.
Qed.
End larger.

(** ** The labels of an object

    [ParseDynamic] looks neither at the path of the object nor at the address of
    its mapped file nor at the end of its image. *)

Definition relabel (path : string) (file end_addr : Z) (b : ELFBinary) : ELFBinary :=
  b <| path_ := path |> <| file_base_addr_ := file |> <| end_addr_ := end_addr |>.

Section relabel.
Context (m : memory) (path : string) (file end_addr : Z).

Lemma parse_strtab_step_relabel b d :
  parse_strtab_step (relabel path file end_addr b) d = relabel path file end_addr (parse_strtab_step b d).
Proof. unfold parse_strtab_step. destruct b. by repeat case_match. Qed.

Lemma bind_relabel {A} (o : outcome A) (f g : A → outcome ELFBinary) :
  (∀ x, g x = (b ← f x; mret (relabel path file end_addr b))) →
  (x ← o; g x) = (b ← (x ← o; f x); mret (relabel path file end_addr b)).
Proof. intros Hg. destruct o; [apply Hg|done]. Qed.

Lemma parse_dyn_step_relabel b d :
  parse_dyn_step m (relabel path file end_addr b) d = (b' ← parse_dyn_step m b d; mret (relabel path file end_addr b')).
Proof.
  unfold parse_dyn_step. cbv zeta. destruct b.
  repeat match goal with |- (if ?c then _ else _) = _ => destruct c end; try reflexivity.
  all: by apply bind_relabel.
Qed.

(** The three tables end in a change of one field. *)
Ltac relabel_binds := repeat (refine (bind_relabel _ _ _ _); intros ?); reflexivity.

Lemma parse_relas_relabel b :
  parse_relas m (relabel path file end_addr b) = (b' ← parse_relas m b; mret (relabel path file end_addr b')).
Proof.
  unfold parse_relas. change (rela_ (relabel path file end_addr b)) with (rela_ b).
  destruct (rela_ b =? 0); [reflexivity|relabel_binds].
Qed.

Lemma parse_pltrelas_relabel b :
  parse_pltrelas m (relabel path file end_addr b) = (b' ← parse_pltrelas m b; mret (relabel path file end_addr b')).
Proof.
  unfold parse_pltrelas. change (jmprel_ (relabel path file end_addr b)) with (jmprel_ b).
  destruct (jmprel_ b =? 0); [reflexivity|relabel_binds].
Qed.

Lemma parse_symtab_relabel b :
  parse_symtab m (relabel path file end_addr b) = (b' ← parse_symtab m b; mret (relabel path file end_addr b')).
Proof.
  unfold parse_symtab. change (symtab_ (relabel path file end_addr b)) with (symtab_ b).
  destruct (symtab_ b =? 0); [reflexivity|relabel_binds].
Qed.

(** A stage that commutes with the labels, followed by one that does. *)
Lemma bind_commutes (o o' : outcome ELFBinary) (g f : ELFBinary → outcome ELFBinary) :
  o' = (b ← o; mret (relabel path file end_addr b)) →
  (∀ b, g (relabel path file end_addr b) = (b ← f b; mret (relabel path file end_addr b))) →
  (b ← o'; g b) = (b ← (b ← o; f b); mret (relabel path file end_addr b)).
Proof. intros -> Hg. destruct o; [apply Hg|done]. Qed.

Lemma ParseDynamic_relabel b :
  ParseDynamic m (relabel path file end_addr b) = (b' ← ParseDynamic m b; mret (relabel path file end_addr b')).
Proof.
  unfold ParseDynamic. cbv zeta. do 2 (refine (bind_relabel _ _ _ _); intros ?).
  apply bind_commutes; [|intros b1; refine (bind_relabel _ _ _ _); intros ?; apply bind_commutes; [|intros b2]].
  - apply foldM_commutes. intros b1 i. refine (bind_relabel _ _ _ _). intros d. by rewrite parse_strtab_step_relabel.
  - apply foldM_commutes. intros b2 i. refine (bind_relabel _ _ _ _). intros d. apply parse_dyn_step_relabel.
  - apply bind_commutes; [apply parse_relas_relabel|intros b3].
    apply bind_commutes; [apply parse_pltrelas_relabel|intros b4]. apply parse_symtab_relabel.
Qed.
End relabel.

(** ** What a file promises *)

Definition file_ehdr (bs : list Z) : Elf64_Ehdr := parse_ehdr (file_bytes bs 0 64).

Definition file_phdrs (bs : list Z) : list Elf64_Phdr :=
  map (λ i, parse_phdr (file_bytes bs (phdr_off (file_ehdr bs) i) 56)) (seqZ 0 (e_phnum (file_ehdr bs))).

Definition file_base (bs : list Z) (arg : Z) : Z := if e_type (file_ehdr bs) =? ET_DYN then arg else 0.

(** The memory that holds the segments and nothing else. *)
Definition map_segment (bs : list Z) (base : Z) (ph : Elf64_Phdr) (m : memory) : memory :=
  map_bytes m (p_vaddr ph + base) (p_memsz ph) (segment_prot (p_flags ph)) (file_bytes bs (p_offset ph) (p_filesz ph)).

Definition file_image (bs : list Z) (base : Z) : memory :=
  foldr (map_segment bs base) (mkMemory [] (λ _, 0)) (loads (file_phdrs bs)).

(** The object before its dynamic section is parsed. *)
Definition file_object (path : string) (file : Z) (bs : list Z) (base end_addr : Z) : ELFBinary :=
  (with_phdrs (new_binary path file (file_ehdr bs)) (file_phdrs bs)) <| base_addr_ := base |> <| end_addr_ := end_addr |>.

(** The end of the last segment. *)
Definition file_end (bs : list Z) (base : Z) : Z := from_option (seg_end base) base (last (loads (file_phdrs bs))).

(** The object that a file at a base address makes, from its bytes alone. The
    address of the mapped file, which the file does not determine, is zero. *)
Definition pure_object (path : string) (bs : list Z) (base : Z) : outcome ELFBinary :=
  ParseDynamic (file_image bs base) (file_object path 0 bs base (file_end bs base)).

Definition at_file (file : Z) (b : ELFBinary) : ELFBinary := b <| file_base_addr_ := file |>.

(** The conditions on the bytes of a file that is to be loaded at [base]. *)
Record file_wf (bs : list Z) (base : Z) : Prop := {
  fw_size : 24 < Z.of_nat (length bs);
  fw_phdrs i : 0 ≤ i < e_phnum (file_ehdr bs) →
    phdr_inside (file_ehdr bs) (page_ceil (Z.of_nat (length bs))) i;
  fw_segments ph : ph ∈ loads (file_phdrs bs) →
    segment_wf base (Z.of_nat (length bs)) ph ∧ 0 < p_memsz ph ∧ 0x10000 ≤ seg_start base ph ∧ seg_end base ph ≤ 2 ^ 47;
  fw_disjoint : disjoint_regions (map (seg_region base) (loads (file_phdrs bs)));
  fw_dynamic : is_ok (pure_object EmptyString bs base) = true
}.

Lemma relabel_path path b : relabel path (file_base_addr_ b) (end_addr_ b) b = b <| path_ := path |>.
Proof. by destruct b. Qed.

Lemma relabel_file file b : relabel (path_ b) file (end_addr_ b) b = at_file file b.
Proof. by destruct b. Qed.

(** The path is only noted in the object. *)
Lemma pure_object_path path path' bs base b :
  pure_object path bs base = Ok b → pure_object path' bs base = Ok (b <| path_ := path' |>).
Proof.
  unfold pure_object. intros Hb.
  change (file_object path' 0 bs base (file_end bs base)) with
    (relabel path' 0 (file_end bs base) (file_object path 0 bs base (file_end bs base))).
  rewrite ParseDynamic_relabel, Hb, bind_Ok. apply ParseDynamic_image in Hb as [_ Hf _ He _ _ _ _ _].
  rewrite <-relabel_path, Hf, He. reflexivity.
Qed.

Lemma pure_object_at path bs base b file :
  pure_object path bs base = Ok b →
  ParseDynamic (file_image bs base) (file_object path file bs base (file_end bs base)) = Ok (at_file file b).
Proof.
  unfold pure_object. intros Hb.
  change (file_object path file bs base (file_end bs base)) with
    (relabel path file (file_end bs base) (file_object path 0 bs base (file_end bs base))).
  rewrite ParseDynamic_relabel, Hb, bind_Ok. apply ParseDynamic_image in Hb as [Hp _ _ He _ _ _ _ _].
  rewrite <-relabel_file, Hp, He. reflexivity.
Qed.

(** A memory in which the segments are has all of the image. *)
Lemma file_image_extends bs base m :
  (∀ ph, ph ∈ loads (file_phdrs bs) →
     0 ≤ p_filesz ph ≤ p_memsz ph ∧ mapped_range m (p_vaddr ph + base) (p_memsz ph) = true ∧
     peek m (p_vaddr ph + base) (p_filesz ph) = file_bytes bs (p_offset ph) (p_filesz ph) ∧
     ∀ x, p_vaddr ph + base + p_filesz ph ≤ x < p_vaddr ph + base + p_memsz ph → byte_at m x = 0) →
  extends (file_image bs base) m.
Proof.
  unfold file_image. induction (loads (file_phdrs bs)) as [|ph phs IH]; intros Hsegs; cbn [foldr]; [by intros x|].
  destruct (Hsegs ph) as (Hsz & Hm & Hp & Hz); [set_solver|]. rewrite mapped_range_spec in Hm.
  set (va := p_vaddr ph + base) in *. assert (length (file_bytes bs (p_offset ph) (p_filesz ph)) = Z.to_nat (p_filesz ph)) as Hl.
  { unfold file_bytes. by rewrite length_map, length_range. }
  intros x. unfold map_segment, map_bytes. fold va. rewrite mapped_poke, mapped_map_zero.
  case_bool_decide as Hx.
  - intros _. split; [by apply Hm|]. cbn [poke byte_at]. rewrite Hl, Z2Nat.id, in_range_bool by lia.
    case_bool_decide as Hxf.
    + rewrite <-Hp. rewrite (nth_lookup_Some _ _ _ (byte_at m x)); [done|].
      rewrite peek_lookup by lia. do 2 f_equal. lia.
    + rewrite byte_at_map_zero_in by lia. apply Hz. lia.
  - intros Hmx. destruct (IH ltac:(set_solver) x Hmx) as [Hm' Hb]. split; [done|].
    rewrite byte_at_poke_out by (rewrite Hl; lia). by rewrite byte_at_map_zero_out.
Qed.

(** ** Loading it *)

Section accept.
Context `{Environment} `{FS : FileSystem} `{!FileSystemSpec FS} `{K : Kernel} `{!KernelSpec K} `{!KernelHint K}.

Lemma ELFBinary_new_succeeds path s bs a :
  open_file path = Some bs → 24 < Z.of_nat (length bs) →
  (∀ i, 0 ≤ i < e_phnum (file_ehdr bs) →
     phdr_inside (file_ehdr bs) (page_ceil (Z.of_nat (length bs))) i) →
  mmap_place (regions (p_mem s)) 0 (page_ceil (Z.of_nat (length bs))) = Some a →
  ELFBinary_new path s =
  Ok (with_phdrs (new_binary path a (file_ehdr bs)) (file_phdrs bs),
      set_mem (map_bytes (p_mem s) a (page_ceil (Z.of_nat (length bs))) 7 bs) s).
Proof.
  intros Ho Hlen Hin Ep. pose proof (file_size _ _ Ho) as Hsz. unfold ELFBinary_new. rewrite Ho. cbv zeta.
  unfold mbind, stM_bind, mret, stM_ret. change (8 + 16) with 24. change (PROT_READ + PROT_WRITE + PROT_EXEC) with 7.
  rewrite (proj2 (Z.ltb_lt _ _) Hlen). unfold CHECK at 1, mret, stM_ret. unfold mmap_file. rewrite page_up_ceil, Ep by lia.
  pose proof (mmap_user _ _ _ _ Ep) as Hu. pose proof (page_ceil_bound (Z.of_nat (length bs))) as Hc.
  pose proof (page_ceil_aligned (Z.of_nat (length bs))) as Hal.
  rewrite (proj2 (Z.eqb_neq a MAP_FAILED)) by (unfold MAP_FAILED; lia). cbn [negb]. unfold CHECK, mret, stM_ret.
  destruct (load_file_bytes (p_mem s) a bs 0 64 Ep) as (Hw & Hm & Hpk); [lia|lia|lia_div|]. rewrite Z.add_0_r in *.
  set (m' := map_bytes (p_mem s) a _ 7 bs) in *.
  unfold with_mem at 1, read_ehdr, load_bytes. cbn [set_mem p_mem]. change sizeof_Ehdr with 64. rewrite Hm, bind_Ok, Hpk.
  fold (file_ehdr bs). unfold with_mem, mret, outcome_ret. cbn [set_mem p_mem].
  rewrite (read_phdrs_succeed m' path a (file_ehdr bs) (λ i, parse_phdr (file_bytes bs (phdr_off (file_ehdr bs) i) 56))); [done|].
  intros i Hi%elem_of_seqZ. destruct (Hin i) as (H1 & H2 & H3); [lia|]. split; [exact H3|].
  destruct (load_file_bytes (p_mem s) a bs _ 56 Ep H1) as (Hw' & Hm' & Hpk'); [lia|lia|]. fold m' in Hm', Hpk'.
  unfold phdr_off in Hw' at 1. rewrite Z.add_assoc in Hw'. unfold read_phdr, load_bytes. change sizeof_Phdr with 56.
  rewrite Hw'. replace (a + e_phoff (file_ehdr bs) + i * e_phentsize (file_ehdr bs)) with (a + phdr_off (file_ehdr bs) i)
    by (unfold phdr_off; lia). by rewrite Hm', bind_Ok, Hpk'.
Qed.

Lemma load_binary_accepts dl path s bs a b :
  let base := file_base bs (next_base_addr_ dl) in
  let size := page_ceil (Z.of_nat (length bs)) in
  open_file path = Some bs → file_wf bs base → pure_object path bs base = Ok b →
  mmap_place (regions (p_mem s)) 0 size = Some a →
  (∀ ph r, ph ∈ loads (file_phdrs bs) → r ∈ mkRegion a (a + size) 7 :: regions (p_mem s) →
     overlaps (seg_start base ph) (seg_end base ph) r = false) →
  ∃ s', load_binary dl path s =
      Ok ((at_file a b, dl <| binaries_ := binaries_ dl ++ [at_file a b] |> <| next_base_addr_ := round_base (file_end bs base) |>), s') ∧
    regions (p_mem s') = rev (map (seg_region base) (loads (file_phdrs bs))) ++ mkRegion a (a + size) 7 :: regions (p_mem s) ∧
    extends (file_image bs base) (p_mem s') ∧ extends (p_mem s) (p_mem s').
Proof.
  intros base size Ho [Hlen Hphs Hsegs Hdisj _] Hobj Ep Hfree. unfold load_binary, mbind, stM_bind.
  rewrite (ELFBinary_new_succeeds _ _ _ _ Ho Hlen Hphs Ep). set (b' := with_phdrs _ _). set (s1 := set_mem _ s).
  set (b0 := b' <| base_addr_ := base |> <| end_addr_ := base |>).
  assert (∀ ph, ph ∈ loads (file_phdrs bs) → seg_wf (p_mem s1) base a ph) as Hwf.
  { intros ph Hph. destruct (Hsegs ph Hph) as ((Hn & Hf & Hoff & Hend) & _). split; [exact Hn|exact Hf|].
    destruct (load_file_bytes (p_mem s) a bs _ (p_filesz ph) Ep Hoff) as (Hw & Hm & _); [lia|lia|]. by rewrite Hw. }
  destruct (load_segments_succeed (file_phdrs bs) b0 s1) as (b1 & s2 & Hrun).
  { intros ph Hph. split; [exact (Hwf ph Hph)|]. destruct (Hsegs ph Hph) as (_ & Hsz & Hlo & Hhi).
    split; [exact Hlo|exact Hhi|exact Hsz|]. intros r Hr. by apply Hfree. }
  { exact Hdisj. }
  destruct (load_segments_image _ _ _ _ _ Hrun) as [Hext Himg].
  { intros ph ? ?. apply (Hwf ph). by apply elem_of_loads. }
  apply load_segments_regions in Hrun as Hreg; [|intros ph ? ?; apply Hsegs; by apply elem_of_loads].
  destruct Hreg as (Hb1 & Hregs & _).
  assert (extends (file_image bs base) (p_mem s2)) as He.
  { apply file_image_extends. intros ph Hph. destruct (Hsegs ph Hph) as ((Hn & Hf & Hoff & Hend) & _).
    pose proof Hph as [Ht Hin]%elem_of_loads. pose proof (seg_va_nowrap _ _ Hn) as Hva.
    assert (seg_image (p_mem s1) (p_mem s2) base a ph) as [Hm Hfile Hz] by exact (Himg ph Hin Ht).
    rewrite Hva in *. split_and!; [lia|lia|exact Hm| |exact Hz]. rewrite Hfile.
    destruct (load_file_bytes (p_mem s) a bs _ (p_filesz ph) Ep Hoff) as (Hw & _ & Hpk); [lia|lia|]. by rewrite Hw. }
  assert (ParseDynamic (p_mem s2) b1 = Ok (at_file a b)) as Hdyn.
  { assert (b1 = file_object path a bs base (file_end bs base)) as -> by exact Hb1.
    apply (ParseDynamic_covers _ _ He). by apply pure_object_at. }
  assert (end_addr_ (at_file a b) = file_end bs base) as Hend.
  { apply ParseDynamic_image in Hdyn as [_ _ _ Hend _ _ _ _ _]. rewrite Hend, Hb1. reflexivity. }
  exists s2. split; [|split_and!; [exact Hregs|exact He|etrans; [by apply map_file_extends|exact Hext]]].
  assert (Load b' (next_base_addr_ dl) s1 = Ok ((round_base (end_addr_ (at_file a b)), at_file a b), s2)) as ->; [|by rewrite Hend].
  transitivity ((b1 ← foldM load_segment b0 (file_phdrs bs); b2 ← with_mem (λ m, ParseDynamic m b1);
    mret (round_base (end_addr_ b2), b2)) s1); [reflexivity|].
  rewrite (stM_bind_run _ _ _ _ _ Hrun). apply stM_bind_run with (a := at_file a b) (s' := s2). unfold with_mem. by rewrite Hdyn.
Qed.

(** C19: every well-formed file is accepted: when the file can be mapped and the
    pages of its segments are free, loading it succeeds; the object that results
    is the one its bytes alone determine, whatever else is in memory, and the
    address space has grown by the file and its segments. *)
Theorem load_binary_succeeds dl path s bs a :
  let base := file_base bs (next_base_addr_ dl) in
  let size := page_ceil (Z.of_nat (length bs)) in
  open_file path = Some bs → file_wf bs base →
  mmap_place (regions (p_mem s)) 0 size = Some a →
  (∀ ph r, ph ∈ loads (file_phdrs bs) → r ∈ mkRegion a (a + size) 7 :: regions (p_mem s) →
     overlaps (seg_start base ph) (seg_end base ph) r = false) →
  ∃ b dl' s', pure_object path bs base = Ok b ∧ load_binary dl path s = Ok ((at_file a b, dl'), s') ∧
    binaries_ dl' = binaries_ dl ++ [at_file a b] ∧
    regions (p_mem s') = rev (map (seg_region base) (loads (file_phdrs bs))) ++ mkRegion a (a + size) 7 :: regions (p_mem s).
Proof.
  intros base size Ho Hwf Ep Hfree.
  destruct (pure_object EmptyString bs base) as [b|] eqn:Eb; [|by pose proof (fw_dynamic _ _ Hwf) as Hd; rewrite Eb in Hd].
  apply (pure_object_path _ path) in Eb.
  destruct (load_binary_accepts _ _ _ _ _ _ Ho Hwf Eb Ep Hfree) as (s' & Hrun & Hregs & _). eauto 10.
Qed.
End accept.
