(* ===== verification/Plan.v ===== *)
(** * The plan of a load

    What the loader is going to do can be computed from the files alone: which
    objects it loads, in which order, where, and what it makes of each. This is
    the inductive relation [planned]. The theorem is that the loader carries the
    plan out in every process that has room for it - so loading does not only
    give the right result when it succeeds, it succeeds. *)

From S2P Require Import Prelude Memory Digits Elf Utils Os ElfBinary ElfDynamic ElfFile FindLibrary DynLoader Accept.

(** ** Room in the address space

    A kernel with an area for mappings without an address: everything from
    [file_area] up. [room regs n] says that mappings of [n] bytes in all can still
    be made there; each takes its own size of it, and mappings below take none. *)

Class KernelRoom `(Kernel) := {
  file_area : Z;
  room : list region → Z → Prop;
  room_place regs n len :
    room regs n → 0 < len ≤ n → len mod 4096 = 0 → ∃ a, mmap_place regs 0 len = Some a ∧ file_area ≤ a;
  room_take regs n len a prot :
    room regs n → 0 < len ≤ n → len mod 4096 = 0 → mmap_place regs 0 len = Some a →
    room (mkRegion a (a + len) prot :: regs) (n - len);
  room_below regs n r : room regs n → r_hi r ≤ file_area → room (r :: regs) n
}.

(** The kernel that puts these mappings above all others has room up to the end of
    the address space. *)
Lemma page_ceil_mono x y : x ≤ y → page_ceil x ≤ page_ceil y.
Proof. unfold page_ceil. intros. lia_div. Qed.

Lemma page_ceil_id x : x mod 4096 = 0 → page_ceil x = x.
Proof. unfold page_ceil. intros. lia_div. Qed.

Lemma page_ceil_max x y : page_ceil (Z.max x y) = Z.max (page_ceil x) (page_ceil y).
Proof.
  destruct (Z.max_spec x y) as [[Hlt ->]|[Hle ->]];
    [pose proof (page_ceil_mono x y)|pose proof (page_ceil_mono y x)]; lia.
Qed.

Lemma above_all_cons r regs : above_all (r :: regs) = Z.max (page_ceil (r_hi r)) (above_all regs).
Proof. unfold above_all. cbn [map foldr]. apply page_ceil_max. Qed.

Lemma above_all_bounds regs : 0x10000 ≤ above_all regs ∧ ∀ r, r ∈ regs → r_hi r ≤ above_all regs.
Proof.
  induction regs as [|r regs [IH1 IH2]]; [split; [done|set_solver]|]. rewrite above_all_cons.
  split; [lia|]. intros r' [->|Hr']%elem_of_cons; [pose proof (page_ceil_bound (r_hi r)); lia|].
  specialize (IH2 r' Hr'). lia.
Qed.

#[export] Program Instance first_fit_room : KernelRoom first_fit_kernel := {|
  file_area := 0x700000000000;
  room := λ regs n, 0x700000000000 ≤ above_all regs ∧ above_all regs + n ≤ 2 ^ 47
|}.
Next Obligation.
  intros regs n len [Hlo Hhi] Hlen Hal. exists (above_all regs). split; [|done]. simpl. unfold first_fit.
  rewrite (proj2 (usable_spec regs (above_all regs) len)).
  - destruct (usable regs 0 len) eqn:E; [apply usable_spec in E; lia|done].
  - destruct (above_all_bounds regs) as [Hb Hr]. split_and!; [apply page_ceil_aligned|lia..|].
    intros r Hin. specialize (Hr r Hin). unfold overlaps. apply andb_false_iff. left. apply Z.ltb_ge. lia.
Qed.
Next Obligation.
  intros regs n len a prot [Hlo Hhi] Hlen Hal Hp. simpl in Hp. unfold first_fit in Hp.
  destruct (usable regs 0 len) eqn:E; [apply usable_spec in E; lia|].
  destruct (usable regs (above_all regs) len); [|done]. injection Hp as <-. rewrite above_all_cons. cbn [r_hi].
  rewrite page_ceil_id; [lia|]. pose proof (page_ceil_aligned (foldr Z.max 0x10000 (map r_hi regs))) as Ha.
  fold (above_all regs) in Ha. lia_div.
Qed.
Next Obligation.
  intros regs n r [Hlo Hhi] Hr. rewrite above_all_cons. pose proof (page_ceil_mono (r_hi r) 0x700000000000 Hr) as Hm.
  rewrite (page_ceil_id 0x700000000000) in Hm by done. lia.
Qed.

(** ** Plans *)

Section plan.
Context `{Environment} `{FileSystem}.

(** The object that loading a path at the next base address makes. *)
Definition object_at (path : string) (next : Z) (b : ELFBinary) : Prop :=
  ∃ bs, open_file path = Some bs ∧ file_wf bs (file_base bs next) ∧ pure_object path bs (file_base bs next) = Ok b.

(** [planned seen next queue objs seen' next']: with the names [seen] and the
    base [next], the requests of [queue] lead to [objs], [seen'] and [next']. *)
Inductive planned : gset string → Z → list request → list ELFBinary → gset string → Z → Prop :=
  | planned_done seen next : planned seen next [] [] seen next
  | planned_seen seen next rq queue objs seen' next' :
      rq_name rq ∈ seen → planned seen next queue objs seen' next' →
      planned seen next (rq :: queue) objs seen' next'
  | planned_skip seen next rq queue objs seen' next' :
      rq_name rq ∉ seen → skip_library (rq_name rq) = true →
      planned ({[rq_name rq]} ∪ seen) next queue objs seen' next' →
      planned seen next (rq :: queue) objs seen' next'
  | planned_load seen next rq queue path b objs seen' next' :
      rq_name rq ∉ seen → skip_library (rq_name rq) = false →
      FindLibrary (rq_name rq) (rq_runpath rq) (rq_rpath rq) = Ok path → object_at path next b →
      planned ({[rq_name rq]} ∪ seen) (round_base (end_addr_ b)) (queue ++ requests b) objs seen' next' →
      planned seen next (rq :: queue) (b :: objs) seen' next'.

(** The plan for a path: the object and what it needs. *)
Definition planned_root (seen : gset string) (next : Z) (root_path : string) (objs : list ELFBinary)
    (seen' : gset string) (next' : Z) : Prop :=
  ∃ root libs, objs = root :: libs ∧ object_at root_path next root ∧
    planned ({[path_filename root_path]} ∪ seen) (round_base (end_addr_ root)) (requests root) libs seen' next'.

(** ** What a plan asks of the address space *)

Definition object_segments (b : ELFBinary) : list region := map (seg_region (base_addr_ b)) (loads (file_phdrs_ b)).

Definition object_pages (b : ELFBinary) : Z :=
  from_option (λ bs, page_ceil (Z.of_nat (length bs))) 0 (open_file (path_ b)).

Definition plan_pages (objs : list ELFBinary) : Z := foldr Z.add 0 (map object_pages objs).

(** The memory that has the image of an object and nothing else. *)
Definition object_image (b : ELFBinary) : memory :=
  from_option (λ bs, file_image bs (base_addr_ b)) (mkMemory [] (λ _, 0)) (open_file (path_ b)).

Record plan_fits `{KernelRoom} (regs : list region) (objs : list ELFBinary) : Prop := {
  pf_disjoint : disjoint_regions (objs ≫= object_segments);
  pf_free r r' : r ∈ objs ≫= object_segments → r' ∈ regs → overlaps (r_lo r) (r_hi r) r' = false;
  pf_below r : r ∈ objs ≫= object_segments → r_hi r ≤ file_area;
  pf_room : room regs (plan_pages objs)
}.
End plan.

(** ** Plans, computed

    The conditions on a file are decidable, so a plan can be computed from the
    files; the bound is on the number of requests that are looked at. *)

#[export] Instance segment_wf_dec base size ph : Decision (segment_wf base size ph).
Proof. unfold segment_wf, seg_nowrap. apply _. Defined.

#[export] Instance disjoint_regions_dec rs : Decision (disjoint_regions rs).
Proof.
  induction rs as [|r rs [IH|IH]].
  - left. by intros [|?] ? ? ? ?.
  - destruct (decide (Forall (λ r', overlaps (r_lo r) (r_hi r) r' = false) rs)) as [Hr|Hr].
    + left. apply disjoint_regions_cons; [by apply Forall_forall|done].
    + right. intros [_ Hd]%disjoint_regions_inv. apply Hr. by apply Forall_forall.
  - right. by intros [? _]%disjoint_regions_inv.
Defined.

(** The conditions, each as a list of cases. *)
Definition file_check (bs : list Z) (base : Z) : Prop :=
  24 < Z.of_nat (length bs) ∧
  Forall (phdr_inside (file_ehdr bs) (page_ceil (Z.of_nat (length bs))))
    (seqZ 0 (e_phnum (file_ehdr bs))) ∧
  Forall (λ ph, segment_wf base (Z.of_nat (length bs)) ph ∧ 0 < p_memsz ph ∧ 0x10000 ≤ seg_start base ph ∧
    seg_end base ph ≤ 2 ^ 47) (loads (file_phdrs bs)) ∧
  disjoint_regions (map (seg_region base) (loads (file_phdrs bs))) ∧
  is_ok (pure_object EmptyString bs base) = true.

#[export] Instance file_check_dec bs base : Decision (file_check bs base).
Proof. unfold file_check, phdr_inside. apply _. Defined.

Lemma file_check_spec bs base : file_check bs base ↔ file_wf bs base.
Proof.
  unfold file_check. rewrite !Forall_forall. split.
  - intros (? & Hp & ? & ? & ?). split; [done| |done..]. intros i Hi. apply Hp, elem_of_seqZ. lia.
  - intros [? Hp ? ? ?]. split_and!; [done| |done..]. intros i Hi%elem_of_seqZ. apply Hp. lia.
Qed.

#[export] Instance file_wf_dec bs base : Decision (file_wf bs base).
Proof. refine (cast_if (decide (file_check bs base))); by rewrite <-file_check_spec. Defined.

Section compute.
Context `{Environment} `{FileSystem}.

Definition compute_object (path : string) (next : Z) : outcome ELFBinary :=
  match open_file path with
  | Some bs => if decide (file_wf bs (file_base bs next)) then pure_object path bs (file_base bs next) else Err CheckFailed
  | None => Err CheckFailed
  end.

Fixpoint compute_plan (n : nat) (seen : gset string) (next : Z) (queue : list request) :
    outcome (list ELFBinary * gset string * Z) :=
  match queue, n with
  | [], _ => Ok ([], seen, next)
  | _, O => Err OutOfFuel
  | rq :: queue, S n =>
      if bool_decide (rq_name rq ∈ seen) then compute_plan n seen next queue
      else if skip_library (rq_name rq) then compute_plan n ({[rq_name rq]} ∪ seen) next queue
      else
        path ← FindLibrary (rq_name rq) (rq_runpath rq) (rq_rpath rq);
        b ← compute_object path next;
        '(objs, seen', next') ←
          compute_plan n ({[rq_name rq]} ∪ seen) (round_base (end_addr_ b)) (queue ++ requests b);
        mret (b :: objs, seen', next')
  end.

Lemma compute_object_spec path next b : compute_object path next = Ok b ↔ object_at path next b.
Proof.
  unfold compute_object, object_at. destruct (open_file path) as [bs|]; [|split; [done|by intros (? & ? & _)]].
  destruct (decide _) as [Hwf|Hwf]; split.
  - eauto.
  - by intros (? & [= <-] & _ & ?).
  - done.
  - by intros (? & [= <-] & ? & _).
Qed.

Lemma compute_plan_sound n seen next queue objs seen' next' :
  compute_plan n seen next queue = Ok (objs, seen', next') → planned seen next queue objs seen' next'.
Proof.
  revert seen next queue objs. induction n as [|n IH]; intros seen next queue objs Hrun;
    (destruct queue as [|rq queue]; cbn [compute_plan] in Hrun; [injection Hrun as <- <- <-; constructor|]); [done|].
  case_bool_decide as Hin; [apply planned_seen; [done|by apply IH]|].
  destruct (skip_library (rq_name rq)) eqn:Hskip; [apply planned_skip; [done..|by apply IH]|].
  apply outcome_bind_ok in Hrun as (path & Hfind & Hrun). apply outcome_bind_ok in Hrun as (b & Hb & Hrun).
  apply outcome_bind_ok in Hrun as ([[objs1 seen1] next1] & Hrest & Hrun). injection Hrun as <- <- <-.
  eapply planned_load; [done|done|exact Hfind|by apply compute_object_spec|by apply IH].
Qed.

Lemma compute_plan_complete seen next queue objs seen' next' :
  planned seen next queue objs seen' next' → ∃ n, compute_plan n seen next queue = Ok (objs, seen', next').
Proof.
  induction 1 as [seen next|seen next rq queue objs seen' next' Hin _ [n IH]|seen next rq queue objs seen' next' Hin Hskip _ [n IH]
    |seen next rq queue path b objs seen' next' Hin Hskip Hfind Hobj%compute_object_spec _ [n IH]].
  - by exists 0%nat.
  - exists (S n). cbn [compute_plan]. by rewrite bool_decide_true.
  - exists (S n). cbn [compute_plan]. by rewrite bool_decide_false, Hskip.
  - exists (S n). cbn [compute_plan]. by rewrite bool_decide_false, Hskip, Hfind, bind_Ok, Hobj, bind_Ok, IH.
Qed.

(** The plan is determined by the files. *)
Lemma planned_fun seen next queue objs1 seen1 next1 objs2 seen2 next2 :
  planned seen next queue objs1 seen1 next1 → planned seen next queue objs2 seen2 next2 →
  objs1 = objs2 ∧ seen1 = seen2 ∧ next1 = next2.
Proof.
  intros H1. revert objs2. induction H1 as [|seen next rq queue objs seen' next' Hin _ IH|seen next rq queue objs seen' next' Hin Hskip _ IH
    |seen next rq queue path b objs seen' next' Hin Hskip Hfind Hobj _ IH]; intros objs2 H2;
    inversion H2; subst; try done; try congruence; [by apply IH..|].
  match goal with Ha : FindLibrary _ _ _ = Ok path, Hb : FindLibrary _ _ _ = Ok ?p |- _ => rewrite Ha in Hb; injection Hb as <- end.
  match goal with Hb : object_at path next ?b2 |- _ => assert (b2 = b) as -> end.
  { apply compute_object_spec in Hobj. match goal with Hb : object_at path next ?b2 |- ?b2 = _ => apply compute_object_spec in Hb end. congruence. }
  match goal with Hb : planned _ _ _ ?l _ _ |- _ :: _ = _ :: ?l ∧ _ => destruct (IH _ Hb) as (-> & -> & ->) end. done.
Qed.
End compute.

(** The objects the loader makes are those of the plan, but for the addresses of
    the mapped files. *)
Definition as_planned (b b' : ELFBinary) : Prop := b' = at_file (file_base_addr_ b') b.

(** ** Carrying it out *)

Lemma pure_object_fields path bs base b :
  pure_object path bs base = Ok b →
  path_ b = path ∧ base_addr_ b = base ∧ end_addr_ b = file_end bs base ∧ file_phdrs_ b = file_phdrs bs ∧ ehdr_ b = file_ehdr bs.
Proof. intros [-> _ -> -> -> -> _ _ _]%ParseDynamic_image. done. Qed.

Section carry_out.
Context `{Environment} `{FS : FileSystem} `{!FileSystemSpec FS} `{K : Kernel} `{!KernelSpec K} `{!KernelHint K} `{!KernelRoom K}.

Lemma plan_pages_nonneg objs : 0 ≤ plan_pages objs.
Proof.
  unfold plan_pages. induction objs as [|b objs IH]; cbn [map foldr]; [done|].
  assert (0 ≤ object_pages b); [|lia]. unfold object_pages. destruct (open_file (path_ b)) as [bs|]; [|done]. cbn.
  pose proof (page_ceil_bound (Z.of_nat (length bs))). lia.
Qed.

Lemma room_below_all rs regs n :
  (∀ r, r ∈ rs → r_hi r ≤ file_area) → room regs n → room (rs ++ regs) n.
Proof.
  induction rs as [|r rs IH]; intros Hb Hr; [done|]. cbn [app].
  apply room_below; [apply IH; set_solver|apply Hb; set_solver].
Qed.

(** One object: loading it leaves room for the others. *)
Lemma load_object dl path s b objs :
  object_at path (next_base_addr_ dl) b → plan_fits (regions (p_mem s)) (b :: objs) →
  ∃ a s', load_binary dl path s = Ok ((at_file a b,
      dl <| binaries_ := binaries_ dl ++ [at_file a b] |> <| next_base_addr_ := round_base (end_addr_ b) |>), s') ∧
    plan_fits (regions (p_mem s')) objs ∧ extends (object_image b) (p_mem s') ∧ extends (p_mem s) (p_mem s').
Proof.
  intros (bs & Ho & Hwf & Hb) [Hd Hfree Hbelow Hroom]. pose proof (plan_pages_nonneg objs) as Hpages.
  destruct (pure_object_fields _ _ _ _ Hb) as (Hpath & Hbase & Hend & Hphs & _).
  set (base := file_base bs _) in *. set (size := page_ceil (Z.of_nat (length bs))) in *.
  assert (object_pages b = size) as Hsize by (unfold object_pages; by rewrite Hpath, Ho).
  assert (object_segments b = map (seg_region base) (loads (file_phdrs bs))) as Hsegs by (unfold object_segments; by rewrite Hbase, Hphs).
  unfold plan_pages in Hroom. cbn [map foldr] in Hroom. fold (plan_pages objs) in Hroom. rewrite Hsize in Hroom.
  assert (0 < size ∧ size mod 4096 = 0) as [Hpos Hal].
  { pose proof (fw_size _ _ Hwf). pose proof (page_ceil_bound (Z.of_nat (length bs))). unfold size. split; [lia|apply page_ceil_aligned]. }
  destruct (room_place _ _ size Hroom ltac:(lia) Hal) as (a & Ha & Harea).
  apply disjoint_regions_app in Hd as (_ & Hd & Hx). cbn [mbind list_bind] in Hfree, Hbelow.
  rewrite Hsegs in *.
  destruct (load_binary_accepts dl path s bs a b Ho Hwf Hb Ha) as (s' & Hrun & Hregs & Himg & Hext).
  { fold base. intros ph r Hph Hr. assert (seg_region base ph ∈ map (seg_region base) (loads (file_phdrs bs))) as Hin
      by by apply list_elem_of_fmap_2.
    apply elem_of_cons in Hr as [->|Hr]; [|apply (Hfree (seg_region base ph)); [apply elem_of_app; by left|done]].
    specialize (Hbelow (seg_region base ph) (proj2 (elem_of_app _ _ _) (or_introl Hin))). cbn in Hbelow.
    unfold overlaps. cbn. apply andb_false_iff. right. apply Z.ltb_ge. lia. }
  exists a, s'. rewrite Hend. split; [exact Hrun|]. split; [|split; [|exact Hext]].
  2: { unfold object_image. rewrite Hpath, Ho, Hbase. exact Himg. }
  rewrite Hregs. split; [exact Hd| |intros r Hr; apply Hbelow, elem_of_app; by right|].
  - intros r r' Hr [Hr'|[->|Hr']%elem_of_cons]%elem_of_app; [| |apply Hfree; [apply elem_of_app; by right|done]].
    + rewrite list_elem_of_In, <-in_rev, <-list_elem_of_In in Hr'. rewrite overlaps_sym. by apply Hx.
    + specialize (Hbelow r (proj2 (elem_of_app _ _ _) (or_intror Hr))). unfold overlaps. cbn. apply andb_false_iff. right. apply Z.ltb_ge. lia.
  - apply room_below_all.
    { intros r Hr. rewrite list_elem_of_In, <-in_rev, <-list_elem_of_In in Hr. apply Hbelow, elem_of_app. by left. }
    replace (plan_pages objs) with (size + plan_pages objs - size) by lia. by apply room_take; [|lia|..].
Qed.
(** What carrying out a plan leaves. *)
Record carried_out (dl dl' : DynLoader) (s s' : proc) (objs : list ELFBinary) (seen' : gset string) (next' : Z) : Prop := {
  co_binaries : ∃ new, binaries_ dl' = binaries_ dl ++ new ∧ Forall2 as_planned objs new;
  co_loaded : loaded_ dl' = seen';
  co_next : next_base_addr_ dl' = next';
  co_config : same_config dl dl';
  co_images : Forall (λ b, extends (object_image b) (p_mem s')) objs;
  co_kept : extends (p_mem s) (p_mem s')
}.

(** The first object of a plan, then the rest. *)
Lemma carried_out_cons dl dl1 dl2 s s1 s2 a b objs seen' next' :
  binaries_ dl1 = binaries_ dl ++ [at_file a b] → same_config dl dl1 →
  extends (object_image b) (p_mem s1) → extends (p_mem s) (p_mem s1) →
  carried_out dl1 dl2 s1 s2 objs seen' next' → carried_out dl dl2 s s2 (b :: objs) seen' next'.
Proof.
  intros Hb1 (? & ? & ? & ? & ?) Himg Hk [(new & Hb2 & Hnew) Hl Hn (? & ? & ? & ? & ?) Himgs Hk2]. split; [|done|done| | |].
  - exists (at_file a b :: new). split; [by rewrite Hb2, Hb1, <-app_assoc|]. constructor; [|exact Hnew]. reflexivity.
  - unfold same_config. split_and!; congruence.
  - constructor; [by etrans|exact Himgs].
  - by etrans.
Qed.

Lemma planned_runs seen next queue objs seen' next' :
  planned seen next queue objs seen' next' → ∀ dl s,
  loaded_ dl = seen → next_base_addr_ dl = next → plan_fits (regions (p_mem s)) objs →
  ∃ n dl' s', runs deps_step n (dl, queue, s) (Ok (dl', s')) ∧ carried_out dl dl' s s' objs seen' next'.
Proof.
  induction 1 as [seen next|seen next rq queue objs seen' next' Hin _ IH|seen next rq queue objs seen' next' Hin Hskip _ IH
    |seen next rq queue path b objs seen' next' Hin Hskip Hfind Hobj _ IH]; intros dl s <- <- Hfits.
  - exists 1%nat, dl, s. split; [by constructor|]. split; [exists []; split; [by rewrite app_nil_r|constructor]|done|done|done|constructor|done].
  - destruct (IH dl s eq_refl eq_refl Hfits) as (n & dl' & s' & Hrun & Hco). exists (S n), dl', s'. split; [|done].
    eapply runs_step; [|exact Hrun]. cbn [deps_step]. by rewrite bool_decide_true.
  - set (dl1 := dl <| loaded_ := {[rq_name rq]} ∪ loaded_ dl |>).
    destruct (IH dl1 s) as (n & dl' & s' & Hrun & [Hb Hl' Hn' Hc Hi Hk]); [done..|].
    exists (S n), dl', s'. split; [|by split]. eapply runs_step; [|exact Hrun]. cbn [deps_step].
    by rewrite bool_decide_false, Hskip by done.
  - set (dl1 := dl <| loaded_ := {[rq_name rq]} ∪ loaded_ dl |>).
    destruct (load_object dl1 path s b objs) as (a & s1 & Hload & Hfits1 & Himg & Hk1); [done..|].
    set (dl2 := dl1 <| binaries_ := _ |> <| next_base_addr_ := _ |>) in Hload.
    destruct (IH dl2 s1) as (n & dl' & s' & Hrun & Hco); [done..|].
    exists (S n), dl', s'. split; [|by eapply (carried_out_cons dl dl2)].
    eapply runs_step; [|exact Hrun]. cbn [deps_step]. rewrite bool_decide_false, Hskip, Hfind, bind_Ok by done.
    fold dl1. by rewrite Hload, bind_Ok.
Qed.

Lemma plan_carried_out seen' next' objs dl root_path s :
  planned_root (loaded_ dl) (next_base_addr_ dl) root_path objs seen' next' →
  plan_fits (regions (p_mem s)) objs → mem_ok (p_mem s) →
  ∃ dl' s', LoadDependingLibs dl root_path s = Ok (dl', s') ∧ carried_out dl dl' s s' objs seen' next'.
Proof.
  intros (root & libs & -> & Hroot & Hlibs) Hfits Hok.
  destruct (load_object dl root_path s root libs Hroot Hfits) as (a & s1 & Hload & Hfits1 & Himg & Hk1).
  set (dl1 := dl <| binaries_ := _ |> <| next_base_addr_ := _ |>) in Hload.
  set (dl2 := dl1 <| loaded_ := {[path_filename root_path]} ∪ loaded_ dl1 |>).
  destruct (planned_runs _ _ _ _ _ _ Hlibs dl2 s1) as (n & dl' & s' & Hrun & Hco); [done..|].
  exists dl', s'. split; [|by eapply (carried_out_cons dl dl2)].
  unfold LoadDependingLibs. rewrite Hload, bind_Ok. fold dl2. change (requests (at_file a root)) with (requests root).
  destruct (load_binary_grows _ _ _ _ _ _ Hload Hok) as (Hok1 & Hsz & Hlen).
  pose proof (mem_ok_size _ Hok1). pose proof (mem_size_nonneg (p_mem s1)).
  destruct (while_total deps_step (λ st, mem_ok (p_mem st.2)) deps_variant (dl2, requests root, s1)) as (n' & o & Hrun' & ->).
  - intros st st' Hst Hstep. by apply deps_step_variant.
  - exact Hok1.
  - cbn [deps_variant]. unfold requests. rewrite length_map. change (neededs_ (at_file a root)) with (neededs_ root) in Hlen. lia.
  - exact (runs_fun _ _ _ _ _ _ Hrun' Hrun).
Qed.

(** C7: the loader carries out its plan: which objects are loaded, in which
    order, where and with which contents is determined by the files and the
    search path alone, and in every process with room for these objects - their
    pages free, and space for the files themselves - the search succeeds, leaves
    exactly these objects and their images in memory, and keeps what was there. *)
Theorem LoadDependingLibs_succeeds seen' next' objs dl root_path s :
  planned_root (loaded_ dl) (next_base_addr_ dl) root_path objs seen' next' →
  plan_fits (regions (p_mem s)) objs → mem_ok (p_mem s) →
  ∃ dl' s', LoadDependingLibs dl root_path s = Ok (dl', s') ∧ carried_out dl dl' s s' objs seen' next'.
Proof. apply plan_carried_out. Qed.
End carry_out.
