(* ===== verification/Symbols.v ===== *)
(** * Symbol lookup (SearchSym and TLSSymOffset of dyn_loader.cc)

    The two searches over the symbol tables of the loaded objects. Names are
    read from memory each time, as the source does. *)

From S2P Require Import Prelude Memory Digits Elf Utils Os ElfBinary.

(** What the loader knows of the C library it is linked with: the addresses of
    its functions and of its thread-local variables (libc_mapping.h). *)
Class LibcMap := {
  sloader_libc_map : string → option Z;
  sloader_libc_tls_variables : string → option Z
}.

Definition sym_name (m : memory) (b : ELFBinary) (s : Elf64_Sym) : outcome string :=
  read_cstr m (wrap64 (st_name s + strtab_ b)).

(** ** SearchSym *)

Definition is_defined (s : Elf64_Sym) : bool := negb (st_shndx s =? SHN_UNDEF).
Definition is_weak_undef (s : Elf64_Sym) : bool :=
  (st_shndx s =? SHN_UNDEF) && (ELF64_ST_BIND (st_info s) =? STB_WEAK).

(** The inner loop: the index of the first entry from [j] on with the name. *)
Fixpoint search_symtab (m : memory) (b : ELFBinary) (name : string) (p : Elf64_Sym → bool)
    (j : nat) (syms : list Elf64_Sym) : outcome (option nat) :=
  match syms with
  | [] => mret None
  | s :: syms =>
      n ← sym_name m b s;
      if bool_decide (n = name) && p s then mret (Some j)
      else search_symtab m b name p (S j) syms
  end.

(** The outer loop, from the object with index [i] on. *)
Fixpoint search_binaries (m : memory) (name : string) (p : Elf64_Sym → bool)
    (i : nat) (bins : list ELFBinary) : outcome (option (nat * nat)) :=
  match bins with
  | [] => mret None
  | b :: bins =>
      r ← search_symtab m b name p 0 (symtabs_ b);
      match r with
      | Some j => mret (Some (i, j))
      | None => search_binaries m name p (S i) bins
      end
  end.

Definition SearchSym (m : memory) (bins : list ELFBinary) (name : string) (skip_main : bool) :
    outcome (option (nat * nat)) :=
  let first := if skip_main then 1%nat else 0%nat in
  r ← search_binaries m name is_defined first (drop first bins);
  match r with
  | Some ij => mret (Some ij)
  | None => search_binaries m name is_weak_undef first (drop first bins)
  end.

(** ** TLSSymOffset *)

Definition is_tls_def (s : Elf64_Sym) : bool :=
  is_defined s && (ELF64_ST_TYPE (st_info s) =? STT_TLS).

(** The member [file_tls_] is only initialised when the object has a [PT_TLS]. *)
Definition tls_memsz (b : ELFBinary) : outcome Z :=
  match file_tls_ b with Some ph => Ok (p_memsz ph) | None => Err Indeterminate end.

Section tls_sym_offset.
Context `{LibcMap}.
(** Address of [sloader_dummy_to_secure_tls_space] (tls_secure.cc). *)
Variable tls_block : Z.

Definition libc_tls_offset (name : string) : outcome Z :=
  match sloader_libc_tls_variables name with
  | Some addr => mret (wrap64 (tls_block + 4096 - addr))
  | None => mthrow Aborted
  end.

Fixpoint tls_sym_offset_go (m : memory) (name : string) (offset : Z) (bins : list ELFBinary) : outcome Z :=
  match bins with
  | [] => libc_tls_offset name
  | b :: bins =>
      r ← search_symtab m b name is_tls_def 0 (symtabs_ b);
      match r with
      | Some j =>
          memsz ← tls_memsz b;
          mret (wrap64 (offset - memsz + from_option st_value 0 (symtabs_ b !! j)))
      | None =>
          if has_tls_ b
          then memsz ← tls_memsz b; tls_sym_offset_go m name (wrap64 (offset - memsz)) bins
          else tls_sym_offset_go m name offset bins
      end
  end.

Definition TLSSymOffset (m : memory) (bins : list ELFBinary) (name : string) : outcome Z :=
  tls_sym_offset_go m name 0 bins.
End tls_sym_offset.

(** * The reference: resolution over a table of names

    All entries of all objects with their names, in search order, and the rule
    "the first definition, else the first undefined weak reference". *)

Record entry := mkEntry { en_bin : nat; en_idx : nat; en_name : string; en_sym : Elf64_Sym }.

#[export] Instance entry_eq_dec : EqDecision entry.
Proof. solve_decision. Defined.

Definition symtab_entries (m : memory) (i : nat) (b : ELFBinary) (j : nat) (syms : list Elf64_Sym) :
    outcome (list entry) :=
  names ← traverse (sym_name m b) syms;
  mret (zip_with (λ k ns, mkEntry i k ns.1 ns.2) (seq j (length syms)) (zip names syms)).

Fixpoint entries (m : memory) (i : nat) (bins : list ELFBinary) : outcome (list entry) :=
  match bins with
  | [] => mret []
  | b :: bins =>
      es ← symtab_entries m i b 0 (symtabs_ b);
      es' ← entries m (S i) bins;
      mret (es ++ es')
  end.

Definition en_matches (name : string) (p : Elf64_Sym → bool) (e : entry) : Prop :=
  en_name e = name ∧ p (en_sym e) = true.

#[export] Instance en_matches_dec name p e : Decision (en_matches name p e).
Proof. unfold en_matches. apply _. Defined.

Definition first_match (name : string) (p : Elf64_Sym → bool) (es : list entry) : option (nat * nat) :=
  (λ e, (en_bin e, en_idx e)) <$> head (filter (en_matches name p) es).

Definition resolve (name : string) (es : list entry) : option (nat * nat) :=
  match first_match name is_defined es with
  | Some ij => Some ij
  | None => first_match name is_weak_undef es
  end.

Lemma first_match_app name p es es' :
  first_match name p (es ++ es') =
  match first_match name p es with Some ij => Some ij | None => first_match name p es' end.
Proof. unfold first_match. rewrite filter_app. by destruct (filter _ es). Qed.

Lemma first_match_cons name p e es :
  first_match name p (e :: es) =
  if decide (en_matches name p e) then Some (en_bin e, en_idx e) else first_match name p es.
Proof. unfold first_match. rewrite filter_cons. by destruct (decide _). Qed.

Lemma search_symtab_entries m b i name p j syms es :
  symtab_entries m i b j syms = Ok es →
  ∃ r, search_symtab m b name p j syms = Ok r ∧ first_match name p es = (λ k, (i, k)) <$> r.
Proof.
  revert j es. induction syms as [|s syms IH]; intros j es Hes; unfold symtab_entries in Hes; simpl in *; inv_ok.
  { by exists None. }
  match goal with H : traverse _ _ = Ok ?ns |- _ => destruct (IH (S j)
    (zip_with (λ k ns, mkEntry i k ns.1 ns.2) (seq (S j) (length syms)) (zip ns syms))) as (r & Hr & Hf) end.
  { unfold symtab_entries. match goal with H : traverse _ _ = Ok _ |- _ => by rewrite H end. }
  match goal with H : sym_name _ _ _ = Ok _ |- _ => rewrite H end. simpl.
  rewrite first_match_cons. unfold en_matches. simpl. rewrite Hf.
  destruct (decide _) as [[-> ->]|Hne]; [rewrite bool_decide_true by done; simpl; by eexists|].
  destruct (bool_decide_reflect (x0 = name)) as [->|]; simpl; [|by eauto].
  destruct (p s); [by destruct Hne|by eauto].
Qed.

Lemma search_binaries_entries m name p i bins es :
  entries m i bins = Ok es → search_binaries m name p i bins = Ok (first_match name p es).
Proof.
  revert i es. induction bins as [|b bins IH]; intros i es Hes; simpl in *; inv_ok; [done|].
  match goal with H : symtab_entries _ _ _ _ _ = Ok _ |- _ =>
    destruct (search_symtab_entries _ _ _ name p _ _ _ H) as (r & Hr & Hf) end.
  rewrite Hr, first_match_app, Hf. simpl. destruct r; simpl; [done|by apply IH].
Qed.

Lemma SearchSym_entries m bins name (skip_main : bool) es :
  entries m (if skip_main then 1%nat else 0%nat) (if skip_main then drop 1 bins else bins) = Ok es →
  SearchSym m bins name skip_main = Ok (resolve name es).
Proof.
  intros Hes. unfold SearchSym.
  assert (entries m (if skip_main then 1%nat else 0%nat)
    (drop (if skip_main then 1%nat else 0%nat) bins) = Ok es) as Hes' by by destruct skip_main.
  rewrite !(search_binaries_entries _ _ _ _ _ _ Hes'). unfold resolve. simpl. by destruct (first_match _ _ _).
Qed.

(** An entry of the table is a symbol of the object it points to. *)
Lemma entries_lookup m i bins es e :
  entries m i bins = Ok es → e ∈ es →
  (i ≤ en_bin e)%nat ∧ ∃ b, bins !! (en_bin e - i)%nat = Some b ∧ symtabs_ b !! en_idx e = Some (en_sym e).
Proof.
  revert i es. induction bins as [|b bins IH]; intros i es Hes He; simpl in Hes; inv_ok; [set_solver|].
  apply elem_of_app in He as [He|He].
  - match goal with H : symtab_entries _ _ _ _ _ = Ok _ |- _ => unfold symtab_entries in H end. inv_ok.
    match goal with H : traverse _ _ = Ok _ |- _ => apply traverse_ok, Forall2_length in H as Hlen end.
    apply elem_of_lookup_zip_with in He as (n & k & [nm s] & -> & Hk & Hns). cbn. split; [done|].
    apply lookup_seq in Hk as [-> Hn]. rewrite Nat.sub_diag. exists b. split; [done|].
    apply lookup_zip_Some in Hns as [_ Hs]. by simpl.
  - match goal with H : entries _ _ _ = Ok _ |- _ => destruct (IH _ _ H He) as (Hle & b' & Hb & Hs) end.
    split; [lia|]. exists b'. split; [|done]. by replace (en_bin e - i)%nat with (S (en_bin e - S i)) by lia.
Qed.

(** C24: [SearchSym] computes the reference resolution: when every name it may
    look at is readable, its result is the first definition of the name in load
    order, else the first undefined weak reference, else nothing; the executable
    is left out when it is told to skip it. *)
Theorem SearchSym_resolve m bins name (skip_main : bool) es :
  entries m (if skip_main then 1%nat else 0%nat) (if skip_main then drop 1 bins else bins) = Ok es →
  SearchSym m bins name skip_main = Ok (resolve name es).
Proof. apply SearchSym_entries. Qed.

(** The rule of the reference in terms of positions: what comes out is a match,
    and nothing before it in search order is one. *)
Lemma first_match_some name p es i j :
  first_match name p es = Some (i, j) →
  ∃ pre e post, es = pre ++ e :: post ∧ en_bin e = i ∧ en_idx e = j ∧ en_matches name p e ∧
    Forall (λ e, ¬ en_matches name p e) pre.
Proof.
  induction es as [|e es IH]; [done|]. rewrite first_match_cons. destruct (decide _) as [He|He].
  - intros [= <- <-]. exists [], e, es. split_and!; [done..|by destruct He|constructor].
  - intros (pre & e' & post & -> & ? & ? & ? & ?)%IH. exists (e :: pre), e', post.
    split_and!; [done..|]. by constructor.
Qed.

Lemma first_match_none name p es :
  first_match name p es = None ↔ Forall (λ e, ¬ en_matches name p e) es.
Proof.
  induction es as [|e es IH]; [by split; [constructor|]|].
  rewrite first_match_cons, Forall_cons, <-IH. destruct (decide _); naive_solver.
Qed.

Lemma first_match_elem name p es i j :
  first_match name p es = Some (i, j) →
  ∃ e, e ∈ es ∧ en_bin e = i ∧ en_idx e = j ∧ en_matches name p e.
Proof. intros (pre & e & post & -> & ? & ? & ? & _)%first_match_some. exists e. set_solver. Qed.

(** What is resolved to is a symbol with the name that is defined, or else weak. *)
Lemma resolve_elem name es i j :
  resolve name es = Some (i, j) →
  ∃ e, e ∈ es ∧ en_bin e = i ∧ en_idx e = j ∧ en_name e = name ∧
    (is_defined (en_sym e) = true ∨ is_weak_undef (en_sym e) = true).
Proof.
  unfold resolve. destruct (first_match name is_defined es) as [[i' j']|] eqn:E.
  - intros [= -> ->]. apply first_match_elem in E as (e & ? & ? & ? & ? & ?). eauto 10.
  - intros (e & ? & ? & ? & ? & ?)%first_match_elem. eauto 10.
Qed.

(** ** The layout TLSSymOffset assumes *)

(** [has_tls_] says whether [file_tls_] is initialised. *)
Definition tls_wf (b : ELFBinary) : Prop := has_tls_ b = bool_decide (is_Some (file_tls_ b)).

Definition tls_size (b : ELFBinary) : Z := if has_tls_ b then from_option p_memsz 0 (file_tls_ b) else 0.

(** Where the thread-local block of the object with index [i] starts, relative
    to the thread pointer: the blocks lie below it in load order, each directly
    below the one before. *)
Definition tls_start (bins : list ELFBinary) (i : nat) : Z :=
  - foldr Z.add 0 (map tls_size (take (S i) bins)).

Lemma tls_memsz_ok b x : tls_wf b → tls_memsz b = Ok x → x = tls_size b.
Proof.
  unfold tls_wf, tls_memsz, tls_size. destruct (file_tls_ b) as [ph|]; [|done].
  rewrite bool_decide_true by eauto. by intros -> [= <-].
Qed.

Lemma search_symtab_none_step `{LibcMap} tls_block m name offset b bins :
  tls_wf b → search_symtab m b name is_tls_def 0 (symtabs_ b) = Ok None →
  tls_sym_offset_go tls_block m name (wrap64 offset) (b :: bins) =
  tls_sym_offset_go tls_block m name (wrap64 (offset - tls_size b)) bins.
Proof.
  intros Hwf Hs. simpl. rewrite Hs. simpl. unfold tls_wf, tls_memsz, tls_size in *.
  destruct (file_tls_ b) as [ph|]; rewrite Hwf.
  - rewrite bool_decide_true by eauto. simpl. by rewrite wrap_sub_l.
  - rewrite bool_decide_false by (by intros [? [=]]). by rewrite Z.sub_0_r.
Qed.

(** Indices of an entry point into the tables it was made from. *)
Lemma symtab_entries_bin m i b j syms es :
  symtab_entries m i b j syms = Ok es → Forall (λ e, en_bin e = i) es.
Proof.
  unfold symtab_entries. intros Hrun. inv_ok. apply Forall_forall. intros e He.
  apply elem_of_zip_with in He as (k & ns & -> & _). done.
Qed.

Lemma entries_bin_ge m i bins es : entries m i bins = Ok es → Forall (λ e, (i ≤ en_bin e)%nat) es.
Proof.
  revert i es. induction bins as [|b bins IH]; intros i es Hes; simpl in Hes; inv_ok; [constructor|].
  apply Forall_app. split.
  - match goal with H : symtab_entries _ _ _ _ _ = _ |- _ => apply symtab_entries_bin in H end.
    eapply Forall_impl; [eassumption|]. simpl. lia.
  - match goal with H : entries _ _ _ = _ |- _ => apply IH in H end.
    eapply Forall_impl; [eassumption|]. simpl. lia.
Qed.

(** The fixed points of reflection about [tp] modulo [2 ^ 64]. *)
Lemma mirror_fixpoint tp addr :
  word64 tp → word64 addr →
  wrap64 (2 * tp - addr) = addr ↔ addr = tp ∨ addr = wrap64 (tp + 2 ^ 63).
Proof.
  unfold word64, wrap. intros Htp Ha. split.
  - intros Heq. pose proof (Z.div_mod (2 * tp - addr) (2 ^ 64)) as Hdm. rewrite Heq in Hdm.
    set (k := (2 * tp - addr) / 2 ^ 64) in *. clearbody k.
    assert (k = -1 ∨ k = 0 ∨ k = 1) as [->|[->| ->]] by lia; [right; lia_div|left; lia|right; lia_div].
  - intros [->| ->]; [rewrite Z.mod_small; lia|]. lia_div.
Qed.

Section tls_layout.
Context `{LibcMap} (tls_block : Z).

Lemma tls_sym_offset_go_spec m name offset i0 bins es :
  entries m i0 bins = Ok es → Forall tls_wf bins →
  tls_sym_offset_go tls_block m name (wrap64 offset) bins =
  match first_match name is_tls_def es with
  | None => libc_tls_offset tls_block name
  | Some (i, j) =>
      match bins !! (i - i0)%nat with
      | Some b => memsz ← tls_memsz b;
                  mret (wrap64 (offset + tls_start bins (i - i0) + from_option st_value 0 (symtabs_ b !! j)))
      | None => Err Aborted
      end
  end.
Proof.
  revert offset i0 es. induction bins as [|b bins IH]; intros offset i0 es Hes Hwf; simpl in Hes; inv_ok; [done|].
  apply Forall_cons in Hwf as [Hb Hwf]. rename x into es1, x0 into es2. rename H0 into H1, H1 into H2.
  destruct (search_symtab_entries _ _ _ name is_tls_def _ _ _ H1) as (r & Hr & Hf).
  rewrite first_match_app, Hf. destruct r as [j|].
  - simpl. rewrite Hr, Nat.sub_diag. simpl. destruct (tls_memsz b) as [x|] eqn:Ex; [|done].
    simpl. rewrite (tls_memsz_ok b x Hb Ex). unfold tls_start. simpl.
    set (v := from_option st_value 0 _). unfold mret, outcome_ret.
    replace (wrap64 offset - tls_size b + v) with (wrap64 offset + (v - tls_size b)) by lia.
    rewrite wrap_add_l. do 2 f_equal. lia.
  - etrans; [exact (search_symtab_none_step tls_block m name offset b bins Hb Hr)|].
    cbn [fmap option_fmap option_map].
    rewrite (IH _ (S i0) es2) by done.
    destruct (first_match name is_tls_def es2) as [[i j]|] eqn:Ei; [|done].
    apply first_match_some in Ei as (pre & e & post & Hes2 & <- & _).
    pose proof (entries_bin_ge _ _ _ _ H2) as Hge. rewrite Hes2 in Hge.
    apply Forall_app in Hge as [_ [Hge _]%Forall_cons].
    replace (en_bin e - i0)%nat with (S (en_bin e - S i0)) by lia. simpl.
    destruct (bins !! _); [|done]. destruct (tls_memsz _); [|done]. simpl.
    unfold mret, outcome_ret, tls_start. do 2 f_equal. simpl. lia.
Qed.

(** The reference: the place of the variable in the block of the first object that
    defines it, where the blocks lie below the thread pointer. *)
Definition thread_offset (bins : list ELFBinary) (es : list entry) (name : string) : outcome Z :=
  match first_match name is_tls_def es with
  | None => libc_tls_offset tls_block name
  | Some (i, j) =>
      match bins !! i with
      | Some b => memsz ← tls_memsz b;
                  mret (wrap64 (tls_start bins i + from_option st_value 0 (symtabs_ b !! j)))
      | None => Err Aborted
      end
  end.

Lemma TLSSymOffset_reference m bins name es :
  entries m 0 bins = Ok es → Forall tls_wf bins → TLSSymOffset tls_block m bins name = thread_offset bins es name.
Proof.
  intros Hes Hwf. unfold TLSSymOffset, thread_offset. change 0 with (wrap64 0) at 1.
  rewrite (tls_sym_offset_go_spec m name 0 0 bins es Hes Hwf). destruct (first_match _ _ _) as [[i j]|]; [|done].
  by rewrite Nat.sub_0_r.
Qed.

Lemma thread_offset_word bins es name o : thread_offset bins es name = Ok o → word64 o.
Proof.
  unfold thread_offset, libc_tls_offset, word64. intros Ho. repeat case_match; try done; inv_ok; by apply wrap_bound.
Qed.

(** C29: the offset [TLSSymOffset] returns for a symbol defined as a thread-local
    variable is its offset inside the thread-local block of the first object
    that defines it, where the blocks lie one below the other in load order
    under the thread pointer (with the intended 64-bit underflow). *)
Theorem TLSSymOffset_layout m bins name es i j b s ph :
  entries m 0 bins = Ok es → Forall tls_wf bins →
  first_match name is_tls_def es = Some (i, j) →
  bins !! i = Some b → symtabs_ b !! j = Some s → file_tls_ b = Some ph →
  TLSSymOffset tls_block m bins name = Ok (wrap64 (tls_start bins i + st_value s)).
Proof.
  intros Hes Hwf Hf Hb Hs Hph. unfold TLSSymOffset. change 0 with (wrap64 0) at 1.
  rewrite (tls_sym_offset_go_spec m name 0 0 bins es Hes Hwf), Hf, Nat.sub_0_r, Hb.
  unfold tls_memsz. by rewrite Hph, Hs.
Qed.

(** For a thread-local variable of the C library the offset has the wrong
    sign: adding it to the end of the thread-local block (where the thread
    pointer is) gives the mirror image of the variable's address, and the
    variable itself only when it lies exactly there or half the address space
    away. *)
Lemma TLSSymOffset_libc_mirrored m bins name es addr :
  entries m 0 bins = Ok es → Forall tls_wf bins →
  first_match name is_tls_def es = None →
  sloader_libc_tls_variables name = Some addr →
  word64 addr → 0 ≤ tls_block → tls_block + 4096 < 2 ^ 64 →
  ∃ off, TLSSymOffset tls_block m bins name = Ok off ∧
    let tp := tls_block + 4096 in
    wrap64 (tp + off) = wrap64 (2 * tp - addr) ∧
    (wrap64 (tp + off) = addr ↔ addr = tp ∨ addr = wrap64 (tp + 2 ^ 63)).
Proof.
  intros Hes Hwf Hf Haddr Hw H0 Htp. exists (wrap64 (tls_block + 4096 - addr)). split.
  - unfold TLSSymOffset. change 0 with (wrap64 0) at 1.
    rewrite (tls_sym_offset_go_spec m name 0 0 bins es Hes Hwf), Hf. unfold libc_tls_offset. by rewrite Haddr.
  - cbv zeta. autorewrite with words. replace (tls_block + 4096 + (tls_block + 4096 - addr))
      with (2 * (tls_block + 4096) - addr) by lia. split; [done|].
    apply mirror_fixpoint; unfold word64 in *; lia.
Qed.
End tls_layout.
