(* ===== verification/Relocate.v ===== *)
(** * Relocation (Relocate of dyn_loader.cc)

    [Relocate] goes over the loaded objects, over the relocations of each (those
    of the procedure linkage table first), and writes what the type of the
    relocation asks for. An object whose path was relocated before is left out. *)

From S2P Require Import Prelude Memory Digits Elf Utils Os ElfBinary ElfDynamic ElfFile FindLibrary DynLoader Symbols.

Section relocate.
Context `{LibcMap}.
(** Address of [sloader_dummy_to_secure_tls_space] (tls_secure.cc). *)
Variable tls_block : Z.

(** The address of a symbol for [GLOB_DAT], [JUMP_SLOT] and [64]: the search is
    done first, but the functions of the C library take precedence over what
    it finds. *)
Definition symbol_address (m : memory) (bins : list ELFBinary) (name : string) : outcome (option Z) :=
  opt ← SearchSym m bins name false;
  match sloader_libc_map name with
  | Some addr => mret (Some addr)
  | None =>
      match opt with
      | Some (i, j) =>
          match bins !! i with
          | Some b => a ← GetSymbolAddr b j; mret (Some a)
          | None => mthrow Segv
          end
      | None => mret None
      end
  end.

(** The source and size of a [COPY]. *)
Definition copy_source (m : memory) (bins : list ELFBinary) (name : string) : outcome (Z * Z) :=
  opt ← SearchSym m bins name true;
  match sloader_libc_map name with
  | Some addr => mret (addr, 8)
  | None =>
      match opt with
      | Some (i, j) =>
          match bins !! i with
          | Some b =>
              match symtabs_ b !! j with
              | Some sym => mret (wrap64 (base_addr_ b + st_value sym), st_size sym)
              | None => mthrow Segv
              end
          | None => mthrow Segv
          end
      | None => mthrow Aborted
      end
  end.

(** The body of the inner loop. *)
Definition relocate_step (bins : list ELFBinary) (bin : ELFBinary) (m : memory) (r : Elf64_Rela) :
    outcome memory :=
  match symtabs_ bin !! Z.to_nat (ELF64_R_SYM (r_info r)) with
  | None => mthrow CheckFailed
  | Some s =>
      name ← sym_name m bin s;
      let type := ELF64_R_TYPE (r_info r) in
      let reloc_addr := wrap64 (base_addr_ bin + r_offset r) in
      if (type =? R_X86_64_GLOB_DAT) || (type =? R_X86_64_JUMP_SLOT) then
        o ← symbol_address m bins name;
        match o with
        | Some sym_addr =>
            load64 m reloc_addr ;;          (* LOG_BITS( *reloc_addr ) *)
            store64 m reloc_addr sym_addr
        | None => mret m
        end
      else if (type =? R_X86_64_IRELATIVE) || (type =? R_X86_64_RELATIVE) then
        store64 m reloc_addr (wrap64 (base_addr_ bin + r_addend r))
      else if type =? R_X86_64_64 then
        o ← symbol_address m bins name;
        match o with
        | Some sym_addr => store64 m reloc_addr (wrap64 (sym_addr + r_addend r))
        | None => mret m
        end
      else if type =? R_X86_64_TPOFF64 then
        offset ← TLSSymOffset tls_block m bins name;
        store64 m reloc_addr offset
      else if type =? R_X86_64_DTPMOD64 then store64 m reloc_addr 1
      else if type =? R_X86_64_DTPOFF64 then mret m
      else if type =? R_X86_64_COPY then
        '(src, size) ← copy_source m bins name;
        load64 m src ;;                     (* LOG_BITS of the first word *)
        memcpy m reloc_addr src size
      else mthrow Aborted
  end.

Definition relocations (bin : ELFBinary) : list Elf64_Rela := pltrelas_ bin ++ relas_ bin.

Definition relocate_binary (bins : list ELFBinary) (bin : ELFBinary) (m : memory) : outcome memory :=
  foldM (relocate_step bins bin) m (relocations bin).

Definition is_relocated (dl : DynLoader) (bin : ELFBinary) : bool :=
  default false (relocated_ dl !! path_elems (path_ bin)).

(** The body of the outer loop. *)
Definition relocate_object (dl : DynLoader) (bin : ELFBinary) : P DynLoader :=
  if is_relocated dl bin then mret dl
  else
    let dl := dl <| relocated_ := <[path_elems (path_ bin) := true]> (relocated_ dl) |> in
    update_mem (relocate_binary (binaries_ dl) bin) ;;
    mret dl.

Definition Relocate (dl : DynLoader) : P DynLoader := foldM relocate_object dl (binaries_ dl).
End relocate.

(** * The reference: what each relocation does

    The tables of names are read once, before anything is written; each
    relocation is then an action on memory. *)

Inductive action : Type :=
  | Keep
  | Store (value : Z)
  | Copy (src size : Z)
  | Stop (e : error).

#[export] Instance action_eq_dec : EqDecision action.
Proof. solve_decision. Defined.

Definition run_action (m : memory) (a : Z) (act : action) : outcome memory :=
  match act with
  | Keep => Ok m
  | Store v => store64 m a v
  | Copy src n => load64 m src ;; memcpy m a src n
  | Stop e => Err e
  end.

(** How many bytes it writes. *)
Definition action_size (act : action) : Z :=
  match act with Store _ => 8 | Copy _ n => n | _ => 0 end.

Definition reloc_addr (bin : ELFBinary) (r : Elf64_Rela) : Z := wrap64 (base_addr_ bin + r_offset r).

(** The entries of all objects but the first, the executable. *)
Definition library_entries (es : list entry) : list entry := filter (λ e, en_bin e ≠ 0%nat) es.

Section reference.
Context `{LibcMap}.
(** The objects and the names of their symbols. *)
Context (bins : list ELFBinary) (es : list entry).

Definition symbol_at (ij : nat * nat) : option (ELFBinary * Elf64_Sym) :=
  b ← bins !! ij.1; s ← symtabs_ b !! ij.2; Some (b, s).

(** The value of a symbol: the C library's function, or what the reference resolution gives. *)
Definition symbol_value (name : string) : option Z :=
  match sloader_libc_map name with
  | Some addr => Some addr
  | None => '(b, s) ← resolve name es ≫= symbol_at; Some (wrap64 (st_value s + base_addr_ b))
  end.

Definition copy_action (name : string) : action :=
  match sloader_libc_map name with
  | Some addr => Copy addr 8
  | None =>
      match resolve name (library_entries es) ≫= symbol_at with
      | Some (b, s) => Copy (wrap64 (base_addr_ b + st_value s)) (st_size s)
      | None => Stop Aborted
      end
  end.

(** The action the loader takes for a relocation of [bin] against the symbol
    [name], with base [B], addend [A] and symbol value [S]. *)
Definition reloc_action (tls_offset : outcome Z) (bin : ELFBinary) (r : Elf64_Rela) (name : string) : action :=
  let type := ELF64_R_TYPE (r_info r) in
  if decide (type = R_X86_64_GLOB_DAT ∨ type = R_X86_64_JUMP_SLOT) then
    from_option Store Keep (symbol_value name)                                        (* S *)
  else if decide (type = R_X86_64_RELATIVE ∨ type = R_X86_64_IRELATIVE) then
    Store (wrap64 (base_addr_ bin + r_addend r))                                      (* B + A *)
  else if decide (type = R_X86_64_64) then
    from_option (λ S, Store (wrap64 (S + r_addend r))) Keep (symbol_value name)       (* S + A *)
  else if decide (type = R_X86_64_TPOFF64) then
    match tls_offset with Ok o => Store o | Err e => Stop e end
  else if decide (type = R_X86_64_DTPMOD64) then Store 1
  else if decide (type = R_X86_64_DTPOFF64) then Keep
  else if decide (type = R_X86_64_COPY) then copy_action name
  else Stop Aborted.
End reference.

(** The types for which names are looked up. *)
Definition needs_names (r : Elf64_Rela) : bool :=
  bool_decide (ELF64_R_TYPE (r_info r) ∈
    [R_X86_64_GLOB_DAT; R_X86_64_JUMP_SLOT; R_X86_64_64; R_X86_64_TPOFF64; R_X86_64_COPY]).

Lemma needs_names_spec r :
  let ty := ELF64_R_TYPE (r_info r) in
  needs_names r = true ↔ (ty = R_X86_64_GLOB_DAT ∨ ty = R_X86_64_JUMP_SLOT) ∨ ty = R_X86_64_64 ∨
    ty = R_X86_64_TPOFF64 ∨ ty = R_X86_64_COPY.
Proof. intros ty. unfold needs_names. fold ty. rewrite bool_decide_eq_true, !elem_of_cons, elem_of_nil. tauto. Qed.

(** ** The table of the ABI

    The psABI's calculations for the relocation types, and the types to which the
    loader gives another meaning. *)

Section abi.
Context `{LibcMap} (tls_block : Z) (bins : list ELFBinary) (es : list entry).

Definition thread_action (name : string) (addend : Z) : action :=
  match thread_offset tls_block bins es name with Ok o => Store (wrap64 (o + addend)) | Err e => Stop e end.

(** [B] is the base of the object, [A] the addend, [S] the value of the symbol (an
    unresolved symbol leaves the slot alone). The calculations are the ABI's; the
    values that go into them are the loader's: names of the C library come first,
    an undefined weak symbol counts as the base of its object where the ABI has 0
    ([weak_undefined_value]), the offset of a thread-local variable of the C library
    is mirrored ([TLSSymOffset_libc_mirrored]), and a variable copied from the C
    library has 8 bytes. *)
Definition abi_table (bin : ELFBinary) (r : Elf64_Rela) (name : string) : list (Z * action) :=
  let B := base_addr_ bin in
  let A := r_addend r in
  let S := symbol_value bins es name in
  [(R_X86_64_64, from_option (λ S, Store (wrap64 (S + A))) Keep S);
   (R_X86_64_GLOB_DAT, from_option Store Keep S);
   (R_X86_64_JUMP_SLOT, from_option Store Keep S);
   (R_X86_64_RELATIVE, Store (wrap64 (B + A)));
   (R_X86_64_TPOFF64, thread_action name A);
   (R_X86_64_COPY, copy_action bins es name)].

(** The ABI asks for the address the resolver at [B + A] returns, for the number of
    the module that defines the variable, for the offset of the variable in the
    block of its module, and for the addend to be added. *)
Definition departures (bin : ELFBinary) (r : Elf64_Rela) (name : string) : list (Z * action) :=
  [(R_X86_64_IRELATIVE, Store (wrap64 (base_addr_ bin + r_addend r)));
   (R_X86_64_DTPMOD64, Store 1);
   (R_X86_64_DTPOFF64, Keep)] ++
  (if bool_decide (r_addend r = 0) then [] else [(R_X86_64_TPOFF64, thread_action name 0)]).

(** The first entry for the type, departures before the table; other types stop the loader. *)
Definition reference_action (bin : ELFBinary) (r : Elf64_Rela) (name : string) : action :=
  default (Stop Aborted)
    (snd <$> head (filter (λ ta, ta.1 = ELF64_R_TYPE (r_info r)) (departures bin r name ++ abi_table bin r name))).
End abi.

(** ** Reading names from a memory that has been written to *)

(** None of the symbol names of the objects is written to. *)
Definition names_off (W : Z → Prop) (m0 : memory) (bins : list ELFBinary) : Prop :=
  ∀ b s n x, b ∈ bins → s ∈ symtabs_ b → sym_name m0 b s = Ok n →
  let a := wrap64 (st_name s + strtab_ b) in a ≤ x ≤ a + Z.of_nat (String.length n) → ¬ W x.

Lemma names_off_subset W m0 bins bins' : bins' ⊆ bins → names_off W m0 bins → names_off W m0 bins'.
Proof. intros Hsub Hn b s n x Hb. apply Hn. by apply Hsub. Qed.

Section agreement.
Context (W : Z → Prop) (m0 m : memory).
Context (Hsz : mem_size m0 < 2 ^ 64) (Hag : agree_off W m0 m).

Lemma sym_name_agree bins b s n :
  names_off W m0 bins → b ∈ bins → s ∈ symtabs_ b → sym_name m0 b s = Ok n → sym_name m b s = Ok n.
Proof.
  intros Hn Hb Hs Hname. destruct Hag as [Hr Hb']. unfold sym_name in *.
  eapply read_cstr_frame; [|exact Hname|].
  - unfold mem_size in *. by rewrite Hr.
  - intros x Hx. split; [unfold mapped; by rewrite Hr|]. apply Hb'. by eapply Hn.
Qed.

Lemma symtab_entries_agree bins i b j es :
  names_off W m0 bins → b ∈ bins →
  symtab_entries m0 i b j (symtabs_ b) = Ok es → symtab_entries m i b j (symtabs_ b) = Ok es.
Proof.
  intros Hn Hb. unfold symtab_entries. intros Hrun. inv_ok.
  match goal with H : traverse _ _ = Ok ?k |- _ => rename H into Ht;
    assert (traverse (sym_name m b) (symtabs_ b) = Ok k) as ->; [|done] end.
  apply traverse_ok in Ht. apply traverse_ok.
  apply Forall2_same_length_lookup. apply Forall2_same_length_lookup in Ht as [Hl Ht]. split; [done|].
  intros k s n Hs Hk. eapply sym_name_agree; [done|done|by eapply list_elem_of_lookup_2|by eapply Ht].
Qed.

Lemma entries_agree i bins es :
  names_off W m0 bins → entries m0 i bins = Ok es → entries m i bins = Ok es.
Proof.
  intros Hn. revert i es. induction bins as [|b bins IH]; intros i es Hes; simpl in *; [done|]. inv_ok.
  match goal with H : symtab_entries _ _ _ _ _ = Ok _ |- _ =>
    rewrite (symtab_entries_agree (b :: bins) i b 0 _ Hn (list_elem_of_here b bins) H) end.
  assert (Hn' : names_off W m0 bins) by (eapply names_off_subset; [|exact Hn]; set_solver).
  match goal with H : entries m0 _ _ = Ok _ |- _ => by rewrite (IH Hn' _ _ H) end.
Qed.
End agreement.

(** A thread-local offset depends on memory through the names alone. *)
Lemma TLSSymOffset_entries `{LibcMap} tls_block m m' i bins name offset es :
  entries m i bins = Ok es → entries m' i bins = Ok es →
  tls_sym_offset_go tls_block m name offset bins = tls_sym_offset_go tls_block m' name offset bins.
Proof.
  revert i offset es. induction bins as [|b bins IH]; intros i offset es He He'; [done|].
  simpl in He, He'. apply outcome_bind_ok in He as (es1 & H1 & He). apply outcome_bind_ok in He as (es2 & H2 & He).
  apply outcome_bind_ok in He' as (es1' & H1' & He'). apply outcome_bind_ok in He' as (es2' & H2' & He').
  assert (length es1 = length es1') as Hlen.
  { clear -H1 H1'. unfold symtab_entries in *. inv_ok.
    repeat match goal with H : traverse _ _ = Ok _ |- _ => apply traverse_ok, Forall2_length in H end.
    rewrite !length_zip_with. lia. }
  assert (es1 = es1' ∧ es2 = es2') as [-> ->].
  { apply app_inj_1; [done|]. unfold mret, outcome_ret in *. congruence. }
  destruct (search_symtab_entries _ _ _ name is_tls_def _ _ _ H1) as (r & Hr & Hf).
  destruct (search_symtab_entries _ _ _ name is_tls_def _ _ _ H1') as (r' & Hr' & Hf').
  rewrite Hf in Hf'. assert (r = r') as ->.
  { destruct r, r'; simpl in Hf'; congruence. }
  cbn [tls_sym_offset_go]. rewrite Hr, Hr'. cbn [mbind outcome_bind]. destruct r'; [done|].
  destruct (has_tls_ b); [|by eapply IH]. destruct (tls_memsz b); [|done]. cbn. by eapply IH.
Qed.

(** ** Each step is its action *)

Lemma entries_library m bins es :
  entries m 0 bins = Ok es → entries m 1 (drop 1 bins) = Ok (library_entries es).
Proof.
  destruct bins as [|b bins]; simpl; intros Hes; inv_ok; [done|].
  rewrite drop_0. match goal with H : entries _ _ _ = Ok _ |- _ => rewrite H; apply entries_bin_ge in H as Hge end.
  match goal with H : symtab_entries _ _ _ _ _ = Ok _ |- _ => apply symtab_entries_bin in H as Hfst end.
  unfold library_entries. rewrite filter_app.
  match goal with |- _ = Ok (filter ?P ?a ++ filter ?P ?b) =>
    assert (filter P a = []) as ->; [|assert (filter P b = b) as ->; [|done]] end.
  - clear -Hfst. induction Hfst as [|e es0 He _ IH]; [done|]. rewrite filter_cons, decide_False; auto.
  - clear -Hge. induction Hge as [|e es0 He _ IH]; [done|]. rewrite filter_cons, decide_True by lia. by f_equal.
Qed.

Lemma resolve_symbol_at m bins es name ij :
  entries m 0 bins = Ok es → resolve name es = Some ij →
  ∃ b s, bins !! ij.1 = Some b ∧ symtabs_ b !! ij.2 = Some s ∧ symbol_at bins ij = Some (b, s).
Proof.
  destruct ij as [i j]. intros Hes (e & He & <- & <- & _)%resolve_elem.
  destruct (entries_lookup _ _ _ _ _ Hes He) as (_ & b & Hb & Hs). rewrite Nat.sub_0_r in Hb.
  exists b, (en_sym e). unfold symbol_at. cbn. rewrite Hb. cbn. by rewrite Hs.
Qed.

Lemma resolve_library_at m bins es name ij :
  entries m 0 bins = Ok es → resolve name (library_entries es) = Some ij →
  ∃ b s, bins !! ij.1 = Some b ∧ symtabs_ b !! ij.2 = Some s ∧ symbol_at bins ij = Some (b, s).
Proof.
  destruct ij as [i j]. intros Hes (e & He & <- & <- & _)%resolve_elem. apply list_elem_of_filter in He as [_ He].
  destruct (entries_lookup _ _ _ _ _ Hes He) as (_ & b & Hb & Hs). rewrite Nat.sub_0_r in Hb.
  exists b, (en_sym e). unfold symbol_at. cbn. rewrite Hb. cbn. by rewrite Hs.
Qed.

Lemma symbol_address_spec `{LibcMap} m bins es name :
  entries m 0 bins = Ok es → symbol_address m bins name = Ok (symbol_value bins es name).
Proof.
  intros Hes. unfold symbol_address, symbol_value. rewrite (SearchSym_entries m bins name false es Hes). cbn [mbind outcome_bind].
  destruct (sloader_libc_map name); [done|]. destruct (resolve name es) as [[i j]|] eqn:Er; [|done].
  destruct (resolve_symbol_at _ _ _ _ _ Hes Er) as (b & s & Hb & Hs & Ha). cbn [fst snd] in *.
  rewrite Hb. unfold GetSymbolAddr. rewrite Hs. cbn. by rewrite Ha.
Qed.

Lemma copy_source_spec `{LibcMap} m bins es name :
  entries m 0 bins = Ok es →
  copy_source m bins name =
  match copy_action bins es name with Copy src n => Ok (src, n) | _ => Err Aborted end.
Proof.
  intros Hes. unfold copy_source, copy_action.
  rewrite (SearchSym_entries m bins name true _ (entries_library _ _ _ Hes)). cbn [mbind outcome_bind].
  destruct (sloader_libc_map name); [done|]. destruct (resolve name _) as [[i j]|] eqn:Er; [|done].
  destruct (resolve_library_at _ _ _ _ _ Hes Er) as (b & s & Hb & Hs & Ha). cbn [fst snd option_bind] in *.
  rewrite Hb, Hs. cbn. by rewrite Ha.
Qed.

Lemma load64_store64 m a v : (load64 m a ;; store64 m a v) = store64 m a v.
Proof.
  unfold load_word, load_bytes, store64, store_bytes. rewrite le_split_length. change (Z.of_nat 8) with 8.
  by destruct (mapped_range m a 8).
Qed.

Lemma copy_action_shape `{LibcMap} bins es name :
  (∃ src n, copy_action bins es name = Copy src n) ∨ copy_action bins es name = Stop Aborted.
Proof. unfold copy_action. destruct (sloader_libc_map name); [by eauto|]. destruct (_ ≫= _) as [[]|]; eauto. Qed.

Section steps.
Context `{LibcMap} (tls_block : Z).

Lemma relocate_step_run m bins es bin r s name :
  (needs_names r = true → entries m 0 bins = Ok es) →
  symtabs_ bin !! Z.to_nat (ELF64_R_SYM (r_info r)) = Some s → sym_name m bin s = Ok name →
  relocate_step tls_block bins bin m r =
  run_action m (reloc_addr bin r) (reloc_action bins es (TLSSymOffset tls_block m bins name) bin r name).
Proof.
  intros Hes Hs Hn. unfold relocate_step, reloc_action. rewrite Hs, Hn. cbn [mbind outcome_bind]. cbv zeta.
  fold (reloc_addr bin r). rewrite needs_names_spec in Hes. set (ty := ELF64_R_TYPE (r_info r)) in *. clearbody ty.
  destruct (decide (ty = R_X86_64_GLOB_DAT ∨ ty = R_X86_64_JUMP_SLOT)) as [Hty|Hty].
  { rewrite (proj2 (orb_true_iff _ _)) by by rewrite !Z.eqb_eq.
    rewrite (symbol_address_spec m bins es name) by (apply Hes; tauto). cbn [mbind outcome_bind].
    destruct (symbol_value bins es name); cbn [from_option run_action]; [|done]. apply load64_store64. }
  rewrite (proj2 (orb_false_iff _ _)) by by rewrite !Z.eqb_neq; tauto.
  destruct (decide (ty = R_X86_64_RELATIVE ∨ ty = R_X86_64_IRELATIVE)) as [Hty2|Hty2].
  { by rewrite (proj2 (orb_true_iff _ _)) by by rewrite !Z.eqb_eq; tauto. }
  rewrite (proj2 (orb_false_iff _ _)) by by rewrite !Z.eqb_neq; tauto.
  repeat match goal with |- context [ty =? ?c] => destruct (Z.eqb_spec ty c) as [?|?];
    [rewrite (decide_True (P := ty = c)) by done|rewrite (decide_False (P := ty = c)) by done] end.
  - rewrite (symbol_address_spec m bins es name) by (apply Hes; tauto). by destruct (symbol_value bins es name).
  - by destruct (TLSSymOffset _ _ _ _).
  - done.
  - done.
  - rewrite (copy_source_spec m bins es name) by (apply Hes; tauto).
    destruct (copy_action_shape bins es name) as [(src & k & ->)| ->]; done.
  - done.
Qed.

(** The actions of the loader are the table's, but for the departures. *)
Lemma reloc_action_reference m bins es bin r name :
  (needs_names r = true → entries m 0 bins = Ok es ∧ Forall tls_wf bins) →
  reloc_action bins es (TLSSymOffset tls_block m bins name) bin r name = reference_action tls_block bins es bin r name.
Proof.
  rewrite needs_names_spec. unfold reference_action, reloc_action, departures, abi_table. cbv zeta.
  set (ty := ELF64_R_TYPE (r_info r)). clearbody ty. intros Hes.
  destruct (decide (ty = R_X86_64_TPOFF64)) as [->|Htp].
  { destruct Hes as [Hes Hwf]; [tauto|]. rewrite (TLSSymOffset_reference tls_block m bins name es Hes Hwf).
    assert (match thread_offset tls_block bins es name with Ok o => Store o | Err e => Stop e end =
      thread_action tls_block bins es name 0) as ->.
    { unfold thread_action. destruct (thread_offset _ _ _ _) as [o|] eqn:Eo; [|done].
      apply thread_offset_word in Eo. by rewrite Z.add_0_r, (wrap_small 64 o Eo). }
    case_bool_decide as Ha; [rewrite Ha|]; reflexivity. }
  rewrite filter_app, filter_app.
  assert (filter (λ ta : Z * action, ta.1 = ty) (if bool_decide (r_addend r = 0) then []
    else [(R_X86_64_TPOFF64, thread_action tls_block bins es name 0)]) = []) as ->.
  { case_bool_decide; [done|]. by rewrite filter_cons_False by auto. }
  clear Hes. repeat match goal with |- context [decide (ty = ?c)] => destruct (decide (ty = c)) as [->|?]; [reflexivity|] end.
  destruct (decide (ty = R_X86_64_GLOB_DAT)) as [->|?]; [reflexivity|].
  destruct (decide (ty = R_X86_64_JUMP_SLOT)) as [->|?]; [reflexivity|].
  destruct (decide (ty = R_X86_64_RELATIVE)) as [->|?]; [reflexivity|].
  destruct (decide (ty = R_X86_64_IRELATIVE)) as [->|?]; [reflexivity|].
  rewrite !decide_False by tauto. rewrite !filter_cons_False by (cbn; congruence). done.
Qed.

(** C25: each round of the relocation loop. It stops the loader when the symbol
    index is outside the table of the object or the name of the symbol cannot be
    read. Otherwise it carries out the action of the reference on the slot: the
    ABI's calculation for the types of [abi_table] on the loader's values of the
    symbols, where an unresolved symbol leaves the slot alone; what [departures] lists for the types the loader treats
    in its own way; and the abort for every other type. For the types that look
    names up, the names in the tables of all objects have to be readable and each
    [PT_TLS] header to be known. *)
Theorem relocate_step_action m bins es bin r :
  (needs_names r = true → entries m 0 bins = Ok es ∧ Forall tls_wf bins) →
  relocate_step tls_block bins bin m r =
  match symtabs_ bin !! Z.to_nat (ELF64_R_SYM (r_info r)) with
  | None => Err CheckFailed
  | Some s =>
      match sym_name m bin s with
      | Err e => Err e
      | Ok name => run_action m (reloc_addr bin r) (reference_action tls_block bins es bin r name)
      end
  end.
Proof.
  intros Hes. destruct (symtabs_ bin !! _) as [s|] eqn:Hs; [|unfold relocate_step; by rewrite Hs].
  destruct (sym_name m bin s) as [name|e] eqn:Hn; [|unfold relocate_step; by rewrite Hs, Hn].
  rewrite (relocate_step_run m bins es bin r s name) by (done || apply Hes).
  by rewrite (reloc_action_reference m bins es bin r name Hes).
Qed.
End steps.

(** ** The whole of Relocate *)

(** The objects that will be relocated: those whose path is new. *)
Fixpoint unrelocated (rel : gmap (list string) bool) (bins : list ELFBinary) : list ELFBinary :=
  match bins with
  | [] => []
  | b :: bins =>
      if default false (rel !! path_elems (path_ b)) then unrelocated rel bins
      else b :: unrelocated (<[path_elems (path_ b) := true]> rel) bins
  end.

Definition mark_relocated (rel : gmap (list string) bool) (bins : list ELFBinary) : gmap (list string) bool :=
  foldl (λ rel b, <[path_elems (path_ b) := true]> rel) rel bins.

(** All the relocations, in order, each with its object. *)
Definition plan (dl : DynLoader) : list (ELFBinary * Elf64_Rela) :=
  unrelocated (relocated_ dl) (binaries_ dl) ≫= λ b, pair b <$> relocations b.

Section whole.
Context `{LibcMap} (tls_block : Z).

Definition plan_step (bins : list ELFBinary) (m : memory) (p : ELFBinary * Elf64_Rela) : outcome memory :=
  relocate_step tls_block bins p.1 m p.2.

Lemma relocate_binary_plan bins b m :
  relocate_binary tls_block bins b m = foldM (plan_step bins) m (pair b <$> relocations b).
Proof.
  unfold relocate_binary. generalize (relocations b). intros l. revert m.
  induction l as [|r l IH]; intros m; [done|]. cbn [foldM fmap list_fmap].
  replace (plan_step bins m (b, r)) with (relocate_step tls_block bins b m r) by done.
  destruct (relocate_step _ _ _ _ _); [apply IH|done].
Qed.

Lemma Relocate_plan_go dl bins s :
  foldM (relocate_object tls_block) dl bins s =
  match foldM (plan_step (binaries_ dl)) (p_mem s)
          (unrelocated (relocated_ dl) bins ≫= λ b, pair b <$> relocations b) with
  | Ok m => Ok (dl <| relocated_ := mark_relocated (relocated_ dl) (unrelocated (relocated_ dl) bins) |>, set_mem m s)
  | Err e => Err e
  end.
Proof.
  revert dl s. induction bins as [|b bins IH]; intros dl s.
  { cbn. by destruct dl, s. }
  cbn [foldM unrelocated]. unfold mbind at 1, stM_bind at 1. unfold relocate_object at 1, is_relocated.
  destruct (default false _) eqn:Ed; [apply IH|].
  cbn [mbind list_bind app]. rewrite foldM_app, <-relocate_binary_plan.
  unfold mbind at 1, stM_bind at 1, update_mem. cbn [binaries_]. change (binaries_ (dl <| relocated_ := _ |>)) with (binaries_ dl).
  destruct (relocate_binary _ _ _ _) as [m|e]; [|done].
  etrans; [apply IH|]. reflexivity.
Qed.

(** [Relocate] runs the plan; apart from memory only the set of relocated paths changes. *)
Lemma Relocate_plan dl s :
  Relocate tls_block dl s =
  match foldM (plan_step (binaries_ dl)) (p_mem s) (plan dl) with
  | Ok m => Ok (dl <| relocated_ := mark_relocated (relocated_ dl) (unrelocated (relocated_ dl) (binaries_ dl)) |>, set_mem m s)
  | Err e => Err e
  end.
Proof. apply Relocate_plan_go. Qed.

(** The action of a relocation, with the names and offsets as they are in [m0]. *)
Definition action_at (m0 : memory) (bins : list ELFBinary) (es : list entry) (p : ELFBinary * Elf64_Rela) : action :=
  match symtabs_ p.1 !! Z.to_nat (ELF64_R_SYM (r_info p.2)) with
  | None => Stop CheckFailed
  | Some s =>
      match sym_name m0 p.1 s with
      | Ok name => reloc_action bins es (TLSSymOffset tls_block m0 bins name) p.1 p.2 name
      | Err e => Stop e
      end
  end.

Definition slot (p : ELFBinary * Elf64_Rela) : Z := reloc_addr p.1 p.2.

(** The bytes a relocation writes, and those that any of them writes. *)
Definition target (m0 : memory) (bins : list ELFBinary) (es : list entry) (p : ELFBinary * Elf64_Rela) (x : Z) : Prop :=
  slot p ≤ x < slot p + action_size (action_at m0 bins es p).
Definition targets m0 bins es (ps : list (ELFBinary * Elf64_Rela)) (x : Z) : Prop :=
  ∃ p, p ∈ ps ∧ target m0 bins es p x.

Lemma unrelocated_subset rel bins : unrelocated rel bins ⊆ bins.
Proof.
  revert rel. induction bins as [|b bins IH]; intros rel; cbn [unrelocated]; [done|].
  destruct (default _ _); [specialize (IH rel)|specialize (IH (<[path_elems (path_ b) := true]> rel))]; set_solver.
Qed.

Lemma plan_object dl p : p ∈ plan dl → p.1 ∈ binaries_ dl.
Proof.
  unfold plan. intros (b & Hp & Hb)%list_elem_of_bind. apply list_elem_of_fmap in Hp as (r & -> & _).
  by eapply unrelocated_subset.
Qed.

Lemma run_action_writes m a act m' :
  run_action m a act = Ok m' →
  ∃ bs, m' = poke m a bs ∧ Z.of_nat (length bs) = Z.max 0 (action_size act) ∨ m' = m.
Proof.
  destruct act as [|v|src n|e]; cbn [run_action action_size]; intros Hrun; inv_ok.
  - exists []. by right.
  - match goal with H : store64 _ _ _ = _ |- _ => apply store64_ok in H as [_ ->] end.
    eexists. left. split; [done|]. by rewrite le_split_length.
  - match goal with H : memcpy _ _ _ _ = _ |- _ => apply memcpy_ok in H as (_ & _ & ->) end.
    eexists. left. split; [done|]. rewrite length_peek. lia.
Qed.

Lemma run_action_agree (W : Z → Prop) m a act m' :
  run_action m a act = Ok m' → (∀ x, a ≤ x < a + action_size act → W x) → agree_off W m m'.
Proof.
  intros (bs & [[-> Hlen]| ->])%run_action_writes HW; [|done]. apply agree_off_poke. intros x Hx. apply HW. lia.
Qed.

Lemma entries_name m i bins es b s :
  entries m i bins = Ok es → b ∈ bins → s ∈ symtabs_ b → ∃ n, sym_name m b s = Ok n.
Proof.
  revert i es. induction bins as [|b' bins IH]; intros i es Hes Hb Hs; [set_solver|]. simpl in Hes. inv_ok.
  apply elem_of_cons in Hb as [->|Hb]; [|by eapply IH].
  match goal with H : symtab_entries _ _ _ _ _ = Ok _ |- _ => unfold symtab_entries in H end. inv_ok.
  match goal with H : traverse _ _ = Ok _ |- _ => apply traverse_ok in H as Ht end.
  apply list_elem_of_lookup in Hs as [k Hk]. destruct (Forall2_lookup_l _ _ _ _ _ Ht Hk) as (n & _ & Hn). eauto.
Qed.

Section run.
Context (m0 : memory) (bins : list ELFBinary) (es : list entry) (W : Z → Prop).
Context (Hsz : mem_size m0 < 2 ^ 64) (Hes : entries m0 0 bins = Ok es) (Hoff : names_off W m0 bins).

Lemma plan_step_agree m p :
  agree_off W m0 m → p.1 ∈ bins → plan_step bins m p = run_action m (slot p) (action_at m0 bins es p).
Proof.
  intros Hag Hp. unfold plan_step, action_at.
  destruct (symtabs_ p.1 !! _) as [s|] eqn:Es; [|unfold relocate_step; by rewrite Es].
  pose proof (list_elem_of_lookup_2 _ _ _ Es) as Hs.
  destruct (entries_name _ _ _ _ _ _ Hes Hp Hs) as [n Hn]. rewrite Hn.
  pose proof (entries_agree W m0 m Hsz Hag _ _ _ Hoff Hes) as Hes'.
  rewrite (relocate_step_run tls_block m bins es p.1 p.2 s n (λ _, Hes') Es);
    [|by eapply sym_name_agree].
  unfold TLSSymOffset. by rewrite (TLSSymOffset_entries tls_block m m0 0 bins n 0 es Hes' Hes).
Qed.

Lemma plan_run_agree ps m m' :
  foldM (plan_step bins) m ps = Ok m' → Forall (λ p, p.1 ∈ bins) ps →
  (∀ x, targets m0 bins es ps x → W x) → agree_off W m0 m →
  agree_off W m0 m' ∧ agree_off (targets m0 bins es ps) m m'.
Proof.
  revert m. induction ps as [|p ps IH]; intros m Hrun Hin HW Hag; simpl in Hrun; inv_ok; [done|].
  apply Forall_cons in Hin as [Hp Hin].
  match goal with H : plan_step _ _ _ = Ok _ |- _ => rename H into Hact end.
  rewrite (plan_step_agree _ _ Hag Hp) in Hact.
  match type of Hact with _ = Ok ?m2 => rename m2 into m1 end.
  assert (agree_off W m0 m1) as Hag1.
  { etrans; [exact Hag|]. eapply run_action_agree; [exact Hact|]. intros x Hx. apply HW. exists p. split; [left|done]. }
  destruct (IH m1) as [Hag2 Hag3]; [done..| |done|].
  { intros x (q & Hq & Hx). apply HW. exists q. split; [by right|done]. }
  split; [done|]. transitivity m1.
  - eapply run_action_agree; [exact Hact|]. intros x Hx. exists p. split; [left|done].
  - destruct Hag3 as [Hr Hb]. split; [done|]. intros x Hx. apply Hb. intros (q & Hq & Hxq).
    apply Hx. exists q. split; [by right|done].
Qed.

(** The loops are the actions, one after the other. *)
Definition run_actions (m : memory) (ps : list (ELFBinary * Elf64_Rela)) : outcome memory :=
  foldM (λ m p, run_action m (slot p) (action_at m0 bins es p)) m ps.

Lemma plan_run_actions ps m :
  Forall (λ p, p.1 ∈ bins) ps → (∀ x, targets m0 bins es ps x → W x) → agree_off W m0 m →
  foldM (plan_step bins) m ps = run_actions m ps.
Proof.
  unfold run_actions. revert m. induction ps as [|p ps IH]; intros m Hin HW Hag; [done|]. cbn [foldM].
  apply Forall_cons in Hin as [Hp Hin]. rewrite (plan_step_agree _ _ Hag Hp).
  destruct (run_action _ _ _) as [m1|] eqn:Hact; [|done]. apply IH; [done| |].
  - intros x (q & Hq & Hx). apply HW. exists q. split; [by right|done].
  - etrans; [exact Hag|]. eapply run_action_agree; [exact Hact|]. intros x Hx. apply HW. exists p. split; [left|done].
Qed.

(** Where the plan succeeds: no stop, and everything that is read or written is mapped. *)
Definition action_ok (m : memory) (a : Z) (act : action) : Prop :=
  match act with
  | Keep => True
  | Store _ => mapped_range m a 8 = true
  | Copy src n => mapped_range m src 8 = true ∧ mapped_range m src n = true ∧ mapped_range m a n = true
  | Stop _ => False
  end.

Lemma run_action_ok m a act : action_ok m a act → ∃ m', run_action m a act = Ok m'.
Proof.
  destruct act as [|v|src n|e]; cbn [action_ok run_action]; [by eauto| | |done].
  - intros Hm. eexists. by apply store64_ok.
  - intros (H8 & Hsrc & Hdst). unfold load_word at 1, load_bytes at 1. rewrite H8. cbn.
    eexists. apply memcpy_ok. split_and!; [done| |done].
    rewrite mapped_range_spec in Hdst |- *. intros x Hx. apply Hdst. lia.
Qed.

Lemma action_ok_regions m m' a act : regions m' = regions m → action_ok m a act → action_ok m' a act.
Proof. intros Hr. unfold action_ok, mapped_range, mapped. by rewrite Hr. Qed.

Lemma plan_run_ok ps m :
  Forall (λ p, p.1 ∈ bins ∧ action_ok m0 (slot p) (action_at m0 bins es p)) ps →
  (∀ x, targets m0 bins es ps x → W x) → agree_off W m0 m →
  ∃ m', foldM (plan_step bins) m ps = Ok m'.
Proof.
  revert m. induction ps as [|p ps IH]; intros m Hok HW Hag; [by eexists|]. cbn [foldM].
  apply Forall_cons in Hok as [[Hp Hact] Hok]. rewrite (plan_step_agree _ _ Hag Hp).
  destruct (run_action_ok m (slot p) (action_at m0 bins es p)) as [m1 Hm1].
  { eapply action_ok_regions; [|exact Hact]. apply Hag. }
  rewrite Hm1. apply IH; [done| |].
  - intros x (q & Hq & Hx). apply HW. exists q. split; [by right|done].
  - etrans; [exact Hag|]. eapply run_action_agree; [exact Hm1|]. intros x Hx. apply HW. exists p. split; [left|done].
Qed.
End run.

Lemma Relocate_linked dl s dl' s' es :
  Relocate tls_block dl s = Ok (dl', s') →
  let m0 := p_mem s in
  let bins := binaries_ dl in
  mem_size m0 < 2 ^ 64 → entries m0 0 bins = Ok es → names_off (targets m0 bins es (plan dl)) m0 bins →
  agree_off (targets m0 bins es (plan dl)) m0 (p_mem s') ∧
  ∀ pre p post, plan dl = pre ++ p :: post →
    (∀ x, target m0 bins es p x → ¬ targets m0 bins es post x) →
    match action_at m0 bins es p with
    | Keep => True
    | Store v => load64 (p_mem s') (slot p) = Ok (wrap64 v)
    | Copy src n => (∀ x, src ≤ x < src + n → ¬ targets m0 bins es pre x) →
                    peek (p_mem s') (slot p) n = peek m0 src n
    | Stop _ => False
    end.
Proof.
  rewrite Relocate_plan. intros Hrun m0 bins Hsz Hes Hoff. fold m0 bins in Hrun.
  destruct (foldM _ _ _) as [m'|] eqn:Hfold; [|done]. injection Hrun as <- <-. cbn [p_mem set_mem].
  assert (Hin : Forall (λ p, p.1 ∈ bins) (plan dl)) by (apply Forall_forall, plan_object).
  set (W := targets m0 bins es (plan dl)) in *.
  split; [by eapply (plan_run_agree m0 bins es W)|]. intros pre p post Hplan Hlater.
  rewrite Hplan in Hin, Hfold. apply Forall_app in Hin as [Hpre [Hp Hpost]%Forall_cons].
  rewrite foldM_app in Hfold. apply outcome_bind_ok in Hfold as (m1 & Hrun1 & Hfold).
  cbn [foldM] in Hfold. apply outcome_bind_ok in Hfold as (m2 & Hrun2 & Hrun3).
  assert (HW : ∀ ps x, (∀ q, q ∈ ps → q ∈ plan dl) → targets m0 bins es ps x → W x).
  { intros ps x Hps (q & Hq & Hx). exists q. auto. }
  assert (Hsub : ∀ q, q ∈ pre ++ p :: post → q ∈ plan dl) by by rewrite Hplan.
  destruct (plan_run_agree m0 bins es W Hsz Hes Hoff pre m0 m1) as [Hag1 Hag1']; [done..| |done|].
  { intros x. apply HW. set_solver. }
  rewrite (plan_step_agree m0 bins es W) in Hrun2 by done.
  assert (Hag2 : agree_off W m0 m2).
  { etrans; [exact Hag1|]. eapply run_action_agree; [exact Hrun2|]. intros x Hx.
    apply (HW [p]); [set_solver|]. exists p. split; [left|done]. }
  destruct (plan_run_agree m0 bins es W Hsz Hes Hoff post m2 m') as [_ Hag3]; [done..| |done|].
  { intros x. apply HW. set_solver. }
  unfold target in Hlater. destruct (action_at m0 bins es p) as [|v|src n|e]; cbn [run_action action_size] in *;
    [done| | |done].
  - apply store64_ok in Hrun2 as [Hm ->]. eapply load64_agree; [exact Hag3|exact Hlater|].
    by apply load64_poke_split.
  - intros Hsrc. apply outcome_bind_ok in Hrun2 as (w & _ & Hcpy). apply memcpy_ok in Hcpy as (_ & _ & ->).
    destruct (Z.lt_ge_cases n 0) as [Hn|Hn].
    { unfold peek. by rewrite !range_nil by lia. }
    rewrite (peek_ext m' (poke m1 (slot p) (peek m1 src n))); [|intros x Hx; by apply Hag3, Hlater].
    rewrite peek_poke_len by (rewrite length_peek; lia). apply peek_ext. intros x Hx. by apply Hag1', Hsrc.
Qed.

(** C5: relocation links the program. Given that the symbol names can be read
    and are not themselves relocated: memory changes only in the targets of the
    relocations; and at the end each slot that no later relocation overwrites
    holds the value its relocation asks for, resolved in the original symbol
    tables, and each copied variable the original bytes of its source (unless an
    earlier relocation changed them). *)
Theorem Relocate_links dl s dl' s' es :
  Relocate tls_block dl s = Ok (dl', s') →
  let m0 := p_mem s in
  let bins := binaries_ dl in
  mem_size m0 < 2 ^ 64 → entries m0 0 bins = Ok es → names_off (targets m0 bins es (plan dl)) m0 bins →
  agree_off (targets m0 bins es (plan dl)) m0 (p_mem s') ∧
  ∀ pre p post, plan dl = pre ++ p :: post →
    (∀ x, target m0 bins es p x → ¬ targets m0 bins es post x) →
    match action_at m0 bins es p with
    | Keep => True
    | Store v => load64 (p_mem s') (slot p) = Ok (wrap64 v)
    | Copy src n => (∀ x, src ≤ x < src + n → ¬ targets m0 bins es pre x) →
                    peek (p_mem s') (slot p) n = peek m0 src n
    | Stop _ => False
    end.
Proof. apply Relocate_linked. Qed.

(** It succeeds when every relocation has an action (its symbol exists,
    its type is supported) and what that reads and writes is mapped. *)
Lemma Relocate_succeeds dl s es :
  let m0 := p_mem s in
  let bins := binaries_ dl in
  mem_size m0 < 2 ^ 64 → entries m0 0 bins = Ok es → names_off (targets m0 bins es (plan dl)) m0 bins →
  Forall (λ p, action_ok m0 (slot p) (action_at m0 bins es p)) (plan dl) →
  ∃ dl' s', Relocate tls_block dl s = Ok (dl', s').
Proof.
  intros m0 bins Hsz Hes Hoff Hok. rewrite Relocate_plan. fold m0 bins.
  destruct (plan_run_ok m0 bins es _ Hsz Hes Hoff (plan dl) m0) as [m' ->]; [|done|done|by eauto].
  rewrite Forall_forall in Hok |- *. intros p Hp. split; [by apply plan_object|by apply Hok].
Qed.

Definition path_marked (rel : gmap (list string) bool) (b : ELFBinary) : Prop :=
  default false (rel !! path_elems (path_ b)) = true.

Lemma mark_relocated_mono rel bs b : path_marked rel b → path_marked (mark_relocated rel bs) b.
Proof.
  revert rel. induction bs as [|b' bs IH]; intros rel Hb; [done|]. apply IH. unfold path_marked in *.
  destruct (decide (path_elems (path_ b') = path_elems (path_ b))) as [->|Hne];
    [by rewrite lookup_insert_eq|by rewrite lookup_insert_ne].
Qed.

Lemma unrelocated_marked rel bins :
  Forall (path_marked (mark_relocated rel (unrelocated rel bins))) bins.
Proof.
  revert rel. induction bins as [|b bins IH]; intros rel; [constructor|]. cbn [unrelocated].
  destruct (default false _) eqn:Eb; (constructor; [|apply IH]).
  - by apply mark_relocated_mono.
  - apply (mark_relocated_mono _ (unrelocated _ bins)). unfold path_marked. by rewrite lookup_insert_eq.
Qed.

Lemma unrelocated_none rel bins : Forall (path_marked rel) bins → unrelocated rel bins = [].
Proof. induction 1 as [|b bins Hb _ IH]; [done|]. cbn [unrelocated]. unfold path_marked in Hb. by rewrite Hb. Qed.

Lemma Relocate_none dl s :
  Forall (path_marked (relocated_ dl)) (binaries_ dl) → Relocate tls_block dl s = Ok (dl, s).
Proof. intros Hall. rewrite Relocate_plan. unfold plan. rewrite unrelocated_none by done. by destruct dl, s. Qed.

(** C36: relocating twice is relocating once, so a later [dlopen] relocates the
    objects it has added and no others. *)
Theorem Relocate_idempotent dl s dl' s' :
  Relocate tls_block dl s = Ok (dl', s') → Relocate tls_block dl' s' = Ok (dl', s').
Proof.
  rewrite Relocate_plan. destruct (foldM _ _ _) as [m|]; [|done]. intros [= <- <-].
  apply Relocate_none. apply (unrelocated_marked (relocated_ dl) (binaries_ dl)).
Qed.

(** Objects are told apart by their paths: an object whose path was
    relocated before - the same library opened a second time - is in memory
    without any of its relocations applied, and [Relocate] leaves it so. *)
Lemma Relocate_same_path dl s dl1 s1 b :
  Relocate tls_block dl s = Ok (dl1, s1) →
  path_elems (path_ b) ∈ (λ b, path_elems (path_ b)) <$> binaries_ dl1 →
  let dl2 := dl1 <| binaries_ := binaries_ dl1 ++ [b] |> in
  Relocate tls_block dl2 s1 = Ok (dl2, s1).
Proof.
  rewrite Relocate_plan. destruct (foldM _ _ _) as [m|]; [|done]. intros [= <- <-] Hb.
  apply Relocate_none. apply Forall_app. split; [apply (unrelocated_marked (relocated_ dl) (binaries_ dl))|].
  repeat constructor. apply list_elem_of_fmap in Hb as (b' & Heq & Hb').
  pose proof (unrelocated_marked (relocated_ dl) (binaries_ dl)) as Hall. rewrite Forall_forall in Hall.
  specialize (Hall b' Hb'). unfold path_marked in *. by rewrite Heq.
Qed.

(** A weak symbol that nothing defines resolves to the base address of the
    first object that refers to it, not to zero: the test a program makes for the
    presence of an optional function is answered wrongly. *)
Lemma weak_undefined_value m bins es name i j b s :
  entries m 0 bins = Ok es → sloader_libc_map name = None →
  first_match name is_defined es = None → first_match name is_weak_undef es = Some (i, j) →
  bins !! i = Some b → symtabs_ b !! j = Some s → st_value s = 0 →
  symbol_address m bins name = Ok (Some (wrap64 (base_addr_ b))).
Proof.
  intros Hes Hlibc Hdef Hweak Hb Hs Hv. rewrite (symbol_address_spec _ _ _ _ Hes). unfold symbol_value, resolve.
  rewrite Hlibc, Hdef, Hweak. unfold symbol_at. cbn. rewrite Hb. cbn. rewrite Hs. cbn. by rewrite Hv.
Qed.
End whole.
