(* ===== verification/Execute.v ===== *)
(** * Starting the program (Execute and ExecuteCore of dyn_loader.cc)

    The constructors of the loaded objects, the auxiliary vector, the initial
    stack, the thread-local blocks, and the jump to the entry point. *)

From S2P Require Import Prelude Memory Digits Elf Utils Os ElfBinary ElfDynamic ElfFile FindLibrary DynLoader Symbols.

(** Where the allocator put the characters of the strings that are passed on:
    [main_path_], and the copies of [args] and [envs]. *)
Class Strings := {
  main_path_c_str : Z;
  args_c_str : nat → Z;
  envs_c_str : nat → Z
}.

(** What a call of a function of the loaded program does to memory. *)
Class LoadedCode := { call_function : Z → memory → outcome memory }.

(** ** Constructors *)

Section constructors.
Context `{Strings} `{LoadedCode}.

Definition call_init (fn : Z) (n_envs : nat) : P unit :=
  modify (add_event (EvInit fn 1 [main_path_c_str] (map envs_c_str (seq 0 n_envs)))) ;;
  update_mem (call_function fn).

(** One round of the loop over the array at [funs]; a null entry leaves it. *)
Definition init_array_step (funs count : Z) (n_envs : nat) (st : Z * proc) : outcome ((Z * proc) + proc) :=
  let '(j, s) := st in
  if j <? count then
    fn ← load64 (p_mem s) (wrap64 (funs + 8 * j));
    if fn =? 0 then Ok (inr s)
    else '(_, s) ← call_init fn n_envs s; Ok (inl (j + 1, s))
  else Ok (inr s).

Definition call_init_array (funs count : Z) (n_envs : nat) : P unit := λ s,
  s ← while (init_array_step funs count n_envs) (0, s); Ok (tt, s).

Definition init_object (n_envs : nat) (b : ELFBinary) : P unit :=
  (if negb (init_ b =? 0) then call_init (wrap64 (init_ b + base_addr_ b)) n_envs else mret tt) ;;
  if negb (init_arraysz_ b =? 0) then
    CHECK (init_arraysz_ b mod 8 =? 0) ;;
    call_init_array (wrap64 (init_array_ b + base_addr_ b)) (init_arraysz_ b / 8) n_envs
  else mret tt.

(** [for (int i = binaries_.size() - 1; 0 <= i; i--)]. *)
Definition init_objects (n_envs : nat) (bins : list ELFBinary) : P unit :=
  foldM (λ _ b, init_object n_envs b) tt (rev bins).
End constructors.

(** ** The auxiliary vector *)

Definition AT_RANDOM : Z := 25.

(** AT_IGNORE, AT_PHENT, AT_PAGESZ, AT_FLAGS, AT_NOTELF, AT_UID, AT_EUID, AT_GID,
    AT_EGID, AT_CLKTCK, AT_PLATFORM, AT_HWCAP, AT_FPUCW, AT_DCACHEBSIZE,
    AT_ICACHEBSIZE, AT_UCACHEBSIZE, AT_IGNOREPPC, AT_SECURE, AT_BASE_PLATFORM,
    AT_RANDOM, AT_HWCAP2, AT_SYSINFO, AT_SYSINFO_EHDR, the cache shapes (four),
    the cache sizes and geometries (eight), AT_MINSIGSTKSZ. *)
Definition aux_types : list Z :=
  [1; 4; 6; 8; 10; 11; 12; 13; 14; 17; 15; 16; 18; 19; 20; 21; 22; 23; 24; 25; 26; 32; 33;
   34; 35; 36; 37; 40; 41; 42; 43; 44; 45; 46; 47; 51].

Definition aux_tvs `{Environment} : list (Z * Z) :=
  filter (λ tv, tv.2 ≠ 0) (map (λ t, (t, getauxval t)) aux_types).

(** ** The stack

    The array is filled from index 0; it is pushed in that order, so its first
    element ends up at the highest address. *)

Definition put (v : Z) (st : list Z * nat) : list Z * nat := (<[st.2 := v]> st.1, S st.2).
Definition leave (n : nat) (st : list Z * nat) : list Z * nat := (st.1, (st.2 + n)%nat).

Definition stack_num (n_aux n_envs n_args : nat) : nat := 4 + 2 + 2 * n_aux + 1 + n_envs + 2 + n_args.

Definition build_stack `{Strings} (tvs : list (Z * Z)) (n_envs n_args : nat) : outcome (list Z) :=
  let num := stack_num (length tvs) n_envs n_args in
  let st := leave 2 (leave 4 (replicate num 0, 0%nat)) in
  let st := foldl (λ st tv, put tv.1 (put tv.2 st)) st tvs in
  let st := leave 1 st in
  let st := foldl (λ st i, put (envs_c_str (n_envs - 1 - i)) st) st (seq 0 n_envs) in
  let st := leave 1 st in
  let st := foldl (λ st i, put (args_c_str (n_args - 1 - i)) st) st (seq 0 n_args) in
  let '(stack, stack_index) := put (Z.of_nat n_args) st in
  CHECK (bool_decide (stack_index = num)) ;;
  mret stack.

(** [pushq]. *)
Definition push (v : Z) : P unit := λ s,
  let rsp := wrap64 (p_rsp s - 8) in
  m ← store64 (p_mem s) rsp v;
  Ok (tt, set_rsp rsp (set_mem m s)).

(** Push everything and jump; control does not come back. *)
Definition ExecuteCore (stack : list Z) (entry : Z) : P unit :=
  foldM (λ _ v, push v) tt stack ;;
  rsp ← gets p_rsp;
  modify (add_event (EvJump entry rsp)).

(** ** Thread-local storage *)

Section tls.
(** Address of [sloader_dummy_to_secure_tls_space]. *)
Variable tls_block : Z.

Definition file_tls (b : ELFBinary) : outcome Elf64_Phdr :=
  match file_tls_ b with Some ph => Ok ph | None => Err Indeterminate end.

Definition tls_block_size (bins : list ELFBinary) : outcome Z :=
  foldM (λ size b, if has_tls_ b then ph ← file_tls b; mret (wrap64 (size + p_memsz ph)) else mret size) 0 bins.

(** Copy .tdata, clear .tbss, write the self pointer. *)
Definition setup_tls_object (b : ELFBinary) : P unit := λ s,
  if has_tls_ b then
    ph ← file_tls b;
    let tp := tls_block + sloader_tls_offset s in
    let bss := wrap64 (p_memsz ph - p_filesz ph) in
    m ← memcpy (p_mem s) (wrap64 (tp - p_memsz ph)) (wrap64 (base_addr_ b + p_vaddr ph)) (p_memsz ph);
    m ← memset m (wrap64 (tp - bss)) 0 bss;
    m ← store64 m (wrap64 tp) (wrap64 tp);
    Ok (tt, set_tls_offset (wrap64 (sloader_tls_offset s - p_memsz ph)) (set_mem m s))
  else Ok (tt, s).

Definition setup_tls (bins : list ELFBinary) : P unit :=
  size ← lift (tls_block_size bins);
  CHECK (size <=? 4096) ;;
  foldM (λ _ b, setup_tls_object b) tt bins.

Section execute.
Context `{Strings} `{LoadedCode} `{Environment}.

(** [args] and [envs] count by their length here; their characters are at [Strings]. *)
Definition Execute (dl : DynLoader) : P unit :=
  let n_args := length (args_ dl) in
  let n_envs := length (envs_ dl) in
  init_objects n_envs (binaries_ dl) ;;
  CHECK (negb (getauxval AT_RANDOM =? 0)) ;;
  stack ← lift (build_stack aux_tvs n_envs n_args);
  setup_tls (binaries_ dl) ;;
  match binaries_ dl with
  | [] => mthrow Segv                     (* binaries_[0] of an empty vector *)
  | b :: _ => ExecuteCore stack (wrap64 (e_entry (ehdr_ b) + base_addr_ b))
  end.
End execute.
End tls.

(** * The initial stack *)

(** What the ABI asks to be at the stack pointer, from there up: the argument
    count, the arguments, a null, the environment, a null, and the auxiliary
    vector with its [AT_NULL] entry; then the padding. *)
Definition abi_stack `{Strings} (tvs : list (Z * Z)) (n_envs n_args : nat) : list Z :=
  [Z.of_nat n_args] ++ map args_c_str (seq 0 n_args) ++ [0] ++
  map envs_c_str (seq 0 n_envs) ++ [0] ++
  (rev tvs ≫= λ tv, [tv.1; tv.2]) ++ [0; 0] ++ [0; 0; 0; 0].

(** The array while it is being filled: [l] so far, and room for [n] more. *)
Definition filled (l : list Z) (n : nat) : list Z * nat := (l ++ replicate n 0, length l).

Lemma put_filled v l n : put v (filled l (S n)) = filled (l ++ [v]) n.
Proof.
  unfold put, filled. cbn [fst snd replicate]. rewrite insert_app_r_alt by lia.
  rewrite Nat.sub_diag, length_app, Nat.add_comm. cbn. by rewrite <-app_assoc.
Qed.

Lemma leave_filled k l n : leave k (filled l (k + n)) = filled (l ++ replicate k 0) n.
Proof.
  unfold leave, filled. cbn [fst snd]. by rewrite replicate_add, app_assoc, length_app, length_replicate.
Qed.

Lemma foldl_put_filled {A} (f : A → Z) xs l n :
  foldl (λ st x, put (f x) st) (filled l (length xs + n)) xs = filled (l ++ map f xs) n.
Proof.
  revert l. induction xs as [|x xs IH]; intros l; cbn [foldl length Nat.add map]; [by rewrite app_nil_r|].
  rewrite put_filled, IH. by rewrite <-app_assoc.
Qed.

Lemma foldl_put2_filled tvs l n :
  foldl (λ st tv, put tv.1 (put tv.2 st)) (filled l (2 * length tvs + n)) tvs =
  filled (l ++ (tvs ≫= λ tv : Z * Z, [tv.2; tv.1])) n.
Proof.
  revert l. induction tvs as [|tv tvs IH]; intros l; [cbn; by rewrite app_nil_r|].
  replace (2 * length (tv :: tvs) + n)%nat with (S (S (2 * length tvs + n))) by (cbn; lia).
  cbn [foldl]. rewrite !put_filled, IH. cbn [mbind list_bind]. by rewrite <-!app_assoc.
Qed.

Lemma rev_bind_pairs (tvs : list (Z * Z)) :
  rev (tvs ≫= λ tv, [tv.2; tv.1]) = rev tvs ≫= λ tv, [tv.1; tv.2].
Proof.
  induction tvs as [|tv tvs IH]; [done|]. cbn [mbind list_bind rev]. rewrite bind_app, <-IH, rev_app_distr. done.
Qed.

Lemma length_bind_pairs (tvs : list (Z * Z)) : length (tvs ≫= λ tv, [tv.2; tv.1]) = (2 * length tvs)%nat.
Proof. induction tvs as [|tv tvs IH]; [done|]. cbn [mbind list_bind length app]. cbn in *. lia. Qed.

Lemma rev_lookup {A} (l : list A) i : (i < length l)%nat → rev l !! i = l !! (length l - S i)%nat.
Proof. intros Hi. rewrite rev_alt. by apply reverse_lookup. Qed.

Lemma rev_map_seq (f : nat → Z) n : rev (map (λ i, f (n - 1 - i)%nat) (seq 0 n)) = map f (seq 0 n).
Proof.
  rewrite <-map_rev. apply list_eq. intros k. rewrite !list_lookup_fmap.
  destruct (decide (k < n)%nat) as [Hk|Hk].
  - rewrite rev_lookup, length_seq, !lookup_seq_lt by (rewrite ?length_seq; lia). cbn. do 2 f_equal. lia.
  - rewrite !lookup_ge_None_2; [done|rewrite length_seq; lia|rewrite length_rev, length_seq; lia].
Qed.

(** The array is the ABI's stack upside down, and its length is the one that was
    computed in advance, so the check at the end never fails. *)
Lemma build_stack_spec `{Strings} tvs n_envs n_args :
  build_stack tvs n_envs n_args = Ok (rev (abi_stack tvs n_envs n_args)) ∧
  length (abi_stack tvs n_envs n_args) = stack_num (length tvs) n_envs n_args.
Proof.
  assert (Hst : ∀ num, num = stack_num (length tvs) n_envs n_args →
    (replicate num 0, 0%nat) = filled [] (4 + (2 + (2 * length tvs + (1 + (n_envs + (1 + (n_args + 1)))))))).
  { intros num ->. unfold filled, stack_num. cbn [app length]. f_equal. f_equal. lia. }
  unfold build_stack. rewrite (Hst _ eq_refl), !leave_filled, foldl_put2_filled, leave_filled.
  pose proof (foldl_put_filled (λ i, envs_c_str (n_envs - 1 - i)%nat) (seq 0 n_envs)) as He. rewrite length_seq in He.
  pose proof (foldl_put_filled (λ i, args_c_str (n_args - 1 - i)%nat) (seq 0 n_args)) as Ha. rewrite length_seq in Ha.
  rewrite He, leave_filled, Ha, put_filled. unfold filled. cbn [replicate].
  rewrite app_nil_r. match goal with |- context [CHECK (bool_decide (length ?l = _))] =>
    assert (l = rev (abi_stack tvs n_envs n_args)) as -> end.
  { unfold abi_stack. rewrite !rev_app_distr, <-rev_bind_pairs, rev_involutive.
    rewrite <-(rev_map_seq envs_c_str), <-(rev_map_seq args_c_str), !rev_involutive. cbn. by rewrite <-!app_assoc. }
  assert (Hlen : length (abi_stack tvs n_envs n_args) = stack_num (length tvs) n_envs n_args).
  { unfold abi_stack, stack_num. rewrite !length_app, !length_map, !length_seq, <-rev_bind_pairs, length_rev. cbn.
    rewrite length_bind_pairs. lia. }
  rewrite bool_decide_true by by rewrite length_rev. done.
Qed.

Definition stack_area (lo hi : Z) (x : Z) : Prop := lo ≤ x < hi.

Lemma push_ok v s u s' :
  push v s = Ok (u, s') →
  let rsp := wrap64 (p_rsp s - 8) in
  mapped_range (p_mem s) rsp 8 = true ∧ s' = set_rsp rsp (set_mem (poke (p_mem s) rsp (le_split 8 v)) s).
Proof.
  unfold push. intros Hrun. apply outcome_bind_ok in Hrun as (m & Hm & Hrun).
  apply store64_ok in Hm as [Hm ->]. by simplify_eq.
Qed.

(** Pushing a list of words. *)
Lemma push_all l s u s' :
  foldM (λ _ v, push v) tt l s = Ok (u, s') →
  8 * Z.of_nat (length l) ≤ p_rsp s < 2 ^ 64 →
  let rsp := p_rsp s - 8 * Z.of_nat (length l) in
  p_rsp s' = rsp ∧ p_trace s' = p_trace s ∧
  agree_off (stack_area rsp (p_rsp s)) (p_mem s) (p_mem s') ∧
  ∀ k v, rev l !! k = Some v → load64 (p_mem s') (rsp + 8 * Z.of_nat k) = Ok (wrap64 v).
Proof.
  revert s. induction l as [|v l IH]; intros s Hrun Hrsp; cbn [foldM] in Hrun.
  { inv_ok. split_and!; [lia|done|done|]. intros k v Hk. by rewrite lookup_nil in Hk. }
  apply stM_bind_ok in Hrun as (? & s1 & Hpush & Hrun). apply push_ok in Hpush as [Hm Hs1].
  rewrite wrap_small in Hm, Hs1 by (cbn [length] in Hrsp; lia). destruct x.
  assert (Hr1 : p_rsp s1 = p_rsp s - 8) by by rewrite Hs1. cbn [length] in *.
  destruct (IH s1 Hrun) as (Hrsp' & Htr & Hag & Hload); [lia|].
  replace (p_rsp s1 - 8 * Z.of_nat (length l)) with (p_rsp s - 8 * Z.of_nat (S (length l))) in * by lia.
  set (rsp := p_rsp s - 8 * Z.of_nat (S (length l))) in *. split_and!; [done|by rewrite Htr, Hs1| |].
  - transitivity (p_mem s1).
    + rewrite Hs1. cbn [set_rsp set_mem p_mem]. apply agree_off_poke. intros x Hx. rewrite le_split_length in Hx.
      unfold stack_area. lia.
    + destruct Hag as [Hreg Hb]. split; [done|]. intros x Hx. apply Hb. unfold stack_area in *. lia.
  - intros k w. cbn [rev]. intros [Hk|[Hlen Hk]]%lookup_app_Some; [by apply Hload|].
    rewrite length_rev in *. apply list_lookup_singleton_Some in Hk as [Hk <-].
    eapply load64_agree; [exact Hag|unfold stack_area; intros x; lia|].
    replace (rsp + 8 * Z.of_nat k) with (p_rsp s - 8) by lia. rewrite Hs1. by apply load64_poke_split.
Qed.

(** * The order of the constructors *)

(** The words of the constructor array of an object, and the part before a null. *)
Definition array_addr (b : ELFBinary) (j : Z) : Z := wrap64 (wrap64 (init_array_ b + base_addr_ b) + 8 * j).

Definition array_words (m : memory) (b : ELFBinary) : outcome (list Z) :=
  if init_arraysz_ b =? 0 then mret []
  else traverse (λ j, load64 m (array_addr b j)) (seqZ 0 (init_arraysz_ b / 8)).

Fixpoint before_null (ws : list Z) : list Z :=
  match ws with
  | [] => []
  | w :: ws => if w =? 0 then [] else w :: before_null ws
  end.

(** The functions to call for an object: [DT_INIT], then the array. *)
Definition init_functions (m : memory) (b : ELFBinary) : outcome (list Z) :=
  ws ← array_words m b;
  mret ((if init_ b =? 0 then [] else [wrap64 (init_ b + base_addr_ b)]) ++ before_null ws).

Lemma before_null_take ws n :
  (∀ i w, (i < n)%nat → ws !! i = Some w → w ≠ 0) →
  (n = length ws ∨ ws !! n = Some 0) → before_null ws = take n ws.
Proof.
  revert n. induction ws as [|w ws IH]; intros n Hnz Hend; [by rewrite take_nil|].
  destruct n as [|n].
  { destruct Hend as [?|[= ->]]; done. }
  cbn. destruct (Z.eqb_spec w 0) as [->|]; [by destruct (Hnz 0%nat 0); [lia|..]|]. f_equal. apply IH.
  - intros i w' Hi Hw. apply (Hnz (S i)); [lia|done].
  - destruct Hend as [Hl|Hl]; [left; cbn in Hl; lia|by right].
Qed.

Section constructor_order.
Context `{Strings} `{LoadedCode}.
(** Addresses the constructors may write to; the regions stay the same. *)
Context (W : Z → Prop).
Context (Hcode : ∀ fn m m', call_function fn m = Ok m' → agree_off W m m').

Definition init_event (n_envs : nat) (fn : Z) : event :=
  EvInit fn 1 [main_path_c_str] (map envs_c_str (seq 0 n_envs)).

(** A step that calls the functions [fns] and changes nothing else but what they write. *)
Definition calls (n_envs : nat) (fns : list Z) (s s' : proc) : Prop :=
  p_trace s' = p_trace s ++ map (init_event n_envs) fns ∧
  agree_off W (p_mem s) (p_mem s') ∧ p_rsp s' = p_rsp s ∧
  sloader_tls_offset s' = sloader_tls_offset s ∧ p_map_file s' = p_map_file s.

Lemma calls_nil n_envs s : calls n_envs [] s s.
Proof. split; [by rewrite app_nil_r|done]. Qed.

Lemma calls_app n_envs fns1 fns2 s1 s2 s3 :
  calls n_envs fns1 s1 s2 → calls n_envs fns2 s2 s3 → calls n_envs (fns1 ++ fns2) s1 s3.
Proof.
  intros (Ht1 & Ha1 & Hr1 & Ho1 & Hf1) (Ht2 & Ha2 & Hr2 & Ho2 & Hf2).
  split_and!; [by rewrite Ht2, Ht1, map_app, app_assoc|by etrans|congruence..].
Qed.

Lemma call_init_ok fn n_envs s u s' : call_init fn n_envs s = Ok (u, s') → calls n_envs [fn] s s'.
Proof.
  unfold call_init. intros Hrun. inv_proc.
  match goal with H : call_function _ _ = Ok _ |- _ => apply Hcode in H end. done.
Qed.

(** The constructors do not write to the constructor array of the object. *)
Definition array_protected (b : ELFBinary) : Prop :=
  ∀ j x, 0 ≤ j < init_arraysz_ b / 8 → array_addr b j ≤ x < array_addr b j + 8 → ¬ W x.

(** So while they run its words stay what they are. *)
Definition array_holds (m : memory) (b : ELFBinary) (ws : list Z) : Prop :=
  traverse (λ j, load64 m (array_addr b j)) (seqZ 0 (init_arraysz_ b / 8)) = Ok ws.

Lemma array_holds_length m b ws : array_holds m b ws → length ws = Z.to_nat (init_arraysz_ b / 8).
Proof. intros Hws%traverse_ok%Forall2_length. by rewrite length_seqZ in Hws. Qed.

Lemma array_holds_agree m m' b ws : agree_off W m m' → array_protected b → array_holds m b ws → array_holds m' b ws.
Proof.
  unfold array_holds. intros Hag Hprot Hws. apply traverse_ok in Hws. apply traverse_ok.
  apply Forall2_same_length_lookup in Hws as [Hl Hws]. apply Forall2_same_length_lookup. split; [done|].
  intros k j w Hj Hw. pose proof Hj as Hj'. apply lookup_seqZ in Hj' as [-> Hk].
  eapply load64_agree; [exact Hag|intros y; apply Hprot; lia|by eapply Hws].
Qed.

Lemma array_word m b ws j w :
  array_holds m b ws → 0 ≤ j → ws !! Z.to_nat j = Some w → load64 m (array_addr b j) = Ok w.
Proof.
  unfold array_holds. intros Hws%traverse_ok Hj Hw. destruct (Forall2_lookup_r _ _ _ _ _ Hws Hw) as (j' & Hj' & Hl).
  apply lookup_seqZ in Hj' as [-> _]. by replace (0 + Z.of_nat (Z.to_nat j)) with j in Hl by lia.
Qed.

Lemma init_array_ok b n_envs s s' ws :
  while (init_array_step (wrap64 (init_array_ b + base_addr_ b)) (init_arraysz_ b / 8) n_envs) (0, s) = Ok s' →
  array_holds (p_mem s) b ws → array_protected b → calls n_envs (before_null ws) s s'.
Proof.
  set (count := init_arraysz_ b / 8). intros Hrun Hws HW.
  pose proof (array_holds_length _ _ _ Hws) as Hlen. fold count in Hlen.
  assert (Hword : ∀ j s1 w, 0 ≤ j < count → calls n_envs (take (Z.to_nat j) ws) s s1 →
    ws !! Z.to_nat j = Some w → load64 (p_mem s1) (array_addr b j) = Ok w).
  { intros j s1 w Hj (_ & Hag & _) Hw. eapply array_word; [by eapply array_holds_agree|lia|done]. }
  apply (while_invariant _ (λ st, 0 ≤ st.1 ∧ (Z.to_nat st.1 ≤ length ws)%nat ∧ calls n_envs (take (Z.to_nat st.1) ws) s st.2 ∧
    ∀ i w, (i < Z.to_nat st.1)%nat → ws !! i = Some w → w ≠ 0)) in Hrun as ([j s1] & (Hj & Hle & Hc & Hnz) & Hstep).
  - cbn [fst snd] in *. unfold init_array_step in Hstep. destruct (Z.ltb_spec j count) as [Hlt|Hge].
    + destruct (lookup_lt_is_Some_2 ws (Z.to_nat j)) as [w Hw]; [lia|].
      fold (array_addr b j) in Hstep. rewrite (Hword j s1 w) in Hstep by (done || lia). cbn [mbind outcome_bind] in Hstep.
      destruct (Z.eqb_spec w 0) as [Hz|]; [|inv_ok; case_match; done].
      rewrite Hz in Hw. simplify_eq. rewrite (before_null_take ws (Z.to_nat j)) by auto. done.
    + simplify_eq. rewrite (before_null_take ws (length ws)) by first [by left|intros i w Hi; apply Hnz; lia].
      by replace (length ws) with (Z.to_nat j) by lia.
  - intros [j s1] st' (Hj & Hle & Hc & Hnz) Hstep. cbn [fst snd] in *. unfold init_array_step in Hstep.
    destruct (Z.ltb_spec j count) as [Hlt|Hge]; [|done].
    destruct (lookup_lt_is_Some_2 ws (Z.to_nat j)) as [w Hw]; [lia|].
    fold (array_addr b j) in Hstep. rewrite (Hword j s1 w) in Hstep by (done || lia). cbn [mbind outcome_bind] in Hstep.
    destruct (Z.eqb_spec w 0) as [|Hwz]; [done|].
    apply outcome_bind_ok in Hstep as ([u s2] & Hcall & Hstep). simplify_eq. apply call_init_ok in Hcall.
    cbn [fst snd]. replace (Z.to_nat (j + 1)) with (S (Z.to_nat j)) by lia. split_and!; [lia|lia| |].
    + rewrite (take_S_r _ _ w) by done. by eapply calls_app.
    + intros i w' Hi Hw'. destruct (decide (i = Z.to_nat j)) as [->|]; [by simplify_eq|]. apply (Hnz i); [lia|done].
  - cbn. split_and!; [lia|lia|apply calls_nil|lia].
Qed.

Lemma init_object_ok n_envs b s u s' fns :
  init_object n_envs b s = Ok (u, s') → init_functions (p_mem s) b = Ok fns → array_protected b →
  calls n_envs fns s s'.
Proof.
  intros Hrun Hfns Hprot. unfold init_functions, array_words in Hfns.
  apply outcome_bind_ok in Hfns as (ws & Hws & [= <-]). unfold init_object in Hrun.
  apply stM_bind_ok in Hrun as (? & s1 & Hinit & Hrun).
  assert (Hc1 : calls n_envs (if init_ b =? 0 then [] else [wrap64 (init_ b + base_addr_ b)]) s s1).
  { destruct (init_ b =? 0); cbn [negb] in Hinit; [inv_ok; apply calls_nil|by eapply call_init_ok]. }
  eapply calls_app; [exact Hc1|]. destruct (init_arraysz_ b =? 0); cbn [negb] in Hrun.
  { inv_ok. apply calls_nil. }
  apply stM_bind_ok in Hrun as (? & s2 & Hck & Hrun). apply CHECK_st_ok in Hck as [_ ->].
  unfold call_init_array in Hrun. apply outcome_bind_ok in Hrun as (s2 & Hloop & [= _ <-]).
  eapply init_array_ok; [exact Hloop| |exact Hprot].
  destruct Hc1 as (_ & Hag & _). by eapply array_holds_agree.
Qed.

Lemma init_functions_agree m m' b fns :
  agree_off W m m' → array_protected b → init_functions m b = Ok fns → init_functions m' b = Ok fns.
Proof.
  intros Hag Hprot. unfold init_functions, array_words. intros Hfns.
  apply outcome_bind_ok in Hfns as (ws & Hws & <-).
  destruct (init_arraysz_ b =? 0); [by rewrite Hws|]. by rewrite (array_holds_agree _ _ _ _ Hag Hprot Hws).
Qed.

Lemma init_functions_all_agree m m' bins fns :
  agree_off W m m' → Forall array_protected bins →
  traverse (init_functions m) bins = Ok fns → traverse (init_functions m') bins = Ok fns.
Proof.
  intros Hag Hprot. revert fns. induction Hprot as [|b bins Hb _ IH]; intros fns; [done|]. cbn [traverse].
  intros (f & Hf & (fs & Hfs & <-)%outcome_bind_ok)%outcome_bind_ok.
  by rewrite (init_functions_agree _ _ _ _ Hag Hb Hf), bind_Ok, (IH _ Hfs).
Qed.

Lemma init_objects_ok n_envs bins s u s' fns :
  init_objects n_envs bins s = Ok (u, s') → traverse (init_functions (p_mem s)) (rev bins) = Ok fns →
  Forall array_protected bins → calls n_envs (concat fns) s s'.
Proof.
  unfold init_objects. intros Hrun Hfns Hprot.
  assert (Hprot' : Forall array_protected (rev bins)) by by rewrite rev_alt; apply Forall_reverse.
  clear Hprot. revert s fns Hrun Hfns. generalize (rev bins) as bs, Hprot'. clear bins Hprot'.
  intros bs Hprot. destruct u. induction Hprot as [|b bs Hb Hprot IH]; intros s fns Hrun Hfns.
  { inv_ok. simpl in Hfns. inv_ok. apply calls_nil. }
  cbn [foldM traverse] in *. apply stM_bind_ok in Hrun as ([] & s1 & Hobj & Hrun).
  apply outcome_bind_ok in Hfns as (f & Hf & Hfns). apply outcome_bind_ok in Hfns as (fns' & Hfns & [= <-]).
  pose proof (init_object_ok _ _ _ _ _ _ Hobj Hf Hb) as Hc. cbn [concat].
  eapply calls_app; [exact Hc|]. eapply IH; [exact Hrun|].
  destruct Hc as (_ & Hag & _). by eapply init_functions_all_agree.
Qed.
End constructor_order.

(** * The thread-local blocks *)

Definition tls_total (bins : list ELFBinary) : Z := foldr Z.add 0 (map tls_size bins).

Definition tls_src (b : ELFBinary) (ph : Elf64_Phdr) : Z := wrap64 (base_addr_ b + p_vaddr ph).

(** [has_tls_] says whether there is a segment, and its sizes make sense. *)
Definition tls_object_wf (b : ELFBinary) : Prop :=
  tls_wf b ∧ ∀ ph, file_tls_ b = Some ph → 0 ≤ p_filesz ph ≤ p_memsz ph.

Lemma has_tls_some b : tls_wf b → has_tls_ b = true → ∃ ph, file_tls_ b = Some ph ∧ tls_size b = p_memsz ph.
Proof.
  unfold tls_wf, tls_size. intros Hwf Ht. rewrite Ht in Hwf |- *. symmetry in Hwf.
  apply bool_decide_eq_true in Hwf as [ph Hph]. exists ph. by rewrite Hph.
Qed.

Lemma tls_size_nonneg b : tls_object_wf b → 0 ≤ tls_size b.
Proof.
  intros [_ Hsz]. unfold tls_size. destruct (has_tls_ b), (file_tls_ b) as [ph|]; cbn; try lia.
  specialize (Hsz ph eq_refl). lia.
Qed.

Lemma tls_total_nonneg bins : Forall tls_object_wf bins → 0 ≤ tls_total bins.
Proof.
  induction 1 as [|b bins Hb _ IH]; [done|]. unfold tls_total in *. cbn. pose proof (tls_size_nonneg b Hb). lia.
Qed.

Section tls_blocks.
Context (tls_block : Z).

(** One object: its block is the [tls_size] bytes below the current offset. *)
Lemma setup_tls_object_ok b ph s u s' :
  setup_tls_object tls_block b s = Ok (u, s') → has_tls_ b = true → file_tls_ b = Some ph →
  0 ≤ p_filesz ph ≤ p_memsz ph → 0 ≤ tls_block → p_memsz ph ≤ sloader_tls_offset s →
  tls_block + sloader_tls_offset s + 8 ≤ 2 ^ 64 →
  let tp := tls_block + sloader_tls_offset s in
  let start := tp - p_memsz ph in
  sloader_tls_offset s' = sloader_tls_offset s - p_memsz ph ∧
  p_trace s' = p_trace s ∧ p_rsp s' = p_rsp s ∧ p_map_file s' = p_map_file s ∧
  agree_off (λ x, start ≤ x < tp + 8) (p_mem s) (p_mem s') ∧
  load64 (p_mem s') tp = Ok tp ∧
  ∀ x, 0 ≤ x < p_memsz ph →
    byte_at (p_mem s') (start + x) = if x <? p_filesz ph then byte_at (p_mem s) (tls_src b ph + x) else 0.
Proof.
  intros Hrun Ht Hph Hsz Hb Hle Hfit tp start. unfold setup_tls_object, file_tls in Hrun. rewrite Ht, Hph in Hrun.
  cbn [mbind outcome_bind] in Hrun. fold tp in Hrun.
  rewrite (wrap_small 64 (tp - p_memsz ph)), (wrap_small 64 tp), (wrap_small 64 (p_memsz ph - p_filesz ph)),
    (wrap_small 64 (tp - _)), (wrap_small 64 (sloader_tls_offset s - _)) in Hrun by lia.
  fold start (tls_src b ph) in Hrun.
  apply outcome_bind_ok in Hrun as (m1 & H1 & Hrun). apply memcpy_ok in H1 as (_ & _ & ->).
  apply outcome_bind_ok in Hrun as (m2 & H2 & Hrun). apply memset_ok in H2 as (_ & ->).
  apply outcome_bind_ok in Hrun as (m3 & H3 & Hrun). apply store64_ok in H3 as (Hm3 & ->).
  injection Hrun as _ <-. cbn [set_tls_offset set_mem sloader_tls_offset p_trace p_rsp p_map_file p_mem].
  assert (Hl1 : Z.of_nat (length (peek (p_mem s) (tls_src b ph) (p_memsz ph))) = p_memsz ph)
    by (rewrite length_peek; lia).
  split_and!; [done..| | |].
  - repeat apply agree_off_poke_r; [done|intros x..]; [rewrite Hl1|rewrite length_replicate|]; cbn [length]; lia.
  - etrans; [by apply load64_poke_split|]. by rewrite wrap_small by lia.
  - intros x Hx. rewrite byte_at_poke_out by (cbn [length]; lia).
    destruct (Z.ltb_spec x (p_filesz ph)) as [Hlt|Hge].
    + rewrite byte_at_poke_out by (rewrite length_replicate; lia).
      replace (start + x) with (start + Z.of_nat (Z.to_nat x)) by lia. apply byte_at_poke_in.
      replace (tls_src b ph + x) with (tls_src b ph + Z.of_nat (Z.to_nat x)) by lia. apply peek_lookup. lia.
    + replace (start + x) with (tp - (p_memsz ph - p_filesz ph) + Z.of_nat (Z.to_nat (x - p_filesz ph))) by lia.
      apply byte_at_poke_in. apply lookup_replicate. split; [done|lia].
Qed.

Lemma setup_tls_object_skip b s : has_tls_ b = false → setup_tls_object tls_block b s = Ok (tt, s).
Proof. intros Ht. unfold setup_tls_object. by rewrite Ht. Qed.

Lemma setup_tls_skip bins s :
  Forall (λ b, has_tls_ b = false) bins → foldM (λ _ b, setup_tls_object tls_block b) tt bins s = Ok (tt, s).
Proof.
  intros Hall. revert s. induction Hall as [|b bins Hb _ IH]; intros s; [done|]. cbn [foldM].
  unfold mbind, stM_bind. rewrite setup_tls_object_skip by done. apply IH.
Qed.

(** The part of memory that is written for a list of objects. *)
Definition tls_area (off : Z) (bins : list ELFBinary) (x : Z) : Prop :=
  tls_block + off - tls_total bins ≤ x < tls_block + off + 8.

(** The templates the blocks are copied from are not in that part. *)
Definition tls_sources_off (off : Z) (bins all : list ELFBinary) : Prop :=
  ∀ b ph x, b ∈ bins → has_tls_ b = true → file_tls_ b = Some ph →
  tls_src b ph ≤ x < tls_src b ph + p_filesz ph → ¬ tls_area off all x.

(** The block of the object after [pre] holds its template, then zeros, but
    for the first word when another thread-local object follows. *)
Definition tls_block_holds (off : Z) (m m' : memory) (pre : list ELFBinary) (b : ELFBinary)
    (post : list ELFBinary) : Prop :=
  ∀ ph x, has_tls_ b = true → file_tls_ b = Some ph → 0 ≤ x < p_memsz ph →
  (8 ≤ x ∨ Forall (λ b, has_tls_ b = false) post) →
  byte_at m' (tls_block + off - tls_total (pre ++ [b]) + x) =
  if x <? p_filesz ph then byte_at m (tls_src b ph + x) else 0.

Lemma tls_total_app bins1 bins2 : tls_total (bins1 ++ bins2) = tls_total bins1 + tls_total bins2.
Proof. unfold tls_total. rewrite map_app, foldr_app. induction bins1; cbn; lia. Qed.

Lemma setup_tls_blocks_go bins s u s' :
  foldM (λ _ b, setup_tls_object tls_block b) tt bins s = Ok (u, s') →
  let off := sloader_tls_offset s in
  Forall tls_object_wf bins → 0 ≤ tls_block → tls_total bins ≤ off → tls_block + off + 8 ≤ 2 ^ 64 →
  tls_sources_off off bins bins →
  sloader_tls_offset s' = off - tls_total bins ∧
  p_trace s' = p_trace s ∧ p_rsp s' = p_rsp s ∧ p_map_file s' = p_map_file s ∧
  agree_off (tls_area off bins) (p_mem s) (p_mem s') ∧
  ∀ pre b post, bins = pre ++ b :: post → tls_block_holds off (p_mem s) (p_mem s') pre b post.
Proof.
  revert s. destruct u. induction bins as [|b bins IH]; intros s Hrun off Hwf Hb Hle Hfit Hsrc.
  { simpl in Hrun. inv_ok. split_and!; [unfold off, tls_total; cbn; lia|done..|]. by intros [] ? ? ?. }
  cbn [foldM] in Hrun. apply stM_bind_ok in Hrun as ([] & s1 & Hobj & Hrun).
  apply Forall_cons in Hwf as [Hwfb Hwf]. pose proof (tls_total_nonneg _ Hwf) as Hnn.
  assert (Htot : tls_total (b :: bins) = tls_size b + tls_total bins) by done.
  pose proof (tls_size_nonneg b Hwfb) as Hnb.
  assert (H1 : sloader_tls_offset s1 = off - tls_size b ∧ p_trace s1 = p_trace s ∧ p_rsp s1 = p_rsp s ∧
    p_map_file s1 = p_map_file s ∧
    agree_off (λ x, tls_block + off - tls_size b ≤ x < tls_block + off + 8) (p_mem s) (p_mem s1) ∧
    ∀ ph x, has_tls_ b = true → file_tls_ b = Some ph → 0 ≤ x < p_memsz ph →
      byte_at (p_mem s1) (tls_block + off - tls_size b + x) =
      if x <? p_filesz ph then byte_at (p_mem s) (tls_src b ph + x) else 0).
  { destruct (has_tls_ b) eqn:Et.
    - destruct (has_tls_some b (proj1 Hwfb) Et) as (ph & Hph & Hsize). rewrite Hsize in *.
      destruct (setup_tls_object_ok _ _ _ _ _ Hobj Et Hph (proj2 Hwfb ph Hph)) as (Ho & Htr & Hrs & Hmf & Hag & _ & Hby); [lia|unfold off in *; lia|done|].
      split_and!; [done..|]. intros ph' x _ Hph' Hx. rewrite Hph in Hph'. injection Hph' as <-. by apply Hby.
    - rewrite setup_tls_object_skip in Hobj by done. injection Hobj as <-.
      unfold tls_size. rewrite Et. split_and!; [unfold off; lia|done..]. }
  clear Hobj. destruct H1 as (Ho & Htr & Hrs & Hmf & Hag & Hby).
  destruct (IH s1 Hrun Hwf Hb) as (Ho' & Htr' & Hrs' & Hmf' & Hag' & Hblk); rewrite ?Ho; [lia|lia| |].
  { intros b' ph x Hb' Ht Hph Hx Harea. eapply (Hsrc b' ph x); [by right|done..|]. unfold tls_area in *. lia. }
  rewrite Ho in Ho', Hag', Hblk. split_and!; [lia|congruence..| |].
  - destruct Hag as [Hr1 Hb1], Hag' as [Hr2 Hb2]. split; [congruence|]. intros x Hx. unfold tls_area in *.
    rewrite Hb2, Hb1; [done|lia|lia].
  - intros pre b0 post Hbins ph x Ht Hph Hx Hclob. destruct pre as [|b1 pre]; simplify_eq/=.
    + unfold tls_total in *. cbn [map foldr] in *. rewrite Z.add_0_r.
      rewrite <-(Hby ph x Ht Hph Hx). destruct Hclob as [?|Hnone]; [apply Hag'; unfold tls_area, tls_total; lia|].
      rewrite setup_tls_skip in Hrun by done. by injection Hrun as <-.
    + specialize (Hblk pre b0 post eq_refl ph x Ht Hph Hx Hclob).
      replace (tls_block + off - tls_total (b1 :: pre ++ [b0]) + x)
        with (tls_block + (off - tls_size b1) - tls_total (pre ++ [b0]) + x) by (unfold tls_total; cbn; lia).
      rewrite Hblk. destruct (Z.ltb_spec x (p_filesz ph)); [|done]. apply Hag. intros Harea.
      eapply (Hsrc b0 ph (tls_src b0 ph + x)); [right; set_solver|done|done|lia|]. unfold tls_area. lia.
Qed.
Lemma setup_tls_ok bins s u s' :
  setup_tls tls_block bins s = Ok (u, s') →
  foldM (λ _ b, setup_tls_object tls_block b) tt bins s = Ok (u, s').
Proof.
  unfold setup_tls. intros Hrun. apply stM_bind_ok in Hrun as (size & s1 & Hsz & Hrun).
  apply lift_ok in Hsz as [_ ->]. apply stM_bind_ok in Hrun as (? & s2 & Hck & Hrun).
  by apply CHECK_st_ok in Hck as [_ ->].
Qed.

(** C27: after the set-up the block of every thread-local object - the blocks
    lie below the starting offset in load order - holds the object's
    initialisation image followed by zeros, except that when another thread-local
    object comes after it the first word is not promised; nothing outside the
    blocks and the word above them changes, and the offset is lowered by the
    total size. *)
Theorem setup_tls_blocks bins s u s' :
  setup_tls tls_block bins s = Ok (u, s') →
  let off := sloader_tls_offset s in
  Forall tls_object_wf bins → 0 ≤ tls_block → tls_total bins ≤ off → tls_block + off + 8 ≤ 2 ^ 64 →
  tls_sources_off off bins bins →
  sloader_tls_offset s' = off - tls_total bins ∧
  agree_off (tls_area off bins) (p_mem s) (p_mem s') ∧
  ∀ pre b post, bins = pre ++ b :: post → tls_block_holds off (p_mem s) (p_mem s') pre b post.
Proof.
  intros Hrun%setup_tls_ok off Hwf H0 Hle Hfit Hsrc.
  by destruct (setup_tls_blocks_go bins s u s' Hrun Hwf H0 Hle Hfit Hsrc) as (? & _ & _ & _ & ? & ?).
Qed.

(** And that word is lost: the set-up of the next thread-local object writes
    its self pointer there, so the first eight bytes of the block of an object
    hold the address of the block instead of the object's data. *)
Lemma setup_tls_clobbers pre b mid b' post s u s' :
  let bins := pre ++ b :: mid ++ b' :: post in
  setup_tls tls_block bins s = Ok (u, s') →
  let off := sloader_tls_offset s in
  let start := tls_block + off - tls_total (pre ++ [b]) in
  Forall tls_object_wf bins → 0 ≤ tls_block → tls_total bins ≤ off → tls_block + off + 8 ≤ 2 ^ 64 →
  tls_sources_off off bins bins →
  Forall (λ b, has_tls_ b = false) mid → has_tls_ b' = true → Forall (λ b, has_tls_ b = false) post →
  load64 (p_mem s') start = Ok start.
Proof.
  intros bins Hrun%setup_tls_ok off start Hwf H0 Hle Hfit Hsrc Hmid Ht Hpost. destruct u.
  assert (Hbins : bins = (pre ++ b :: mid) ++ b' :: post) by (unfold bins; by rewrite <-app_assoc).
  clearbody bins. subst bins. rewrite foldM_st_app in Hrun. apply stM_bind_ok in Hrun as ([] & s1 & Hrun1 & Hrun).
  cbn [foldM] in Hrun. apply stM_bind_ok in Hrun as ([] & s2 & Hobj & Hrun).
  rewrite setup_tls_skip in Hrun by done. injection Hrun as <-.
  apply Forall_app in Hwf as [Hwf1 [Hwfb Hwf2]%Forall_cons]. rewrite tls_total_app in Hle.
  change (tls_total (b' :: post)) with (tls_size b' + tls_total post) in Hle.
  pose proof (tls_total_nonneg _ Hwf2). pose proof (tls_size_nonneg _ Hwfb).
  destruct (setup_tls_blocks_go _ _ _ _ Hrun1 Hwf1 H0) as (Ho & _); [lia|done| |].
  { intros b0 ph x Hb0 Ht0 Hph Hx Harea. eapply (Hsrc b0 ph x); [set_solver|done..|].
    unfold tls_area in *. rewrite tls_total_app. change (tls_total (b' :: post)) with (tls_size b' + tls_total post). lia. }
  destruct (has_tls_some b' (proj1 Hwfb) Ht) as (ph & Hph & Hsize).
  destruct (setup_tls_object_ok _ _ _ _ _ Hobj Ht Hph (proj2 Hwfb ph Hph)) as (_ & _ & _ & _ & _ & Hload & _);
    rewrite ?Ho; fold off; [done|lia|pose proof (tls_total_nonneg _ Hwf1); lia|].
  rewrite Ho in Hload. fold off in Hload. replace start with (tls_block + (off - tls_total (pre ++ b :: mid))); [done|].
  unfold start. replace (pre ++ b :: mid) with ((pre ++ [b]) ++ mid) by by rewrite <-app_assoc.
  rewrite tls_total_app. enough (tls_total mid = 0) by lia.
  clear -Hmid. induction Hmid as [|b0 mid Hb0 _ IH]; [done|]. unfold tls_total in *. cbn. unfold tls_size at 1. by rewrite Hb0.
Qed.

(** C28: relocation and set-up agree: the address a program computes for a
    thread-local variable - the thread pointer plus the offset [TLSSymOffset]
    gave - is, after the set-up, the address of the variable's initial value
    (under the exception above). *)
Theorem tls_variable_initialised `{LibcMap} m bins name es i j b sy ph s u s' :
  entries m 0 bins = Ok es → first_match name is_tls_def es = Some (i, j) →
  bins !! i = Some b → symtabs_ b !! j = Some sy → has_tls_ b = true → file_tls_ b = Some ph →
  setup_tls tls_block bins s = Ok (u, s') → sloader_tls_offset s = 4096 →
  Forall tls_object_wf bins → 0 ≤ tls_block → tls_total bins ≤ 4096 → tls_block + 4096 + 8 ≤ 2 ^ 64 →
  tls_sources_off 4096 bins bins →
  0 ≤ st_value sy < p_memsz ph → (8 ≤ st_value sy ∨ Forall (λ b, has_tls_ b = false) (drop (S i) bins)) →
  ∃ o, TLSSymOffset tls_block m bins name = Ok o ∧
    byte_at (p_mem s') (wrap64 (tls_block + 4096 + o)) =
    if st_value sy <? p_filesz ph then byte_at (p_mem s) (tls_src b ph + st_value sy) else 0.
Proof.
  intros Hes Hf Hb Hsy Ht Hph Hrun%setup_tls_ok Hoff Hwf H0 Hle Hfit Hsrc Hv Hclob.
  assert (Hwf' : Forall tls_wf bins) by (eapply Forall_impl; [exact Hwf|by intros ? []]).
  exists (wrap64 (tls_start bins i + st_value sy)). split.
  { unfold TLSSymOffset. change 0 with (wrap64 0) at 1.
    rewrite (tls_sym_offset_go_spec tls_block m name 0 0 bins es Hes Hwf'), Hf, Nat.sub_0_r, Hb.
    unfold tls_memsz. by rewrite Hph, Hsy. }
  destruct (setup_tls_blocks_go bins s u s' Hrun Hwf H0) as (_ & _ & _ & _ & _ & Hblk); rewrite ?Hoff; [done..|].
  specialize (Hblk (take i bins) b (drop (S i) bins) ltac:(by rewrite take_drop_middle)). rewrite Hoff in Hblk.
  rewrite <-(Hblk ph (st_value sy) Ht Hph Hv Hclob). f_equal. rewrite wrap_add_r. unfold tls_start.
  rewrite (take_S_r bins i b Hb). fold (tls_total (take i bins ++ [b])).
  replace (tls_block + 4096 + (- tls_total (take i bins ++ [b]) + st_value sy))
    with (tls_block + 4096 - tls_total (take i bins ++ [b]) + st_value sy) by lia.
  apply wrap_small. assert (Htot : tls_total bins = tls_total (take i bins ++ [b]) + tls_total (drop (S i) bins)).
  { rewrite <-tls_total_app, <-app_assoc. cbn. by rewrite take_drop_middle. }
  assert (0 ≤ tls_total (drop (S i) bins)) by (apply tls_total_nonneg; by apply Forall_drop).
  assert (0 ≤ tls_total (take i bins)) by (apply tls_total_nonneg; by apply Forall_take).
  assert (tls_total (take i bins ++ [b]) = tls_total (take i bins) + p_memsz ph).
  { rewrite tls_total_app. unfold tls_total at 2, tls_size. cbn. rewrite Ht, Hph. cbn. lia. }
  lia.
Qed.
End tls_blocks.

(** * Execute as a whole *)

Section whole.
Context (tls_block : Z) `{Strings} `{LoadedCode} `{Environment}.

(** What the phases before the jump leave alone: the stack pointer. *)
Lemma call_init_rsp fn n_envs s u s' : call_init fn n_envs s = Ok (u, s') → p_rsp s' = p_rsp s.
Proof. unfold call_init. intros Hrun. by inv_proc. Qed.

Lemma init_object_rsp n_envs b s u s' : init_object n_envs b s = Ok (u, s') → p_rsp s' = p_rsp s.
Proof.
  unfold init_object. intros Hrun. apply stM_bind_ok in Hrun as (? & s1 & Hinit & Hrun).
  assert (p_rsp s1 = p_rsp s) as <- by (destruct (negb _); [by eapply call_init_rsp|by inv_ok]).
  destruct (negb (init_arraysz_ b =? 0)); [|by inv_ok]. apply stM_bind_ok in Hrun as (? & s2 & Hck & Hrun).
  apply CHECK_st_ok in Hck as [_ ->]. unfold call_init_array in Hrun. apply outcome_bind_ok in Hrun as (s2 & Hloop & [= _ <-]).
  apply (while_invariant _ (λ st, p_rsp st.2 = p_rsp s1)) in Hloop as ([j s3] & Hs3 & Hstep); [| |done].
  - cbn in Hs3. unfold init_array_step in Hstep. destruct (j <? _); [|by simplify_eq].
    apply outcome_bind_ok in Hstep as (fn & _ & Hstep). destruct (fn =? 0); [by simplify_eq|].
    by apply outcome_bind_ok in Hstep as ([] & _ & Hstep).
  - intros [j s3] st' Hs3 Hstep. cbn in Hs3. unfold init_array_step in Hstep. destruct (j <? _); [|done].
    apply outcome_bind_ok in Hstep as (fn & _ & Hstep). destruct (fn =? 0); [done|].
    apply outcome_bind_ok in Hstep as ([? s4] & Hcall & Hstep). simplify_eq. cbn.
    by rewrite (call_init_rsp _ _ _ _ _ Hcall).
Qed.

Lemma init_objects_rsp n_envs bins s u s' : init_objects n_envs bins s = Ok (u, s') → p_rsp s' = p_rsp s.
Proof.
  unfold init_objects. apply (foldM_st_invariant _ (λ _ s1, p_rsp s1 = p_rsp s)); [|done].
  intros ? b s1 ? s2 _ <- Hrun. by eapply init_object_rsp.
Qed.

Lemma setup_tls_object_rsp b s u s' :
  setup_tls_object tls_block b s = Ok (u, s') → p_rsp s' = p_rsp s ∧ p_trace s' = p_trace s.
Proof. unfold setup_tls_object. intros Hrun. destruct (has_tls_ b); inv_ok; done. Qed.

Lemma setup_tls_rsp bins s u s' :
  setup_tls tls_block bins s = Ok (u, s') → p_rsp s' = p_rsp s ∧ p_trace s' = p_trace s.
Proof.
  intros Hrun%setup_tls_ok. revert Hrun.
  apply (foldM_st_invariant _ (λ _ s1, p_rsp s1 = p_rsp s ∧ p_trace s1 = p_trace s)); [|done].
  intros ? b s1 ? s2 _ [<- <-] Hrun. by eapply setup_tls_object_rsp.
Qed.

Lemma Execute_ok dl s u s' :
  Execute tls_block dl s = Ok (u, s') →
  ∃ s1 s2 b rest,
    init_objects (length (envs_ dl)) (binaries_ dl) s = Ok (tt, s1) ∧ getauxval AT_RANDOM ≠ 0 ∧
    setup_tls tls_block (binaries_ dl) s1 = Ok (tt, s2) ∧ binaries_ dl = b :: rest ∧
    ExecuteCore (rev (abi_stack aux_tvs (length (envs_ dl)) (length (args_ dl))))
      (wrap64 (e_entry (ehdr_ b) + base_addr_ b)) s2 = Ok (u, s').
Proof.
  unfold Execute. intros Hrun. apply stM_bind_ok in Hrun as ([] & s1 & Hinit & Hrun).
  apply stM_bind_ok in Hrun as (? & s2 & Hck & Hrun). apply CHECK_st_ok in Hck as [Hr ->].
  apply stM_bind_ok in Hrun as (stack & s2 & Hst & Hrun). apply lift_ok in Hst as [Hst ->].
  rewrite (proj1 (build_stack_spec _ _ _)) in Hst. injection Hst as <-.
  apply stM_bind_ok in Hrun as ([] & s2 & Htls & Hrun). destruct (binaries_ dl) as [|b rest] eqn:Eb; [done|].
  exists s1, s2, b, rest. split_and!; [done| |done..]. apply negb_true_iff, Z.eqb_neq in Hr. done.
Qed.

Lemma ExecuteCore_ok stack entry s u s' :
  ExecuteCore stack entry s = Ok (u, s') → 8 * Z.of_nat (length stack) ≤ p_rsp s < 2 ^ 64 →
  let rsp := p_rsp s - 8 * Z.of_nat (length stack) in
  p_rsp s' = rsp ∧ p_trace s' = p_trace s ++ [EvJump entry rsp] ∧
  ∀ k v, rev stack !! k = Some v → load64 (p_mem s') (rsp + 8 * Z.of_nat k) = Ok (wrap64 v).
Proof.
  unfold ExecuteCore. intros Hrun Hrsp. apply stM_bind_ok in Hrun as ([] & s1 & Hpush & Hrun).
  destruct (push_all _ _ _ _ Hpush Hrsp) as (Hr & Htr & _ & Hload). inv_ok. cbn. rewrite Hr, Htr. done.
Qed.

(** The program is entered at its entry point with the stack the ABI
    prescribes: at the stack pointer the argument count, then the arguments in
    order, a null, the environment in order, a null, and the auxiliary vector (the
    non-zero entries of the loader's own, except those that describe the loader),
    closed by [AT_NULL]. *)
Lemma Execute_stack dl s u s' b rest :
  Execute tls_block dl s = Ok (u, s') → binaries_ dl = b :: rest →
  let st := abi_stack aux_tvs (length (envs_ dl)) (length (args_ dl)) in
  let rsp := p_rsp s - 8 * Z.of_nat (length st) in
  0 ≤ rsp → p_rsp s < 2 ^ 64 →
  last (p_trace s') = Some (EvJump (wrap64 (e_entry (ehdr_ b) + base_addr_ b)) rsp) ∧ p_rsp s' = rsp ∧
  ∀ k v, st !! k = Some v → load64 (p_mem s') (rsp + 8 * Z.of_nat k) = Ok (wrap64 v).
Proof.
  intros (s1 & s2 & b0 & rest0 & Hinit & _ & Htls & Hb0 & Hcore)%Execute_ok Hb st rsp Hnn H64.
  rewrite Hb in Hb0. injection Hb0 as <- <-. fold st in Hcore.
  apply init_objects_rsp in Hinit. apply setup_tls_rsp in Htls as [Htls _].
  destruct (ExecuteCore_ok _ _ _ _ _ Hcore) as (Hr & Htr & Hload); rewrite length_rev in *;
    rewrite ?Htls, ?Hinit in *; [unfold rsp in Hnn; lia|]. fold rsp in Hr, Htr, Hload. rewrite rev_involutive in Hload.
  split_and!; [by rewrite Htr, last_snoc|done|exact Hload].
Qed.

(** The whole trace of a start, with the stack at the end of it. *)
Lemma Execute_enters (W : Z → Prop) dl s u s' fns b rest :
  (∀ fn m m', call_function fn m = Ok m' → agree_off W m m') →
  Execute tls_block dl s = Ok (u, s') → binaries_ dl = b :: rest →
  Forall (array_protected W) (binaries_ dl) →
  traverse (init_functions (p_mem s)) (rev (binaries_ dl)) = Ok fns →
  let st := abi_stack aux_tvs (length (envs_ dl)) (length (args_ dl)) in
  8 * Z.of_nat (length st) ≤ p_rsp s < 2 ^ 64 →
  let rsp := p_rsp s - 8 * Z.of_nat (length st) in
  p_trace s' = p_trace s ++ map (init_event (length (envs_ dl))) (concat fns) ++
               [EvJump (wrap64 (e_entry (ehdr_ b) + base_addr_ b)) rsp] ∧ p_rsp s' = rsp ∧
  ∀ k v, st !! k = Some v → load64 (p_mem s') (rsp + 8 * Z.of_nat k) = Ok (wrap64 v).
Proof.
  intros Hcode (s1 & s2 & b0 & rest0 & Hinit & _ & Htls & Hb0 & Hcore)%Execute_ok Hb Hprot Hfns st Hrsp rsp.
  rewrite Hb in Hb0. injection Hb0 as <- <-. fold st in Hcore.
  destruct (init_objects_ok W Hcode _ _ _ _ _ _ Hinit Hfns Hprot) as (Htr & _ & Hr & _).
  apply setup_tls_rsp in Htls as [Hr2 Htr2].
  destruct (ExecuteCore_ok _ _ _ _ _ Hcore) as (Hr3 & Htr3 & Hload); rewrite length_rev, Hr2, Hr in *; [exact Hrsp|].
  fold rsp in Hr3, Htr3, Hload. rewrite rev_involutive in Hload.
  split_and!; [by rewrite Htr3, Htr2, Htr, <-app_assoc|exact Hr3|exact Hload].
Qed.

(** Before that the constructors run, each with one argument and the given
    environment array, in the reverse order of loading: from the last loaded object
    to the executable, for each object its [DT_INIT] function and then the entries of
    its array up to the first null - provided that constructors do not change
    the constructor arrays. *)
Lemma Execute_order (W : Z → Prop) dl s u s' fns b rest :
  (∀ fn m m', call_function fn m = Ok m' → agree_off W m m') →
  Execute tls_block dl s = Ok (u, s') → binaries_ dl = b :: rest →
  Forall (array_protected W) (binaries_ dl) →
  traverse (init_functions (p_mem s)) (rev (binaries_ dl)) = Ok fns →
  8 * Z.of_nat (stack_num (length aux_tvs) (length (envs_ dl)) (length (args_ dl))) ≤ p_rsp s < 2 ^ 64 →
  ∃ rsp, p_trace s' = p_trace s ++ map (init_event (length (envs_ dl))) (concat fns) ++
                      [EvJump (wrap64 (e_entry (ehdr_ b) + base_addr_ b)) rsp].
Proof.
  intros Hcode Hrun Hb Hprot Hfns Hrsp. rewrite <-(proj2 (build_stack_spec aux_tvs _ _)) in Hrsp.
  eexists. by eapply Execute_enters.
Qed.

Lemma in_fuel_init_object n_envs b s :
  (∀ fn m, in_fuel (call_function fn m)) → init_arraysz_ b < 2 ^ 64 → in_fuel (init_object n_envs b s).
Proof.
  intros Hcode Hsz. assert (Hcall : ∀ fn s, in_fuel (call_init fn n_envs s)).
  { intros fn s1. unfold call_init. apply in_fuel_st_bind; [done|]. intros ? ? _. by apply in_fuel_update_mem. }
  unfold init_object. apply in_fuel_st_bind; [by destruct (negb _)|]. intros ? s1 _.
  destruct (negb (init_arraysz_ b =? 0)); [|done]. apply in_fuel_st_bind; [auto with fuel|]. intros ? s2 _.
  unfold call_init_array. apply in_fuel_bind; [|done].
  set (count := init_arraysz_ b / 8). assert (count < 2 ^ 64) by (unfold count; lia_div).
  apply (in_fuel_while _ (λ st, st.1 ≤ Z.max 0 count) (λ st, Z.max 0 count - st.1)).
  - intros [j s3] st' Hj Hstep. cbn [fst] in *. unfold init_array_step in Hstep.
    destruct (Z.ltb_spec j count); [|done]. apply outcome_bind_ok in Hstep as (fn & _ & Hstep).
    destruct (fn =? 0); [done|]. apply outcome_bind_ok in Hstep as ([? s4] & _ & Hstep). simplify_eq. cbn. lia.
  - intros [j s3] Hj. unfold init_array_step. destruct (j <? count); [|done].
    apply in_fuel_bind; [auto with fuel|]. intros fn _. destruct (fn =? 0); [done|].
    apply in_fuel_bind; [done|]. by intros [] _.
  - cbn. lia.
  - cbn. lia.
Qed.

Lemma in_fuel_setup_tls bins s : in_fuel (setup_tls tls_block bins s).
Proof.
  unfold setup_tls. apply in_fuel_st_bind.
  - unfold lift. assert (in_fuel (tls_block_size bins)) as Hf.
    { apply in_fuel_foldM. intros ? b ?. destruct (has_tls_ b); [|done]. unfold file_tls. by destruct (file_tls_ b). }
    unfold in_fuel in *. destruct (tls_block_size _); congruence.
  - intros ? s4 _. apply in_fuel_st_bind; [auto with fuel|]. intros ? s5 _.
    apply (in_fuel_st_foldM (λ _ _, True)); [|done..]. intros ? b s6 _ _. unfold setup_tls_object.
    destruct (has_tls_ b); [|done]. unfold file_tls, memcpy, memset, store64, store_bytes.
    repeat (apply in_fuel_bind; [|intros ? _]); auto with fuel; by repeat case_match.
Qed.

Lemma in_fuel_ExecuteCore stack entry s : in_fuel (ExecuteCore stack entry s).
Proof.
  unfold ExecuteCore. apply in_fuel_st_bind; [|by intros]. apply (in_fuel_st_foldM (λ _ _, True)); [|done..].
  intros ? v s5 _ _. unfold push, store64, store_bytes. by destruct (mapped_range _ _ _).
Qed.

(** Starting the program cannot hang in the loader: if every constructor returns,
    control reaches the entry point or one of the errors of the code. *)
Lemma in_fuel_Execute dl s :
  (∀ fn m, in_fuel (call_function fn m)) → Forall (λ b, init_arraysz_ b < 2 ^ 64) (binaries_ dl) →
  in_fuel (Execute tls_block dl s).
Proof.
  intros Hcode Hsz. unfold Execute. apply in_fuel_st_bind.
  { unfold init_objects. apply (in_fuel_st_foldM (λ _ _, True)); [|done..]. intros ? b s1 Hb _.
    apply in_fuel_init_object; [done|]. rewrite Forall_forall in Hsz. apply Hsz.
    apply list_elem_of_In, in_rev. by apply list_elem_of_In. }
  intros ? s1 _. apply in_fuel_st_bind; [auto with fuel|]. intros ? s2 _.
  apply in_fuel_st_bind; [by rewrite (proj1 (build_stack_spec _ _ _))|]. intros stack s3 _.
  apply in_fuel_st_bind; [apply in_fuel_setup_tls|]. intros ? s4 _.
  destruct (binaries_ dl); [done|apply in_fuel_ExecuteCore].
Qed.
End whole.
