(* ===== verification/Start.v ===== *)
(** * Starting succeeds

    When [Execute] reaches the program: the constructor arrays can be read and
    their functions return, the thread-local blocks fit the space that is reserved
    for them, and the stack has room. *)

From S2P Require Import Prelude Memory Digits Elf Utils Os ElfBinary ElfDynamic ElfFile FindLibrary DynLoader Symbols Execute.

(** ** Constructors *)

Section constructors.
Context `{Strings} `{LoadedCode}.

(** [fn] returns, from every memory with the mappings of [m]. *)
Definition returns (m : memory) (fn : Z) : Prop :=
  ∀ m1, regions m1 = regions m → ∃ m2, call_function fn m1 = Ok m2.

Lemma call_init_runs fn n_envs m s :
  returns m fn → regions (p_mem s) = regions m → ∃ s', call_init fn n_envs s = Ok (tt, s').
Proof.
  intros Hret Hr. destruct (Hret _ Hr) as [m2 Hm2]. eexists. unfold call_init, modify, mbind, stM_bind.
  unfold update_mem. cbn [p_mem add_event]. by rewrite Hm2.
Qed.

Lemma before_null_elem ws (k : nat) w :
  ws !! k = Some w → w ≠ 0 → (∀ i w', (i < k)%nat → ws !! i = Some w' → w' ≠ 0) → w ∈ before_null ws.
Proof.
  revert k. induction ws as [|w0 ws IH]; intros k Hk Hw Hnz; [done|]. cbn [before_null].
  destruct (Z.eqb_spec w0 0) as [->|Hw0].
  - destruct k as [|k]; [by injection Hk as <-|]. by destruct (Hnz 0%nat 0 ltac:(lia) eq_refl).
  - destruct k as [|k]; [injection Hk as <-; left|right]. apply (IH k); [done..|]. intros i w' Hi. apply (Hnz (S i)). lia.
Qed.

Context (W : Z → Prop) (Hcode : ∀ fn m m', call_function fn m = Ok m' → agree_off W m m').

Lemma init_array_runs b n_envs s ws :
  array_holds (p_mem s) b ws → array_protected W b → Forall (returns (p_mem s)) (before_null ws) → init_arraysz_ b < 2 ^ 64 →
  ∃ s', while (init_array_step (wrap64 (init_array_ b + base_addr_ b)) (init_arraysz_ b / 8) n_envs) (0, s) = Ok s'.
Proof.
  set (count := init_arraysz_ b / 8). intros Hws Hprot Hret Hsz. assert (count < 2 ^ 64) by (unfold count; lia_div).
  pose proof (array_holds_length _ _ _ Hws) as Hlen. fold count in Hlen.
  apply (while_succeeds _ (λ st, 0 ≤ st.1 ≤ Z.max 0 count ∧ calls W n_envs (take (Z.to_nat st.1) ws) s st.2 ∧
    ∀ i w, (i < Z.to_nat st.1)%nat → ws !! i = Some w → w ≠ 0) (λ st, Z.max 0 count - st.1)); [|cbn; split_and!; [lia|lia|apply calls_nil|lia]|cbn; lia].
  intros [j s1] (Hj & Hc & Hnz). cbn [fst snd] in *. unfold init_array_step.
  destruct (Z.ltb_spec j count) as [Hlt|]; [|by eexists].
  destruct (lookup_lt_is_Some_2 ws (Z.to_nat j)) as [w Hw]; [lia|]. fold (array_addr b j).
  rewrite (array_word _ b ws j w), bind_Ok; [|by eapply array_holds_agree, Hws; [apply Hc|]|lia|done].
  destruct (Z.eqb_spec w 0) as [|Hwz]; [by eexists|].
  rewrite Forall_forall in Hret. destruct (call_init_runs w n_envs (p_mem s) s1) as [s2 Hs2].
  { apply Hret. by eapply before_null_elem. }
  { apply Hc. }
  rewrite Hs2, bind_Ok. eexists. split; [done|]. intros st' [= <-]. cbn [fst snd].
  replace (Z.to_nat (j + 1)) with (S (Z.to_nat j)) by lia. split; [|lia]. split_and!; [lia|lia| |].
  - rewrite (take_S_r _ _ w) by done. eapply calls_app; [exact Hc|]. by eapply (call_init_ok W Hcode).
  - intros i w' Hi Hw'. destruct (decide (i = Z.to_nat j)) as [->|]; [by simplify_eq|]. apply (Hnz i); [lia|done].
Qed.

(** A constructor array that can be processed. *)
Definition array_wf (b : ELFBinary) : Prop := init_arraysz_ b mod 8 = 0 ∧ init_arraysz_ b < 2 ^ 64.

Lemma init_object_runs n_envs b s fns :
  init_functions (p_mem s) b = Ok fns → array_protected W b → Forall (returns (p_mem s)) fns → array_wf b →
  ∃ s', init_object n_envs b s = Ok (tt, s').
Proof.
  unfold init_functions, array_words. intros (ws & Hws & [= <-])%outcome_bind_ok Hprot Hret [Hmod Hsz].
  apply Forall_app in Hret as [Hret1 Hret2]. unfold init_object.
  assert (∃ s1, (if negb (init_ b =? 0) then call_init (wrap64 (init_ b + base_addr_ b)) n_envs else mret tt) s = Ok (tt, s1) ∧
    agree_off W (p_mem s) (p_mem s1)) as (s1 & Hs1 & Hag).
  { destruct (init_ b =? 0); cbn [negb]; [by exists s|]. apply Forall_cons in Hret1 as [Hret1 _].
    destruct (call_init_runs _ n_envs _ _ Hret1 eq_refl) as [s1 Hs1]. exists s1. split; [done|].
    by eapply (call_init_ok W Hcode) in Hs1 as (_ & ? & _). }
  rewrite (stM_bind_run _ _ _ _ _ Hs1). destruct (init_arraysz_ b =? 0); cbn [negb]; [by eexists|].
  rewrite (proj2 (Z.eqb_eq _ _) Hmod). rewrite (stM_bind_run _ _ s1 tt s1) by done. unfold call_init_array.
  destruct (init_array_runs b n_envs s1 ws) as [s2 ->]; [by eapply array_holds_agree|done| |done|by eexists].
  eapply Forall_impl; [exact Hret2|]. intros fn Hfn m1 Hm1. apply Hfn. rewrite Hm1. apply Hag.
Qed.

Lemma init_objects_runs n_envs bins s fns :
  traverse (init_functions (p_mem s)) (rev bins) = Ok fns → Forall (array_protected W) bins →
  Forall (returns (p_mem s)) (concat fns) → Forall array_wf bins →
  ∃ s', init_objects n_envs bins s = Ok (tt, s').
Proof.
  unfold init_objects. intros Hfns Hprot Hret Hwf.
  assert (Forall (λ b, array_protected W b ∧ array_wf b) (rev bins)) as Hall.
  { rewrite rev_alt. by apply Forall_reverse, Forall_and. }
  clear Hprot Hwf. revert s fns Hfns Hret. induction Hall as [|b bs [Hb Hwf] Hall IH]; intros s fns Hfns Hret; [by eexists|].
  cbn [foldM traverse] in *. apply outcome_bind_ok in Hfns as (f & Hf & (fs & Hfs & [= <-])%outcome_bind_ok).
  cbn [concat] in Hret. apply Forall_app in Hret as [Hret1 Hret2].
  destruct (init_object_runs n_envs b s f Hf Hb Hret1 Hwf) as [s1 Hs1]. rewrite (stM_bind_run _ _ _ _ _ Hs1).
  pose proof (init_object_ok W Hcode _ _ _ _ _ _ Hs1 Hf Hb) as (_ & Hag & _). apply (IH s1 fs).
  - eapply (init_functions_all_agree W); [exact Hag| |exact Hfs]. eapply Forall_impl; [exact Hall|]. by intros ? [].
  - eapply Forall_impl; [exact Hret2|]. intros fn Hfn m1 Hm1. apply Hfn. rewrite Hm1. apply Hag.
Qed.
End constructors.

(** ** Thread-local blocks *)

Lemma tls_block_size_total bins :
  Forall tls_object_wf bins → tls_block_size bins = Ok (wrap64 (tls_total bins)).
Proof.
  unfold tls_block_size. rewrite <-(Z.add_0_l (tls_total bins)). change 0 with (wrap64 0) at 1. generalize 0 as size.
  intros size Hwf. revert size. induction Hwf as [|b bins Hb _ IH]; intros size; cbn [foldM].
  { unfold tls_total. cbn. by rewrite Z.add_0_r. }
  change (tls_total (b :: bins)) with (tls_size b + tls_total bins). destruct (has_tls_ b) eqn:Ht.
  - destruct (has_tls_some b (proj1 Hb) Ht) as (ph & Hph & ->). unfold file_tls. rewrite Hph, !bind_Ok.
    rewrite wrap_add_l, IH. by rewrite Z.add_assoc.
  - rewrite bind_mret, IH. unfold tls_size. by rewrite Ht.
Qed.

Section tls.
Context (tls_block : Z).

(** The template of an object can be read, over its size in memory. *)
Definition tls_source (m : memory) (b : ELFBinary) : Prop :=
  has_tls_ b = true → ∀ ph, file_tls_ b = Some ph → mapped_range m (tls_src b ph) (p_memsz ph) = true.

(** The blocks of [bins] below [off], and the word above them, are in memory. *)
Record tls_space (m : memory) (off : Z) (bins : list ELFBinary) : Prop := {
  ts_wf : Forall tls_object_wf bins;
  ts_fits : tls_total bins ≤ off;
  ts_block : 0 ≤ tls_block ∧ tls_block + off + 8 ≤ 2 ^ 64;
  ts_mapped : mapped_range m (tls_block + off - tls_total bins) (tls_total bins + 8) = true;
  ts_sources : Forall (tls_source m) bins
}.

Lemma setup_tls_object_runs b ph s :
  has_tls_ b = true → file_tls_ b = Some ph → 0 ≤ p_filesz ph ≤ p_memsz ph →
  0 ≤ tls_block → p_memsz ph ≤ sloader_tls_offset s → tls_block + sloader_tls_offset s + 8 ≤ 2 ^ 64 →
  mapped_range (p_mem s) (tls_src b ph) (p_memsz ph) = true →
  mapped_range (p_mem s) (tls_block + sloader_tls_offset s - p_memsz ph) (p_memsz ph + 8) = true →
  ∃ s', setup_tls_object tls_block b s = Ok (tt, s').
Proof.
  intros Ht Hph Hsz H0 Hle Hfit Hsrc Hdst. unfold setup_tls_object, file_tls. rewrite Ht, Hph, bind_Ok. cbv zeta.
  set (tp := tls_block + sloader_tls_offset s) in *.
  rewrite (wrap_small 64 (tp - p_memsz ph)), (wrap_small 64 tp), (wrap_small 64 (p_memsz ph - p_filesz ph)),
    (wrap_small 64 (tp - _)) by lia. fold (tls_src b ph).
  set (m1 := poke (p_mem s) (tp - p_memsz ph) (peek (p_mem s) (tls_src b ph) (p_memsz ph))).
  assert (memcpy (p_mem s) (tp - p_memsz ph) (tls_src b ph) (p_memsz ph) = Ok m1) as ->.
  { apply memcpy_ok. split_and!; [done|eapply mapped_range_sub; [exact Hdst|lia..]|done]. }
  rewrite bind_Ok. set (m2 := poke m1 (tp - (p_memsz ph - p_filesz ph)) (replicate (Z.to_nat (p_memsz ph - p_filesz ph)) 0)).
  assert (memset m1 (tp - (p_memsz ph - p_filesz ph)) 0 (p_memsz ph - p_filesz ph) = Ok m2) as ->.
  { apply memset_ok. split; [|done]. rewrite (mapped_range_regions (p_mem s) m1) by done.
    eapply mapped_range_sub; [exact Hdst|lia..]. }
  rewrite bind_Ok. assert (store64 m2 tp tp = Ok (poke m2 tp (le_split 8 tp))) as ->; [|by eexists].
  apply store64_ok. split; [|done]. rewrite (mapped_range_regions (p_mem s) m2) by done.
  eapply mapped_range_sub; [exact Hdst|lia..].
Qed.

Lemma tls_space_regions m m' off bins : regions m' = regions m → tls_space m off bins → tls_space m' off bins.
Proof.
  intros Hr [? ? ? ? Hs]. split; [done..|by rewrite (mapped_range_regions m)|].
  eapply Forall_impl; [exact Hs|]. intros b Hb Ht ph Hph. rewrite (mapped_range_regions m) by done. by apply Hb.
Qed.

Lemma tls_area_sub off off' bins bins' x :
  off' ≤ off → off - tls_total bins ≤ off' - tls_total bins' →
  tls_area tls_block off' bins' x → tls_area tls_block off bins x.
Proof. unfold tls_area. lia. Qed.

Lemma setup_tls_objects_run bins s :
  tls_space (p_mem s) (sloader_tls_offset s) bins →
  ∃ s', foldM (λ _ b, setup_tls_object tls_block b) tt bins s = Ok (tt, s') ∧
    agree_off (tls_area tls_block (sloader_tls_offset s) bins) (p_mem s) (p_mem s').
Proof.
  revert s. induction bins as [|b bins IH]; intros s [Hwf Hfit [H0 H64] Hm Hsrc]; [by exists s|]. cbn [foldM].
  apply Forall_cons in Hwf as [Hb Hwf]. apply Forall_cons in Hsrc as [Hsb Hsrc].
  change (tls_total (b :: bins)) with (tls_size b + tls_total bins) in *.
  pose proof (tls_size_nonneg b Hb) as Hnb. pose proof (tls_total_nonneg bins Hwf) as Hnn.
  destruct (has_tls_ b) eqn:Ht.
  - destruct (has_tls_some b (proj1 Hb) Ht) as (ph & Hph & Hsize). rewrite Hsize in *.
    destruct (setup_tls_object_runs b ph s Ht Hph) as [s1 Hs1]; [by apply Hb|done|lia|done|by apply Hsb| |].
    { eapply mapped_range_sub; [exact Hm|lia..]. }
    rewrite (stM_bind_run _ _ _ _ _ Hs1).
    destruct (setup_tls_object_ok _ _ _ _ _ _ Hs1 Ht Hph) as (Ho & _ & _ & _ & Hag & _); [by apply Hb|done|lia|done|].
    destruct (IH s1) as (s2 & Hs2 & Hag2).
    { rewrite Ho. apply (tls_space_regions (p_mem s)); [apply Hag|]. split; [done|lia|lia| |done].
      eapply mapped_range_sub; [exact Hm|lia..]. }
    exists s2. split; [exact Hs2|]. transitivity (p_mem s1).
    + eapply agree_off_weaken; [exact Hag|]. unfold tls_area. change (tls_total (b :: bins)) with (tls_size b + tls_total bins). lia.
    + eapply agree_off_weaken; [exact Hag2|]. intros x. rewrite Ho. apply tls_area_sub; [lia|].
      change (tls_total (b :: bins)) with (tls_size b + tls_total bins). lia.
  - rewrite (stM_bind_run _ _ s tt s) by by apply setup_tls_object_skip.
    assert (tls_size b = 0) as Hz by (unfold tls_size; by rewrite Ht). destruct (IH s) as (s2 & Hs2 & Hag2).
    { split; [done|lia|lia| |done]. eapply mapped_range_sub; [exact Hm|lia..]. }
    exists s2. split; [exact Hs2|]. eapply agree_off_weaken; [exact Hag2|]. intros x. apply tls_area_sub; [lia|].
    change (tls_total (b :: bins)) with (tls_size b + tls_total bins). lia.
Qed.

Lemma setup_tls_runs bins s :
  tls_space (p_mem s) (sloader_tls_offset s) bins → tls_total bins ≤ 4096 →
  ∃ s', setup_tls tls_block bins s = Ok (tt, s') ∧
    agree_off (tls_area tls_block (sloader_tls_offset s) bins) (p_mem s) (p_mem s').
Proof.
  intros Hsp Hle. destruct (setup_tls_objects_run bins s Hsp) as (s' & Hs' & Hag). exists s'. split; [|exact Hag]. unfold setup_tls.
  pose proof (tls_total_nonneg bins (ts_wf _ _ _ Hsp)) as Hnn.
  rewrite (stM_bind_run _ _ s (tls_total bins) s).
  - rewrite (proj2 (Z.leb_le _ _) Hle). exact Hs'.
  - unfold lift. rewrite tls_block_size_total by apply Hsp. by rewrite wrap_small by lia.
Qed.
End tls.

(** ** The stack *)

Lemma push_all_runs l s :
  mapped_range (p_mem s) (p_rsp s - 8 * Z.of_nat (length l)) (8 * Z.of_nat (length l)) = true →
  8 * Z.of_nat (length l) ≤ p_rsp s < 2 ^ 64 → ∃ s', foldM (λ _ v, push v) tt l s = Ok (tt, s').
Proof.
  revert s. induction l as [|v l IH]; intros s Hm Hr; [by eexists|]. cbn [foldM length] in *.
  set (s1 := set_rsp (p_rsp s - 8) (set_mem (poke (p_mem s) (p_rsp s - 8) (le_split 8 v)) s)).
  assert (push v s = Ok (tt, s1)) as Hs1.
  { unfold push. rewrite wrap_small by lia. assert (store64 (p_mem s) (p_rsp s - 8) v = Ok (poke (p_mem s) (p_rsp s - 8) (le_split 8 v))) as ->; [|done].
    apply store64_ok. split; [|done]. eapply mapped_range_sub; [exact Hm|lia..]. }
  rewrite (stM_bind_run _ _ _ _ _ Hs1). apply IH; change (p_rsp s1) with (p_rsp s - 8); [|lia].
  rewrite (mapped_range_regions (p_mem s)) by done. eapply mapped_range_sub; [exact Hm|lia..].
Qed.

Lemma ExecuteCore_runs stack entry s :
  mapped_range (p_mem s) (p_rsp s - 8 * Z.of_nat (length stack)) (8 * Z.of_nat (length stack)) = true →
  8 * Z.of_nat (length stack) ≤ p_rsp s < 2 ^ 64 →
  ∃ s', ExecuteCore stack entry s = Ok (tt, s') ∧
    agree_off (stack_area (p_rsp s - 8 * Z.of_nat (length stack)) (p_rsp s)) (p_mem s) (p_mem s').
Proof.
  intros Hm Hr. destruct (push_all_runs stack s Hm Hr) as [s1 Hs1]. unfold ExecuteCore.
  rewrite (stM_bind_run _ _ _ _ _ Hs1). eexists. split; [reflexivity|].
  by destruct (push_all _ _ _ _ Hs1 Hr) as (_ & _ & Hag & _).
Qed.

(** ** Execute *)

Section execute.
Context (tls_block : Z) `{Strings} `{LoadedCode} `{Environment}.

(** The addresses the constructors may write to. *)
Context (W : Z → Prop) (Hcode : ∀ fn m m', call_function fn m = Ok m' → agree_off W m m').

(** The room for the initial stack below the stack pointer. *)
Definition stack_size (dl : DynLoader) : Z := 8 * Z.of_nat (stack_num (length aux_tvs) (length (envs_ dl)) (length (args_ dl))).

(** What starting asks of the process: [fns] are the constructors of the objects,
    the last object's first. *)
Record can_start (dl : DynLoader) (s : proc) (fns : list (list Z)) : Prop := {
  cs_functions : traverse (init_functions (p_mem s)) (rev (binaries_ dl)) = Ok fns;
  cs_return : Forall (returns (p_mem s)) (concat fns);
  cs_protected : Forall (array_protected W) (binaries_ dl);
  cs_arrays : Forall array_wf (binaries_ dl);
  cs_random : getauxval AT_RANDOM ≠ 0;
  cs_tls : tls_space tls_block (p_mem s) (sloader_tls_offset s) (binaries_ dl);
  cs_tls_limit : tls_total (binaries_ dl) ≤ 4096;
  cs_stack : mapped_range (p_mem s) (p_rsp s - stack_size dl) (stack_size dl) = true;
  cs_rsp : stack_size dl ≤ p_rsp s < 2 ^ 64
}.

(** What is written before the program runs: by the constructors, for the
    thread-local blocks, and for the stack. *)
Definition start_writes (dl : DynLoader) (s : proc) (x : Z) : Prop :=
  W x ∨ tls_area tls_block (sloader_tls_offset s) (binaries_ dl) x ∨ stack_area (p_rsp s - stack_size dl) (p_rsp s) x.

Lemma Execute_runs dl s fns b rest :
  can_start dl s fns → binaries_ dl = b :: rest →
  ∃ s', Execute tls_block dl s = Ok (tt, s') ∧ agree_off (start_writes dl s) (p_mem s) (p_mem s').
Proof.
  intros [Hfns Hret Hprot Harr Hrand Htls Hlim Hstack Hrsp] Hb. unfold Execute.
  destruct (init_objects_runs W Hcode (length (envs_ dl)) _ s fns Hfns Hprot Hret Harr) as [s1 Hs1].
  rewrite (stM_bind_run _ _ _ _ _ Hs1). rewrite (proj2 (Z.eqb_neq _ _) Hrand).
  pose proof (init_objects_ok W Hcode _ _ _ _ _ _ Hs1 Hfns Hprot) as (_ & Hag1 & Hrsp1 & Hoff1 & _).
  rewrite (stM_bind_run _ _ s1 tt s1) by done.
  set (stack := rev (abi_stack aux_tvs (length (envs_ dl)) (length (args_ dl)))).
  rewrite (stM_bind_run _ _ s1 stack s1) by (unfold lift; by rewrite (proj1 (build_stack_spec _ _ _))).
  destruct (setup_tls_runs tls_block (binaries_ dl) s1) as (s2 & Hs2 & Hag2); [|done|].
  { rewrite Hoff1. eapply tls_space_regions; [apply Hag1|done]. }
  rewrite (stM_bind_run _ _ _ _ _ Hs2), Hb. apply setup_tls_rsp in Hs2 as [Hrsp2 _].
  assert (8 * Z.of_nat (length stack) = stack_size dl) as Hlen.
  { unfold stack, stack_size. by rewrite length_rev, (proj2 (build_stack_spec _ _ _)). }
  destruct (ExecuteCore_runs stack (wrap64 (e_entry (ehdr_ b) + base_addr_ b)) s2) as (s3 & Hs3 & Hag3);
    rewrite ?Hlen, ?Hrsp2, ?Hrsp1 in *; [|done|].
  { rewrite (mapped_range_regions (p_mem s)); [done|]. etrans; [apply Hag2|apply Hag1]. }
  exists s3. split; [exact Hs3|]. rewrite Hoff1 in Hag2.
  transitivity (p_mem s1); [|transitivity (p_mem s2)]; (eapply agree_off_weaken; [eassumption|]); unfold start_writes; tauto.
Qed.

Lemma Execute_starts dl s fns b rest :
  can_start dl s fns → binaries_ dl = b :: rest →
  ∃ s', Execute tls_block dl s = Ok (tt, s') ∧
    let st := abi_stack aux_tvs (length (envs_ dl)) (length (args_ dl)) in
    let rsp := p_rsp s - 8 * Z.of_nat (length st) in
    p_trace s' = p_trace s ++ map (init_event (length (envs_ dl))) (concat fns) ++
                 [EvJump (wrap64 (e_entry (ehdr_ b) + base_addr_ b)) rsp] ∧ p_rsp s' = rsp ∧
    (∀ k v, st !! k = Some v → load64 (p_mem s') (rsp + 8 * Z.of_nat k) = Ok (wrap64 v)) ∧
    agree_off (start_writes dl s) (p_mem s) (p_mem s').
Proof.
  intros Hcan Hb. destruct (Execute_runs dl s fns b rest Hcan Hb) as (s' & Hrun & Hag). exists s'. split; [exact Hrun|].
  destruct Hcan as [Hfns _ Hprot _ _ _ _ _ Hrsp]. unfold stack_size in Hrsp. rewrite <-(proj2 (build_stack_spec aux_tvs _ _)) in Hrsp.
  destruct (Execute_enters tls_block W dl s tt s' fns b rest Hcode Hrun Hb Hprot Hfns Hrsp) as (? & ? & ?). by split_and!.
Qed.

(** C13: starting succeeds: when the constructor arrays can be read, are not
    written to by constructors, and their functions return, when the thread-local
    segments fit the 4096 bytes the loader has for them and can be read, and when
    there is room for the initial stack, the constructors run in the reverse of the
    order in which the objects were loaded and the program is entered with the stack
    the ABI prescribes; and memory is as it was but for what the constructors, the
    thread-local blocks and the stack have written. (The reverse of the loading order
    need not have every library before the objects that need it:
    [constructor_before_dependency] of the file WitnessOrder.) *)
Theorem Execute_succeeds dl s fns b rest :
  can_start dl s fns → binaries_ dl = b :: rest →
  ∃ s', Execute tls_block dl s = Ok (tt, s') ∧
    let st := abi_stack aux_tvs (length (envs_ dl)) (length (args_ dl)) in
    let rsp := p_rsp s - 8 * Z.of_nat (length st) in
    p_trace s' = p_trace s ++ map (init_event (length (envs_ dl))) (concat fns) ++
                 [EvJump (wrap64 (e_entry (ehdr_ b) + base_addr_ b)) rsp] ∧ p_rsp s' = rsp ∧
    (∀ k v, st !! k = Some v → load64 (p_mem s') (rsp + 8 * Z.of_nat k) = Ok (wrap64 v)) ∧
    agree_off (start_writes dl s) (p_mem s) (p_mem s').
Proof. apply Execute_starts. Qed.
End execute.
