(* ===== verification/LibcMapping.v ===== *)
(** * The C library's names (libc_mapping.h, libc_mapping.cc)

    The table from symbol names to addresses that stands for the C library, and
    the thread-local variables of the C library; the functions of sloader's own
    that it refers to are in LibcCode. The table is transcribed entry by entry; which address an
    entry has is a matter of C: [&f] and [f] are both the address of a function
    [f], but for a variable [p] that holds a function pointer [p] is the function
    and [&p] is the variable. *)

From S2P Require Import Prelude Memory Digits Elf Utils Os ElfBinary ElfDynamic ElfFile FindLibrary DynLoader Symbols Execute.

(** The operand of the cast in an entry: [&name] or [name]. *)
Inductive c_ref := AddressOf (name : string) | ValueOf (name : string).

#[export] Instance c_ref_eq_dec : EqDecision c_ref.
Proof. solve_decision. Defined.

#[local] Notation "n '|->&' s" := (n%string, AddressOf s%string) (at level 60, only parsing).
#[local] Notation "n '|->' s" := (n%string, ValueOf s%string) (at level 60, only parsing).

(** The variables with the suffix [_c]: the name of each and the function it is initialised with. *)
Definition function_pointers : list (string * string) :=
  [("strchr_c", "strchr"); ("strrchr_c", "strrchr"); ("rawmemchr_c", "rawmemchr"); ("wmemchr_c", "wmemchr");
   ("memchr_c", "memchr"); ("strstr_c", "strstr"); ("strpbrk_c", "strpbrk"); ("frexp_c", "frexp");
   ("ldexp_c", "ldexp"); ("strchrnul_c", "strchrnul"); ("strcasestr_c", "strcasestr"); ("modf_c", "modf");
   ("rindex_c", "rindex"); ("wcsstr_c", "wcsstr"); ("wcspbrk_c", "wcspbrk")]%string.

(** The functions of the file that do nothing ([DEFINE_DUMMY_FUN]). *)
Definition dummy_functions : list string :=
  ["ZSTD_trace_compress_begin"; "ZSTD_trace_compress_end"; "ZSTD_trace_decompress_begin";
   "ZSTD_trace_decompress_end"; "_ITM_deregisterTMCloneTable"; "_ITM_registerTMCloneTable";
   "__asprintf_chk"; "__assert_fail"; "__cxa_finalize"; "__gmon_start__"; "__gmtime_r";
   "__libc_dn_expand"; "__libc_ns_makecanon"; "__libc_ns_samename"; "__libc_res_nameinquery";
   "__libc_res_queriesmatch"; "__stack_chk_fail"; "__xpg_strerror_r"; "__xstat"; "atexit";
   "__cxa_atexit"; "_nl_msg_cat_cntr"; "__fxstat"; "__strtold_nan"; "__strtod_nan"; "__strtof128_nan";
   "__strtof_nan"; "_rtld_global_ro"; "__cxa_thread_atexit_impl"; "delete_module"; "init_module";
   "__libc_dynarray_resize"; "_libc_intl_domainname"; "__nss_configure_lookup"; "__progname_full";
   "__progname"; "__res_context_hostalias"; "__res_context_query"; "__res_context_search";
   "__resolv_context_get_override"; "__resolv_context_get"; "__resolv_context_put"; "__res_get_nsaddr";
   "__res_iclose"]%string.

(** ** The table *)

Definition libc_entries_0 : list (string * c_ref) :=
  ["ZSTD_trace_compress_begin" |->& "sloader_ZSTD_trace_compress_begin";
   "ZSTD_trace_compress_end" |->& "sloader_ZSTD_trace_compress_end";
   "ZSTD_trace_decompress_begin" |->& "sloader_ZSTD_trace_decompress_begin";
   "ZSTD_trace_decompress_end" |->& "sloader_ZSTD_trace_decompress_end";
   "_ITM_deregisterTMCloneTable" |->& "sloader__ITM_deregisterTMCloneTable";
   "_ITM_registerTMCloneTable" |->& "sloader__ITM_registerTMCloneTable";
   "__asprintf_chk" |->& "sloader___asprintf_chk"; "__assert_fail" |->& "sloader___assert_fail";
   "__cxa_atexit" |->& "sloader_atexit_always_success"; "__cxa_finalize" |->& "sloader___cxa_finalize";
   "__cxa_thread_atexit_impl" |->& "sloader___cxa_thread_atexit_impl"; "__fxstat" |->& "sloader___fxstat";
   "__gmon_start__" |->& "sloader___gmon_start__"; "__gmtime_r" |->& "sloader___gmtime_r";
   "__libc_dn_expand" |->& "sloader___libc_dn_expand";
   "__libc_dynarray_resize" |->& "sloader___libc_dynarray_resize";
   "__libc_ns_makecanon" |->& "sloader___libc_ns_makecanon";
   "__libc_ns_samename" |->& "sloader___libc_ns_samename";
   "__libc_res_nameinquery" |->& "sloader___libc_res_nameinquery";
   "__libc_res_queriesmatch" |->& "sloader___libc_res_queriesmatch";
   "__nss_configure_lookup" |->& "sloader___nss_configure_lookup"; "__progname" |->& "sloader___progname";
   "__progname_full" |->& "sloader___progname_full";
   "__res_context_hostalias" |->& "sloader___res_context_hostalias";
   "__res_context_query" |->& "sloader___res_context_query";
   "__res_context_search" |->& "sloader___res_context_search";
   "__res_get_nsaddr" |->& "sloader___res_get_nsaddr"; "__res_iclose" |->& "sloader___res_iclose";
   "__resolv_context_get" |->& "sloader___resolv_context_get";
   "__resolv_context_get_override" |->& "sloader___resolv_context_get_override";
   "__resolv_context_put" |->& "sloader___resolv_context_put";
   "__stack_chk_fail" |->& "sloader___stack_chk_fail"; "__strtod_nan" |->& "sloader___strtod_nan";
   "__strtof128_nan" |->& "sloader___strtof128_nan"; "__strtof_nan" |->& "sloader___strtof_nan";
   "__strtold_nan" |->& "sloader___strtold_nan"; "__xpg_strerror_r" |->& "sloader___xpg_strerror_r";
   "__xstat" |->& "sloader___xstat"; "_libc_intl_domainname" |->& "sloader__libc_intl_domainname";
   "_nl_msg_cat_cntr" |->& "sloader__nl_msg_cat_cntr"; "_rtld_global_ro" |->& "sloader__rtld_global_ro";
   "atexit" |->& "sloader_atexit"; "delete_module" |->& "sloader_delete_module";
   "init_module" |->& "sloader_init_module"].

Definition libc_entries_1 : list (string * c_ref) :=
  ["__libc_start_main" |->& "sloader_libc_start_main"; "__register_atfork" |->& "sloader_register_atfork";
   "__tls_get_addr" |->& "sloader_tls_get_addr"; "__ctype_b_loc" |->& "__ctype_b_loc";
   "__ctype_get_mb_cur_max" |->& "__ctype_get_mb_cur_max"; "__ctype_tolower_loc" |->& "__ctype_tolower_loc";
   "__ctype_toupper_loc" |->& "__ctype_toupper_loc"; "__dcgettext" |->& "__dcgettext";
   "__dprintf_chk" |->& "__dprintf_chk"; "__duplocale" |->& "duplocale"; "__environ" |->& "__environ";
   "__errno_location" |->& "__errno_location"; "__explicit_bzero_chk" |->& "__explicit_bzero_chk";
   "__fdelt_chk" |->& "__fdelt_chk"; "__fgets_chk" |->& "__fgets_chk";
   "__fgets_unlocked_chk" |->& "__fgets_unlocked_chk"; "__fgetws_chk" |->& "__fgetws_chk";
   "__fpending" |->& "__fpending"; "__fprintf_chk" |->& "__fprintf_chk"; "__fpurge" |->& "__fpurge";
   "__fread_chk" |->& "__fread_chk"; "__fread_unlocked_chk" |->& "__fread_unlocked_chk";
   "__freading" |->& "__freading"; "__freelocale" |->& "freelocale"; "__fsetlocking" |->& "__fsetlocking";
   "__fwriting" |->& "__fwriting"; "__getdelim" |->& "__getdelim"; "__getgroups_chk" |->& "__getgroups_chk";
   "__gethostname_chk" |->& "__gethostname_chk"; "__getpagesize" |->& "__getpagesize";
   "__h_errno_location" |->& "__h_errno_location"; "__isoc99_fscanf" |->& "fscanf";
   "__isoc99_scanf" |->& "scanf"; "__isoc99_sscanf" |->& "sscanf"; "__isoc99_vfscanf" |->& "vfscanf";
   "__isoc99_vsscanf" |->& "vsscanf"; "__iswctype_l" |->& "iswctype_l";
   "__libc_current_sigrtmax" |->& "__libc_current_sigrtmax";
   "__libc_current_sigrtmin" |->& "__libc_current_sigrtmin";
   "__libc_current_sigrtmin" |->& "__libc_current_sigrtmin";
   "__libc_single_threaded" |->& "__libc_single_threaded"; "__longjmp_chk" |->& "longjmp";
   "__mbrlen" |->& "__mbrlen"; "__mbsnrtowcs_chk" |->& "__mbsnrtowcs_chk";
   "__mbsrtowcs_chk" |->& "__mbsrtowcs_chk"; "__mbstowcs_chk" |->& "__mbstowcs_chk";
   "__memcpy_chk" |->& "memcpy"; "__memmove_chk" |->& "memmove"; "__mempcpy" |->& "__mempcpy";
   "__mempcpy_chk" |->& "mempcpy"; "__memset_chk" |->& "memset"; "__newlocale" |->& "newlocale";
   "__nl_langinfo_l" |->& "nl_langinfo_l"; "__open64_2" |->& "__open64_2"; "__open_2" |->& "__open_2";
   "__openat64_2" |->& "__openat64_2"; "__openat_2" |->& "__openat_2"; "__overflow" |->& "__overflow";
   "__poll_chk" |->& "__poll_chk"; "__ppoll_chk" |->& "__ppoll_chk"; "__pread64_chk" |->& "__pread64_chk";
   "__pread_chk" |->& "__pread_chk"; "__printf_chk" |->& "__printf_chk"; "__rawmemchr" |->& "rawmemchr_c";
   "__read_chk" |->& "__read_chk"; "__realpath_chk" |->& "__realpath_chk"; "__res_init" |->& "__res_init";
   "__res_nclose" |->& "__res_nclose"; "__res_ninit" |->& "__res_ninit"; "__resp" |->& "__resp";
   "__sched_cpualloc" |->& "__sched_cpualloc"; "__sched_cpucount" |->& "__sched_cpucount";
   "__sched_cpufree" |->& "__sched_cpufree"; "__sigsetjmp" |->& "__sigsetjmp";
   "__snprintf_chk" |->& "__snprintf_chk"; "__sprintf_chk" |->& "__sprintf_chk"; "__stpcpy" |->& "__stpcpy";
   "__stpcpy_chk" |->& "stpcpy"; "__strcat_chk" |->& "strcat"; "__strcoll_l" |->& "strcoll_l";
   "__strcpy_chk" |->& "strcpy"; "__strftime_l" |->& "strftime_l"; "__strncat_chk" |->& "strncat";
   "__strncpy_chk" |->& "strncpy"; "__strtod_l" |->& "strtod_l"; "__strtof_l" |->& "strtof_l";
   "__strxfrm_l" |->& "strxfrm_l"; "__sysconf" |->& "__sysconf"; "__syslog_chk" |->& "__syslog_chk";
   "__sysv_signal" |->& "__sysv_signal"; "__timezone" |->& "__timezone"; "__towlower_l" |->& "towlower_l";
   "__towupper_l" |->& "towupper_l"; "__uflow" |->& "__uflow"; "__uselocale" |->& "__gnu_cxx::__uselocale";
   "__vasprintf_chk" |->& "__vasprintf_chk"; "__vfprintf_chk" |->& "__vfprintf_chk";
   "__vsnprintf_chk" |->& "__vsnprintf_chk"; "__vsprintf_chk" |->& "__vsprintf_chk";
   "__vsyslog_chk" |->& "__vsyslog_chk"; "__wcscoll_l" |->& "wcscoll_l"; "__wcsftime_l" |->& "wcsftime_l";
   "__wcsncpy_chk" |->& "__wcsncpy_chk"; "__wcsxfrm_l" |->& "wcsxfrm_l"; "__wctomb_chk" |->& "__wctomb_chk";
   "__wctype_l" |->& "wctype_l"; "__wmemcpy_chk" |->& "__wmemcpy_chk"; "__wmemmove_chk" |->& "__wmemmove_chk";
   "__wmemset_chk" |->& "__wmemset_chk"; "__xpg_basename" |->& "__xpg_basename";
   "_dl_find_object" |->& "_dl_find_object"; "_exit" |->& "_exit"; "_longjmp" |->& "_longjmp";
   "_obstack_begin" |->& "_obstack_begin"; "_obstack_newchunk" |->& "_obstack_newchunk";
   "_obstack_free" |->& "obstack_free"; "_setjmp" |->& "_setjmp"; "abort" |->& "abort"; "accept" |->& "accept";
   "accept4" |->& "accept4"; "access" |->& "access"; "access" |->& "access"; "alarm" |->& "alarm";
   "aligned_alloc" |->& "aligned_alloc"; "alphasort" |->& "alphasort"; "alphasort64" |->& "alphasort64";
   "argp_err_exit_status" |->& "argp_err_exit_status"; "argp_help" |->& "argp_help";
   "argp_parse" |->& "argp_parse"; "argz_create_sep" |->& "argz_create_sep"; "asctime" |->& "asctime";
   "asctime_r" |->& "asctime_r"; "asprintf" |->& "asprintf"; "atof" |->& "atof"; "atoi" |->& "atoi";
   "atol" |->& "atol"; "atoll" |->& "atoll"; "backtrace" |->& "backtrace";
   "backtrace_symbols" |->& "backtrace_symbols"; "backtrace_symbols_fd" |->& "backtrace_symbols_fd";
   "basename" |->& "basename"; "bind" |->& "bind"; "bind_textdomain_codeset" |->& "bind_textdomain_codeset";
   "bindtextdomain" |->& "bindtextdomain"; "bsearch" |->& "bsearch"; "bsearch" |->& "bsearch";
   "bsearch" |->& "bsearch"].

Definition libc_entries_2 : list (string * c_ref) :=
  ["bsearch" |->& "bsearch"; "bsearch" |->& "bsearch"; "btowc" |->& "btowc"; "calloc" |->& "calloc";
   "canonicalize_file_name" |->& "canonicalize_file_name"; "capget" |->& "capget"; "capset" |->& "capset";
   "cfgetispeed" |->& "cfgetispeed"; "cfgetospeed" |->& "cfgetospeed"; "cfmakeraw" |->& "cfmakeraw";
   "cfsetispeed" |->& "cfsetispeed"; "cfsetospeed" |->& "cfsetospeed"; "cfsetspeed" |->& "cfsetspeed";
   "chdir" |->& "chdir"; "chmod" |->& "chmod"; "chown" |->& "chown"; "chroot" |->& "chroot";
   "clearenv" |->& "clearenv"; "clearerr" |->& "clearerr"; "clearerr_unlocked" |->& "clearerr_unlocked";
   "clock" |->& "clock"; "clock_getres" |->& "clock_getres"; "clock_gettime" |->& "clock_gettime";
   "clock_settime" |->& "clock_settime"; "clone" |->& "clone"; "close" |->& "close";
   "close_range" |->& "close_range"; "closedir" |->& "closedir"; "closefrom" |->& "closefrom";
   "closelog" |->& "closelog"; "confstr" |->& "confstr"; "connect" |->& "connect";
   "copy_file_range" |->& "copy_file_range"; "creat" |->& "creat"; "creat64" |->& "creat64";
   "ctermid" |->& "ctermid"; "ctime" |->& "ctime"; "ctime_r" |->& "ctime_r"; "daemon" |->& "daemon";
   "dcgettext" |->& "dcgettext"; "dcngettext" |->& "dcngettext"; "dgettext" |->& "dgettext";
   "difftime" |->& "difftime"; "dirfd" |->& "dirfd"; "dirname" |->& "dirname";
   "dl_iterate_phdr" |->& "dl_iterate_phdr"; "dladdr" |->& "sloader_dladdr"; "dlclose" |->& "dlclose";
   "dlerror" |->& "dlerror"; "dlopen" |->& "sloader_dlopen"; "dlsym" |->& "sloader_dlsym";
   "dlvsym" |->& "sloader_dlvsym"; "dn_expand" |->& "dn_expand"; "dn_skipname" |->& "dn_skipname";
   "dngettext" |->& "dngettext"; "dup" |->& "dup"; "dup2" |->& "dup2"; "dup3" |->& "dup3";
   "duplocale" |->& "duplocale"; "duplocale" |->& "duplocale"; "duplocale" |->& "duplocale";
   "duplocale" |->& "duplocale"; "eaccess" |->& "eaccess"; "endaliasent" |->& "endaliasent";
   "endgrent" |->& "endgrent"; "endhostent" |->& "endhostent"; "endmntent" |->& "endmntent";
   "endnetent" |->& "endnetent"; "endnetgrent" |->& "endnetgrent"; "endprotoent" |->& "endprotoent";
   "endpwent" |->& "endpwent"; "endrpcent" |->& "endrpcent"; "endservent" |->& "endservent";
   "endsgent" |->& "endsgent"; "endspent" |->& "endspent"; "endusershell" |->& "endusershell";
   "endutent" |->& "endutent"; "endutxent" |->& "endutxent"; "environ" |->& "environ";
   "epoll_create" |->& "epoll_create"; "epoll_create1" |->& "epoll_create1"; "epoll_ctl" |->& "epoll_ctl";
   "epoll_pwait" |->& "epoll_pwait"; "epoll_wait" |->& "epoll_wait"; "err" |->& "err"; "error" |->& "error";
   "error_at_line" |->& "error_at_line"; "errx" |->& "errx"; "ether_aton" |->& "ether_aton";
   "ether_hostton" |->& "ether_hostton"; "ether_ntoa" |->& "ether_ntoa"; "ether_ntohost" |->& "ether_ntohost";
   "euidaccess" |->& "euidaccess"; "eventfd" |->& "eventfd"; "eventfd_read" |->& "eventfd_read";
   "eventfd_write" |->& "eventfd_write"; "execl" |->& "execl"; "execle" |->& "execle"; "execlp" |->& "execlp";
   "execv" |->& "execv"; "execve" |->& "execve"; "execvp" |->& "execvp"; "exit" |->& "exit";
   "faccessat" |->& "faccessat"; "fallocate" |->& "fallocate"; "fallocate64" |->& "fallocate64";
   "fchdir" |->& "fchdir"; "fchmod" |->& "fchmod"; "fchmodat" |->& "fchmodat"; "fchown" |->& "fchown";
   "fchownat" |->& "fchownat"; "fclose" |->& "fclose"; "fcntl" |->& "fcntl"; "fcntl64" |->& "fcntl64";
   "fdatasync" |->& "fdatasync"; "fdopen" |->& "fdopen"; "fdopendir" |->& "fdopendir"; "feof" |->& "feof";
   "ferror" |->& "ferror"; "fexecve" |->& "fexecve"; "fflush" |->& "fflush";
   "fflush_unlocked" |->& "fflush_unlocked"; "fgetc" |->& "fgetc"; "fgets" |->& "fgets";
   "fgets_unlocked" |->& "fgets_unlocked"; "fgetwc" |->& "fgetwc"; "fgetxattr" |->& "fgetxattr";
   "fileno" |->& "fileno"; "fileno_unlocked" |->& "fileno_unlocked"; "flistxattr" |->& "flistxattr";
   "flock" |->& "flock"; "flockfile" |->& "flockfile"; "fmemopen" |->& "fmemopen"; "fnmatch" |->& "fnmatch";
   "fopen" |->& "fopen"; "fopen64" |->& "fopen64"; "fopencookie" |->& "fopencookie"; "fork" |->& "fork";
   "forkpty" |->& "forkpty"; "fpathconf" |->& "fpathconf"; "fprintf" |->& "fprintf"; "fputc" |->& "fputc";
   "fputc_unlocked" |->& "fputc_unlocked"; "fputs" |->& "fputs"; "fputs_unlocked" |->& "fputs_unlocked";
   "fputwc" |->& "fputwc"; "fputws" |->& "fputws"; "fread" |->& "fread"; "fread_unlocked" |->& "fread_unlocked";
   "free" |->& "free"].

Definition libc_entries_3 : list (string * c_ref) :=
  ["freeaddrinfo" |->& "freeaddrinfo"; "freeaddrinfo" |->& "freeaddrinfo"; "freeaddrinfo" |->& "freeaddrinfo";
   "freeaddrinfo" |->& "freeaddrinfo"; "freeaddrinfo" |->& "freeaddrinfo"; "freeifaddrs" |->& "freeifaddrs";
   "freelocale" |->& "freelocale"; "fremovexattr" |->& "fremovexattr"; "freopen" |->& "freopen";
   "freopen64" |->& "freopen64"; "frexp" |-> "frexp_c"; "frexpl" |->& "frexpl"; "fscanf" |->& "fscanf";
   "fseek" |->& "fseek"; "fseeko" |->& "fseeko"; "fseeko64" |->& "fseeko64"; "fsetxattr" |->& "fsetxattr";
   "fstat" |->& "fstat"; "fstat64" |->& "fstat64"; "fstatat" |->& "fstatat"; "fstatat64" |->& "fstatat64";
   "fstatfs" |->& "fstatfs"; "fstatfs64" |->& "fstatfs64"; "fstatvfs" |->& "fstatvfs";
   "fstatvfs64" |->& "fstatvfs64"; "fsync" |->& "fsync"; "ftell" |->& "ftell"; "ftello" |->& "ftello";
   "ftello64" |->& "ftello64"; "ftruncate" |->& "ftruncate"; "ftruncate64" |->& "ftruncate64";
   "fts_close" |->& "fts_close"; "fts_open" |->& "fts_open"; "fts_read" |->& "fts_read"; "fts_set" |->& "fts_set";
   "ftw" |->& "ftw"; "funlockfile" |->& "funlockfile"; "futimens" |->& "futimens"; "futimesat" |->& "futimesat";
   "fwrite" |->& "fwrite"; "fwrite_unlocked" |->& "fwrite_unlocked"; "gai_strerror" |->& "gai_strerror";
   "get_current_dir_name" |->& "get_current_dir_name"; "get_nprocs" |->& "get_nprocs";
   "getaddrinfo" |->& "getaddrinfo"; "getaliasbyname" |->& "getaliasbyname"; "getaliasent" |->& "getaliasent";
   "getauxval" |->& "getauxval"; "getc" |->& "getc"; "getcontext" |->& "getcontext"; "getcwd" |->& "getcwd";
   "getdelim" |->& "getdelim"; "getdomainname" |->& "getdomainname"; "getdtablesize" |->& "getdtablesize";
   "getegid" |->& "getegid"; "getentropy" |->& "getentropy"; "getenv" |->& "getenv"; "geteuid" |->& "geteuid";
   "getgid" |->& "getgid"; "getgrent" |->& "getgrent"; "getgrgid" |->& "getgrgid"; "getgrgid_r" |->& "getgrgid_r";
   "getgrnam" |->& "getgrnam"; "getgrnam_r" |->& "getgrnam_r"; "getgrouplist" |->& "getgrouplist";
   "getgroups" |->& "getgroups"; "gethostbyaddr" |->& "gethostbyaddr"; "gethostbyaddr_r" |->& "gethostbyaddr_r";
   "gethostbyname" |->& "gethostbyname"; "gethostbyname2" |->& "gethostbyname2";
   "gethostbyname_r" |->& "gethostbyname_r"; "gethostent" |->& "gethostent"; "gethostid" |->& "gethostid";
   "gethostname" |->& "gethostname"; "getifaddrs" |->& "getifaddrs"; "getifaddrs" |->& "getifaddrs";
   "getitimer" |->& "getitimer"; "getline" |->& "getline"; "getloadavg" |->& "getloadavg";
   "getlogin" |->& "getlogin"; "getmntent" |->& "getmntent"; "getmntent_r" |->& "getmntent_r";
   "getnameinfo" |->& "getnameinfo"; "getnetbyaddr" |->& "getnetbyaddr"; "getnetbyname" |->& "getnetbyname";
   "getnetent" |->& "getnetent"; "getnetgrent" |->& "getnetgrent"; "getopt" |->& "getopt";
   "getopt_long" |->& "getopt_long"; "getopt_long_only" |->& "getopt_long_only";
   "getpagesize" |->& "getpagesize"; "getpass" |->& "getpass"; "getpeername" |->& "getpeername";
   "getpgid" |->& "getpgid"; "getpgrp" |->& "getpgrp"; "getpid" |->& "getpid"; "getppid" |->& "getppid";
   "getpriority" |->& "getpriority"; "getprotobyname" |->& "getprotobyname";
   "getprotobynumber" |->& "getprotobynumber"; "getprotoent" |->& "getprotoent"; "getpwent" |->& "getpwent";
   "getpwnam" |->& "getpwnam"; "getpwnam_r" |->& "getpwnam_r"; "getpwuid" |->& "getpwuid";
   "getpwuid_r" |->& "getpwuid_r"; "getpwuid_r" |->& "getpwuid_r"; "getpwuid_r" |->& "getpwuid_r";
   "getrandom" |->& "getrandom"; "getresgid" |->& "getresgid"; "getresuid" |->& "getresuid";
   "getrlimit" |->& "getrlimit"; "getrlimit64" |->& "getrlimit64"; "getrpcbyname" |->& "getrpcbyname";
   "getrpcbynumber" |->& "getrpcbynumber"; "getrpcent" |->& "getrpcent"; "getrusage" |->& "getrusage";
   "getservbyname" |->& "getservbyname"; "getservbyport" |->& "getservbyport";
   "getservbyport_r" |->& "getservbyport_r"; "getservent" |->& "getservent"; "getsgent" |->& "getsgent";
   "getsgnam" |->& "getsgnam"; "getsid" |->& "getsid"; "getsockname" |->& "getsockname";
   "getsockopt" |->& "getsockopt"; "getspent" |->& "getspent"; "getspnam" |->& "getspnam";
   "getspnam_r" |->& "getspnam_r"; "gettext" |->& "gettext"; "gettid" |->& "gettid";
   "gettimeofday" |->& "gettimeofday"; "getttynam" |->& "getttynam"; "getuid" |->& "getuid";
   "getusershell" |->& "getusershell"; "getutent" |->& "getutent"; "getutline" |->& "getutline";
   "getutxent" |->& "getutxent"; "getutxline" |->& "getutxline"; "getwc" |->& "getwc"; "getwchar" |->& "getwchar";
   "getxattr" |->& "getxattr"; "glob" |->& "glob"; "glob64" |->& "glob64"; "glob_pattern_p" |->& "glob_pattern_p";
   "globfree" |->& "globfree"; "globfree64" |->& "globfree64"; "gmtime" |->& "gmtime"; "gmtime_r" |->& "gmtime_r";
   "gnu_dev_major" |->& "gnu_dev_major"].

Definition libc_entries_4 : list (string * c_ref) :=
  ["gnu_dev_major" |->& "gnu_dev_major"; "gnu_dev_major" |->& "gnu_dev_major";
   "gnu_dev_major" |->& "gnu_dev_major"; "gnu_dev_major" |->& "gnu_dev_major";
   "gnu_dev_makedev" |->& "gnu_dev_makedev"; "gnu_dev_makedev" |->& "gnu_dev_makedev";
   "gnu_dev_makedev" |->& "gnu_dev_makedev"; "gnu_dev_makedev" |->& "gnu_dev_makedev";
   "gnu_dev_makedev" |->& "gnu_dev_makedev"; "gnu_dev_minor" |->& "gnu_dev_minor";
   "gnu_dev_minor" |->& "gnu_dev_minor"; "gnu_dev_minor" |->& "gnu_dev_minor";
   "gnu_dev_minor" |->& "gnu_dev_minor"; "gnu_dev_minor" |->& "gnu_dev_minor";
   "gnu_get_libc_version" |->& "gnu_get_libc_version"; "grantpt" |->& "grantpt";
   "group_member" |->& "group_member"; "hasmntopt" |->& "hasmntopt"; "herror" |->& "herror";
   "hstrerror" |->& "hstrerror"; "iconv" |->& "iconv"; "iconv_close" |->& "iconv_close";
   "iconv_open" |->& "iconv_open"; "if_freenameindex" |->& "if_freenameindex";
   "if_indextoname" |->& "if_indextoname"; "if_nameindex" |->& "if_nameindex";
   "if_nametoindex" |->& "if_nametoindex"; "in6addr_any" |->& "in6addr_any"; "in6addr_any" |->& "in6addr_any";
   "in6addr_loopback" |->& "in6addr_loopback"; "inet_addr" |->& "inet_addr"; "inet_aton" |->& "inet_aton";
   "inet_nsap_ntoa" |->& "inet_nsap_ntoa"; "inet_ntoa" |->& "inet_ntoa"; "inet_ntop" |->& "inet_ntop";
   "inet_pton" |->& "inet_pton"; "initgroups" |->& "initgroups"; "innetgr" |->& "innetgr";
   "inotify_add_watch" |->& "inotify_add_watch"; "inotify_init" |->& "inotify_init";
   "inotify_init1" |->& "inotify_init1"; "inotify_rm_watch" |->& "inotify_rm_watch"; "ioctl" |->& "ioctl";
   "iopl" |->& "iopl"; "isalnum" |->& "isalnum"; "isalpha" |->& "isalpha"; "isatty" |->& "isatty";
   "isblank" |->& "isblank"; "iscntrl" |->& "iscntrl"; "isdigit" |->& "isdigit"; "isgraph" |->& "isgraph";
   "islower" |->& "islower"; "isprint" |->& "isprint"; "ispunct" |->& "ispunct"; "isspace" |->& "isspace";
   "isupper" |->& "isupper"; "iswalnum" |->& "iswalnum"; "iswalpha" |->& "iswalpha"; "iswcntrl" |->& "iscntrl";
   "iswctype" |->& "iswctype"; "iswdigit" |->& "iswdigit"; "iswgraph" |->& "iswgraph"; "iswlower" |->& "iswlower";
   "iswprint" |->& "isprint"; "iswspace" |->& "iswspace"; "iswupper" |->& "iswupper"; "isxdigit" |->& "isxdigit";
   "jrand48" |->& "jrand48"; "kill" |->& "kill"; "killpg" |->& "killpg"; "klogctl" |->& "klogctl";
   "l64a" |->& "l64a"; "lchmod" |->& "lchmod"; "lchown" |->& "lchown"; "lckpwdf" |->& "lckpwdf";
   "ldexp" |-> "ldexp_c"; "ldexpl" |->& "ldexpl"; "lgetxattr" |->& "lgetxattr"; "link" |->& "link";
   "linkat" |->& "linkat"; "listen" |->& "listen"; "listen" |->& "listen"; "listxattr" |->& "listxattr";
   "llistxattr" |->& "llistxattr"; "localeconv" |->& "localeconv"; "localtime" |->& "localtime";
   "localtime_r" |->& "localtime_r"; "lockf" |->& "lockf"; "lockf64" |->& "lockf64";
   "lremovexattr" |->& "lremovexattr"; "lsearch" |->& "lsearch"; "lseek" |->& "lseek"; "lseek" |->& "lseek";
   "lseek64" |->& "lseek64"; "lsetxattr" |->& "lsetxattr"; "lstat" |->& "lstat"; "lstat64" |->& "lstat64";
   "lutimes" |->& "lutimes"; "madvise" |->& "madvise"; "makecontext" |->& "makecontext";
   "mallinfo" |->& "mallinfo"; "mallinfo2" |->& "mallinfo2"; "malloc" |->& "malloc";
   "malloc_trim" |->& "malloc_trim"; "malloc_usable_size" |->& "malloc_usable_size"; "mblen" |->& "mblen";
   "mbrtowc" |->& "mbrtowc"; "mbsinit" |->& "mbsinit"; "mbsnrtowcs" |->& "mbsnrtowcs";
   "mbsrtowcs" |->& "mbsrtowcs"; "mbstowcs" |->& "mbstowcs"; "mbtowc" |->& "mbtowc"; "memccpy" |->& "memccpy";
   "memchr" |-> "memchr_c"; "memcmp" |->& "memcmp"; "memcpy" |->& "memcpy"; "memfd_create" |->& "memfd_create";
   "memmem" |->& "memmem"; "memmove" |->& "memmove"; "mempcpy" |->& "mempcpy"; "memrchr" |->& "memrchr_c";
   "memset" |->& "memset"; "mincore" |->& "mincore"; "mkdir" |->& "mkdir"; "mkdirat" |->& "mkdirat";
   "mkdtemp" |->& "mkdtemp"; "mkfifo" |->& "mkfifo"; "mkfifoat" |->& "mkfifoat"; "mknod" |->& "mknod";
   "mknodat" |->& "mknodat"; "mkostemp" |->& "mkostemp"; "mkostemp64" |->& "mkostemp64"; "mkstemp" |->& "mkstemp";
   "mkstemp64" |->& "mkstemp64"; "mkstemp64" |->& "mkstemp64"; "mkstemps" |->& "mkstemps"; "mktime" |->& "mktime";
   "mlock" |->& "mlock"; "mmap" |->& "mmap"; "mmap64" |->& "mmap64"; "modf" |->& "modf_c"; "mount" |->& "mount";
   "mprotect" |->& "mprotect"; "mq_getattr" |->& "mq_getattr"; "mremap" |->& "mremap"; "msgctl" |->& "msgctl";
   "msync" |->& "msync"; "mtrace" |->& "mtrace"; "munlock" |->& "munlock"; "munmap" |->& "munmap"].

Definition libc_entries_5 : list (string * c_ref) :=
  ["name_to_handle_at" |->& "name_to_handle_at"; "nanosleep" |->& "nanosleep"; "newlocale" |->& "newlocale";
   "nftw64" |->& "nftw64"; "nice" |->& "nice"; "nl_langinfo" |->& "nl_langinfo";
   "ns_name_uncompress" |->& "ns_name_uncompress"; "ntp_gettimex" |->& "ntp_gettimex";
   "obstack_free" |->& "obstack_free"; "obstack_printf" |->& "obstack_printf";
   "obstack_vprintf" |->& "obstack_vprintf"; "open" |->& "open"; "open64" |->& "open64";
   "open_by_handle_at" |->& "open_by_handle_at"; "open_memstream" |->& "open_memstream"; "openat" |->& "openat";
   "openat64" |->& "openat64"; "opendir" |->& "opendir"; "openlog" |->& "openlog"; "openpty" |->& "openpty";
   "optarg" |->& "optarg"; "opterr" |->& "opterr"; "optind" |->& "optind"; "optopt" |->& "optopt";
   "parse_printf_format" |->& "parse_printf_format"; "pathconf" |->& "pathconf"; "pause" |->& "pause";
   "pclose" |->& "pclose"; "perror" |->& "perror"; "personality" |->& "personality"; "pipe" |->& "pipe";
   "pipe2" |->& "pipe2"; "poll" |->& "poll"; "popen" |->& "popen"; "posix_fadvise" |->& "posix_fadvise";
   "posix_fadvise64" |->& "posix_fadvise64"; "posix_fallocate" |->& "posix_fallocate";
   "posix_fallocate64" |->& "posix_fallocate64"; "posix_madvise" |->& "posix_madvise";
   "posix_memalign" |->& "posix_memalign"; "posix_openpt" |->& "posix_openpt"; "posix_spawn" |->& "posix_spawn";
   "posix_spawn_file_actions_addclose" |->& "posix_spawn_file_actions_addclose";
   "posix_spawn_file_actions_adddup2" |->& "posix_spawn_file_actions_adddup2";
   "posix_spawn_file_actions_addopen" |->& "posix_spawn_file_actions_addopen";
   "posix_spawn_file_actions_destroy" |->& "posix_spawn_file_actions_destroy";
   "posix_spawn_file_actions_init" |->& "posix_spawn_file_actions_init";
   "posix_spawnattr_destroy" |->& "posix_spawnattr_destroy";
   "posix_spawnattr_init" |->& "posix_spawnattr_init";
   "posix_spawnattr_setflags" |->& "posix_spawnattr_setflags";
   "posix_spawnattr_setpgroup" |->& "posix_spawnattr_setpgroup";
   "posix_spawnattr_setschedparam" |->& "posix_spawnattr_setschedparam";
   "posix_spawnattr_setschedpolicy" |->& "posix_spawnattr_setschedpolicy";
   "posix_spawnattr_setsigdefault" |->& "posix_spawnattr_setsigdefault";
   "posix_spawnattr_setsigmask" |->& "posix_spawnattr_setsigmask"; "posix_spawnp" |->& "posix_spawnp";
   "ppoll" |->& "ppoll"; "prctl" |->& "prctl"; "pread" |->& "pread"; "pread64" |->& "pread64";
   "preadv64v2" |->& "preadv64v2"; "printf" |->& "printf"; "process_vm_readv" |->& "process_vm_readv";
   "process_vm_writev" |->& "process_vm_writev"; "program_invocation_name" |->& "program_invocation_name";
   "program_invocation_short_name" |->& "program_invocation_short_name"; "pselect" |->& "pselect";
   "pthread_getattr_np" |->& "pthread_getattr_np";
   "pthread_attr_getguardsize" |->& "pthread_attr_getguardsize"; "__fxstat64" |->& "fstat64";
   "pthread_attr_getstack" |->& "pthread_attr_getstack"; "bcmp" |->& "bcmp"; "__lxstat64" |->& "lstat64";
   "__xstat64" |->& "stat64"; "__fxstatat64" |->& "fstatat64";
   "pthread_attr_destroy" |->& "pthread_attr_destroy";
   "pthread_attr_getstacksize" |->& "pthread_attr_getstacksize"; "pthread_attr_init" |->& "pthread_attr_init";
   "pthread_attr_setdetachstate" |->& "pthread_attr_setdetachstate";
   "pthread_attr_setguardsize" |->& "pthread_attr_setguardsize";
   "pthread_attr_setinheritsched" |->& "pthread_attr_setinheritsched";
   "pthread_attr_setscope" |->& "pthread_attr_setscope";
   "pthread_attr_setstacksize" |->& "pthread_attr_setstacksize";
   "pthread_barrier_destroy" |->& "pthread_barrier_destroy";
   "pthread_barrier_init" |->& "pthread_barrier_init"; "pthread_barrier_wait" |->& "pthread_barrier_wait";
   "pthread_cancel" |->& "pthread_cancel"; "pthread_cond_broadcast" |->& "pthread_cond_broadcast";
   "pthread_cond_broadcast" |->& "pthread_cond_broadcast"; "pthread_cond_destroy" |->& "pthread_cond_destroy";
   "pthread_cond_destroy" |->& "pthread_cond_destroy"; "pthread_cond_init" |->& "pthread_cond_init";
   "pthread_cond_init" |->& "pthread_cond_init"; "pthread_cond_signal" |->& "pthread_cond_signal";
   "pthread_cond_signal" |->& "pthread_cond_signal"; "pthread_cond_timedwait" |->& "pthread_cond_timedwait";
   "pthread_cond_wait" |->& "pthread_cond_wait"; "pthread_cond_wait" |->& "pthread_cond_wait";
   "pthread_condattr_destroy" |->& "pthread_condattr_destroy";
   "pthread_condattr_init" |->& "pthread_condattr_init";
   "pthread_condattr_setclock" |->& "pthread_condattr_setclock";
   "pthread_condattr_setpshared" |->& "pthread_condattr_setpshared"; "pthread_create" |->& "pthread_create";
   "pthread_detach" |->& "pthread_detach"; "pthread_equal" |->& "pthread_equal";
   "pthread_exit" |->& "pthread_exit"; "pthread_getconcurrency" |->& "pthread_getconcurrency";
   "pthread_getcpuclockid" |->& "pthread_getcpuclockid"; "pthread_getname_np" |->& "pthread_getname_np";
   "pthread_getspecific" |->& "pthread_getspecific"; "pthread_getspecific" |->& "pthread_getspecific";
   "pthread_getspecific" |->& "pthread_getspecific"; "pthread_join" |->& "pthread_join";
   "pthread_join" |->& "pthread_join"; "pthread_join" |->& "pthread_join"; "pthread_join" |->& "pthread_join";
   "pthread_key_create" |->& "pthread_key_create"; "pthread_key_delete" |->& "pthread_key_delete";
   "pthread_kill" |->& "pthread_kill"; "pthread_mutex_consistent" |->& "pthread_mutex_consistent";
   "pthread_mutex_consistent" |->& "pthread_mutex_consistent";
   "pthread_mutex_consistent" |->& "pthread_mutex_consistent";
   "pthread_mutex_consistent" |->& "pthread_mutex_consistent";
   "pthread_mutex_destroy" |->& "pthread_mutex_destroy"; "pthread_mutex_init" |->& "pthread_mutex_init";
   "pthread_mutex_lock" |->& "pthread_mutex_lock"; "pthread_mutex_timedlock" |->& "pthread_mutex_timedlock";
   "pthread_mutex_trylock" |->& "pthread_mutex_trylock"; "pthread_mutex_unlock" |->& "pthread_mutex_unlock";
   "pthread_mutexattr_destroy" |->& "pthread_mutexattr_destroy";
   "pthread_mutexattr_init" |->& "pthread_mutexattr_init";
   "pthread_mutexattr_setpshared" |->& "pthread_mutexattr_setpshared";
   "pthread_mutexattr_setrobust" |->& "pthread_mutexattr_setrobust";
   "pthread_mutexattr_setrobust" |->& "pthread_mutexattr_setrobust";
   "pthread_mutexattr_setrobust" |->& "pthread_mutexattr_setrobust";
   "pthread_mutexattr_setrobust" |->& "pthread_mutexattr_setrobust";
   "pthread_mutexattr_settype" |->& "pthread_mutexattr_settype"; "pthread_once" |->& "pthread_once";
   "pthread_rwlock_destroy" |->& "pthread_rwlock_destroy"; "pthread_rwlock_init" |->& "pthread_rwlock_init";
   "pthread_rwlock_rdlock" |->& "pthread_rwlock_rdlock";
   "pthread_rwlock_timedrdlock" |->& "pthread_rwlock_timedrdlock";
   "pthread_rwlock_timedwrlock" |->& "pthread_rwlock_timedwrlock";
   "pthread_rwlock_tryrdlock" |->& "pthread_rwlock_tryrdlock";
   "pthread_rwlock_trywrlock" |->& "pthread_rwlock_trywrlock";
   "pthread_rwlock_unlock" |->& "pthread_rwlock_unlock"; "pthread_rwlock_wrlock" |->& "pthread_rwlock_wrlock";
   "pthread_rwlockattr_destroy" |->& "pthread_rwlockattr_destroy"].

Definition libc_entries_6 : list (string * c_ref) :=
  ["pthread_rwlockattr_init" |->& "pthread_rwlockattr_init";
   "pthread_rwlockattr_setkind_np" |->& "pthread_rwlockattr_setkind_np";
   "pthread_rwlockattr_setpshared" |->& "pthread_rwlockattr_setpshared"; "pthread_self" |->& "pthread_self";
   "pthread_setcancelstate" |->& "pthread_setcancelstate";
   "pthread_setconcurrency" |->& "pthread_setconcurrency"; "pthread_setname_np" |->& "pthread_setname_np";
   "pthread_setspecific" |->& "pthread_setspecific"; "pthread_sigmask" |->& "pthread_sigmask";
   "pthread_tryjoin_np" |->& "pthread_tryjoin_np"; "ptrace" |->& "ptrace"; "ptsname" |->& "ptsname";
   "ptsname_r" |->& "ptsname_r"; "putc" |->& "putc"; "putchar" |->& "putchar"; "putenv" |->& "putenv";
   "putgrent" |->& "putgrent"; "putpwent" |->& "putpwent"; "puts" |->& "puts"; "putsgent" |->& "putsgent";
   "putspent" |->& "putspent"; "pututline" |->& "pututline"; "pututxline" |->& "pututxline"; "putwc" |->& "putwc";
   "putwchar" |->& "putwchar"; "pwrite" |->& "pwrite"; "pwrite64" |->& "pwrite64";
   "pwritev64v2" |->& "pwritev64v2"; "qsort" |->& "qsort"; "qsort_r" |->& "qsort_r"; "raise" |->& "raise";
   "rand" |->& "rand"; "rand_r" |->& "rand_r"; "random" |->& "random"; "rawmemchr" |-> "rawmemchr_c";
   "re_compile_pattern" |->& "re_compile_pattern"; "re_match" |->& "re_match"; "re_search" |->& "re_search";
   "re_set_syntax" |->& "re_set_syntax"; "read" |->& "read"; "readdir" |->& "readdir";
   "readdir64" |->& "readdir64"; "readlink" |->& "readlink"; "readlinkat" |->& "readlinkat"; "readv" |->& "readv";
   "realloc" |->& "realloc"; "reallocarray" |->& "reallocarray"; "realpath" |->& "realpath"; "recv" |->& "recv";
   "recvfrom" |->& "recvfrom"; "recvmmsg" |->& "recvmmsg"; "recvmsg" |->& "recvmsg"; "regcomp" |->& "regcomp";
   "regerror" |->& "regerror"; "regexec" |->& "regexec"; "regfree" |->& "regfree"; "remove" |->& "remove";
   "removexattr" |->& "removexattr"; "rename" |->& "rename"; "renameat" |->& "renameat";
   "renameat2" |->& "renameat2"; "res_dnok" |->& "res_dnok"; "res_hnok" |->& "res_hnok";
   "res_nquery" |->& "res_nquery"; "res_nsearch" |->& "res_nsearch"; "res_query" |->& "res_query";
   "rewind" |->& "rewind"; "rewinddir" |->& "rewinddir"; "rindex" |->& "rindex_c"; "rmdir" |->& "rmdir";
   "rpmatch" |->& "rpmatch"; "ruserok" |->& "ruserok"; "sbrk" |->& "sbrk"; "scandir" |->& "scandir";
   "scandir64" |->& "scandir64"; "scandirat" |->& "scandirat";
   "sched_get_priority_max" |->& "sched_get_priority_max";
   "sched_get_priority_min" |->& "sched_get_priority_min"; "sched_getaffinity" |->& "sched_getaffinity";
   "sched_getparam" |->& "sched_getparam"; "sched_getscheduler" |->& "sched_getscheduler";
   "sched_rr_get_interval" |->& "sched_rr_get_interval"; "sched_setaffinity" |->& "sched_setaffinity";
   "sched_setparam" |->& "sched_setparam"; "sched_setscheduler" |->& "sched_setscheduler";
   "sched_yield" |->& "sched_yield"; "secure_getenv" |->& "secure_getenv"; "select" |->& "select";
   "sem_clockwait" |->& "sem_clockwait"; "sem_destroy" |->& "sem_destroy"; "sem_init" |->& "sem_init";
   "sem_post" |->& "sem_post"; "sem_trywait" |->& "sem_trywait"; "sem_wait" |->& "sem_wait";
   "semctl" |->& "semctl"; "send" |->& "send"; "sendfile" |->& "sendfile"; "sendfile64" |->& "sendfile64";
   "sendmmsg" |->& "sendmmsg"; "sendmsg" |->& "sendmsg"; "sendto" |->& "sendto"; "setaliasent" |->& "setaliasent";
   "setbuf" |->& "setbuf"; "setbuf" |->& "setbuf"; "setbuffer" |->& "setbuffer"; "setcontext" |->& "setcontext";
   "setdomainname" |->& "setdomainname"; "setegid" |->& "setegid"; "setenv" |->& "setenv";
   "seteuid" |->& "seteuid"; "setfsgid" |->& "setfsgid"; "setfsuid" |->& "setfsuid"; "setgid" |->& "setgid";
   "setgrent" |->& "setgrent"; "setgroups" |->& "setgroups"; "sethostent" |->& "sethostent";
   "sethostname" |->& "sethostname"; "setitimer" |->& "setitimer"; "setlinebuf" |->& "setlinebuf";
   "setlocale" |->& "setlocale"; "setlogmask" |->& "setlogmask"; "setmntent" |->& "setmntent";
   "setnetent" |->& "setnetent"; "setnetgrent" |->& "setnetgrent"; "setns" |->& "setns"; "setpgid" |->& "setpgid";
   "setpgrp" |->& "setpgrp"; "setpriority" |->& "setpriority"; "setprotoent" |->& "setprotoent";
   "setpwent" |->& "setpwent"; "setregid" |->& "setregid"; "setresgid" |->& "setresgid";
   "setresuid" |->& "setresuid"; "setreuid" |->& "setreuid"; "setrlimit" |->& "setrlimit";
   "setrlimit64" |->& "setrlimit64"; "setrpcent" |->& "setrpcent"; "setservent" |->& "setservent";
   "setsgent" |->& "setsgent"; "setsid" |->& "setsid"; "setsid" |->& "setsid"; "setsockopt" |->& "setsockopt";
   "setspent" |->& "setspent"; "settimeofday" |->& "settimeofday"; "setuid" |->& "setuid";
   "setusershell" |->& "setusershell"; "setutent" |->& "setutent"; "setutxent" |->& "setutxent";
   "setvbuf" |->& "setvbuf"; "setxattr" |->& "setxattr"].

Definition libc_entries_7 : list (string * c_ref) :=
  ["sgetspent" |->& "sgetspent"; "shmat" |->& "shmat"; "shmctl" |->& "shmctl"; "shmdt" |->& "shmdt";
   "shmget" |->& "shmget"; "shutdown" |->& "shutdown"; "sigabbrev_np" |->& "sigabbrev_np";
   "sigaction" |->& "sigaction"; "sigaddset" |->& "sigaddset"; "sigaltstack" |->& "sigaltstack";
   "sigdelset" |->& "sigdelset"; "sigemptyset" |->& "sigemptyset"; "sigfillset" |->& "sigfillset";
   "sigfillset" |->& "sigfillset"; "sigfillset" |->& "sigfillset"; "sigisemptyset" |->& "sigisemptyset";
   "sigismember" |->& "sigismember"; "signal" |->& "signal"; "signalfd" |->& "signalfd";
   "sigpending" |->& "sigpending"; "sigprocmask" |->& "sigprocmask"; "sigqueue" |->& "sigqueue";
   "sigset" |->& "sigset"; "sigsuspend" |->& "sigsuspend"; "sigtimedwait" |->& "sigtimedwait";
   "sigwait" |->& "sigwait"; "sigwaitinfo" |->& "sigwaitinfo"; "sleep" |->& "sleep"; "snprintf" |->& "snprintf";
   "socket" |->& "socket"; "socketpair" |->& "socketpair"; "splice" |->& "splice"; "sprintf" |->& "sprintf";
   "sprintf" |->& "sprintf"; "srand" |->& "srand"; "srandom" |->& "srandom"; "sscanf" |->& "sscanf";
   "stat" |->& "stat"; "stat64" |->& "stat64"; "statfs" |->& "statfs"; "statfs" |->& "statfs";
   "statfs64" |->& "statfs64"; "statvfs" |->& "statvfs"; "statvfs64" |->& "statvfs64"; "statx" |->& "statx";
   "stderr" |->& "stderr"; "stdin" |->& "stdin"; "stdout" |->& "stdout"; "stpcpy" |->& "stpcpy";
   "stpncpy" |->& "stpncpy"; "strcasecmp" |->& "strcasecmp"; "strcasestr" |->& "strcasestr_c";
   "strcat" |->& "strcat"; "strchr" |-> "strchr_c"; "strchrnul" |-> "strchrnul_c"; "strcmp" |->& "strcmp";
   "strcoll" |->& "strcoll"; "strcpy" |->& "strcpy"; "strcspn" |->& "strcspn"; "strdup" |->& "strdup";
   "strdup" |->& "strdup"; "strerror" |->& "strerror"; "strerror_l" |->& "strerror_l";
   "strerror_r" |->& "strerror_r"; "strftime" |->& "strftime"; "strlen" |->& "strlen";
   "strncasecmp" |->& "strncasecmp"; "strncat" |->& "strncat"; "strncmp" |->& "strncmp"; "strncpy" |->& "strncpy";
   "strndup" |->& "strndup"; "strnlen" |->& "strnlen"; "strpbrk" |-> "strpbrk_c"; "strptime" |->& "strptime";
   "strrchr" |-> "strrchr_c"; "strsep" |->& "strsep"; "strsignal" |->& "strsignal"; "strspn" |->& "strspn";
   "strstr" |-> "strstr_c"; "strtod" |->& "strtod"; "strtod_l" |->& "strtod_l"; "strtof" |->& "strtof";
   "strtoimax" |->& "strtoimax"; "strtok" |->& "strtok"; "strtok_r" |->& "strtok_r"; "strtok_r" |->& "strtok_r";
   "strtol" |->& "strtol"; "strtold" |->& "strtold"; "strtold_l" |->& "strtold_l"; "strtoll" |->& "strtoll";
   "strtoll_l" |->& "strtoll_l"; "strtoul" |->& "strtoul"; "strtoull" |->& "strtoull";
   "strtoull_l" |->& "strtoull_l"; "strtoumax" |->& "strtoumax"; "strverscmp" |->& "strverscmp";
   "strxfrm" |->& "strxfrm"; "swapcontext" |->& "swapcontext"; "symlink" |->& "symlink";
   "symlinkat" |->& "symlinkat"; "sync" |->& "sync"; "sync_file_range" |->& "sync_file_range";
   "syncfs" |->& "syncfs"; "syscall" |->& "syscall"; "sysconf" |->& "sysconf"; "sysinfo" |->& "sysinfo";
   "system" |->& "system"; "tcdrain" |->& "tcdrain"; "tcflow" |->& "tcflow"; "tcflush" |->& "tcflush";
   "tcflush" |->& "tcflush"; "tcgetattr" |->& "tcgetattr"; "tcgetpgrp" |->& "tcgetpgrp";
   "tcsetattr" |->& "tcsetattr"; "tcsetpgrp" |->& "tcsetpgrp"; "tdelete" |->& "tdelete";
   "tdestroy" |->& "tdestroy"; "tempnam" |->& "tempnam"; "textdomain" |->& "textdomain"; "tfind" |->& "tfind";
   "time" |->& "time"; "timegm" |->& "timegm"; "timer_create" |->& "timer_create";
   "timer_delete" |->& "timer_delete"; "timer_gettime" |->& "timer_gettime";
   "timer_settime" |->& "timer_settime"; "timerfd_create" |->& "timerfd_create";
   "timerfd_settime" |->& "timerfd_settime"; "times" |->& "times"; "tmpfile" |->& "tmpfile";
   "tmpfile64" |->& "tmpfile64"; "tolower" |->& "tolower"; "toupper" |->& "toupper"; "towlower" |->& "towlower";
   "towupper" |->& "towupper"; "truncate" |->& "truncate"; "truncate64" |->& "truncate64";
   "tsearch" |->& "tsearch"; "ttyname" |->& "ttyname"; "ttyname_r" |->& "ttyname_r"; "twalk" |->& "twalk";
   "tzname" |->& "tzname"; "tzset" |->& "tzset"; "ulckpwdf" |->& "ulckpwdf"; "umask" |->& "umask";
   "umount" |->& "umount"; "umount2" |->& "umount2"; "uname" |->& "uname"; "uname" |->& "uname";
   "ungetc" |->& "ungetc"].

Definition libc_entries_8 : list (string * c_ref) :=
  ["ungetwc" |->& "ungetwc"; "unlink" |->& "unlink"; "unlinkat" |->& "unlinkat"; "unlockpt" |->& "unlockpt";
   "unsetenv" |->& "unsetenv"; "unshare" |->& "unshare"; "updwtmpx" |->& "updwtmpx"; "uselocale" |->& "uselocale";
   "usleep" |->& "usleep"; "utime" |->& "utime"; "utimensat" |->& "utimensat"; "utimes" |->& "utimes";
   "utmpxname" |->& "utmpxname"; "vasprintf" |->& "vasprintf"; "versionsort" |->& "versionsort";
   "vfork" |->& "vfork"; "vfprintf" |->& "vfprintf"; "vmsplice" |->& "vmsplice"; "vsnprintf" |->& "vsnprintf";
   "wait" |->& "wait"; "wait3" |->& "wait3"; "wait4" |->& "wait4"; "waitid" |->& "waitid"; "waitpid" |->& "waitpid";
   "warn" |->& "warn"; "warnx" |->& "warnx"; "wcrtomb" |->& "wcrtomb"; "wcscat" |->& "wcscat";
   "wcschr" |->& "wcschr_c"; "wcscmp" |->& "wcscmp"; "wcscoll" |->& "wcscoll"; "wcscpy" |->& "wcscpy";
   "wcscspn" |->& "wcscspn"; "wcsdup" |->& "wcsdup"; "wcsftime" |->& "wcsftime"; "wcslen" |->& "wcslen";
   "wcsncat" |->& "wcsncat"; "wcsncmp" |->& "wcsncmp"; "wcsncpy" |->& "wcsncpy"; "wcsnlen" |->& "wcsnlen";
   "wcsnrtombs" |->& "wcsnrtombs"; "wcspbrk" |->& "wcspbrk_c"; "wcsrchr" |->& "wcsrchr_c";
   "wcsrtombs" |->& "wcsrtombs"; "wcsstr" |->& "wcsstr_c"; "wcstok" |->& "wcstok"; "wcstol" |->& "wcstol";
   "wcstombs" |->& "wcstombs"; "wcswidth" |->& "wcswidth"; "wcsxfrm" |->& "wcsxfrm"; "wctob" |->& "wctob";
   "wctomb" |->& "wctomb"; "wctype" |->& "wctype"; "wcwidth" |->& "wcwidth"; "wmemchr" |->& "wmemchr_c";
   "wmemcmp" |->& "wmemcmp"; "wmemcpy" |->& "wmemcpy"; "wmemmove" |->& "wmemmove"; "wmemset" |->& "wmemset";
   "write" |->& "write"; "writev" |->& "writev"].

Definition libc_entries : list (string * c_ref) :=
  libc_entries_0 ++ libc_entries_1 ++ libc_entries_2 ++ libc_entries_3 ++ libc_entries_4 ++
  libc_entries_5 ++ libc_entries_6 ++ libc_entries_7 ++ libc_entries_8.

(** A [std::map] made from a list of pairs keeps the first pair of each key. *)
Definition libc_table : gmap string c_ref := list_to_map libc_entries.

Definition libc_tls_entries : list (string * string) :=
  [("errno", "errno"); ("__h_errno", "h_errno"); ("__resp", "_res")]%string.

(** The addresses of the functions and variables of the process sloader runs in. *)
Class CObjects := { address_of : string → Z }.

Section tables.
Context `{CObjects}.

(** A function, or a variable without [&], gives the function; a variable with [&] gives the variable. *)
Definition c_ref_address (r : c_ref) : Z :=
  match r with
  | AddressOf name => address_of name
  | ValueOf name =>
      match list_find (λ p, p.1 = name) function_pointers with
      | Some (_, (_, f)) => address_of f
      | None => address_of name
      end
  end.

#[export] Instance sloader_libc : LibcMap := {|
  sloader_libc_map := λ name, c_ref_address <$> libc_table !! name;
  sloader_libc_tls_variables := λ name,
    address_of <$> (list_to_map libc_tls_entries : gmap string string) !! name
|}.
End tables.

(** * What is in the table *)

(** The names whose entry takes the address of a variable instead of its value. *)
Definition address_of_pointer : list string :=
  ["__rawmemchr"; "modf"; "rindex"; "strcasestr"; "wcspbrk"; "wcsstr"; "wmemchr"]%string.

Definition pointer_variables : list string := map fst function_pointers.

(** Whether the operand of an entry ends up as the address of a variable. *)
Definition is_variable_address (r : c_ref) : bool :=
  match r with AddressOf n => bool_decide (n ∈ pointer_variables) | ValueOf _ => false end.

Lemma libc_table_elem name r : libc_table !! name = Some r → (name, r) ∈ libc_entries.
Proof. apply elem_of_list_to_map_2. Qed.

Lemma libc_entries_check (p : string * c_ref → bool) :
  forallb p libc_entries = true → ∀ name r, libc_table !! name = Some r → p (name, r) = true.
Proof. rewrite forallb_forall. intros Hp name r Hr. apply Hp, list_elem_of_In. by apply libc_table_elem. Qed.

Lemma pointer_entries_check :
  forallb (λ e, Bool.eqb (is_variable_address e.2) (bool_decide (e.1 ∈ address_of_pointer))) libc_entries = true.
Proof. vm_compute. reflexivity. Qed.

Lemma value_entries_check :
  forallb (λ e, match e.2 with ValueOf n => bool_decide (n ∈ pointer_variables) | _ => true end) libc_entries = true.
Proof. vm_compute. reflexivity. Qed.

Lemma pointer_targets_check :
  forallb (λ p, negb (bool_decide (p.2 ∈ pointer_variables))) function_pointers = true.
Proof. vm_compute. reflexivity. Qed.

Lemma unshadowed_check :
  forallb (λ e, bool_decide (libc_table !! e.1 = Some e.2)) libc_entries = true.
Proof. vm_compute. reflexivity. Qed.

Lemma sloader_libc_map_lookup `{CObjects} name : sloader_libc_map name = c_ref_address <$> libc_table !! name.
Proof. reflexivity. Qed.

Section table_theorems.
Context `{CObjects}.

(** The table stands for functions, but for seven names: every other name
    in it is given the address of a function, while for these seven the entry is
    the address of the variable that holds the function pointer, so a program
    that calls them jumps into data. *)
Lemma libc_map_functions name a :
  sloader_libc_map name = Some a →
  if decide (name ∈ address_of_pointer)
  then ∃ v f, (v, f) ∈ function_pointers ∧ a = address_of v
  else ∃ f, f ∉ pointer_variables ∧ a = address_of f.
Proof.
  rewrite sloader_libc_map_lookup. intros (r & Hr & ->)%fmap_Some.
  pose proof (libc_entries_check _ pointer_entries_check _ _ Hr) as Hp.
  pose proof (libc_entries_check _ value_entries_check _ _ Hr) as Hv. cbn [fst snd] in *.
  apply Bool.eqb_prop in Hp. unfold is_variable_address in Hp. destruct (decide (name ∈ address_of_pointer)) as [Hin|Hin].
  - rewrite bool_decide_true in Hp by done. destruct r as [n|n]; [|done].
    apply bool_decide_eq_true in Hp. unfold pointer_variables in Hp.
    apply list_elem_of_fmap in Hp as ([v f] & -> & Hvf).
    exists v, f. split; [exact Hvf|reflexivity].
  - rewrite bool_decide_false in Hp by done. destruct r as [n|n]; cbn [c_ref_address].
    + apply bool_decide_eq_false in Hp. exists n. split; [exact Hp|reflexivity].
    + apply bool_decide_eq_true in Hv. unfold pointer_variables in Hv. apply list_elem_of_fmap in Hv as ([v f] & Hn & Hvf).
      cbn [fst] in Hn. subst n.
      destruct (list_find (λ p, p.1 = v) function_pointers) as [[i [v' f']]|] eqn:Ef.
      * apply list_find_Some in Ef as (Hi & _ & _). exists f'. split; [|reflexivity].
        pose proof pointer_targets_check as Hall. rewrite forallb_forall in Hall.
        specialize (Hall (v', f') (proj1 (list_elem_of_In _ _) (list_elem_of_lookup_2 _ _ _ Hi))).
        apply negb_true_iff, bool_decide_eq_false in Hall. exact Hall.
      * apply list_find_None in Ef. rewrite Forall_forall in Ef. destruct (Ef _ Hvf eq_refl).
Qed.

(** No entry of the initialiser is shadowed: names occur in it up to five
    times, but always with the same address. *)
Lemma libc_entries_unshadowed name r :
  (name, r) ∈ libc_entries → sloader_libc_map name = Some (c_ref_address r).
Proof.
  intros Hin. pose proof unshadowed_check as Hall. rewrite forallb_forall in Hall.
  specialize (Hall (name, r) (proj1 (list_elem_of_In _ _) Hin)). apply bool_decide_eq_true in Hall.
  rewrite sloader_libc_map_lookup. cbn [fst snd] in Hall. by rewrite Hall.
Qed.
End table_theorems.
