(* ===== verification/LibcCode.v ===== *)
(** * The functions of libc_mapping.cc

    The stand-ins of sloader's own that the table of LibcMapping refers to: the
    wrappers of memrchr, wcschr and wcsrchr, the registration functions, the
    start of the program's [main], and the lookup of thread-local variables. *)

From S2P Require Import Prelude Memory Digits Elf Utils Os ElfBinary ElfDynamic ElfFile FindLibrary DynLoader Symbols Execute.

(** ** memrchr_c *)

(** memchr(3): the first byte that is [c] in the [n] bytes at [s]. *)
Definition memchr (m : memory) (s c n : Z) : option Z := find (λ x, byte_at m x =? c mod 256) (range s n).

(** The stand-in for memrchr calls memchr. *)
Definition memrchr_c (m : memory) (s c n : Z) : option Z := memchr m s c n.

(** memrchr(3): the last such byte. *)
Definition occurrences (m : memory) (s c n : Z) : list Z :=
  filter (λ x, byte_at m x = c mod 256) (range s n).
Definition memrchr (m : memory) (s c n : Z) : option Z := last (occurrences m s c n).

Lemma find_filter (p : Z → bool) (P : Z → Prop) `{∀ x, Decision (P x)} l :
  (∀ x, p x = true ↔ P x) → find p l = head (filter P l).
Proof.
  intros Hp. induction l as [|x l IH]; [done|]. cbn [find]. rewrite filter_cons, IH.
  destruct (decide (P x)) as [HP|HP]; [by rewrite (proj2 (Hp x) HP)|].
  destruct (p x) eqn:E; [by apply Hp in E|done].
Qed.

Lemma head_last_NoDup {A} (l : list A) : NoDup l → head l = last l ↔ (length l ≤ 1)%nat.
Proof.
  intros Hnd. destruct l as [|x [|y l]]; [by split; [cbn; lia|]..|]. split; [|cbn; lia]. intros Heq. exfalso.
  cbn [head] in Heq. symmetry in Heq. rewrite last_cons_cons in Heq. apply last_Some in Heq as [l' Hl'].
  apply NoDup_cons in Hnd as [Hx _]. apply Hx. rewrite Hl'. set_solver.
Qed.

(** The stand-in for memrchr is right only when the byte occurs at most once:
    it finds the first occurrence where the last is asked for. *)
Lemma memrchr_c_correct m s c n :
  memrchr_c m s c n = memrchr m s c n ↔
  (length (occurrences m s c n) ≤ 1)%nat.
Proof.
  unfold memrchr_c, memchr, memrchr, occurrences. rewrite (find_filter _ (λ x, byte_at m x = c mod 256)); [|intros; apply Z.eqb_eq].
  apply head_last_NoDup, NoDup_filter, NoDup_seqZ.
Qed.

(** ** wcschr_c and wcsrchr_c

    Wide characters have four bytes; a wide string ends at a null, which is one of
    the characters that can be looked for. *)

(** wcschr(3), from [p] on; zero is the null pointer. *)
Definition wcschr_step (m : memory) (c p : Z) : outcome (Z + Z) :=
  w ← load_word m 4 p;
  if w =? c then mret (inr p) else if w =? 0 then mret (inr 0) else mret (inl (p + 4)).
Definition wcschr (m : memory) (s c : Z) : outcome Z := while (wcschr_step m c) s.

(** wcsrchr(3): [found] is the last occurrence so far. *)
Definition wcsrchr_step (m : memory) (c : Z) (st : Z * Z) : outcome ((Z * Z) + Z) :=
  let '(p, found) := st in
  w ← load_word m 4 p;
  let found := if w =? c then p else found in
  if w =? 0 then mret (inr found) else mret (inl (p + 4, found)).
Definition wcsrchr (m : memory) (s c : Z) : outcome Z := while (wcsrchr_step m c) (s, 0).

Definition wcschr_c (m : memory) (string character : Z) : outcome Z := wcschr m string character.
Definition wcsrchr_c (m : memory) (wcs wc : Z) : outcome Z := wcsrchr m wcs wc.

(** The wide string at [a], and where in it a character is. *)
Fixpoint wide_at (m : memory) (a : Z) (ws : list Z) : Prop :=
  match ws with
  | [] => load_word m 4 a = Ok 0
  | w :: ws => load_word m 4 a = Ok w ∧ w ≠ 0 ∧ wide_at m (a + 4) ws
  end.

Fixpoint wide_positions (c a : Z) (ws : list Z) : list Z :=
  match ws with
  | [] => if 0 =? c then [a] else []
  | w :: ws => (if w =? c then [a] else []) ++ wide_positions c (a + 4) ws
  end.

Section wide.
Context (m : memory) (c : Z).

Lemma wcschr_runs a ws :
  wide_at m a ws → ∃ n, (n ≤ S (length ws))%nat ∧ runs (wcschr_step m c) n a (Ok (default 0 (head (wide_positions c a ws)))).
Proof.
  revert a. induction ws as [|w ws IH]; intros a Hw; cbn [wide_at wide_positions] in *.
  - exists 1%nat. split; [cbn; lia|]. apply runs_done. unfold wcschr_step. rewrite Hw, bind_Ok. by destruct (0 =? c).
  - destruct Hw as (Hw & Hnz & Hws). destruct (w =? c) eqn:E.
    + exists 1%nat. split; [cbn; lia|]. apply runs_done. unfold wcschr_step. by rewrite Hw, bind_Ok, E.
    + destruct (IH _ Hws) as (n & Hn & Hr). exists (S n). split; [cbn; lia|]. eapply runs_step; [|exact Hr].
      unfold wcschr_step. by rewrite Hw, bind_Ok, E, (proj2 (Z.eqb_neq w 0) Hnz).
Qed.

Lemma wcsrchr_runs a ws found :
  wide_at m a ws → runs (wcsrchr_step m c) (S (length ws)) (a, found) (Ok (default found (last (wide_positions c a ws)))).
Proof.
  revert a found. induction ws as [|w ws IH]; intros a found Hw; cbn [wide_at wide_positions length] in *.
  - apply runs_done. unfold wcsrchr_step. rewrite Hw, bind_Ok. by destruct (0 =? c).
  - destruct Hw as (Hw & Hnz & Hws). eapply runs_step.
    { unfold wcsrchr_step. rewrite Hw, bind_Ok. cbv zeta. by rewrite (proj2 (Z.eqb_neq w 0) Hnz). }
    specialize (IH (a + 4) (if w =? c then a else found) Hws).
    destruct (w =? c); cbn [app]; [|exact IH]. rewrite last_cons. by destruct (last _).
Qed.
End wide.

(** Unlike memrchr_c these two are right: the first and the last occurrence. *)
Lemma wcschr_c_correct m a c ws :
  wide_at m a ws → Z.of_nat (length ws) < 2 ^ 64 →
  wcschr_c m a c = Ok (default 0 (head (wide_positions c a ws))) ∧
  wcsrchr_c m a c = Ok (default 0 (last (wide_positions c a ws))).
Proof.
  intros Hw Hlen. destruct (wcschr_runs m c a ws Hw) as (n & Hn & Hr). split.
  - exact (while_runs _ _ _ _ Hr ltac:(lia)).
  - apply (while_runs _ _ _ _ (wcsrchr_runs m c a ws 0 Hw)). lia.
Qed.

(** ** Registration of handlers

    [atexit] and [__cxa_atexit] answer that all is well and forget the handler;
    handlers of fork go to the C library, without the object they belong to. *)

Definition sloader_atexit_always_success (function : Z) : P Z := mret 0.

(** The functions made by [DEFINE_DUMMY_FUN]. *)
Definition sloader_dummy : P unit := mret tt.

(** The C library: registration of fork handlers; the call of the program's
    [main] at an address, with its three arguments; the address of its
    [__environ]. *)
Class CRuntime := {
  pthread_atfork : Z → Z → Z → P Z;
  call_main : Z → Z → Z → Z → P Z;
  environ : Z
}.

Section runtime.
Context `{CRuntime}.

Definition sloader_register_atfork (prepare parent child dso_handle : Z) : P Z :=
  pthread_atfork prepare parent child.

(** [exit] of what [main] returns. *)
Definition sloader_libc_start_main (main argc argv init fini rtld_fini stack_end : Z) : P unit :=
  status ← call_main main argc argv environ;
  mthrow (Exited status).

(** The program's [main] is the last thing that runs: the start function does
    not come back, and neither the initialisers nor the finalisers it is given
    have any part in the outcome. *)
Lemma libc_start_main_exits main argc argv init fini rtld_fini stack_end s :
  sloader_libc_start_main main argc argv init fini rtld_fini stack_end s =
  match call_main main argc argv environ s with Ok (status, _) => Err (Exited status) | Err e => Err e end.
Proof. unfold sloader_libc_start_main, mbind, stM_bind. by destruct (call_main _ _ _ _ _) as [[]|]. Qed.
End runtime.

(** ** sloader_tls_get_addr *)

(** The argument is the pair of module and offset; the module is not looked at. *)
Record tls_index := mkTlsIndex { ti_module : Z; ti_offset : Z }.

Definition sloader_tls_get_addr (tls_block tls_offset : Z) (ti : tls_index) : Z :=
  wrap64 (tls_block + tls_offset + ti_offset ti).

(** C38: for a variable at offset [v] in the thread-local block of an object the
    dynamic lookup gives the address of the variable exactly when no object
    after it has thread-local data: the global offset it adds is that of the
    last object, and the module number is ignored. *)
Theorem tls_get_addr_last tls_block pre b post s u s' module v :
  let bins := pre ++ b :: post in
  setup_tls tls_block bins s = Ok (u, s') → sloader_tls_offset s = 4096 →
  Forall tls_object_wf bins → 0 ≤ tls_block → tls_total bins ≤ 4096 → tls_block + 4096 + 8 ≤ 2 ^ 64 →
  tls_sources_off tls_block 4096 bins bins → 0 ≤ v < tls_size b →
  sloader_tls_get_addr tls_block (sloader_tls_offset s') (mkTlsIndex module v) = tls_block + 4096 - tls_total (pre ++ [b]) + v ↔
  tls_total post = 0.
Proof.
  intros bins Hrun%setup_tls_ok Hoff Hwf H0 Hle Hfit Hsrc Hv.
  destruct (setup_tls_blocks_go tls_block bins s u s' Hrun Hwf H0) as (Ho & _); rewrite ?Hoff in *; [done..|].
  unfold bins in *. apply Forall_app in Hwf as [Hpre [Hb Hpost]%Forall_cons].
  pose proof (tls_total_nonneg _ Hpre). pose proof (tls_total_nonneg _ Hpost).
  assert (Hb1 : tls_total [b] = tls_size b) by (unfold tls_total; cbn; lia).
  rewrite tls_total_app in *. change (b :: post) with ([b] ++ post) in *. rewrite tls_total_app, Hb1 in *.
  unfold sloader_tls_get_addr. cbn [ti_offset]. rewrite Ho, wrap_small by lia. lia.
Qed.
