(* ===== verification/Sloader.v ===== *)
(** * The program (sloader.cc), its dlopen (sloader_dl.cc) and tls_secure.cc

    The pieces put together: the global loader object, [Run], the command line,
    and the functions that replace those of libdl in the loaded program. *)

From S2P Require Import Prelude Memory Digits Elf Utils Os ElfBinary ElfDynamic ElfFile FindLibrary DynLoader Symbols Relocate Execute.

(** ** tls_secure.cc *)

Definition TLS_SPACE_FOR_LOADEE : Z := 4096.

Definition write_sloader_dummy_to_secure_tls_space (tls_block : Z) : P unit :=
  update_mem (λ m, foldM (λ m iv, store_bytes m (tls_block + iv.1) [iv.2]) m
    [(0, 0xaa); (1, 0xaa); (2, 0xaa); (3, 0xaa);
     (TLS_SPACE_FOR_LOADEE - 4, 0xab); (TLS_SPACE_FOR_LOADEE - 3, 0xcd);
     (TLS_SPACE_FOR_LOADEE - 2, 0xab); (TLS_SPACE_FOR_LOADEE - 1, 0xcd)]).

(** dladdr(3) of the C library: what it does with an address and the place for
    its answer. *)
Class DlLibrary := { dladdr : Z → Z → P Z }.

Section sloader.
Context (tls_block : Z).
Context `{Environment} `{FileSystem} `{Kernel} `{LibcMap} `{Strings} `{LoadedCode}.

(** ** The loader object *)

Definition InitializeDynLoader (dynloader : option DynLoader) (main_path : string) (envs args : list string) :
    P (option DynLoader) :=
  CHECK (match dynloader with None => true | Some _ => false end) ;;
  write_sloader_dummy_to_secure_tls_space tls_block ;;
  mret (Some (DynLoader_new main_path args envs)).

Definition GetDynLoader (dynloader : option DynLoader) : P DynLoader :=
  match dynloader with Some dl => mret dl | None => mthrow CheckFailed end.

Definition Run (dl : DynLoader) : P DynLoader :=
  dl ← LoadDependingLibs dl (main_path_ dl);
  dl ← Relocate tls_block dl;
  Execute tls_block dl ;;
  mret dl.

(** ** sloader.cc *)

Definition GetEType (filepath : string) : P Z :=
  contents ← (match open_file filepath with
              | Some bs => mret bs
              | None => mthrow CheckFailed
              end : P (list Z));
  let size := Z.of_nat (length contents) in
  CHECK (8 + 16 <? size) ;;
  p ← mmap_file (page_up size) (PROT_READ + PROT_WRITE + PROT_EXEC) contents;
  CHECK (negb (p =? MAP_FAILED)) ;;
  with_mem (λ m, load_word m 2 (wrap64 (p + 16))).

(** The first directory of the search path that has the file. *)
Fixpoint search_path (path_dirs : list string) (argv0 : string) : outcome string :=
  match path_dirs with
  | [] => mret EmptyString
  | dir :: path_dirs =>
      let p := path_append dir argv0 in
      there ← fs_query (path_exists p);
      there ← (if there : bool then fs_query (is_regular_file p) else mret false);
      if there : bool then mret p else search_path path_dirs argv0
  end.

Definition find_program (argv0 : string) : outcome string :=
  if starts_with "." argv0 || str_contains "/" argv0 then mret argv0
  else
    match getenv "PATH" with
    | None => mthrow Exception                    (* std::string of a null pointer *)
    | Some path => path_dirs ← SplitWith path ":"; search_path path_dirs argv0
    end.

(** [main]: [args] is the command line without the loader's own name. *)
Definition main (args envs : list string) : P DynLoader :=
  argv0 ← (match args with
           | argv0 :: _ => mret argv0
           | [] => mthrow Exception               (* argv[1] is null *)
           end : P string);
  fullpath ← lift (find_program argv0);
  there ← lift (fs_query (path_exists fullpath));
  CHECK there ;;
  etype ← GetEType fullpath;
  if (etype =? ET_DYN) || (etype =? ET_EXEC) then
    g ← InitializeDynLoader None fullpath envs args;
    dl ← GetDynLoader g;
    Run dl
  else mthrow Aborted.

(** ** sloader_dl.cc *)

Definition sloader_dlopen (dynloader : option DynLoader) (filename : option string) : P (Z * option DynLoader) :=
  match filename with
  | None => mret (0xabcdabcdabcdabcd, dynloader)
  | Some filename =>
      if skip_library filename then mret (0xaaaaaaaabbbbbbbb, dynloader)
      else
        dl ← GetDynLoader dynloader;
        path ← lift (FindLibrary filename None None);
        dl ← LoadDependingLibs dl path;
        dl ← Relocate tls_block dl;
        mret (0xdeadbeefdeadbeef, Some dl)
  end.

Definition sloader_dlsym (dynloader : option DynLoader) (symbol : string) : P Z :=
  dl ← GetDynLoader dynloader;
  opt ← with_mem (λ m, SearchSym m (binaries_ dl) symbol false);
  match opt with
  | None => mthrow CheckFailed
  | Some (bin_index, sym_index) =>
      match binaries_ dl !! bin_index with
      | Some b => lift (GetSymbolAddr b sym_index)
      | None => mthrow Segv
      end
  end.

Definition sloader_dlvsym (symbol version : string) : P Z := mthrow (Exited 10).

Definition sloader_dladdr `{DlLibrary} (addr info : Z) : P Z := dladdr addr info.
End sloader.

(** * What loading leaves alone *)

(** Neither the trace of control transfers, nor the stack pointer, nor the
    thread-local offset changes. *)
Definition quiet (s s' : proc) : Prop :=
  p_trace s' = p_trace s ∧ p_rsp s' = p_rsp s ∧ sloader_tls_offset s' = sloader_tls_offset s.

#[export] Instance quiet_preorder : PreOrder quiet.
Proof. split; [by intros s|]. unfold quiet. intros s1 s2 s3 (? & ? & ?) (? & ? & ?). split_and!; congruence. Qed.

Section quiet.
Context `{Environment} `{FileSystemSpec} `{KernelSpec}.

Lemma load_segment_quiet b ph s b' s' : load_segment b ph s = Ok (b', s') → quiet s s'.
Proof.
  intros Hrun. destruct (decide (p_type ph = PT_LOAD)) as [Ht|Ht].
  2: { rewrite load_segment_skip in Hrun by done. by simplify_eq. }
  unfold load_segment in Hrun. rewrite Ht in Hrun. simpl in Hrun. inv_proc.
  match goal with H : mmap_anonymous _ _ _ _ = _ |- _ =>
    apply mmap_anonymous_ok in H as [[_ ->]|[_ ->]] end; done.
Qed.

Lemma load_binary_quiet dl path s b dl' s' : load_binary dl path s = Ok ((b, dl'), s') → quiet s s'.
Proof.
  intros (b0 & s1 & next & Hn & Hl & _)%load_binary_ok.
  assert (quiet s s1) as Hq by by apply ELFBinary_new_ok in Hn as (? & ? & ? & _ & _ & _ & -> & _).
  etrans; [exact Hq|]. apply Load_ok in Hl as (b1 & Hsegs & _).
  eapply (foldM_st_invariant _ (λ _, quiet s1)); [|done|exact Hsegs].
  intros ??????? Hrun. etrans; [done|]. by eapply load_segment_quiet.
Qed.

Lemma LoadDependingLibs_quiet dl path s dl' s' : LoadDependingLibs dl path s = Ok (dl', s') → quiet s s'.
Proof.
  intros (root & dl1 & s1 & Hl & Hrun)%LoadDependingLibs_ok. apply load_binary_quiet in Hl.
  apply (while_invariant _ (λ st, quiet s st.2)) in Hrun as ([[dl2 queue] s2] & Hq & Hstep); [| |done].
  - by apply deps_step_leaves in Hstep as [-> [= -> ->]].
  - intros [[dl2 queue] s2] st' Hq Hstep. cbn [snd] in Hq. destruct queue as [|rq queue]; [done|].
    cbn [deps_step] in Hstep. case_bool_decide; [by simplify_eq|]. destruct (skip_library _); [by simplify_eq|].
    apply outcome_bind_ok in Hstep as (p & _ & Hstep).
    apply outcome_bind_ok in Hstep as ([[b dl3] s3] & Hload & Hstep). simplify_eq.
    etrans; [exact Hq|]. by eapply load_binary_quiet.
Qed.

Lemma Relocate_quiet `{LibcMap} tls_block dl s dl' s' : Relocate tls_block dl s = Ok (dl', s') → quiet s s'.
Proof. rewrite Relocate_plan. destruct (foldM _ _ _); [|done]. by intros [= <- <-]. Qed.

(** The first object a loader that has none yet loads. *)
Lemma LoadDependingLibs_root dl path s dl' s' :
  LoadDependingLibs dl path s = Ok (dl', s') → binaries_ dl = [] →
  ∃ root rest bs, binaries_ dl' = root :: rest ∧ open_file path = Some bs ∧ path_ root = path ∧
    ehdr_ root = parse_ehdr (file_bytes bs 0 64) ∧
    base_addr_ root = if e_type (ehdr_ root) =? ET_DYN then next_base_addr_ dl else 0.
Proof.
  intros Hrun Hnil. pose proof (LoadDependingLibs_prefix _ _ _ _ _ Hrun) as (root & rest & dl1 & s1 & Hl & Hb).
  rewrite Hnil in Hb. apply load_binary_ok in Hl as (b0 & s2 & next & Hn & Hload & _).
  destruct (ELFBinary_new_ehdr _ _ _ _ Hn) as (bs & Ho & Hp & He).
  destruct (Load_fields _ _ _ _ _ _ Hload) as (Hp' & Hbase & _ & He').
  exists root, rest, bs. split_and!; [done|done|congruence|congruence|]. rewrite Hbase, He'. done.
Qed.
End quiet.

(** * Theorems *)

Section sloader_theorems.
Context (tls_block : Z).
Context `{Environment} `{FileSystemSpec} `{KernelSpec} `{LibcMap} `{Strings} `{LoadedCode}.

Lemma Run_ok dl s dl' s' :
  Run tls_block dl s = Ok (dl', s') →
  ∃ dl1 s1 s2, LoadDependingLibs dl (main_path_ dl) s = Ok (dl1, s1) ∧
    Relocate tls_block dl1 s1 = Ok (dl', s2) ∧ Execute tls_block dl' s2 = Ok (tt, s').
Proof.
  unfold Run. intros Hrun. apply stM_bind_ok in Hrun as (dl1 & s1 & Hload & Hrun).
  apply stM_bind_ok in Hrun as (dl2 & s2 & Hrel & Hrun). apply stM_bind_ok in Hrun as ([] & s3 & Hex & Hrun).
  inv_ok. eauto 10.
Qed.

Lemma Relocate_fields dl s dl' s' :
  Relocate tls_block dl s = Ok (dl', s') →
  binaries_ dl' = binaries_ dl ∧ args_ dl' = args_ dl ∧ envs_ dl' = envs_ dl.
Proof. rewrite Relocate_plan. destruct (foldM _ _ _); [|done]. by intros [= <- <-]. Qed.

Lemma write_tls_quiet s u s' : write_sloader_dummy_to_secure_tls_space tls_block s = Ok (u, s') → quiet s s'.
Proof. unfold write_sloader_dummy_to_secure_tls_space. intros (m & _ & ->)%update_mem_ok. done. Qed.

Lemma GetEType_quiet path s t s' : GetEType path s = Ok (t, s') → quiet s s'.
Proof.
  unfold GetEType. destruct (open_file path); [|done]. intros Hrun. inv_proc.
  match goal with H : mmap_file _ _ _ _ = Ok _ |- _ => unfold mmap_file in H; destruct (mmap_place _ _ _) in H end;
    by simplify_eq.
Qed.

Lemma main_ok args envs s dl' s' :
  main tls_block args envs s = Ok (dl', s') →
  ∃ argv0 rest path s1, args = argv0 :: rest ∧ find_program argv0 = Ok path ∧ quiet s s1 ∧
    Run tls_block (DynLoader_new path args envs) s1 = Ok (dl', s').
Proof.
  unfold main. intros Hrun. apply stM_bind_ok in Hrun as (argv0 & s1 & Hargs & Hrun).
  destruct args as [|a rest]; [done|]. unfold mret, stM_ret in Hargs. injection Hargs as <- <-.
  apply stM_bind_ok in Hrun as (path & s1 & Hfind & Hrun). apply lift_ok in Hfind as [Hfind ->].
  apply stM_bind_ok in Hrun as (? & s1 & [_ ->]%lift_ok & Hrun).
  apply stM_bind_ok in Hrun as (? & s1 & Hck & Hrun). apply CHECK_st_ok in Hck as [_ ->].
  apply stM_bind_ok in Hrun as (etype & s1 & Het & Hrun). apply GetEType_quiet in Het.
  destruct (_ || _); [|done]. apply stM_bind_ok in Hrun as (g & s2 & Hinit & Hrun).
  unfold InitializeDynLoader in Hinit.
  apply stM_bind_ok in Hinit as (? & s3 & Hck & Hinit). apply CHECK_st_ok in Hck as [_ ->].
  apply stM_bind_ok in Hinit as (? & s4 & Hw & Hinit). apply write_tls_quiet in Hw.
  unfold mret, stM_ret in Hinit. injection Hinit as <- <-.
  apply stM_bind_ok in Hrun as (dl & s5 & Hget & Hrun). unfold GetDynLoader, mret, stM_ret in Hget.
  injection Hget as <- <-.
  eexists _, _, path, _. split_and!; [done|exact Hfind| |exact Hrun]. by etrans.
Qed.

(** C2: the loader runs the program it is asked for: when [main] succeeds, the
    last thing that happened is a jump to the entry point of the file named on
    the command line (searched for in PATH when it is a bare name), at
    0x1400000 for a position-independent file and at its own address otherwise,
    with the ABI's stack for the given arguments and environment. *)
Theorem main_enters_program args envs s dl' s' :
  main tls_block args envs s = Ok (dl', s') →
  8 * Z.of_nat (stack_num (length aux_tvs) (length envs) (length args)) ≤ p_rsp s < 2 ^ 64 →
  ∃ argv0 path bs rsp,
    let h := parse_ehdr (file_bytes bs 0 64) in
    let base := if e_type h =? ET_DYN then 0x1400000 else 0 in
    head args = Some argv0 ∧ find_program argv0 = Ok path ∧ open_file path = Some bs ∧
    last (p_trace s') = Some (EvJump (wrap64 (e_entry h + base)) rsp) ∧
    ∀ k v, abi_stack aux_tvs (length envs) (length args) !! k = Some v →
      load64 (p_mem s') (rsp + 8 * Z.of_nat k) = Ok (wrap64 v).
Proof.
  intros (argv0 & rest & path & s1 & Hargs & Hfind & Hq1 & Hrun)%main_ok Hrsp.
  apply Run_ok in Hrun as (dl1 & s2 & s3 & Hload & Hrel & Hex). cbn [main_path_ DynLoader_new] in Hload.
  destruct (LoadDependingLibs_root _ _ _ _ _ Hload eq_refl) as (root & libs & bs & Hb & Ho & _ & He & Hbase).
  assert (Hcfg : args_ dl1 = args ∧ envs_ dl1 = envs).
  { apply LoadDependingLibs_ok in Hload as (r & dl0 & s0 & Hl & Hw).
    by destruct (deps_loop_bfs _ _ _ _ _ _ _ _ Hl Hw) as (? & ? & _ & _ & _ & _ & (_ & _ & -> & -> & _)). }
  apply LoadDependingLibs_quiet in Hload as Hq2. apply Relocate_quiet in Hrel as Hq3.
  destruct (Relocate_fields _ _ _ _ Hrel) as (Hb' & Ha' & He'). destruct Hcfg as [Hca Hce].
  apply Execute_ok in Hex as (s4 & s5 & b & rest0 & Hinit & _ & Htls & Hb0 & Hcore).
  rewrite Hb', Hb in Hb0. injection Hb0 as <- <-. rewrite Ha', He', Hca, Hce in Hcore.
  apply init_objects_rsp in Hinit. apply setup_tls_rsp in Htls as [Htls _].
  assert (Hr : p_rsp s5 = p_rsp s).
  { destruct Hq1 as (_ & ? & _), Hq2 as (_ & ? & _), Hq3 as (_ & ? & _). congruence. }
  destruct (ExecuteCore_ok _ _ _ _ _ Hcore) as (_ & Htr & Hst).
  { rewrite length_rev, (proj2 (build_stack_spec _ _ _)), Hr. exact Hrsp. }
  rewrite rev_involutive in Hst. eexists argv0, path, bs, _. split_and!; [by rewrite Hargs|done|done| |exact Hst].
  rewrite Htr, last_snoc, Hbase, He. reflexivity.
Qed.

(** ** What is refused *)

Definition elf_type (bs : list Z) : Z := le_combine (file_bytes bs 16 2).

Lemma GetEType_reads path s bs :
  open_file path = Some bs →
  GetEType path s =
  if Z.of_nat (length bs) <=? 24 then Err CheckFailed
  else match mmap_place (regions (p_mem s)) 0 (page_ceil (Z.of_nat (length bs))) with
       | None => Err CheckFailed
       | Some a => Ok (elf_type bs, set_mem (map_bytes (p_mem s) a (page_ceil (Z.of_nat (length bs))) 7 bs) s)
       end.
Proof.
  intros Ho. pose proof (file_size _ _ Ho) as Hsz. unfold GetEType. rewrite Ho. cbv zeta.
  unfold mbind, stM_bind, mret, stM_ret. change (8 + 16) with 24. change (PROT_READ + PROT_WRITE + PROT_EXEC) with 7.
  rewrite Z.leb_antisym.
  destruct (Z.ltb_spec 24 (Z.of_nat (length bs))) as [Hlt|]; [|done]. cbn [negb]. unfold CHECK at 1, mret, stM_ret.
  unfold mmap_file. rewrite page_up_ceil by lia. destruct (mmap_place _ _ _) as [a|] eqn:Ep; [|done].
  pose proof (mmap_user _ _ _ _ Ep) as Hu. pose proof (page_ceil_bound (Z.of_nat (length bs))) as Hc.
  rewrite (proj2 (Z.eqb_neq a MAP_FAILED)) by (unfold MAP_FAILED; lia). cbn [negb]. unfold CHECK, mret, stM_ret.
  destruct (load_file_bytes (p_mem s) a bs 16 2 Ep) as (Hw & Hm & Hpk); [lia..|].
  unfold with_mem, load_word, load_bytes. cbn [set_mem p_mem]. rewrite Hw, Hm, bind_Ok, Hpk. done.
Qed.

(** The reasons for which a command line is refused before anything of the
    program is loaded. *)
Definition refusal (args : list string) (regs : list region) : option error :=
  match args with
  | [] => Some Exception
  | argv0 :: _ =>
      match find_program argv0 with
      | Err e => Some e
      | Ok path =>
          match path_exists path, open_file path with
          | None, _ => Some Exception
          | Some false, _ | Some true, None => Some CheckFailed
          | Some true, Some bs =>
              if Z.of_nat (length bs) <=? 24 then Some CheckFailed
              else match mmap_place regs 0 (page_ceil (Z.of_nat (length bs))) with
                   | None => Some CheckFailed
                   | Some _ =>
                       if (elf_type bs =? ET_DYN) || (elf_type bs =? ET_EXEC) then None else Some Aborted
                   end
          end
      end
  end.

(** The process after the type of the file was read: the file is mapped at [a]. *)
Definition type_read (a : Z) (bs : list Z) (s : proc) : proc :=
  set_mem (map_bytes (p_mem s) a (page_ceil (Z.of_nat (length bs))) 7 bs) s.

Lemma main_dispatch args envs s :
  match refusal args (regions (p_mem s)) with
  | Some e => main tls_block args envs s = Err e
  | None => ∃ argv0 path bs a, head args = Some argv0 ∧ find_program argv0 = Ok path ∧ open_file path = Some bs ∧
      mmap_place (regions (p_mem s)) 0 (page_ceil (Z.of_nat (length bs))) = Some a ∧
      main tls_block args envs s =
      (write_sloader_dummy_to_secure_tls_space tls_block ;; Run tls_block (DynLoader_new path args envs)) (type_read a bs s)
  end.
Proof.
  destruct args as [|argv0 rest]; [done|]. cbn [refusal]. unfold main, mbind, stM_bind, mret, stM_ret, mthrow, stM_throw, lift.
  destruct (find_program argv0) as [path|e] eqn:Ef; [|done]. unfold CHECK, mret, stM_ret, mthrow, stM_throw.
  destruct (path_exists path) as [[]|]; cbn [fs_query]; [|done..]. destruct (open_file path) as [bs|] eqn:Eo.
  2: { unfold GetEType. by rewrite Eo. }
  rewrite (GetEType_reads _ _ _ Eo). destruct (_ <=? 24); [done|].
  destruct (mmap_place _ _ _) as [a|] eqn:Ep; [|done]. destruct (_ || _); [|done].
  exists argv0, path, bs, a. split_and!; [done..|]. fold (type_read a bs s).
  unfold InitializeDynLoader, GetDynLoader, CHECK, mbind, stM_bind, mret, stM_ret.
  by destruct (write_sloader_dummy_to_secure_tls_space _ _) as [[]|].
Qed.

(** C10: what the command does with every command line: it stops with the error
    of the first test that fails - no program named, no search path for a bare
    name, a query of the file system that throws, a file that is missing, cannot be
    opened, is too short or cannot be mapped, or is neither an executable nor a shared object - and it runs the
    loader on every other. *)
Theorem main_refuses args envs s :
  match refusal args (regions (p_mem s)) with
  | Some e => main tls_block args envs s = Err e
  | None => ∃ argv0 path bs s1, head args = Some argv0 ∧ find_program argv0 = Ok path ∧ open_file path = Some bs ∧
      extends (p_mem s) (p_mem s1) ∧ quiet s s1 ∧
      main tls_block args envs s =
      (write_sloader_dummy_to_secure_tls_space tls_block ;; Run tls_block (DynLoader_new path args envs)) s1
  end.
Proof.
  pose proof (main_dispatch args envs s) as Hm. destruct (refusal _ _); [exact Hm|].
  destruct Hm as (argv0 & path & bs & a & Ha & Hf & Ho & Hp & Hm). exists argv0, path, bs, (type_read a bs s).
  split_and!; [done|done|done|by apply map_file_extends|done|exact Hm].
Qed.

(** A bare name is looked up in all the directories of PATH but the last. *)
Lemma find_program_path argv0 dirs last_dir :
  getenv "PATH" = Some (join_with ":" dirs last_dir) →
  Forall (λ d, ":"%char ∉ list_of_string d) (dirs ++ [last_dir]) → Z.of_nat (length dirs) < 2 ^ 64 →
  starts_with "." argv0 = false → str_contains "/" argv0 = false →
  find_program argv0 = search_path dirs argv0.
Proof.
  intros Hpath Hd Hlen Hdot Hslash. unfold find_program. rewrite Hdot, Hslash, Hpath. cbn [orb].
  pose proof (SplitWith_runs ":" dirs last_dir [] Hd) as Hr. cbv zeta in Hr. cbn [app] in Hr.
  unfold SplitWith. rewrite (while_runs _ _ _ _ Hr) by lia. done.
Qed.

(** A directory of PATH in which the program cannot be looked up - one without
    search permission - ends the command with an exception, although a later
    directory may have the program. *)
Lemma find_program_unreadable argv0 before d after last_dir :
  let dirs := before ++ d :: after in
  getenv "PATH" = Some (join_with ":" dirs last_dir) →
  Forall (λ d, ":"%char ∉ list_of_string d) (dirs ++ [last_dir]) → Z.of_nat (length dirs) < 2 ^ 64 →
  starts_with "." argv0 = false → str_contains "/" argv0 = false →
  Forall (λ d, path_exists (path_append d argv0) = Some false) before → path_exists (path_append d argv0) = None →
  find_program argv0 = Err Exception.
Proof.
  intros dirs Hpath Hd Hlen Hdot Hslash Hb Hn. rewrite (find_program_path argv0 dirs last_dir) by done.
  unfold dirs. clear -Hb Hn. induction Hb as [|d' before Hd' _ IH]; cbn [app search_path].
  - by rewrite Hn.
  - rewrite Hd'. exact IH.
Qed.

Lemma sloader_dlopen_ok dl filename s h g s' :
  sloader_dlopen tls_block (Some dl) filename s = Ok ((h, g), s') →
  (g = Some dl ∧ s' = s ∧ h ≠ 0xdeadbeefdeadbeef) ∨
  ∃ name path dl1 s1 dl', filename = Some name ∧ skip_library name = false ∧ FindLibrary name None None = Ok path ∧
    LoadDependingLibs dl path s = Ok (dl1, s1) ∧ Relocate tls_block dl1 s1 = Ok (dl', s') ∧ g = Some dl'.
Proof.
  unfold sloader_dlopen. destruct filename as [name|]; [|intros [= <- <- <-]; by left].
  destruct (skip_library name) eqn:Hskip; [intros [= <- <- <-]; by left|]. intros Hrun. right.
  apply stM_bind_ok in Hrun as (dl0 & s0 & [= <- <-] & Hrun).
  apply stM_bind_ok in Hrun as (path & s1 & Hfind & Hrun). apply lift_ok in Hfind as [Hfind ->].
  apply stM_bind_ok in Hrun as (dl1 & s1 & Hload & Hrun).
  apply stM_bind_ok in Hrun as (dl2 & s2 & Hrel & Hrun). injection Hrun as _ <- <-.
  exists name, path, dl1, s1, dl2. split_and!; [reflexivity|exact Hskip|exact Hfind|exact Hload|exact Hrel|reflexivity].
Qed.

(** [dlopen] loads the library it finds and what that needs, after the
    objects there are, and leaves every object relocated; but it calls no
    constructor and sets up no thread-local storage. *)
Lemma sloader_dlopen_adds dl filename s g s' :
  sloader_dlopen tls_block (Some dl) (Some filename) s = Ok ((0xdeadbeefdeadbeef, g), s') →
  ∃ path root libs dl', g = Some dl' ∧ FindLibrary filename None None = Ok path ∧ path_ root = path ∧
    binaries_ dl' = binaries_ dl ++ root :: libs ∧
    Forall (path_marked (relocated_ dl')) (binaries_ dl') ∧ quiet s s'.
Proof.
  intros [(_ & _ & Hh)|(name & path & dl1 & s1 & dl2 & [= <-] & _ & Hfind & Hload & Hrel & ->)]%sloader_dlopen_ok; [done|].
  pose proof (LoadDependingLibs_quiet _ _ _ _ _ Hload) as Hq1. pose proof (Relocate_quiet _ _ _ _ _ Hrel) as Hq2.
  destruct (LoadDependingLibs_prefix _ _ _ _ _ Hload) as (root & libs & dl3 & s3 & Hl & Hb).
  apply load_binary_path in Hl. destruct (Relocate_fields _ _ _ _ Hrel) as (Hb' & _ & _).
  exists path, root, libs, dl2. split_and!; [done|done|done|by rewrite Hb'| |by etrans].
  rewrite Relocate_plan in Hrel. destruct (foldM _ _ _); [|done]. injection Hrel as <- _.
  apply (unrelocated_marked (relocated_ dl1) (binaries_ dl1)).
Qed.

(** C37: [dlsym] gives the address of the symbol by the reference resolution over
    the loaded objects; the functions the table of the C library provides are not
    among them, and for a name that is not found the process exits. *)
Theorem sloader_dlsym_resolves dl name s es :
  entries (p_mem s) 0 (binaries_ dl) = Ok es →
  sloader_dlsym (Some dl) name s =
  match resolve name es ≫= symbol_at (binaries_ dl) with
  | Some (b, sym) => Ok (wrap64 (st_value sym + base_addr_ b), s)
  | None => Err CheckFailed
  end.
Proof.
  intros Hes. unfold sloader_dlsym, GetDynLoader, mbind, stM_bind, mret, stM_ret, with_mem. cbv beta iota.
  rewrite (SearchSym_entries _ _ name false es Hes).
  destruct (resolve name es) as [[i j]|] eqn:Er; [|done].
  destruct (resolve_symbol_at _ _ _ _ _ Hes Er) as (b & sym & Hb & Hsym & Hat). cbn [fst snd option_bind] in *.
  rewrite Hb. unfold GetSymbolAddr, lift. rewrite Hsym. by rewrite Hat.
Qed.
End sloader_theorems.
