(* ===== verification/Program.v ===== *)
(** * The program as a whole

    The phases put together: that the command always ends - in the loaded
    program or in one of the errors of the code - and what loading and
    relocation together leave in memory. *)

From S2P Require Import Prelude Memory Digits Elf Utils Os ElfBinary ElfDynamic ElfFile FindLibrary DynLoader Words Symbols Relocate Execute Sloader.

(** ** Termination *)

Section lookups.
Context `{LibcMap} (tls_block : Z) (m : memory) (Hsz : mem_size m < 2 ^ 64).

Lemma in_fuel_sym_name b s : in_fuel (sym_name m b s).
Proof. by apply read_cstr_ends. Qed.

Lemma in_fuel_search_symtab b name p j syms : in_fuel (search_symtab m b name p j syms).
Proof.
  revert j. induction syms as [|s syms IH]; intros j; simpl; [done|].
  apply in_fuel_bind; [apply in_fuel_sym_name|]. intros n _. by destruct (_ && _).
Qed.

Lemma in_fuel_search_binaries name p i bins : in_fuel (search_binaries m name p i bins).
Proof.
  revert i. induction bins as [|b bins IH]; intros i; simpl; [done|].
  apply in_fuel_bind; [apply in_fuel_search_symtab|]. by intros [j|] _.
Qed.

Lemma in_fuel_SearchSym bins name skip_main : in_fuel (SearchSym m bins name skip_main).
Proof.
  unfold SearchSym. apply in_fuel_bind; [apply in_fuel_search_binaries|].
  intros [ij|] _; [done|apply in_fuel_search_binaries].
Qed.

Lemma in_fuel_GetSymbolAddr b j : in_fuel (GetSymbolAddr b j).
Proof. unfold GetSymbolAddr. by destruct (symtabs_ b !! j). Qed.

Lemma in_fuel_symbol_address bins name : in_fuel (symbol_address m bins name).
Proof.
  unfold symbol_address. apply in_fuel_bind; [apply in_fuel_SearchSym|]. intros o _.
  destruct (sloader_libc_map name); [done|]. destruct o as [[i j]|]; [|done]. destruct (bins !! i); [|done].
  apply in_fuel_bind; [apply in_fuel_GetSymbolAddr|done].
Qed.

Lemma in_fuel_copy_source bins name : in_fuel (copy_source m bins name).
Proof.
  unfold copy_source. apply in_fuel_bind; [apply in_fuel_SearchSym|]. intros o _. by repeat case_match.
Qed.

Lemma in_fuel_TLSSymOffset bins name : in_fuel (TLSSymOffset tls_block m bins name).
Proof.
  unfold TLSSymOffset. generalize 0 as offset. induction bins as [|b bins IH]; intros offset; simpl.
  { unfold libc_tls_offset. by destruct (sloader_libc_tls_variables name). }
  assert (in_fuel (tls_memsz b)) by (unfold tls_memsz; by destruct (file_tls_ b)).
  apply in_fuel_bind; [apply in_fuel_search_symtab|]. intros [j|] _; [by apply in_fuel_bind|].
  destruct (has_tls_ b); [by apply in_fuel_bind|apply IH].
Qed.

Lemma in_fuel_store64 a v : in_fuel (store64 m a v).
Proof. unfold store64, store_bytes. by destruct (mapped_range _ _ _). Qed.

Lemma in_fuel_memcpy dst src n : in_fuel (memcpy m dst src n).
Proof. unfold memcpy, store_bytes. apply in_fuel_bind; [auto with fuel|]. intros. by destruct (mapped_range _ _ _). Qed.

Hint Resolve in_fuel_sym_name in_fuel_symbol_address in_fuel_copy_source in_fuel_TLSSymOffset in_fuel_store64 in_fuel_memcpy : fuel.

Lemma in_fuel_relocate_step bins bin r : in_fuel (relocate_step tls_block bins bin m r).
Proof.
  unfold relocate_step. destruct (symtabs_ bin !! _); [|done]. apply in_fuel_bind; [auto with fuel|]. intros name _. cbv zeta.
  repeat match goal with |- in_fuel (if ?c then _ else _) => destruct c end; auto with fuel; try done.
  - apply in_fuel_bind; [auto with fuel|]. intros [a|] _; [|done]. apply in_fuel_bind; auto with fuel.
  - apply in_fuel_bind; [auto with fuel|]. intros [a|] _; [auto with fuel|done].
  - apply in_fuel_bind; [auto with fuel|]. intros [src n] _. apply in_fuel_bind; auto with fuel.
Qed.
End lookups.

(** Relocation stores words and copies bytes; it maps nothing. *)
Lemma relocate_step_writes `{LibcMap} tls_block bins bin m r m' :
  relocate_step tls_block bins bin m r = Ok m' →
  m' = m ∨ (∃ a v, m' = poke m a (le_split 8 v)) ∨ ∃ dst src n, m' = poke m dst (peek m src n).
Proof.
  unfold relocate_step. destruct (symtabs_ bin !! _); [|done]. intros Hrun.
  apply outcome_bind_ok in Hrun as (name & _ & Hrun). cbv zeta in Hrun.
  assert (∀ a v, store64 m a v = Ok m' → ∃ a v, m' = poke m a (le_split 8 v)) as Hst by (intros ? ? [_ ->]%store64_ok; eauto).
  repeat match type of Hrun with (if ?c then _ else _) = _ => destruct c end;
    try (right; left; exact (Hst _ _ Hrun)); try done.
  - apply outcome_bind_ok in Hrun as ([a|] & _ & Hrun); [|left; by injection Hrun as ->].
    apply outcome_bind_ok in Hrun as (_ & _ & Hrun). right. left. exact (Hst _ _ Hrun).
  - apply outcome_bind_ok in Hrun as ([a|] & _ & Hrun); [right; left; exact (Hst _ _ Hrun)|left; by injection Hrun as ->].
  - apply outcome_bind_ok in Hrun as (o & _ & Hrun). right. left. exact (Hst _ _ Hrun).
  - left. by injection Hrun as ->.
  - apply outcome_bind_ok in Hrun as ([src n] & _ & Hrun). apply outcome_bind_ok in Hrun as (_ & _ & Hrun).
    apply memcpy_ok in Hrun as (_ & _ & ->). right. right. eauto.
Qed.

Lemma relocate_step_regions `{LibcMap} tls_block bins bin m r m' :
  relocate_step tls_block bins bin m r = Ok m' → regions m' = regions m.
Proof. by intros [->|[(? & ? & ->)|(? & ? & ? & ->)]]%relocate_step_writes. Qed.

Lemma relocate_step_bytes `{LibcMap} tls_block bins bin m r m' :
  relocate_step tls_block bins bin m r = Ok m' → bytes_ok m → bytes_ok m'.
Proof.
  intros [->|[(a & v & ->)|(dst & src & n & ->)]]%relocate_step_writes Hb; [done| |]; apply bytes_ok_poke; try done.
  - apply le_split_bytes.
  - by apply bytes_ok_peek.
Qed.

Lemma Relocate_memory `{LibcMap} tls_block dl s dl' s' :
  Relocate tls_block dl s = Ok (dl', s') →
  regions (p_mem s') = regions (p_mem s) ∧ (bytes_ok (p_mem s) → bytes_ok (p_mem s')).
Proof.
  rewrite Relocate_plan. destruct (foldM _ _ _) as [m|] eqn:E; [|done]. intros [= _ <-].
  revert E. apply (foldM_invariant _ (λ m, regions m = regions (p_mem s) ∧ (bytes_ok (p_mem s) → bytes_ok m))); [|done].
  intros m1 p m2 _ [<- Hb] Hrun. split; [by eapply relocate_step_regions|].
  intros Hs. eapply relocate_step_bytes; [exact Hrun|by apply Hb].
Qed.

Lemma in_fuel_Relocate `{LibcMap} tls_block dl s :
  mem_size (p_mem s) < 2 ^ 64 → in_fuel (Relocate tls_block dl s).
Proof.
  intros Hsz. rewrite Relocate_plan.
  assert (in_fuel (foldM (plan_step tls_block (binaries_ dl)) (p_mem s) (plan dl))) as Hf.
  { apply (in_fuel_foldM_inv (λ m, mem_size m < 2 ^ 64)); [|  |exact Hsz].
    - intros m p _ Hm. by apply in_fuel_relocate_step.
    - intros m p m' _ Hm Hr. apply relocate_step_regions in Hr. unfold mem_size in *. by rewrite Hr. }
  unfold in_fuel in *. destruct (foldM _ _ _); congruence.
Qed.

Lemma in_fuel_SplitWith (c : ascii) str :
  Z.of_nat (String.length str) < 2 ^ 64 → in_fuel (SplitWith str (String c EmptyString)).
Proof.
  intros Hlen. apply (in_fuel_while _ (λ _, True) (λ st, Z.of_nat (String.length st.1))); [| |done|cbn; lia].
  - intros [s ret] [s' ret'] _ Hstep. unfold SplitWith_step in Hstep.
    destruct (str_find _ s) as [pos|] eqn:E; [|done]. injection Hstep as <- <-. split; [done|].
    cbn [fst]. rewrite str_drop_length. cbn [String.length].
    destruct (str_find_some _ _ _ E) as (t & Hs & Hl). rewrite Hs, !str_length_app. cbn [String.length]. lia.
  - intros [s ret] _. unfold SplitWith_step. by destruct (str_find _ s).
Qed.

Section main.
Context (tls_block : Z).
Context `{Environment} `{FileSystemSpec} `{KernelSpec} `{LibcMap} `{Strings} `{LoadedCode}.

Lemma in_fuel_search_path dirs argv0 : in_fuel (search_path dirs argv0).
Proof.
  induction dirs as [|d dirs IH]; [done|]. cbn [search_path]. apply in_fuel_bind; [apply in_fuel_query|]. intros there _.
  apply in_fuel_bind; [destruct there; [apply in_fuel_query|done]|]. by intros [] _.
Qed.

Lemma in_fuel_find_program argv0 :
  (∀ p, getenv "PATH" = Some p → Z.of_nat (String.length p) < 2 ^ 64) → in_fuel (find_program argv0).
Proof.
  intros Hp. unfold find_program. destruct (_ || _); [done|]. destruct (getenv "PATH") as [p|]; [|done].
  apply in_fuel_bind; [apply in_fuel_SplitWith; auto|]. intros dirs _. apply in_fuel_search_path.
Qed.

(** What the steps before [Run] do to memory. *)
Definition memory_kept (s s' : proc) : Prop :=
  (mem_ok (p_mem s) → mem_ok (p_mem s')) ∧ (bytes_ok (p_mem s) → bytes_ok (p_mem s')).

Lemma write_tls_kept s u s' :
  write_sloader_dummy_to_secure_tls_space tls_block s = Ok (u, s') → memory_kept s s'.
Proof.
  unfold write_sloader_dummy_to_secure_tls_space. intros (m & Hm & ->)%update_mem_ok. cbn [set_mem p_mem].
  revert Hm. match goal with |- foldM _ _ ?l = _ → _ => assert (Forall (λ iv : Z * Z, byte iv.2) l) as Hl end.
  { unfold byte. repeat (apply Forall_cons; split; [cbn; lia|]). apply Forall_nil_2. }
  rewrite Forall_forall in Hl.
  intros Hm. apply (foldM_invariant _ (λ m, memory_kept s (set_mem m s))) in Hm; [done| |done].
  intros m1 iv m2 Hin [Hok Hb] [_ ->]%store_bytes_ok. split; [intros Hs|intros Hs; apply bytes_ok_poke; [by apply Hb|]].
  - destruct (Hok Hs) as [Hd Hu]. by split.
  - apply Forall_cons; split; [by apply Hl|apply Forall_nil_2].
Qed.

Lemma GetEType_kept path s t s' : GetEType path s = Ok (t, s') → memory_kept s s'.
Proof.
  unfold GetEType. destruct (open_file path) as [bs|] eqn:Eo; [|done]. intros Hrun.
  pose proof (file_size _ _ Eo) as Hsz. inv_proc.
  match goal with H : mmap_file _ _ _ _ = Ok (_, _) |- _ => unfold mmap_file in H; rename H into Hmap end.
  destruct (mmap_place _ _ _) as [a|] eqn:Ep; simplify_eq. cbn [set_mem p_mem]. split.
  - intros Hok. destruct (map_zero_mem_ok _ _ _ _ 7 Ep Hok) as ([Hd Hu] & _). by split.
  - intros Hb. apply bytes_ok_map_bytes; [done|by eapply file_contents].
Qed.

Lemma in_fuel_GetEType path s : in_fuel (GetEType path s).
Proof.
  unfold GetEType. repeat (apply in_fuel_st_bind; [|intros ? ? _]); auto with fuel.
  - by destruct (open_file path).
  - unfold mmap_file. by destruct (mmap_place _ _ _).
Qed.

Lemma init_arraysz_word b : binary_words b → init_arraysz_ b < 2 ^ 64.
Proof.
  intros [_ _ _ Hd _ _]. rewrite Forall_forall in Hd. apply Hd. unfold dyn_ints. do 13 right. left.
Qed.

Lemma in_fuel_Run dl s :
  in_fuel read_ldsoconf → (∀ fn m, in_fuel (call_function fn m)) → mem_ok (p_mem s) → loader_words dl s →
  in_fuel (Run tls_block dl s).
Proof.
  intros Hconf Hcode Hok Hw. unfold Run. apply in_fuel_st_bind; [by apply LoadDependingLibs_terminates|].
  intros dl1 s1 Hl. pose proof (LoadDependingLibs_mem_ok _ _ _ _ _ Hl Hok) as Hok1.
  apply loader_words_kept in Hl; [|done].
  apply in_fuel_st_bind.
  { apply in_fuel_Relocate. apply mem_ok_size in Hok1. lia. }
  intros dl2 s2 Hr. apply in_fuel_st_bind; [|done].
  apply Relocate_fields in Hr as (Hb & _). apply in_fuel_Execute; [done|]. rewrite Hb.
  eapply Forall_impl; [apply (lw_binaries _ _ Hl)|]. intros b. apply init_arraysz_word.
Qed.

(** C9: the command ends when the constructors it calls return and the
    configuration files do not include each other in a circle or in a chain of
    [ldsoconf_depth] files: then, whatever the command line, the program and library
    files and the environment, [main] does not run forever - it ends with the jump
    into the program or with an error of the code. (A circle is the one way in which
    the loader itself does not end: [read_ldsoconf_circular].) *)
Theorem main_terminates args envs s :
  (∀ p, getenv "PATH" = Some p → Z.of_nat (String.length p) < 2 ^ 64) →
  includes_bounded → (∀ fn m, in_fuel (call_function fn m)) →
  mem_ok (p_mem s) → bytes_ok (p_mem s) → in_fuel (main tls_block args envs s).
Proof.
  intros Hpath Hconf%read_ldsoconf_in_fuel Hcode Hok Hb. unfold main. apply in_fuel_st_bind; [by destruct args|].
  intros argv0 s1 Ha. assert (s1 = s) as -> by (destruct args; [discriminate Ha|by injection Ha]).
  apply in_fuel_st_bind.
  { pose proof (in_fuel_find_program argv0 Hpath) as Hf. unfold in_fuel, lift in *. destruct (find_program argv0); congruence. }
  intros path s1 [_ ->]%lift_ok. apply in_fuel_st_bind; [unfold lift; by destruct (path_exists path)|].
  intros there s1 [_ ->]%lift_ok. apply in_fuel_st_bind; [auto with fuel|]. intros ? s1 [_ ->]%CHECK_st_ok.
  apply in_fuel_st_bind; [apply in_fuel_GetEType|]. intros t s1 [Hk1 Hk2]%GetEType_kept.
  destruct (_ || _); [|done]. unfold InitializeDynLoader, GetDynLoader.
  apply in_fuel_st_bind.
  { apply in_fuel_st_bind; [done|]. intros ? ? _. apply in_fuel_st_bind; [|done].
    unfold write_sloader_dummy_to_secure_tls_space. apply in_fuel_update_mem, in_fuel_foldM. intros.
    unfold store_bytes. by destruct (mapped_range _ _ _). }
  intros g s2 Hi. apply stM_bind_ok in Hi as (? & s3 & [_ ->]%CHECK_st_ok & Hi).
  apply stM_bind_ok in Hi as (? & s4 & [Hw1 Hw2]%write_tls_kept & Hi). injection Hi as <- <-.
  apply in_fuel_st_bind; [done|]. intros dl s5 [= <- <-]. apply in_fuel_Run; [done|done|auto|].
  split; [apply Forall_nil_2|unfold word64; cbn; lia|auto].
Qed.
End main.

(** ** The linked program

    What a linker is to produce: given the loaded objects, the table of their
    names and the relocations in order, the contents of memory. *)

(** The byte at [x] of a segment, from the bytes of the file. *)
Definition segment_byte (bs : list Z) (base : Z) (ph : Elf64_Phdr) (x : Z) : Z :=
  let o := x - (p_vaddr ph + base) in
  if o <? p_filesz ph then nth (Z.to_nat (p_offset ph + o)) bs 0 else 0.

(** What a relocation leaves at its address: [m0] is the memory before. *)
Definition relocated_value (m0 m : memory) (a : Z) (act : action) (copied : Prop) : Prop :=
  match act with
  | Keep => True
  | Store v => load64 m a = Ok (wrap64 v)
  | Copy src n => copied → peek m a n = peek m0 src n
  | Stop _ => False
  end.

Record linked `{FileSystem} `{LibcMap} (tls_block : Z) (m0 m : memory) (bins : list ELFBinary) (es : list entry)
    (rs : list (ELFBinary * Elf64_Rela)) : Prop := {
  linked_segments b bs ph x :
    b ∈ bins → open_file (path_ b) = Some bs → ph ∈ loads (file_phdrs_ b) →
    p_vaddr ph + base_addr_ b ≤ x < p_vaddr ph + base_addr_ b + p_memsz ph →
    ¬ targets tls_block m0 bins es rs x → mapped m x = true ∧ byte_at m x = segment_byte bs (base_addr_ b) ph x;
  linked_relocations pre p post :
    rs = pre ++ p :: post → (∀ x, target tls_block m0 bins es p x → ¬ targets tls_block m0 bins es post x) →
    relocated_value m0 m (slot p) (action_at tls_block m0 bins es p)
      (∀ src n x, action_at tls_block m0 bins es p = Copy src n → src ≤ x < src + n → ¬ targets tls_block m0 bins es pre x)
}.

Lemma in_memory_byte `{FileSystem} m b bs ph x :
  in_memory m b → open_file (path_ b) = Some bs → ph ∈ loads (file_phdrs_ b) →
  p_vaddr ph + base_addr_ b ≤ x < p_vaddr ph + base_addr_ b + p_memsz ph →
  mapped m x = true ∧ byte_at m x = segment_byte bs (base_addr_ b) ph x.
Proof.
  intros (bs' & Ho & Hseg) Ho' Hph Hx. rewrite Ho in Ho'. injection Ho' as <-.
  destruct (Hseg ph Hph) as (Hm & Hp & Hz). rewrite mapped_range_spec in Hm. split; [by apply Hm|].
  unfold segment_byte. cbv zeta. destruct (Z.ltb_spec (x - (p_vaddr ph + base_addr_ b)) (p_filesz ph)) as [Hlt|]; [|apply Hz; lia].
  set (o := x - (p_vaddr ph + base_addr_ b)) in *.
  assert ((Z.to_nat o < Z.to_nat (p_filesz ph))%nat) as Ho2 by lia.
  pose proof (peek_lookup m (p_vaddr ph + base_addr_ b) _ _ Ho2) as Hl. rewrite Hp in Hl.
  unfold file_bytes, range in Hl. rewrite list_lookup_fmap, lookup_seqZ_lt in Hl by lia. injection Hl as Hl.
  replace (p_vaddr ph + base_addr_ b + Z.of_nat (Z.to_nat o)) with x in Hl by lia. rewrite <-Hl. do 2 f_equal. lia.
Qed.

Section linking.
Context (tls_block : Z).
Context `{Environment} `{FileSystemSpec} `{KernelSpec} `{LibcMap}.

Lemma load_and_relocate_linked dl root_path s dl1 s1 dl2 s2 es :
  LoadDependingLibs dl root_path s = Ok (dl1, s1) → Relocate tls_block dl1 s1 = Ok (dl2, s2) →
  binaries_ dl = [] → mem_ok (p_mem s) → Forall object_wf (binaries_ dl1) →
  entries (p_mem s1) 0 (binaries_ dl1) = Ok es →
  names_off (targets tls_block (p_mem s1) (binaries_ dl1) es (plan dl1)) (p_mem s1) (binaries_ dl1) →
  linked tls_block (p_mem s1) (p_mem s2) (binaries_ dl2) es (plan dl1).
Proof.
  intros Hl Hr Hempty Hok Hwf Hes Hoff. pose proof (mem_ok_size _ (LoadDependingLibs_mem_ok _ _ _ _ _ Hl Hok)) as Hsz.
  destruct (Relocate_fields _ _ _ _ _ Hr) as (Hbins & _). rewrite Hbins.
  destruct (Relocate_linked tls_block _ _ _ _ _ Hr ltac:(lia) Hes Hoff) as [Hag Hslots].
  apply LoadDependingLibs_image in Hl as (new & Hnew & _ & Himg). rewrite Hempty in Hnew. cbn in Hnew.
  rewrite Hnew in Hwf. destruct (Himg Hwf) as [_ Hmem]. rewrite <-Hnew, Forall_forall in Hmem. split.
  - intros b bs ph x Hb Ho Hph Hx Ht.
    destruct (in_memory_byte _ _ _ _ _ (Hmem b Hb) Ho Hph Hx) as [Hm Hbyte].
    destruct Hag as [Hreg Hbytes]. split; [unfold mapped in *; by rewrite Hreg|].
    rewrite <-Hbyte. by apply Hbytes.
  - intros pre p post Hplan Hdisj. specialize (Hslots pre p post Hplan Hdisj). unfold relocated_value.
    destruct (action_at _ _ _ _ p) eqn:E; [done|done| |done]. intros Hc. apply Hslots. intros x. by apply (Hc src size).
Qed.

(** C3: loading followed by relocation implements linking: from a fresh loader,
    every byte of every loadable segment of every object is the file's byte (zero
    past its end) unless a relocation writes it, and every relocation that no later
    one overwrites has left in its slot the value of its formula, with the symbols
    resolved in load order - given that the objects are well formed and that their
    names can be read and are not themselves relocated. *)
Theorem load_and_relocate_links dl root_path s dl1 s1 dl2 s2 es :
  LoadDependingLibs dl root_path s = Ok (dl1, s1) → Relocate tls_block dl1 s1 = Ok (dl2, s2) →
  binaries_ dl = [] → mem_ok (p_mem s) → Forall object_wf (binaries_ dl1) →
  entries (p_mem s1) 0 (binaries_ dl1) = Ok es →
  names_off (targets tls_block (p_mem s1) (binaries_ dl1) es (plan dl1)) (p_mem s1) (binaries_ dl1) →
  linked tls_block (p_mem s1) (p_mem s2) (binaries_ dl2) es (plan dl1).
Proof. apply load_and_relocate_linked. Qed.
End linking.
