(* ===== verification/Link.v ===== *)
(** * Loading and relocation succeed

    The conditions on the files under which the whole of loading and relocation
    succeeds: there is a plan, the process has room for it, and in the memory
    that the plan describes - the process as it was with the images of the
    objects over it - every relocation has an action that can be carried out. *)

From S2P Require Import Prelude Memory Digits Elf Utils Os ElfBinary ElfDynamic ElfFile FindLibrary DynLoader Accept Plan Symbols Relocate Sloader Program.

(** ** What the relocations ask for, in a memory *)

(** The relocations of the objects whose path is new, in order. *)
Definition relocation_list (rel : gmap (list string) bool) (bins : list ELFBinary) : list (ELFBinary * Elf64_Rela) :=
  unrelocated rel bins ≫= λ b, pair b <$> relocations b.

Record linkable `{LibcMap} (tls_block : Z) (m : memory) (bins : list ELFBinary) (es : list entry)
    (rs : list (ELFBinary * Elf64_Rela)) : Prop := {
  lk_entries : entries m 0 bins = Ok es;
  lk_names : names_off (targets tls_block m bins es rs) m bins;
  lk_actions : Forall (λ p, action_ok m (slot p) (action_at tls_block m bins es p)) rs
}.

(** *** More memory *)

Lemma extends_poke m m' a bs : extends m m' → extends (poke m a bs) (poke m' a bs).
Proof. intros He x Hx. destruct (He x Hx) as [Hm Hb]. split; [exact Hm|]. cbn. by destruct (_ && _). Qed.

Section more.
Context `{LibcMap} (tls_block : Z) (m m' : memory) (He : extends m m').

Lemma sym_name_more b s : covers (sym_name m b s) (sym_name m' b s).
Proof. by apply read_cstr_covers. Qed.

Lemma traverse_covers {A B} (f f' : A → outcome B) l : (∀ a, covers (f a) (f' a)) → covers (traverse f l) (traverse f' l).
Proof. intros Hf. induction l as [|a l IH]; [apply covers_refl|]. cbn [traverse]. auto with covers. Qed.

Lemma entries_more i bins : covers (entries m i bins) (entries m' i bins).
Proof.
  revert i. induction bins as [|b bins IH]; intros i; cbn [entries]; [apply covers_refl|].
  apply covers_bind; [|intros es; apply covers_bind; [apply IH|intros; apply covers_refl]].
  unfold symtab_entries. apply covers_bind; [|intros; apply covers_refl]. apply traverse_covers. intros s. apply sym_name_more.
Qed.

Lemma action_at_more bins es p :
  entries m 0 bins = Ok es → p.1 ∈ bins → action_at tls_block m' bins es p = action_at tls_block m bins es p.
Proof.
  intros Hes Hp. unfold action_at. destruct (symtabs_ p.1 !! _) as [s|] eqn:Es; [|done].
  destruct (entries_name _ _ _ _ _ _ Hes Hp (list_elem_of_lookup_2 _ _ _ Es)) as [n Hn].
  rewrite Hn, (sym_name_more _ _ _ Hn). f_equal. unfold TLSSymOffset.
  apply (TLSSymOffset_entries tls_block m' m 0 bins n 0 es); [by apply entries_more|done].
Qed.

Lemma action_ok_more a act : action_ok m a act → action_ok m' a act.
Proof.
  assert (∀ x n, mapped_range m x n = true → mapped_range m' x n = true) as Hm by (intros x n Hx; by eapply extends_range).
  destruct act; cbn [action_ok]; naive_solver.
Qed.

Lemma linkable_more bins es rs :
  Forall (λ p, p.1 ∈ bins) rs → linkable tls_block m bins es rs → linkable tls_block m' bins es rs.
Proof.
  intros Hrs [Hes Hn Ha]. rewrite Forall_forall in Hrs. split; [by apply entries_more| |].
  - intros b s n x Hb Hs Hname a Hx (p & Hp & Ht). destruct (entries_name _ _ _ _ _ _ Hes Hb Hs) as [n' Hn'].
    rewrite (sym_name_more _ _ _ Hn') in Hname. injection Hname as <-. apply (Hn b s n' x Hb Hs Hn' Hx).
    exists p. split; [done|]. unfold target in *. by rewrite action_at_more in Ht by auto.
  - rewrite Forall_forall in Ha |- *. intros p Hp. rewrite action_at_more by auto. by apply action_ok_more, Ha.
Qed.

Lemma run_action_more a act m1 m2 m1' :
  extends m1 m1' → run_action m1 a act = Ok m2 → ∃ m2', run_action m1' a act = Ok m2' ∧ extends m2 m2'.
Proof.
  intros He1. destruct act as [|v|src n|e]; cbn [run_action]; [intros [= <-]; eauto| | |done].
  - intros [Hm ->]%store64_ok. exists (poke m1' a (le_split 8 v)). split; [|by apply extends_poke].
    apply store64_ok. split; [by eapply extends_range|done].
  - intros (w & (bs & Hbs & _)%outcome_bind_ok & Hcpy)%outcome_bind_ok. apply load_bytes_ok in Hbs as [H8 _].
    apply memcpy_ok in Hcpy as (Hs & Hd & ->). destruct (extends_range _ _ _ _ He1 Hs) as [Hs' Hp].
    exists (poke m1' a (peek m1' src n)). rewrite Hp at 2. split; [|by apply extends_poke].
    unfold load_word, load_bytes. rewrite (proj1 (extends_range _ _ _ _ He1 H8)). cbn [mbind outcome_bind mret outcome_ret].
    apply memcpy_ok. split_and!; [done|by eapply extends_range|done].
Qed.

Lemma run_actions_more bins es rs m1 m2 m1' :
  entries m 0 bins = Ok es → Forall (λ p, p.1 ∈ bins) rs → extends m1 m1' →
  run_actions tls_block m bins es m1 rs = Ok m2 →
  ∃ m2', run_actions tls_block m' bins es m1' rs = Ok m2' ∧ extends m2 m2'.
Proof.
  intros Hes. unfold run_actions. revert m1 m1'. induction rs as [|p rs IH]; intros m1 m1' Hrs He1 Hrun.
  { injection Hrun as <-. by exists m1'. }
  apply Forall_cons in Hrs as [Hp Hrs]. cbn [foldM] in *. apply outcome_bind_ok in Hrun as (m3 & Hact & Hrun).
  destruct (run_action_more _ _ _ _ _ He1 Hact) as (m3' & Hact' & He3).
  rewrite action_at_more, Hact', bind_Ok by done. by eapply IH.
Qed.
End more.

(** *** The address of the mapped file

    Nothing of this looks at where the file of an object was mapped. *)

Definition forget_file (b : ELFBinary) : ELFBinary := at_file 0 b.
Definition forget_files (rs : list (ELFBinary * Elf64_Rela)) : list (ELFBinary * Elf64_Rela) := prod_map forget_file id <$> rs.

Section forget.
Context `{LibcMap} (tls_block : Z) (m : memory).

Lemma entries_forget i bins : entries m i (forget_file <$> bins) = entries m i bins.
Proof.
  revert i. induction bins as [|b bins IH]; intros i; [done|]. cbn [fmap list_fmap entries].
  change (symtab_entries m i (forget_file b) 0 (symtabs_ (forget_file b))) with (symtab_entries m i b 0 (symtabs_ b)).
  specialize (IH (S i)). cbn [fmap list_fmap] in IH. by rewrite IH.
Qed.

Lemma search_symtab_forget b name p j syms :
  search_symtab m (forget_file b) name p j syms = search_symtab m b name p j syms.
Proof.
  revert j. induction syms as [|s syms IH]; intros j; [done|]. cbn [search_symtab].
  change (sym_name m (forget_file b) s) with (sym_name m b s). destruct (sym_name m b s) as [n|]; [|done].
  cbn [mbind outcome_bind]. destruct (_ && _); [done|apply IH].
Qed.

Lemma tls_offset_forget name offset bins :
  tls_sym_offset_go tls_block m name offset (forget_file <$> bins) = tls_sym_offset_go tls_block m name offset bins.
Proof.
  revert offset. induction bins as [|b bins IH]; intros offset; [done|]. cbn [fmap list_fmap tls_sym_offset_go].
  rewrite search_symtab_forget. change (tls_memsz (forget_file b)) with (tls_memsz b).
  change (symtabs_ (forget_file b)) with (symtabs_ b). change (has_tls_ (forget_file b)) with (has_tls_ b).
  destruct (search_symtab _ _ _ _ _ _) as [[j|]|]; [done| |done]. cbn [mbind outcome_bind].
  destruct (has_tls_ b); [|apply IH]. destruct (tls_memsz b); [apply IH|done].
Qed.

Lemma symbol_at_forget bins ij :
  symbol_at (forget_file <$> bins) ij = prod_map forget_file id <$> symbol_at bins ij.
Proof.
  unfold symbol_at. rewrite list_lookup_fmap. destruct (bins !! ij.1) as [b|]; [|done]. cbn.
  change (symtabs_ (forget_file b)) with (symtabs_ b). by destruct (symtabs_ b !! ij.2).
Qed.

Lemma action_at_forget bins es p :
  action_at tls_block m (forget_file <$> bins) es (prod_map forget_file id p) = action_at tls_block m bins es p.
Proof.
  destruct p as [b r]. unfold action_at. cbn [prod_map fst snd id]. change (symtabs_ (forget_file b)) with (symtabs_ b).
  destruct (symtabs_ b !! _) as [s|]; [|done]. change (sym_name m (forget_file b) s) with (sym_name m b s).
  destruct (sym_name m b s) as [n|]; [|done]. unfold TLSSymOffset. rewrite tls_offset_forget.
  assert (symbol_value (forget_file <$> bins) es n = symbol_value bins es n) as Hv.
  { unfold symbol_value. destruct (sloader_libc_map n); [done|]. destruct (resolve n es) as [ij|]; [|done]. cbn.
    rewrite symbol_at_forget. by destruct (symbol_at bins ij) as [[]|]. }
  assert (copy_action (forget_file <$> bins) es n = copy_action bins es n) as Hc.
  { unfold copy_action. destruct (sloader_libc_map n); [done|]. destruct (resolve n _) as [ij|]; [|done]. cbn.
    rewrite symbol_at_forget. by destruct (symbol_at bins ij) as [[]|]. }
  unfold reloc_action. by rewrite Hv, Hc.
Qed.

Lemma unrelocated_forget rel bins : unrelocated rel (forget_file <$> bins) = forget_file <$> unrelocated rel bins.
Proof.
  revert rel. induction bins as [|b bins IH]; intros rel; [done|]. cbn [fmap list_fmap unrelocated].
  change (path_ (forget_file b)) with (path_ b). destruct (default _ _); [apply IH|]. cbn. f_equal. apply IH.
Qed.

Lemma relocation_list_forget rel bins :
  relocation_list rel (forget_file <$> bins) = forget_files (relocation_list rel bins).
Proof.
  unfold relocation_list, forget_files. rewrite unrelocated_forget. induction (unrelocated rel bins) as [|b l IH]; [done|].
  cbn [fmap list_fmap mbind list_bind] in *. rewrite fmap_app, IH. f_equal.
  change (relocations (forget_file b)) with (relocations b). by induction (relocations b); cbn; f_equal.
Qed.

Lemma run_actions_forget bins es m1 rs :
  run_actions tls_block m (forget_file <$> bins) es m1 (forget_files rs) = run_actions tls_block m bins es m1 rs.
Proof.
  unfold run_actions, forget_files. revert m1. induction rs as [|p rs IH]; intros m1; [done|].
  cbn [fmap list_fmap foldM]. rewrite action_at_forget. change (slot (prod_map forget_file id p)) with (slot p).
  destruct (run_action _ _ _); [apply IH|done].
Qed.

Lemma linkable_forget bins es rs :
  linkable tls_block m (forget_file <$> bins) es (forget_files rs) → linkable tls_block m bins es rs.
Proof.
  intros [Hes Hn Ha]. rewrite entries_forget in Hes. split; [done| |].
  - intros b s n x Hb Hs Hname a Hx (p & Hp & Ht).
    apply (Hn (forget_file b) s n x); [by apply list_elem_of_fmap_2|done|done|exact Hx|].
    exists (prod_map forget_file id p). split; [by apply list_elem_of_fmap_2|].
    unfold target in *. rewrite action_at_forget. exact Ht.
  - unfold forget_files in Ha. rewrite Forall_fmap in Ha. eapply Forall_impl; [exact Ha|]. intros p. cbn.
    by rewrite action_at_forget.
Qed.
End forget.

(** ** The memory a plan describes *)

(** [img] over [m]. *)
Definition overlay (m img : memory) : memory :=
  {| regions := regions img ++ regions m; byte_at := λ x, if mapped img x then byte_at img x else byte_at m x |}.

Definition plan_memory `{FileSystem} (m : memory) (objs : list ELFBinary) : memory :=
  foldr (λ b m, overlay m (object_image b)) m objs.

Lemma overlay_extends m img m' : extends m m' → extends img m' → extends (overlay m img) m'.
Proof.
  intros Hm Hi x. assert (mapped (overlay m img) x = mapped img x || mapped m x) as ->.
  { unfold mapped. cbn [overlay regions]. apply existsb_app. }
  cbn [overlay byte_at]. destruct (mapped img x) eqn:E; [by intros _; apply Hi|apply Hm].
Qed.

Lemma plan_memory_extends `{FileSystem} m objs m' :
  extends m m' → Forall (λ b, extends (object_image b) m') objs → extends (plan_memory m objs) m'.
Proof. intros Hm. induction 1 as [|b objs Hb _ IH]; [done|]. by apply overlay_extends. Qed.

(** ** Planned objects *)

Section planned_objects.
Context `{Environment} `{FileSystem}.

Lemma planned_Forall (Q : ELFBinary → Prop) seen next queue objs seen' next' :
  (∀ path next b, object_at path next b → Q b) → planned seen next queue objs seen' next' → Forall Q objs.
Proof. intros HQ. induction 1; [constructor|done..|constructor; [by eapply HQ|done]]. Qed.

Lemma planned_root_Forall (Q : ELFBinary → Prop) seen next root_path objs seen' next' :
  (∀ path next b, object_at path next b → Q b) → planned_root seen next root_path objs seen' next' → Forall Q objs.
Proof. intros HQ (root & libs & -> & Hr & Hl). constructor; [by eapply HQ|by eapply planned_Forall]. Qed.

Lemma object_at_forget path next b : object_at path next b → forget_file b = b.
Proof.
  intros (bs & _ & _ & Hb). apply ParseDynamic_image in Hb as [_ Hf _ _ _ _ _ _ _].
  unfold forget_file, at_file. change (file_base_addr_ (file_object _ _ _ _ _)) with 0 in Hf. rewrite <-Hf. by destruct b.
Qed.

Lemma object_at_wf path next b a : object_at path next b → object_wf (at_file a b).
Proof.
  intros (bs & Ho & Hwf & Hb) bs' ph Ho' Hph. destruct (pure_object_fields _ _ _ _ Hb) as (Hp & Hbase & _ & Hphs & _).
  change (path_ (at_file a b)) with (path_ b) in Ho'. rewrite Hp, Ho in Ho'. injection Ho' as <-.
  change (file_phdrs_ (at_file a b)) with (file_phdrs_ b) in Hph. rewrite Hphs in Hph.
  change (base_addr_ (at_file a b)) with (base_addr_ b). rewrite Hbase. by apply (fw_segments _ _ Hwf).
Qed.

Lemma as_planned_forget objs new :
  Forall2 as_planned objs new → Forall (λ b, forget_file b = b) objs → forget_file <$> new = objs.
Proof.
  induction 1 as [|b b' objs new Hb _ IH]; intros Hf; [done|]. apply Forall_cons in Hf as [Hfb Hf].
  cbn [fmap list_fmap]. f_equal; [|by apply IH]. unfold as_planned in Hb. rewrite Hb, <-Hfb. reflexivity.
Qed.

Lemma as_planned_wf seen next root_path objs seen' next' new :
  planned_root seen next root_path objs seen' next' → Forall2 as_planned objs new → Forall object_wf new.
Proof.
  intros Hp Hnew. apply (planned_root_Forall (λ b, ∀ a, object_wf (at_file a b))) in Hp; [|by intros; eapply object_at_wf].
  induction Hnew as [|b b' objs new Hb _ IH]; [constructor|]. apply Forall_cons in Hp as [Hwf Hp].
  constructor; [|by apply IH]. unfold as_planned in Hb. rewrite Hb. apply Hwf.
Qed.
End planned_objects.

(** ** The theorem *)

Section link.
Context (tls_block : Z).
Context `{Environment} `{FS : FileSystem} `{!FileSystemSpec FS} `{K : Kernel} `{!KernelSpec K} `{!KernelHint K} `{!KernelRoom K} `{LibcMap}.

(** What a plan is asked for: it fits, and in a part [known] of memory with the
    images of the objects over it its relocations can be carried out. *)
Record plan_links (dl : DynLoader) (known m : memory) (root_path : string) (objs : list ELFBinary) (es : list entry)
    (seen' : gset string) (next' : Z) : Prop := {
  pl_planned : planned_root (loaded_ dl) (next_base_addr_ dl) root_path objs seen' next';
  pl_known : extends known m;
  pl_fits : plan_fits (regions m) objs;
  pl_links : let bins := (forget_file <$> binaries_ dl) ++ objs in
             linkable tls_block (plan_memory known objs) bins es (relocation_list (relocated_ dl) bins)
}.

(** The memory the relocations leave, from the same part of memory alone. *)
Definition linked_memory (dl : DynLoader) (known : memory) (objs : list ELFBinary) (es : list entry) : outcome memory :=
  let bins := (forget_file <$> binaries_ dl) ++ objs in
  run_actions tls_block (plan_memory known objs) bins es (plan_memory known objs) (relocation_list (relocated_ dl) bins).

Lemma relocation_list_object rel bins p : p ∈ relocation_list rel bins → p.1 ∈ bins.
Proof.
  unfold relocation_list. intros (b & Hpb & Hub)%list_elem_of_bind.
  apply list_elem_of_fmap in Hpb as (r & -> & _). cbn [fst]. by eapply unrelocated_subset.
Qed.

(** The objects and relocations of the loader, as the plan has them. *)
Lemma plan_objects dl dl1 s s1 root_path objs seen next seen' next' :
  planned_root seen next root_path objs seen' next' → carried_out dl dl1 s s1 objs seen' next' →
  let bins := (forget_file <$> binaries_ dl) ++ objs in
  forget_file <$> binaries_ dl1 = bins ∧ forget_files (plan dl1) = relocation_list (relocated_ dl) bins.
Proof.
  intros Hp [(new & Hb & Hnew) _ _ (_ & _ & _ & _ & Hrel) _ _] bins.
  apply (planned_root_Forall (λ b, forget_file b = b)) in Hp; [|by intros; eapply object_at_forget].
  assert (forget_file <$> binaries_ dl1 = bins) as Hbins by by unfold bins; rewrite Hb, fmap_app, (as_planned_forget _ _ Hnew Hp).
  split; [exact Hbins|]. change (plan dl1) with (relocation_list (relocated_ dl1) (binaries_ dl1)).
  by rewrite <-relocation_list_forget, Hbins, Hrel.
Qed.

Lemma plan_linkable dl dl1 known s s1 root_path objs es seen' next' :
  plan_links dl known (p_mem s) root_path objs es seen' next' → carried_out dl dl1 s s1 objs seen' next' →
  linkable tls_block (p_mem s1) (binaries_ dl1) es (plan dl1).
Proof.
  intros [Hp Hknown _ Hlink] Hco. destruct (plan_objects _ _ _ _ _ _ _ _ _ _ Hp Hco) as [Hbins Hplan].
  destruct Hco as [_ _ _ _ Himgs Hk]. apply linkable_forget. rewrite Hbins, Hplan.
  apply (linkable_more _ (plan_memory known objs)); [apply plan_memory_extends; [by transitivity (p_mem s)|done]| |exact Hlink].
  apply Forall_forall. intros p. apply relocation_list_object.
Qed.

Lemma plan_runs dl known s root_path objs es seen' next' :
  plan_links dl known (p_mem s) root_path objs es seen' next' → mem_ok (p_mem s) →
  ∃ dl1 s1 dl2 s2, LoadDependingLibs dl root_path s = Ok (dl1, s1) ∧ carried_out dl dl1 s s1 objs seen' next' ∧
    Relocate tls_block dl1 s1 = Ok (dl2, s2) ∧ linkable tls_block (p_mem s1) (binaries_ dl1) es (plan dl1).
Proof.
  intros Hpl Hok. destruct (plan_carried_out _ _ _ _ _ _ (pl_planned _ _ _ _ _ _ _ _ Hpl) (pl_fits _ _ _ _ _ _ _ _ Hpl) Hok)
    as (dl1 & s1 & Hload & Hco). pose proof (plan_linkable _ _ _ _ _ _ _ _ _ _ Hpl Hco) as Hlink.
  pose proof (LoadDependingLibs_mem_ok _ _ _ _ _ Hload Hok) as Hsz%mem_ok_size. destruct Hlink as [Hes Hn Ha].
  destruct (Relocate_succeeds tls_block dl1 s1 es ltac:(lia) Hes Hn Ha) as (dl2 & s2 & Hrel).
  exists dl1, s1, dl2, s2. split_and!; done.
Qed.

(** The real memory after relocation has everything of the predicted one. *)
Lemma linked_memory_real dl known s root_path objs es seen' next' dl1 s1 dl2 s2 m :
  plan_links dl known (p_mem s) root_path objs es seen' next' → mem_ok (p_mem s) →
  LoadDependingLibs dl root_path s = Ok (dl1, s1) → carried_out dl dl1 s s1 objs seen' next' →
  Relocate tls_block dl1 s1 = Ok (dl2, s2) → linked_memory dl known objs es = Ok m → extends m (p_mem s2).
Proof.
  intros Hpl Hok Hload Hco Hrel Hm. pose proof (plan_linkable _ _ _ _ _ _ _ _ _ _ Hpl Hco) as [Hes Hn _].
  pose proof (LoadDependingLibs_mem_ok _ _ _ _ _ Hload Hok) as Hsz%mem_ok_size.
  destruct Hpl as [Hp Hknown _ Hlink]. destruct (plan_objects _ _ _ _ _ _ _ _ _ _ Hp Hco) as [Hbins Hplan].
  destruct Hco as [_ _ _ _ Himgs Hk]. assert (extends (plan_memory known objs) (p_mem s1)) as Hext
    by (apply plan_memory_extends; [by transitivity (p_mem s)|done]).
  rewrite Relocate_plan, (plan_run_actions tls_block (p_mem s1) (binaries_ dl1) es
    (targets tls_block (p_mem s1) (binaries_ dl1) es (plan dl1))) in Hrel; [|lia|done..|by apply Forall_forall, plan_object|done|done].
  destruct (run_actions _ _ _ _ _ _) as [m2|] eqn:Hm2; [|done]. injection Hrel as _ <-. cbn [set_mem p_mem].
  destruct (run_actions_more tls_block (plan_memory known objs) (p_mem s1) Hext (forget_file <$> binaries_ dl1) es (forget_files (plan dl1))
    (plan_memory known objs) m (p_mem s1)) as (m2' & Hm2' & Hext2); [..|done| |].
  - rewrite Hbins. exact (lk_entries _ _ _ _ _ Hlink).
  - rewrite Hbins, Hplan. apply Forall_forall. intros p. apply relocation_list_object.
  - rewrite Hbins, Hplan. exact Hm.
  - rewrite run_actions_forget, Hm2 in Hm2'. by injection Hm2' as ->.
Qed.

(** C4: loading and relocation succeed, and give the linked program: when the
    files have a plan that fits the process, and in the memory it describes every
    relocation has an action on mapped memory and no symbol name is relocated,
    the loader loads exactly the planned objects and links them; and what is then
    in memory includes the result of carrying out the relocations on the images
    of the files alone. *)
Theorem load_and_relocate_succeed dl known s root_path objs es seen' next' m :
  plan_links dl known (p_mem s) root_path objs es seen' next' → mem_ok (p_mem s) → binaries_ dl = [] →
  linked_memory dl known objs es = Ok m →
  ∃ dl1 s1 dl2 s2, LoadDependingLibs dl root_path s = Ok (dl1, s1) ∧ Relocate tls_block dl1 s1 = Ok (dl2, s2) ∧
    Forall2 as_planned objs (binaries_ dl2) ∧ extends m (p_mem s2) ∧
    linked tls_block (p_mem s1) (p_mem s2) (binaries_ dl2) es (plan dl1).
Proof.
  intros Hpl Hok Hnil Hm.
  destruct (plan_runs _ _ _ _ _ _ _ _ Hpl Hok) as (dl1 & s1 & dl2 & s2 & Hload & Hco & Hrel & [Hes Hn _]).
  pose proof (linked_memory_real _ _ _ _ _ _ _ _ _ _ _ _ _ Hpl Hok Hload Hco Hrel Hm) as Hext.
  destruct Hco as [(new & Hb & Hnew) _ _ _ _ _]. rewrite Hnil in Hb. cbn [app] in Hb.
  destruct (Relocate_fields _ _ _ _ _ Hrel) as (Hb2 & _).
  exists dl1, s1, dl2, s2. split_and!; [done|done|by rewrite Hb2, Hb|done|].
  refine (load_and_relocate_linked tls_block _ _ _ _ _ _ _ _ Hload Hrel Hnil Hok _ Hes Hn).
  rewrite Hb. eapply as_planned_wf; [exact (pl_planned _ _ _ _ _ _ _ _ Hpl)|done].
Qed.
End link.
