(* ===== verification/Launch.v ===== *)
(** * The program is launched

    The conditions on the files, the process and the constructors under which the
    whole command succeeds: the program and its libraries are found, loaded,
    relocated and started. Everything that depends on the files - which objects,
    their images, the values the relocations leave in them, the constructors - is
    computed from the files alone; of the process is asked that it has room. *)

From S2P Require Import Prelude Memory Digits Elf Utils Os ElfBinary ElfDynamic ElfFile FindLibrary DynLoader Accept Plan Symbols Relocate Execute Start Sloader Program Link.

(** ** What the objects say, whatever else is in memory *)

Lemma traverse_init_more m m' bins : extends m m' → covers (traverse (init_functions m) bins) (traverse (init_functions m') bins).
Proof.
  intros He. apply traverse_covers. intros b. unfold init_functions, array_words. apply covers_bind; [|intros; apply covers_refl].
  destruct (init_arraysz_ b =? 0); [apply covers_refl|]. apply traverse_covers. intros j. by apply load_word_covers.
Qed.

Lemma traverse_init_forget m bins : traverse (init_functions m) (forget_file <$> bins) = traverse (init_functions m) bins.
Proof.
  induction bins as [|b bins IH]; [done|]. cbn [fmap list_fmap traverse] in *.
  change (init_functions m (forget_file b)) with (init_functions m b). by rewrite IH.
Qed.

Lemma tls_total_forget bins : tls_total (forget_file <$> bins) = tls_total bins.
Proof. induction bins as [|b bins IH]; [done|]. unfold tls_total in *. cbn. f_equal. exact IH. Qed.

Lemma tls_area_forget tls_block off bins x : tls_area tls_block off (forget_file <$> bins) x = tls_area tls_block off bins x.
Proof. unfold tls_area. by rewrite tls_total_forget. Qed.

Lemma tls_source_more m m' b : extends m m' → tls_source m b → tls_source m' b.
Proof. intros He Hs Ht ph Hph. eapply extends_range; [exact He|by apply Hs]. Qed.

(** ** Addresses that stay mapped *)

Definition stays_mapped (m m' : memory) : Prop := ∀ x, mapped m x = true → mapped m' x = true.

#[export] Instance stays_mapped_preorder : PreOrder stays_mapped.
Proof. split; [by intros m x|]. intros m1 m2 m3 H1 H2 x Hx. by apply H2, H1. Qed.

Lemma extends_mapped m m' : extends m m' → stays_mapped m m'.
Proof. intros He x Hx. by apply He. Qed.

Lemma regions_mapped m m' : regions m' = regions m → stays_mapped m m'.
Proof. intros Hr x. unfold mapped. by rewrite Hr. Qed.

Lemma stays_mapped_range m m' a n : stays_mapped m m' → mapped_range m a n = true → mapped_range m' a n = true.
Proof. rewrite !mapped_range_spec. intros Hs Hm x Hx. by apply Hs, Hm. Qed.

(** ** The steps before the loader runs *)

Lemma write_tls_runs tls_block s :
  mapped_range (p_mem s) tls_block 4096 = true →
  ∃ s', write_sloader_dummy_to_secure_tls_space tls_block s = Ok (tt, s') ∧ regions (p_mem s') = regions (p_mem s).
Proof.
  intros Hm. unfold write_sloader_dummy_to_secure_tls_space, update_mem.
  match goal with |- context [foldM _ (p_mem s) ?l] => assert (Forall (λ iv : Z * Z, 0 ≤ iv.1 < 4096) l) as Hl end.
  { unfold TLS_SPACE_FOR_LOADEE. repeat (apply Forall_cons; split; [cbn; lia|]). apply Forall_nil_2. }
  match goal with |- context [foldM ?f _ ?l] => enough (∃ m', foldM f (p_mem s) l = Ok m' ∧ regions m' = regions (p_mem s)) as (m' & Hr & Hreg) end.
  { rewrite Hr. by eexists. }
  assert (regions (p_mem s) = regions (p_mem s)) as Hs by done. revert Hs. generalize (p_mem s) at 1 3 as m.
  induction Hl as [|iv l Hiv _ IH]; intros m Hs; [by exists m|]. cbn [foldM].
  assert (store_bytes m (tls_block + iv.1) [iv.2] = Ok (poke m (tls_block + iv.1) [iv.2])) as ->.
  { apply store_bytes_ok. split; [|done]. rewrite (mapped_range_regions (p_mem s)) by done.
    eapply mapped_range_sub; [exact Hm|cbn; lia..]. }
  by apply IH.
Qed.

(** Room for the program's file once more, which [GetEType] maps. *)
Lemma plan_fits_file `{FileSystem} `{KernelRoom} regs objs size prot a :
  plan_fits regs objs → room regs (size + plan_pages objs) → 0 < size → size mod 4096 = 0 → 0 ≤ plan_pages objs →
  mmap_place regs 0 size = Some a → file_area ≤ a → plan_fits (mkRegion a (a + size) prot :: regs) objs.
Proof.
  intros [Hd Hf Hb _] Hr Hpos Hal Hnn Hp Ha. split; [exact Hd| |exact Hb|].
  - intros r r' Hin [->|Hr']%elem_of_cons; [|by apply Hf]. specialize (Hb r Hin). unfold overlaps. cbn.
    apply andb_false_iff. right. apply Z.ltb_ge. lia.
  - replace (plan_pages objs) with (size + plan_pages objs - size) by lia. by apply room_take; [|lia|..].
Qed.

(** ** The theorem *)

Section launch.
Context (tls_block : Z).
Context `{Environment} `{FS : FileSystem} `{!FileSystemSpec FS} `{K : Kernel} `{!KernelSpec K} `{!KernelHint K} `{!KernelRoom K}.
Context `{LibcMap} `{Strings} `{LoadedCode}.
Context (W : Z → Prop) (Hcode : ∀ fn m m', call_function fn m = Ok m' → agree_off W m m').

(** The loader before it loads anything, and memory without contents. *)
Abbreviation new_loader path args envs := (DynLoader_new path args envs).
Definition no_memory : memory := mkMemory [] (λ _, 0).

(** What the files say: the program [path] with contents [bs] is found, it has the
    plan [objs] with the table of names [es], carrying out the relocations on the
    images gives [m], and there the constructors are [fns]. *)
Record program_files (args envs : list string) (path : string) (bs : list Z) (objs : list ELFBinary)
    (es : list entry) (m : memory) (fns : list (list Z)) : Prop := {
  pg_program : from_option find_program (Err Exception) (head args) = Ok path;
  pg_exists : path_exists path = Some true;
  pg_file : open_file path = Some bs;
  pg_type : elf_type bs = ET_DYN ∨ elf_type bs = ET_EXEC;
  pg_planned : ∃ seen' next', planned_root ∅ 0x1400000 path objs seen' next';
  pg_linkable : linkable tls_block (plan_memory no_memory objs) objs es (relocation_list ∅ objs);
  pg_memory : linked_memory tls_block (new_loader path args envs) no_memory objs es = Ok m;
  pg_functions : traverse (init_functions m) (rev objs) = Ok fns;
  pg_protected : Forall (array_protected W) objs;
  pg_arrays : Forall array_wf objs;
  pg_tls : Forall tls_object_wf objs;
  pg_tls_limit : tls_total objs ≤ 4096;
  pg_sources : Forall (tls_source m) objs
}.

(** What is asked of the process: the objects fit, and the file of the program
    twice; the thread-local space and the stack are there; the constructors
    return. *)
Record process_room (args envs : list string) (s : proc) (bs : list Z) (objs : list ELFBinary) (fns : list (list Z)) : Prop := {
  pr_ok : mem_ok (p_mem s);
  pr_fits : plan_fits (regions (p_mem s)) objs;
  pr_file : room (regions (p_mem s)) (page_ceil (Z.of_nat (length bs)) + plan_pages objs);
  pr_tls : mapped_range (p_mem s) tls_block (4096 + 8) = true;
  pr_block : 0 ≤ tls_block ∧ tls_block + 4096 + 8 ≤ 2 ^ 64;
  pr_offset : sloader_tls_offset s = 4096;
  pr_random : getauxval AT_RANDOM ≠ 0;
  pr_stack : let size := stack_size (new_loader EmptyString args envs) in
             mapped_range (p_mem s) (p_rsp s - size) size = true ∧ size ≤ p_rsp s < 2 ^ 64;
  pr_return fn : fn ∈ concat fns → ∀ m, stays_mapped (p_mem s) m → ∃ m', call_function fn m = Ok m'
}.

(** What the start of the program writes. *)
Definition launch_writes (args envs : list string) (objs : list ELFBinary) (s : proc) (x : Z) : Prop :=
  W x ∨ tls_area tls_block 4096 objs x ∨
  stack_area (p_rsp s - stack_size (new_loader EmptyString args envs)) (p_rsp s) x.

Lemma launch_accepted args envs path bs objs es m fns s :
  program_files args envs path bs objs es m fns → process_room args envs s bs objs fns →
  ∃ a, file_area ≤ a ∧ mmap_place (regions (p_mem s)) 0 (page_ceil (Z.of_nat (length bs))) = Some a ∧
    main tls_block args envs s =
    (write_sloader_dummy_to_secure_tls_space tls_block ;; Run tls_block (new_loader path args envs)) (type_read a bs s).
Proof.
  intros Hf Hr. pose proof (main_dispatch tls_block args envs s) as Hm. unfold refusal in Hm.
  destruct args as [|argv0 rest]; [by destruct Hf|]. pose proof (pg_program _ _ _ _ _ _ _ _ Hf) as Hprog. cbn in Hprog.
  rewrite Hprog, (pg_exists _ _ _ _ _ _ _ _ Hf), (pg_file _ _ _ _ _ _ _ _ Hf) in Hm. cbn [negb] in Hm.
  destruct (pg_planned _ _ _ _ _ _ _ _ Hf) as (seen' & next' & root & libs & Hobjs & (bs' & Ho & Hwf & _) & _).
  rewrite (pg_file _ _ _ _ _ _ _ _ Hf) in Ho. injection Ho as <-. pose proof (fw_size _ _ Hwf) as Hsz.
  rewrite (proj2 (Z.leb_gt _ _)) in Hm by lia. set (size := page_ceil (Z.of_nat (length bs))) in *.
  pose proof (page_ceil_bound (Z.of_nat (length bs))). pose proof (plan_pages_nonneg objs).
  destruct (room_place _ _ size (pr_file _ _ _ _ _ _ Hr)) as (a & Ha & Harea); [unfold size in *; lia|apply page_ceil_aligned|].
  rewrite Ha in Hm. destruct (_ || _) eqn:Et.
  2: { exfalso. apply orb_false_iff in Et as [E1%Z.eqb_neq E2%Z.eqb_neq]. by destruct (pg_type _ _ _ _ _ _ _ _ Hf). }
  destruct Hm as (argv0' & path' & bs' & a' & [= <-] & Hprog' & Ho & Ha' & Hm).
  rewrite Hprog in Hprog'. injection Hprog' as <-. rewrite (pg_file _ _ _ _ _ _ _ _ Hf) in Ho. injection Ho as <-.
  fold size in Ha'. rewrite Ha in Ha'. injection Ha' as <-. eauto.
Qed.

(** The loader starts with a process that still has the room. *)
Lemma launch_ready args envs path bs objs es m fns s a :
  program_files args envs path bs objs es m fns → process_room args envs s bs objs fns →
  file_area ≤ a → mmap_place (regions (p_mem s)) 0 (page_ceil (Z.of_nat (length bs))) = Some a →
  ∃ s2 seen' next', write_sloader_dummy_to_secure_tls_space tls_block (type_read a bs s) = Ok (tt, s2) ∧ quiet s s2 ∧
    mem_ok (p_mem s2) ∧ stays_mapped (p_mem s) (p_mem s2) ∧
    plan_links tls_block (new_loader path args envs) no_memory (p_mem s2) path objs es seen' next'.
Proof.
  intros Hf Hr Harea Ha. set (s1 := type_read a bs s).
  pose proof (map_file_extends _ _ _ Ha) as He. change (map_bytes _ _ _ _ _) with (p_mem s1) in He.
  destruct (write_tls_runs tls_block s1) as (s2 & Hs2 & Hregs).
  { eapply stays_mapped_range; [by apply extends_mapped|]. eapply mapped_range_sub; [exact (pr_tls _ _ _ _ _ _ Hr)|lia..]. }
  destruct (pg_planned _ _ _ _ _ _ _ _ Hf) as (seen' & next' & Hp). exists s2, seen', next'.
  pose proof (write_tls_kept _ _ _ _ Hs2) as [Hok _]. apply write_tls_quiet in Hs2 as Hq.
  assert (mem_ok (p_mem s1)) as Hok1.
  { destruct (map_zero_mem_ok _ _ _ _ 7 Ha (pr_ok _ _ _ _ _ _ Hr)) as ([Hd Hu] & _). by split. }
  split_and!; [exact Hs2|exact Hq|by apply Hok| |].
  { etrans; [by apply extends_mapped|]. by apply regions_mapped. }
  split; [exact Hp|by intros x| |exact (pg_linkable _ _ _ _ _ _ _ _ Hf)].
  rewrite Hregs. destruct Hp as (root & libs & _ & (bs' & Ho & Hwf & _) & _).
  rewrite (pg_file _ _ _ _ _ _ _ _ Hf) in Ho. injection Ho as <-. pose proof (fw_size _ _ Hwf).
  pose proof (page_ceil_bound (Z.of_nat (length bs))).
  apply (plan_fits_file (regions (p_mem s)) objs _ 7 a (pr_fits _ _ _ _ _ _ Hr) (pr_file _ _ _ _ _ _ Hr));
    [lia|apply page_ceil_aligned|apply plan_pages_nonneg|exact Ha|exact Harea].
Qed.

(** After relocation everything is there for starting. *)
Lemma launch_can_start args envs path bs objs es m fns s dl s4 :
  program_files args envs path bs objs es m fns → process_room args envs s bs objs fns →
  forget_file <$> binaries_ dl = objs → args_ dl = args → envs_ dl = envs →
  extends m (p_mem s4) → stays_mapped (p_mem s) (p_mem s4) → quiet s s4 → can_start tls_block W dl s4 fns.
Proof.
  intros Hf Hr Hobjs Ha He Hext Hst (_ & Hrsp & Hoff). set (bins := binaries_ dl) in *.
  assert (∀ Q : ELFBinary → Prop, (∀ b, Q (forget_file b) → Q b) → Forall Q objs → Forall Q bins) as Hall.
  { intros Q HQ. rewrite <-Hobjs, Forall_fmap. intros HF. eapply Forall_impl; [exact HF|exact HQ]. }
  assert (stack_size dl = stack_size (new_loader EmptyString args envs)) as Hsize by (unfold stack_size; by rewrite Ha, He).
  assert (tls_total bins = tls_total objs) as Htot by by rewrite <-Hobjs, tls_total_forget.
  destruct (pr_block _ _ _ _ _ _ Hr) as [Hb0 Hb64]. pose proof (pr_offset _ _ _ _ _ _ Hr) as Ho.
  pose proof (pg_tls_limit _ _ _ _ _ _ _ _ Hf) as Hlim. pose proof (tls_total_nonneg _ (pg_tls _ _ _ _ _ _ _ _ Hf)).
  split.
  - apply (traverse_init_more _ _ _ Hext). rewrite <-traverse_init_forget. change (forget_file <$> rev (binaries_ dl)) with (map forget_file (rev bins)).
    rewrite map_rev. change (map forget_file bins) with (forget_file <$> bins). rewrite Hobjs. apply Hf.
  - apply Forall_forall. intros fn Hfn m1 Hm1. apply (pr_return _ _ _ _ _ _ Hr fn Hfn).
    etrans; [exact Hst|by apply regions_mapped].
  - apply Hall; [done|]. apply Hf.
  - apply Hall; [done|]. apply Hf.
  - exact (pr_random _ _ _ _ _ _ Hr).
  - rewrite Hoff, Ho. split; fold bins; rewrite ?Htot; [apply Hall; [done|]; apply Hf|exact Hlim|lia| |].
    + eapply stays_mapped_range; [exact Hst|]. eapply mapped_range_sub; [exact (pr_tls _ _ _ _ _ _ Hr)|lia..].
    + apply Hall; [done|]. eapply Forall_impl; [exact (pg_sources _ _ _ _ _ _ _ _ Hf)|]. intros b Hs. exact (tls_source_more _ _ b Hext Hs).
  - fold bins. by rewrite Htot.
  - rewrite Hsize, Hrsp. eapply stays_mapped_range; [exact Hst|]. apply (pr_stack _ _ _ _ _ _ Hr).
  - rewrite Hsize, Hrsp. apply (pr_stack _ _ _ _ _ _ Hr).
Qed.

Lemma main_launches args envs path bs objs es m fns s :
  program_files args envs path bs objs es m fns → process_room args envs s bs objs fns →
  ∃ dl s', main tls_block args envs s = Ok (dl, s') ∧ Forall2 as_planned objs (binaries_ dl) ∧
    let st := abi_stack aux_tvs (length envs) (length args) in
    let rsp := p_rsp s - 8 * Z.of_nat (length st) in
    p_trace s' = p_trace s ++ map (init_event (length envs)) (concat fns) ++
                 [EvJump (wrap64 (e_entry (file_ehdr bs) + file_base bs 0x1400000)) rsp] ∧
    (∀ k v, st !! k = Some v → load64 (p_mem s') (rsp + 8 * Z.of_nat k) = Ok (wrap64 v)) ∧
    ∀ x, mapped m x = true → ¬ launch_writes args envs objs s x →
      mapped (p_mem s') x = true ∧ byte_at (p_mem s') x = byte_at m x.
Proof.
  intros Hf Hr. destruct (launch_accepted _ _ _ _ _ _ _ _ _ Hf Hr) as (a & Harea & Ha & Hmain).
  destruct (launch_ready _ _ _ _ _ _ _ _ _ _ Hf Hr Harea Ha) as (s2 & seen' & next' & Hw & Hq2 & Hok2 & Hst2 & Hpl).
  destruct (plan_runs tls_block _ _ _ _ _ _ _ _ Hpl Hok2) as (dl1 & s3 & dl2 & s4 & Hload & Hco & Hrel & _).
  pose proof (linked_memory_real tls_block _ _ _ _ _ _ _ _ _ _ _ _ _ Hpl Hok2 Hload Hco Hrel (pg_memory _ _ _ _ _ _ _ _ Hf)) as Hext.
  destruct (plan_objects _ _ _ _ _ _ _ _ _ _ (pl_planned _ _ _ _ _ _ _ _ _ Hpl) Hco) as [Hobjs _].
  destruct (Relocate_fields _ _ _ _ _ Hrel) as (Hb2 & Ha2 & He2).
  apply LoadDependingLibs_quiet in Hload as Hq3. apply Relocate_quiet in Hrel as Hq4.
  destruct Hco as [(new & Hb1 & Hnew) _ _ (_ & _ & Ha1 & He1 & _) _ Hk3]. cbn in Hobjs, Hb1.
  assert (can_start tls_block W dl2 s4 fns) as Hcan.
  { apply (launch_can_start args envs path bs objs es m fns s); [done|done|by rewrite Hb2|by rewrite Ha2, Ha1|by rewrite He2, He1|exact Hext| |].
    - etrans; [exact Hst2|]. etrans; [by apply extends_mapped|]. apply regions_mapped. by apply Relocate_memory in Hrel as [? _].
    - etrans; [exact Hq2|]. by etrans. }
  destruct (pg_planned _ _ _ _ _ _ _ _ Hf) as (? & ? & root & libs & Hroot & (bs' & Ho & _ & Hpure) & _).
  rewrite (pg_file _ _ _ _ _ _ _ _ Hf) in Ho. injection Ho as <-.
  pose proof Hnew as Hnew'. rewrite Hroot in Hnew'. apply Forall2_cons_inv_l in Hnew' as (b & rest & Hb & _ & Hcons).
  destruct (pure_object_fields _ _ _ _ Hpure) as (_ & Hbase & _ & _ & Hehdr).
  destruct (Execute_starts tls_block W Hcode dl2 s4 fns b rest Hcan) as (s5 & Hex & Htr & Hrsp & Hstack & Hag); [by rewrite Hb2, Hb1|].
  exists dl2, s5. rewrite Ha2, He2, Ha1, He1 in *. cbn [args_ envs_ DynLoader_new] in *.
  assert (p_rsp s4 = p_rsp s ∧ p_trace s4 = p_trace s ∧ sloader_tls_offset s4 = 4096) as (Hr4 & Ht4 & Ho4).
  { rewrite <-(pr_offset _ _ _ _ _ _ Hr). destruct Hq2 as (? & ? & ?), Hq3 as (? & ? & ?), Hq4 as (? & ? & ?). split_and!; congruence. }
  rewrite Hr4, Ht4 in *. split_and!; [|by rewrite Hb2, Hb1| |exact Hstack|].
  - rewrite Hmain, (stM_bind_run _ _ _ _ _ Hw). unfold Run. cbn [main_path_ DynLoader_new].
    rewrite (stM_bind_run _ _ _ _ _ Hload), (stM_bind_run _ _ _ _ _ Hrel), (stM_bind_run _ _ _ _ _ Hex). done.
  - rewrite Htr. unfold as_planned in Hb. rewrite Hb. change (ehdr_ (at_file _ root)) with (ehdr_ root).
    change (base_addr_ (at_file _ root)) with (base_addr_ root). by rewrite Hehdr, Hbase.
  - intros y Hy Hnw. destruct (Hext y Hy) as [Hm4 Hb4]. destruct Hag as [Hregs Hbytes]. split; [by rewrite (mapped_regions (p_mem s4))|].
    rewrite <-Hb4. apply Hbytes. intros Hsw. apply Hnw. unfold start_writes, launch_writes, stack_size in *.
    by rewrite Ho4, Hb2, <-tls_area_forget, Hobjs, Hr4, Ha2, He2 in Hsw.
Qed.

(** C1: the command succeeds: for every command line that names a program whose
    files - its own and those of the libraries it needs - are well formed, have a
    place, and whose relocations can all be carried out, in every process that has
    room for them, the loader loads exactly the planned objects, runs their
    constructors - as the relocated images name them, from the last object to the
    first - and enters the program at its entry point with the stack of the ABI and with the
    relocated images in memory - all of it but what the constructors may write, the
    thread-local blocks and the stack. *)
Theorem main_succeeds args envs path bs objs es m fns s :
  program_files args envs path bs objs es m fns → process_room args envs s bs objs fns →
  ∃ dl s', main tls_block args envs s = Ok (dl, s') ∧ Forall2 as_planned objs (binaries_ dl) ∧
    let st := abi_stack aux_tvs (length envs) (length args) in
    let rsp := p_rsp s - 8 * Z.of_nat (length st) in
    p_trace s' = p_trace s ++ map (init_event (length envs)) (concat fns) ++
                 [EvJump (wrap64 (e_entry (file_ehdr bs) + file_base bs 0x1400000)) rsp] ∧
    (∀ k v, st !! k = Some v → load64 (p_mem s') (rsp + 8 * Z.of_nat k) = Ok (wrap64 v)) ∧
    ∀ x, mapped m x = true → ¬ launch_writes args envs objs s x →
      mapped (p_mem s') x = true ∧ byte_at (p_mem s') x = byte_at m x.
Proof. apply main_launches. Qed.
End launch.
