(* ===== verification/Session.v ===== *)
(** * The running program

    After [main] has entered the program, the loader is a service: the program
    runs, writes to its memory, and now and then calls [dlopen] and [dlsym]. This
    is a step relation on the loader and the process; the theorems hold for every
    interleaving of such steps. *)

From stdpp Require Import relations.
From S2P Require Import Prelude Memory Digits Elf Utils Os ElfBinary ElfDynamic ElfFile FindLibrary DynLoader Words Accept Plan Symbols Relocate Execute Sloader Program Link.

(** ** Memory is kept in order while the program is started *)

#[export] Instance memory_kept_preorder : PreOrder memory_kept.
Proof. unfold memory_kept. split; [by intros s|]. intros s1 s2 s3 [] []. split; auto. Qed.

Lemma memory_kept_regions s s' :
  regions (p_mem s') = regions (p_mem s) → (bytes_ok (p_mem s) → bytes_ok (p_mem s')) → memory_kept s s'.
Proof. intros Hr Hb. split; [|done]. intros [Hd Hu]. split; by rewrite Hr. Qed.

Lemma memory_kept_poke s s' a bs :
  p_mem s' = poke (p_mem s) a bs → (bytes_ok (p_mem s) → Forall byte bs) → memory_kept s s'.
Proof.
  intros Hs Hbs. apply memory_kept_regions; rewrite Hs; [done|]. intros Hb. apply bytes_ok_poke; auto.
Qed.

Section start.
Context (tls_block : Z) `{Strings} `{LoadedCode} `{Environment}.

(** Constructors map nothing and leave bytes in memory. *)
Context (Hcode : ∀ fn m m', call_function fn m = Ok m' → regions m' = regions m ∧ (bytes_ok m → bytes_ok m')).

Lemma call_init_kept fn n_envs s u s' : call_init fn n_envs s = Ok (u, s') → memory_kept s s'.
Proof.
  unfold call_init. intros Hrun. inv_proc.
  match goal with Hc : call_function _ _ = Ok _ |- _ => apply Hcode in Hc as [Hr Hb] end. by apply memory_kept_regions.
Qed.

Lemma init_object_kept n_envs b s u s' : init_object n_envs b s = Ok (u, s') → memory_kept s s'.
Proof.
  unfold init_object. intros Hrun. apply stM_bind_ok in Hrun as (? & s1 & Hinit & Hrun).
  assert (memory_kept s s1) as Hk1 by (destruct (negb _); [by eapply call_init_kept|by inv_ok]).
  etrans; [exact Hk1|]. destruct (negb (init_arraysz_ b =? 0)); [|by inv_ok].
  apply stM_bind_ok in Hrun as (? & s2 & Hck & Hrun).
  apply CHECK_st_ok in Hck as [_ ->]. unfold call_init_array in Hrun. apply outcome_bind_ok in Hrun as (s2 & Hloop & [= _ <-]).
  apply (while_invariant _ (λ st, memory_kept s1 st.2)) in Hloop as ([j s3] & Hs3 & Hstep); [| |done].
  - cbn in Hs3. unfold init_array_step in Hstep. destruct (j <? _); [|by simplify_eq].
    apply outcome_bind_ok in Hstep as (fn & _ & Hstep). destruct (fn =? 0); [by simplify_eq|].
    by apply outcome_bind_ok in Hstep as ([] & _ & Hstep).
  - intros [j s3] st' Hs3 Hstep. cbn in Hs3. unfold init_array_step in Hstep. destruct (j <? _); [|done].
    apply outcome_bind_ok in Hstep as (fn & _ & Hstep). destruct (fn =? 0); [done|].
    apply outcome_bind_ok in Hstep as ([? s4] & Hcall & Hstep). simplify_eq. cbn.
    etrans; [exact Hs3|]. by eapply call_init_kept.
Qed.

Lemma setup_tls_object_kept b s u s' : setup_tls_object tls_block b s = Ok (u, s') → memory_kept s s'.
Proof.
  unfold setup_tls_object. intros Hrun. destruct (has_tls_ b); [|by inv_ok].
  apply outcome_bind_ok in Hrun as (ph & _ & Hrun). cbv zeta in Hrun.
  apply outcome_bind_ok in Hrun as (m1 & Hcpy & Hrun). apply memcpy_ok in Hcpy as (_ & _ & ->).
  apply outcome_bind_ok in Hrun as (m2 & Hset & Hrun). apply memset_ok in Hset as (_ & ->).
  apply outcome_bind_ok in Hrun as (m3 & Hst & Hrun). apply store64_ok in Hst as (_ & ->). injection Hrun as _ <-.
  apply memory_kept_regions; [done|]. intros Hb. cbn [set_tls_offset set_mem p_mem].
  apply bytes_ok_poke; [|exact (le_split_bytes 8 _)]. apply bytes_ok_poke; [apply bytes_ok_poke; auto with bytes|].
  apply Forall_replicate. unfold byte. lia.
Qed.

Lemma push_kept v s u s' : push v s = Ok (u, s') → memory_kept s s'.
Proof.
  intros [_ ->]%push_ok. eapply memory_kept_poke; [done|]. intros _. apply le_split_bytes.
Qed.

(** A loop keeps what its rounds keep. *)
Lemma foldM_kept {A B} (f : A → B → P A) l a s a' s' :
  (∀ a b s a' s', f a b s = Ok (a', s') → memory_kept s s') → foldM f a l s = Ok (a', s') → memory_kept s s'.
Proof.
  intros Hf. apply (foldM_st_invariant _ (λ _, memory_kept s)); [|done].
  intros a1 b s1 a2 s2 _ Hk Hrun. etrans; [exact Hk|]. by eapply Hf.
Qed.

Lemma setup_tls_kept bins s u s' : setup_tls tls_block bins s = Ok (u, s') → memory_kept s s'.
Proof.
  intros Htls%setup_tls_ok. eapply foldM_kept, Htls. intros ????? Hr. exact (setup_tls_object_kept _ _ _ _ Hr).
Qed.

Lemma ExecuteCore_kept stack entry s u s' : ExecuteCore stack entry s = Ok (u, s') → memory_kept s s'.
Proof.
  unfold ExecuteCore. intros Hcore. apply stM_bind_ok in Hcore as ([] & s1 & Hpush & Hcore).
  transitivity s1; [eapply foldM_kept, Hpush; intros ????? Hr; exact (push_kept _ _ _ _ Hr)|]. inv_ok. done.
Qed.

Lemma Execute_kept dl s u s' : Execute tls_block dl s = Ok (u, s') → memory_kept s s'.
Proof.
  intros (s1 & s2 & b & rest & Hinit & _ & Htls & _ & Hcore)%Execute_ok. transitivity s1; [|transitivity s2].
  - unfold init_objects in Hinit. eapply foldM_kept, Hinit. intros ????? Hr. exact (init_object_kept _ _ _ _ _ Hr).
  - by eapply setup_tls_kept.
  - by eapply ExecuteCore_kept.
Qed.
End start.

(** ** The step relation *)

(** What the program does on its own: it writes to memory and may map more of it. *)
Record program_step (s s' : proc) : Prop := {
  ps_memory : memory_kept s s';
  ps_trace : p_trace s' = p_trace s;
  ps_offset : sloader_tls_offset s' = sloader_tls_offset s
}.

(** The loader after a call of [dlopen] or [dlsym] is the one before or the one that
    [dlopen] made. *)
Inductive session_step `{Environment} `{FileSystem} `{Kernel} `{LibcMap} (tls_block : Z) :
    DynLoader * proc → DynLoader * proc → Prop :=
  | step_program dl s s' : program_step s s' → session_step tls_block (dl, s) (dl, s')
  | step_dlopen dl s filename h dl' s' :
      sloader_dlopen tls_block (Some dl) filename s = Ok ((h, Some dl'), s') → session_step tls_block (dl, s) (dl', s')
  | step_dlsym dl s name a s' : sloader_dlsym (Some dl) name s = Ok (a, s') → session_step tls_block (dl, s) (dl, s').

Section session.
Context (tls_block : Z).
Context `{Environment} `{FS : FileSystem} `{!FileSystemSpec FS} `{K : Kernel} `{!KernelSpec K} `{LibcMap}.

(** The invariant of the loader object: mappings apart from each other, integers
    in range, every path marked. *)
Record session_ok (st : DynLoader * proc) : Prop := {
  so_memory : mem_ok (p_mem st.2);
  so_words : loader_words st.1 st.2;
  so_marked : Forall (path_marked (relocated_ st.1)) (binaries_ st.1)
}.

(** What never changes: objects, loaded names and marks are only added to, and
    neither a constructor runs nor a thread-local block is made. *)
Record session_grows (st st' : DynLoader * proc) : Prop := {
  sg_binaries : binaries_ st.1 `prefix_of` binaries_ st'.1;
  sg_loaded : loaded_ st.1 ⊆ loaded_ st'.1;
  sg_config : main_path_ st'.1 = main_path_ st.1 ∧ args_ st'.1 = args_ st.1 ∧ envs_ st'.1 = envs_ st.1;
  sg_trace : p_trace st'.2 = p_trace st.2;
  sg_offset : sloader_tls_offset st'.2 = sloader_tls_offset st.2
}.

#[export] Instance session_grows_preorder : PreOrder session_grows.
Proof.
  split; [by intros st; split|]. intros st1 st2 st3 [Hb1 Hl1 (Hm1 & Ha1 & He1) Ht1 Ho1] [Hb2 Hl2 (Hm2 & Ha2 & He2) Ht2 Ho2].
  split; [by etrans|by etrans|split_and!; congruence|congruence..].
Qed.

Lemma sloader_dlsym_state dl name s a s' : sloader_dlsym (Some dl) name s = Ok (a, s') → s' = s.
Proof.
  unfold sloader_dlsym. intros Hrun. apply stM_bind_ok in Hrun as (dl0 & s0 & [= <- <-] & Hrun).
  apply stM_bind_ok in Hrun as (opt & s1 & Hs & Hrun). apply with_mem_ok in Hs as [_ ->].
  destruct opt as [[i j]|]; [|done]. destruct (binaries_ dl !! i); [|done]. by apply lift_ok in Hrun as [_ ->].
Qed.

Lemma Relocate_dl dl s dl' s' :
  Relocate tls_block dl s = Ok (dl', s') →
  dl' = dl <| relocated_ := mark_relocated (relocated_ dl) (unrelocated (relocated_ dl) (binaries_ dl)) |>.
Proof. rewrite Relocate_plan. destruct (foldM _ _ _); [|done]. by intros [= <- _]. Qed.

Lemma load_and_relocate_session dl path s dl1 s1 dl' s' :
  LoadDependingLibs dl path s = Ok (dl1, s1) → Relocate tls_block dl1 s1 = Ok (dl', s') →
  session_grows (dl, s) (dl', s') ∧ (mem_ok (p_mem s) → loader_words dl s → session_ok (dl', s')).
Proof.
  intros Hload Hrel. apply LoadDependingLibs_quiet in Hload as Hq1. apply Relocate_quiet in Hrel as Hq2.
  destruct Hq1 as (Ht1 & _ & Ho1), Hq2 as (Ht2 & _ & Ho2).
  destruct (Relocate_memory _ _ _ _ _ Hrel) as [Hregs Hbytes]. pose proof (Relocate_dl _ _ _ _ Hrel) as Hdl.
  pose proof Hload as Hload'. apply LoadDependingLibs_ok in Hload' as (root & dl0 & s0 & Hl & Hw).
  destruct (deps_loop_bfs _ _ _ _ _ _ _ _ Hl Hw) as (libs & dn & Hb & _ & _ & Hld & Hc).
  destruct Hc as (Hm & _ & Ha & He & _). split.
  - rewrite Hdl. split; cbn [fst snd].
    + exists (root :: libs). exact Hb.
    + change (loaded_ (dl1 <| relocated_ := _ |>)) with (loaded_ dl1). rewrite Hld. set_solver.
    + split_and!; [exact Hm|exact Ha|exact He].
    + congruence.
    + congruence.
  - intros Hok Hwords. pose proof (LoadDependingLibs_mem_ok _ _ _ _ _ Hload Hok) as [Hd Hu].
    destruct (loader_words_kept _ _ _ _ _ Hload Hwords) as [Hwb Hwn Hwm]. rewrite Hdl. split; cbn [fst snd].
    + split; by rewrite Hregs.
    + split; [exact Hwb|exact Hwn|by apply Hbytes].
    + apply (unrelocated_marked (relocated_ dl1) (binaries_ dl1)).
Qed.

Lemma session_step_ok st st' : session_step tls_block st st' → session_ok st → session_ok st' ∧ session_grows st st'.
Proof.
  intros Hstep Hst. destruct Hstep as [dl s s' [[Hok Hb] Ht Ho]|dl s filename h dl' s' Hopen|dl s name a s' Hsym].
  - destruct Hst as [Hmem [Hwb Hwn Hwm] Hmk]. split; [split; [by apply Hok|split; [done|done|by apply Hb]|done]|by split].
  - apply sloader_dlopen_ok in Hopen as [([= <-] & -> & _)|(name & path & dl1 & s1 & dl2 & _ & _ & _ & Hload & Hrel & [= <-])]; [by split|].
    destruct (load_and_relocate_session _ _ _ _ _ _ _ Hload Hrel) as [Hg Hok]. split; [apply Hok; apply Hst|exact Hg].
  - apply sloader_dlsym_state in Hsym as ->. by split.
Qed.

Lemma session_ok_grows st st' :
  rtc (session_step tls_block) st st' → session_ok st → session_ok st' ∧ session_grows st st'.
Proof.
  induction 1 as [st|st1 st2 st3 Hstep _ IH]; intros Hst; [by split|].
  destruct (session_step_ok _ _ Hstep Hst) as [Hok Hg]. destruct (IH Hok) as [Hok' Hg'].
  split; [exact Hok'|]. etrans; [exact Hg|exact Hg'].
Qed.
End session.

(** ** Theorems *)

Lemma in_fuel_sloader_dlsym dl s name : mem_size (p_mem s) < 2 ^ 64 → in_fuel (sloader_dlsym (Some dl) name s).
Proof.
  intros Hsz. unfold sloader_dlsym. apply in_fuel_st_bind; [done|]. intros dl0 s0 [= <- <-]. apply in_fuel_st_bind.
  { pose proof (in_fuel_SearchSym (p_mem s) Hsz (binaries_ dl) name false) as Hf. unfold in_fuel, with_mem in *.
    destruct (SearchSym _ _ _ _); congruence. }
  intros [[i j]|] s1 _; [|done]. destruct (binaries_ dl !! i) as [b|]; [|done].
  pose proof (in_fuel_GetSymbolAddr b j) as Hf. unfold in_fuel, lift in *. destruct (GetSymbolAddr b j); congruence.
Qed.

Section sessions.
Context (tls_block : Z).
Context `{Environment} `{FS : FileSystem} `{!FileSystemSpec FS} `{K : Kernel} `{!KernelSpec K} `{LibcMap} `{Strings} `{LoadedCode}.

Lemma main_session args envs s dl s' :
  (∀ fn m m', call_function fn m = Ok m' → regions m' = regions m ∧ (bytes_ok m → bytes_ok m')) →
  main tls_block args envs s = Ok (dl, s') → mem_ok (p_mem s) → bytes_ok (p_mem s) → session_ok (dl, s').
Proof.
  intros Hcode Hrun Hok Hb. pose proof (main_dispatch tls_block args envs s) as Hm.
  destruct (refusal _ _); [congruence|]. destruct Hm as (argv0 & path & bs & a & _ & _ & Ho & Ha & Hm).
  rewrite Hm in Hrun. clear Hm. set (s1 := type_read a bs s) in *.
  assert (mem_ok (p_mem s1)) as Hok1.
  { destruct (map_zero_mem_ok _ _ _ _ 7 Ha Hok) as ([Hd Hu] & _). by split. }
  assert (bytes_ok (p_mem s1)) as Hb1 by (apply bytes_ok_map_bytes; [done|by eapply file_contents]).
  apply stM_bind_ok in Hrun as (? & s2 & Hw & Hrun). apply write_tls_kept in Hw as [Hok2 Hb2].
  apply Run_ok in Hrun as (dl1 & s3 & s4 & Hload & Hrel & Hex).
  destruct (load_and_relocate_session tls_block _ _ _ _ _ _ _ Hload Hrel) as [_ [Hok4 [Hwb Hwn Hwm] Hmk]].
  - by apply Hok2.
  - split; [apply Forall_nil_2|unfold word64; cbn; lia|by apply Hb2].
  - apply (Execute_kept tls_block Hcode) in Hex as [Hok5 Hb5].
    split; [by apply Hok5|split; [exact Hwb|exact Hwn|by apply Hb5]|exact Hmk].
Qed.

(** C11: as long as the program runs, whatever it does and whichever libraries it
    opens: the loader's objects are only added to, the mappings stay apart and the
    integers in range, every object has a path that was relocated, and after the
    jump into the program no constructor runs and no thread-local block is made -
    those of libraries opened later are never. *)
Theorem session_invariant args envs s0 dl1 s1 dl s :
  (∀ fn m m', call_function fn m = Ok m' → regions m' = regions m ∧ (bytes_ok m → bytes_ok m')) →
  main tls_block args envs s0 = Ok (dl1, s1) → mem_ok (p_mem s0) → bytes_ok (p_mem s0) →
  rtc (session_step tls_block) (dl1, s1) (dl, s) →
  session_ok (dl, s) ∧ session_grows (dl1, s1) (dl, s).
Proof.
  intros Hcode Hmain Hok Hb Hrtc. exact (session_ok_grows tls_block _ _ Hrtc (main_session _ _ _ _ _ Hcode Hmain Hok Hb)).
Qed.

Lemma in_fuel_sloader_dlopen dl s filename :
  in_fuel read_ldsoconf → session_ok (dl, s) → in_fuel (sloader_dlopen tls_block (Some dl) filename s).
Proof.
  intros Hconf [Hmem _ _]. cbn [fst snd] in Hmem.
  unfold sloader_dlopen. destruct filename as [name|]; [|done]. destruct (skip_library name); [done|].
  apply in_fuel_st_bind; [done|]. intros dl2 s2 [= <- <-]. apply in_fuel_st_bind.
  { pose proof (in_fuel_FindLibrary name None None Hconf) as Hf. unfold in_fuel, lift in *. destruct (FindLibrary _ _ _); congruence. }
  intros path s2 [_ ->]%lift_ok. apply in_fuel_st_bind; [by apply LoadDependingLibs_terminates|].
  intros dl3 s3 Hl. apply in_fuel_st_bind; [|done]. apply in_fuel_Relocate.
  pose proof (mem_ok_size _ (LoadDependingLibs_mem_ok _ _ _ _ _ Hl Hmem)). lia.
Qed.

(** C14: and [dlopen] does not hang the program: in every state that can be reached a
    call of it ends, with a handle or with an error of the code, when the
    configuration files do not include each other in a circle or in a chain of
    [ldsoconf_depth] files. *)
Theorem session_dlopen_terminates args envs s0 dl1 s1 dl s filename :
  (∀ fn m m', call_function fn m = Ok m' → regions m' = regions m ∧ (bytes_ok m → bytes_ok m')) →
  main tls_block args envs s0 = Ok (dl1, s1) → mem_ok (p_mem s0) → bytes_ok (p_mem s0) → includes_bounded →
  rtc (session_step tls_block) (dl1, s1) (dl, s) → in_fuel (sloader_dlopen tls_block (Some dl) filename s).
Proof.
  intros Hcode Hmain Hok Hb Hconf%read_ldsoconf_in_fuel Hrtc. apply in_fuel_sloader_dlopen; [exact Hconf|].
  by destruct (session_ok_grows tls_block _ _ Hrtc (main_session _ _ _ _ _ Hcode Hmain Hok Hb)).
Qed.

(** *** What [dlsym] says stays true *)

Lemma search_binaries_app m name p i bins new ij :
  search_binaries m name p i bins = Ok (Some ij) → search_binaries m name p i (bins ++ new) = Ok (Some ij).
Proof.
  revert i. induction bins as [|b bins IH]; intros i; [done|]. cbn [search_binaries app].
  destruct (search_symtab _ _ _ _ _ _) as [[j|]|]; [done| |done]. cbn [mbind outcome_bind]. apply IH.
Qed.

(** A definition among the first objects is found, whatever comes after them. *)
Lemma dlsym_defined known dl s objs new es name ij :
  extends known (p_mem s) → binaries_ dl = objs ++ new → entries known 0 objs = Ok es →
  first_match name is_defined es = Some ij →
  ∃ b sym, symbol_at objs ij = Some (b, sym) ∧ sloader_dlsym (Some dl) name s = Ok (wrap64 (st_value sym + base_addr_ b), s).
Proof.
  intros Hk Hb Hes Hf. assert (entries (p_mem s) 0 objs = Ok es) as Hes' by by apply (entries_more known _ Hk).
  destruct (resolve_symbol_at _ _ _ name ij Hes) as (b & sym & Hbi & Hsym & Hat); [by unfold resolve; rewrite Hf|].
  exists b, sym. split; [exact Hat|].
  assert (SearchSym (p_mem s) (binaries_ dl) name false = Ok (Some ij)) as Hs.
  { unfold SearchSym. cbv iota zeta. rewrite drop_0, Hb, (search_binaries_app _ _ is_defined _ _ new ij); [done|].
    by rewrite (search_binaries_entries _ _ _ _ _ _ Hes'), Hf. }
  unfold sloader_dlsym, GetDynLoader, mbind, stM_bind, mret, stM_ret, with_mem. cbv beta iota.
  rewrite Hs. destruct ij as [i j]. cbn [fst snd] in *. rewrite Hb, (lookup_app_l_Some _ _ _ _ Hbi).
  unfold GetSymbolAddr, lift. by rewrite Hsym.
Qed.

Lemma dlsym_planned m dl s bins es name ij b sym :
  extends m (p_mem s) → forget_file <$> binaries_ dl = bins → entries m 0 bins = Ok es →
  first_match name is_defined es = Some ij → symbol_at bins ij = Some (b, sym) →
  sloader_dlsym (Some dl) name s = Ok (wrap64 (st_value sym + base_addr_ b), s).
Proof.
  intros Hext <- Hes Hf Hat. rewrite entries_forget in Hes. rewrite symbol_at_forget in Hat.
  destruct (dlsym_defined m dl s (binaries_ dl) [] es name ij Hext (eq_sym (app_nil_r _)) Hes Hf) as (b0 & sym0 & Hat0 & Hrun).
  rewrite Hat0 in Hat. cbn in Hat. apply Some_inj, pair_equal_spec in Hat as [Hb Hs]. rewrite <-Hs, <-Hb. exact Hrun.
Qed.

(** C12: an address [dlsym] gave stays right: when a name is defined by the objects
    that are loaded, [dlsym] gives the address of that definition in every later
    state - whatever the program does and whichever libraries are opened in between
    - as long as the part of memory with the symbol names of these objects is not
    written to. *)
Theorem dlsym_stable known dl1 s1 dl s es name ij :
  session_ok (dl1, s1) → rtc (session_step tls_block) (dl1, s1) (dl, s) → extends known (p_mem s) →
  entries known 0 (binaries_ dl1) = Ok es → first_match name is_defined es = Some ij →
  ∃ b sym, symbol_at (binaries_ dl1) ij = Some (b, sym) ∧
    sloader_dlsym (Some dl) name s = Ok (wrap64 (st_value sym + base_addr_ b), s).
Proof.
  intros Hok Hrtc Hk Hes Hf. destruct (session_ok_grows tls_block _ _ Hrtc Hok) as [_ [[new Hb] _ _ _ _]].
  by eapply dlsym_defined.
Qed.

(** *** Opening a library succeeds *)

(** C15: [dlopen] succeeds when the library is found, has a plan that fits the
    process, and the relocations of the new objects can be carried out: the
    program gets the handle, the planned objects are loaded after those there are,
    memory has what carrying out the relocations on the images of the new objects,
    over the known part of memory, gives, and [dlsym] then gives the addresses of
    the definitions in these objects, at the places the plan has for them. *)
Theorem sloader_dlopen_succeeds `{!KernelHint K} `{!KernelRoom K} known dl s name path objs es seen' next' m :
  skip_library name = false → FindLibrary name None None = Ok path → mem_ok (p_mem s) →
  plan_links tls_block dl known (p_mem s) path objs es seen' next' → linked_memory tls_block dl known objs es = Ok m →
  ∃ dl' s' new, sloader_dlopen tls_block (Some dl) (Some name) s = Ok ((0xdeadbeefdeadbeef, Some dl'), s') ∧
    binaries_ dl' = binaries_ dl ++ new ∧ Forall2 as_planned objs new ∧ loaded_ dl' = seen' ∧
    next_base_addr_ dl' = next' ∧ extends m (p_mem s') ∧
    let bins := (forget_file <$> binaries_ dl) ++ objs in
    ∀ symbol es' ij b sym, entries m 0 bins = Ok es' → first_match symbol is_defined es' = Some ij →
      symbol_at bins ij = Some (b, sym) → sloader_dlsym (Some dl') symbol s' = Ok (wrap64 (st_value sym + base_addr_ b), s').
Proof.
  intros Hskip Hfind Hok Hpl Hm.
  destruct (plan_runs tls_block _ _ _ _ _ _ _ _ Hpl Hok) as (dl1 & s1 & dl2 & s2 & Hload & Hco & Hrel & _).
  pose proof (linked_memory_real tls_block _ _ _ _ _ _ _ _ _ _ _ _ _ Hpl Hok Hload Hco Hrel Hm) as Hext.
  destruct (plan_objects _ _ _ _ _ _ _ _ _ _ (pl_planned _ _ _ _ _ _ _ _ _ Hpl) Hco) as [Hobjs _].
  destruct Hco as [(new & Hb & Hnew) Hl Hn _ _ _].
  pose proof (Relocate_dl _ _ _ _ _ Hrel) as Hdl. exists dl2, s2, new. split_and!.
  - unfold sloader_dlopen. rewrite Hskip. rewrite (stM_bind_run _ _ s dl s) by done.
    rewrite (stM_bind_run _ _ s path s) by (unfold lift; by rewrite Hfind).
    by rewrite (stM_bind_run _ _ _ _ _ Hload), (stM_bind_run _ _ _ _ _ Hrel).
  - rewrite Hdl. exact Hb.
  - exact Hnew.
  - rewrite Hdl. exact Hl.
  - rewrite Hdl. exact Hn.
  - exact Hext.
  - intros bins symbol es' ij b sym Hes Hf Hat. destruct (Relocate_fields _ _ _ _ _ Hrel) as (Hb2 & _).
    rewrite <-Hb2 in Hobjs. fold bins in Hobjs. eapply dlsym_planned; [exact Hext|exact Hobjs|exact Hes|exact Hf|exact Hat].
Qed.
End sessions.
