(* ===== verification/Reentrant.v ===== *)
(** * Constructors that call the loader

    [Execute] runs the constructors of the loaded objects before it enters the
    program, and they may call [dlopen] and [dlsym] already. The loop of the code
    looks the objects up by index, so the vector may grow while it runs. This file
    has that loop with the loader as part of the state; [Execute] of the file
    Execute is the case in which no constructor opens a library. *)

From stdpp Require Import relations.
From S2P Require Import Prelude Memory Digits Elf Utils Os ElfBinary ElfDynamic ElfFile FindLibrary DynLoader Words Accept Plan Symbols Relocate Execute Sloader Program Link Session.

(** What a call of a function of the loaded program does: it has the memory of the
    process, and through [dlopen] the loader. *)
Class LoadedProgram := { run_function : Z → DynLoader → P DynLoader }.

Section definitions.
Context (tls_block : Z) `{Strings} `{LoadedProgram} `{Environment}.

(** [binaries_\[i\]]. *)
Definition binary_at (dl : DynLoader) (i : nat) : P ELFBinary :=
  match binaries_ dl !! i with Some b => mret b | None => mthrow Segv end.

Definition call_constructor (fn : Z) (n_envs : nat) (dl : DynLoader) : P DynLoader :=
  modify (add_event (init_event n_envs fn)) ;; run_function fn dl.

(** One round of the loop over the array at [funs]; the bound is read from the
    object each time. *)
Definition constructor_round (i : nat) (funs : Z) (n_envs : nat) (st : Z * (DynLoader * proc)) :
    outcome ((Z * (DynLoader * proc)) + (DynLoader * proc)) :=
  let '(j, (dl, s)) := st in
  '(b, s) ← binary_at dl i s;
  if j <? init_arraysz_ b / 8 then
    fn ← load64 (p_mem s) (wrap64 (funs + 8 * j));
    if fn =? 0 then Ok (inr (dl, s))
    else st ← call_constructor fn n_envs dl s; Ok (inl (j + 1, st))
  else Ok (inr (dl, s)).

Definition call_constructor_array (i : nat) (funs : Z) (n_envs : nat) (dl : DynLoader) : P DynLoader := λ s,
  while (constructor_round i funs n_envs) (0, (dl, s)).

Definition construct_object (n_envs : nat) (dl : DynLoader) (i : nat) : P DynLoader :=
  b ← binary_at dl i;
  dl ← (if negb (init_ b =? 0) then call_constructor (wrap64 (init_ b + base_addr_ b)) n_envs dl else mret dl);
  b ← binary_at dl i;
  if negb (init_arraysz_ b =? 0) then
    CHECK (init_arraysz_ b mod 8 =? 0) ;;
    call_constructor_array i (wrap64 (init_array_ b + base_addr_ b)) n_envs dl
  else mret dl.

(** The number of objects is read once, before the loop. *)
Definition construct_objects (n_envs : nat) (dl : DynLoader) : P DynLoader :=
  foldM (construct_object n_envs) dl (rev (seq 0 (length (binaries_ dl)))).

(** The blocks for thread-local data are made after that, for all the objects there
    are then. *)
Definition Execute_reentrant (dl : DynLoader) : P DynLoader :=
  let n_args := length (args_ dl) in
  let n_envs := length (envs_ dl) in
  dl ← construct_objects n_envs dl;
  CHECK (negb (getauxval AT_RANDOM =? 0)) ;;
  stack ← lift (build_stack aux_tvs n_envs n_args);
  setup_tls tls_block (binaries_ dl) ;;
  match binaries_ dl with
  | [] => mthrow Segv
  | b :: _ => ExecuteCore stack (wrap64 (e_entry (ehdr_ b) + base_addr_ b)) ;; mret dl
  end.

Definition Run_reentrant `{FileSystem} `{Kernel} `{LibcMap} (dl : DynLoader) : P DynLoader :=
  dl ← LoadDependingLibs dl (main_path_ dl);
  dl ← Relocate tls_block dl;
  Execute_reentrant dl.
End definitions.

(** The indices of the loop and their objects. *)
Lemma rev_indices {A} (l : list A) : Forall2 (λ i b, l !! i = Some b) (rev (seq 0 (length l))) (rev l).
Proof.
  rewrite !rev_alt. apply Forall2_reverse, Forall2_same_length_lookup. split; [by rewrite length_seq|].
  intros k i b Hi Hb. apply lookup_seq in Hi as [-> _]. exact Hb.
Qed.

(** ** Constructors that open nothing *)

Section plain.
Context (tls_block : Z) `{Strings} `{LoadedCode} `{LP : LoadedProgram} `{Environment}.

(** Calls change memory only, in the way [call_function] says. *)
Context (Hplain : ∀ fn dl s, run_function fn dl s = (update_mem (call_function fn) ;; mret dl) s).

(** A computation that returns the loader it was given, followed by another one. *)
Lemma bind_plain {A} (m : P A) (n : P unit) (n' : unit → P unit) (k : A → P A) a s :
  m s = (n ;; mret a) s → (∀ s, k a s = (n' tt ;; mret a) s) → (m ≫= k) s = ((n ≫= n') ;; mret a) s.
Proof. unfold mbind, stM_bind. intros -> Hk. destruct (n s) as [[[] s1]|]; [apply Hk|done]. Qed.

Lemma bind_then {A B} (m : P A) (k : A → P B) (k' : A → P unit) (b : B) s :
  (∀ a s, k a s = (k' a ;; mret b) s) → (m ≫= k) s = ((m ≫= k') ;; mret b) s.
Proof. intros Hk. rewrite stM_bind_assoc. unfold mbind at 1 2, stM_bind at 1 2. destruct (m s) as [[a s1]|]; [apply Hk|done]. Qed.

Lemma call_constructor_plain fn n_envs dl s :
  call_constructor fn n_envs dl s = (call_init fn n_envs ;; mret dl) s.
Proof.
  unfold call_constructor, call_init. rewrite stM_bind_assoc. unfold mbind, stM_bind. cbn. rewrite Hplain.
  unfold mbind, stM_bind. by destruct (update_mem _ _) as [[[] ?]|].
Qed.

Lemma call_constructor_array_plain i b funs n_envs dl s :
  binaries_ dl !! i = Some b →
  call_constructor_array i funs n_envs dl s = (call_init_array funs (init_arraysz_ b / 8) n_envs ;; mret dl) s.
Proof.
  intros Hi. unfold call_constructor_array, call_init_array, mbind, stM_bind.
  rewrite (while_map (init_array_step funs (init_arraysz_ b / 8) n_envs) (constructor_round i funs n_envs)
    (λ st, (st.1, (dl, st.2))) (λ s, (dl, s)) (0, s)).
  - by destruct (while _ _).
  - intros [j s0]. cbn [fst snd constructor_round init_array_step]. unfold binary_at. rewrite Hi. cbn [mret stM_ret mbind outcome_bind].
    destruct (j <? _); [|done]. destruct (load64 _ _) as [fn|]; [|done]. rewrite !bind_Ok. destruct (fn =? 0); [done|].
    rewrite call_constructor_plain. unfold mbind, stM_bind. by destruct (call_init _ _ _) as [[[] ?]|].
Qed.

Lemma construct_object_plain n_envs dl i b s :
  binaries_ dl !! i = Some b → construct_object n_envs dl i s = (init_object n_envs b ;; mret dl) s.
Proof.
  intros Hi. assert (∀ s, binary_at dl i s = Ok (b, s)) as Hb by (intros s0; unfold binary_at; by rewrite Hi).
  unfold construct_object, init_object. rewrite (stM_bind_run _ _ _ _ _ (Hb s)). apply bind_plain.
  { destruct (negb (init_ b =? 0)); [apply call_constructor_plain|done]. }
  intros s1. rewrite (stM_bind_run _ _ _ _ _ (Hb s1)). destruct (negb (init_arraysz_ b =? 0)); [|done]. apply bind_then. intros ? s2.
  by apply call_constructor_array_plain.
Qed.

Lemma construct_objects_plain n_envs dl s :
  construct_objects n_envs dl s = (init_objects n_envs (binaries_ dl) ;; mret dl) s.
Proof.
  unfold construct_objects, init_objects.
  assert (∀ ixs bins, Forall2 (λ i b, binaries_ dl !! i = Some b) ixs bins → ∀ s,
    foldM (construct_object n_envs) dl ixs s = (foldM (λ _ b, init_object n_envs b) tt bins ;; mret dl) s) as Hfold.
  { induction 1 as [|i b ixs bins Hi _ IH]; intros s0; [done|]. cbn [foldM].
    apply bind_plain; [by apply construct_object_plain|exact IH]. }
  apply Hfold, rev_indices.
Qed.

(** C26: where constructors open no library, the start with reentrant constructors
    is the plain one: same result, same errors, in every state. *)
Theorem Execute_reentrant_plain dl s :
  Execute_reentrant tls_block dl s = (Execute tls_block dl ;; mret dl) s.
Proof.
  unfold Execute_reentrant, Execute. apply bind_plain; [apply construct_objects_plain|]. intros s1.
  apply bind_then. intros ? s2. apply bind_then. intros stack s3. apply bind_then. intros ? s4.
  by destruct (binaries_ dl).
Qed.
End plain.

(** ** Constructors that open libraries *)

Section reentrant.
Context (tls_block : Z).
Context `{Environment} `{FS : FileSystem} `{!FileSystemSpec FS} `{K : Kernel} `{!KernelSpec K} `{LibcMap} `{Strings} `{LoadedProgram}.

(** A function of the program touches the loader only by calling [dlopen] and
    [dlsym], and returns with the stack pointer it was called with. *)
Class LoadedProgramSpec : Prop := {
  run_function_steps fn dl s dl' s' :
    run_function fn dl s = Ok (dl', s') → rtc (session_step tls_block) (dl, s) (dl', s');
  run_function_rsp fn dl s dl' s' : run_function fn dl s = Ok (dl', s') → p_rsp s' = p_rsp s
}.
Context `{!LoadedProgramSpec}.

(** While constructors run the loader stays in order and its objects are only added to. *)
Definition stays (st st' : DynLoader * proc) : Prop := session_ok st' ∧ binaries_ st.1 `prefix_of` binaries_ st'.1.

Lemma stays_refl st : session_ok st → stays st st.
Proof. by split. Qed.

Lemma stays_trans st1 st2 st3 : stays st1 st2 → stays st2 st3 → stays st1 st3.
Proof. intros [_ H12] [Hok H23]. split; [done|by etrans]. Qed.

(** The object at an index below the number of objects stays the same. *)
Lemma stays_object st st' i b : stays st st' → binaries_ st.1 !! i = Some b → binaries_ st'.1 !! i = Some b.
Proof. intros [_ Hp] Hb. by eapply prefix_lookup_Some. Qed.

Lemma session_ok_event dl s e : session_ok (dl, s) → session_ok (dl, add_event e s).
Proof. intros [Hm [Hw1 Hw2 Hw3] Hmk]. split; [exact Hm|split; [exact Hw1|exact Hw2|exact Hw3]|exact Hmk]. Qed.

Lemma call_constructor_session fn n_envs dl s dl' s' :
  session_ok (dl, s) → call_constructor fn n_envs dl s = Ok (dl', s') →
  stays (dl, s) (dl', s') ∧ p_trace s' = p_trace s ++ [init_event n_envs fn] ∧ p_rsp s' = p_rsp s ∧
  sloader_tls_offset s' = sloader_tls_offset s.
Proof.
  intros Hok Hrun. unfold call_constructor, mbind, stM_bind in Hrun. cbn in Hrun.
  destruct (session_ok_grows tls_block _ _ (run_function_steps _ _ _ _ _ Hrun) (session_ok_event _ _ _ Hok)) as [Hok' [Hb _ _ Ht Ho]].
  split_and!; [by split|exact Ht|exact (run_function_rsp _ _ _ _ _ Hrun)|exact Ho].
Qed.

Lemma binary_at_ok dl i s b s' : binary_at dl i s = Ok (b, s') → binaries_ dl !! i = Some b ∧ s' = s.
Proof. unfold binary_at. destruct (binaries_ dl !! i); [|done]. by intros [= -> ->]. Qed.

Lemma constructor_round_at i funs n_envs j dl s b :
  binaries_ dl !! i = Some b →
  constructor_round i funs n_envs (j, (dl, s)) =
  if j <? init_arraysz_ b / 8 then
    fn ← load64 (p_mem s) (wrap64 (funs + 8 * j));
    if fn =? 0 then Ok (inr (dl, s)) else st ← call_constructor fn n_envs dl s; Ok (inl (j + 1, st))
  else Ok (inr (dl, s)).
Proof. intros Hi. unfold constructor_round, binary_at. by rewrite Hi. Qed.

(** *** They end *)

Lemma constructor_round_stays i funs n_envs j st b r :
  binaries_ st.1 !! i = Some b → session_ok st → constructor_round i funs n_envs (j, st) = Ok r →
  match r with
  | inl (j', st') => j < init_arraysz_ b / 8 ∧ j' = j + 1 ∧ stays st st'
  | inr st' => st' = st
  end.
Proof.
  destruct st as [dl s]. intros Hi Hok. rewrite (constructor_round_at _ _ _ _ _ _ b Hi).
  destruct (Z.ltb_spec j (init_arraysz_ b / 8)); [|by intros [= <-]]. intros (fn & _ & Hrun)%outcome_bind_ok.
  destruct (fn =? 0); [by injection Hrun as <-|]. apply outcome_bind_ok in Hrun as ([dl' s'] & Hcall & [= <-]).
  split_and!; [done|done|by eapply call_constructor_session].
Qed.

Lemma call_constructor_array_stays i funs n_envs dl s dl' s' b :
  binaries_ dl !! i = Some b → session_ok (dl, s) → call_constructor_array i funs n_envs dl s = Ok (dl', s') →
  stays (dl, s) (dl', s').
Proof.
  intros Hi Hok Hrun. unfold call_constructor_array in Hrun.
  apply (while_invariant _ (λ jst, stays (dl, s) jst.2)) in Hrun as ([j st] & Hst & Hstep); [| |by apply stays_refl].
  - cbn [snd] in Hst. apply (constructor_round_stays _ _ _ _ _ b) in Hstep; [by rewrite Hstep|by apply (stays_object _ _ _ _ Hst)|apply Hst].
  - intros [j st] [j' st'] Hst Hstep. cbn [snd] in *.
    apply (constructor_round_stays _ _ _ _ _ b) in Hstep as (_ & _ & Hst'); [by eapply stays_trans|by apply (stays_object _ _ _ _ Hst)|apply Hst].
Qed.

Lemma construct_object_stays n_envs dl i s dl' s' :
  session_ok (dl, s) → construct_object n_envs dl i s = Ok (dl', s') → stays (dl, s) (dl', s').
Proof.
  intros Hok Hrun. unfold construct_object in Hrun.
  apply stM_bind_ok in Hrun as (b & s0 & [Hb ->]%binary_at_ok & Hrun). apply stM_bind_ok in Hrun as (dl1 & s1 & Hinit & Hrun).
  assert (stays (dl, s) (dl1, s1)) as Hst.
  { destruct (negb (init_ b =? 0)); [by eapply call_constructor_session|injection Hinit as <- <-; by apply stays_refl]. }
  apply stM_bind_ok in Hrun as (b1 & s2 & [Hb1 ->]%binary_at_ok & Hrun).
  destruct (negb (init_arraysz_ b1 =? 0)); [|by injection Hrun as <- <-].
  apply stM_bind_ok in Hrun as (? & s2 & [_ ->]%CHECK_st_ok & Hrun).
  eapply stays_trans; [exact Hst|]. eapply call_constructor_array_stays; [exact Hb1|apply Hst|exact Hrun].
Qed.

(** The code of a function: computations of its own, each of which returns, and
    calls of the loader, which give it a result to go on with. *)
Inductive activity : Type :=
  | Return
  | Compute (f : proc → outcome proc) (k : proc → activity)
  | OpenLibrary (filename : option string) (k : Z → activity)
  | LookUp (name : string) (k : Z → activity).

Fixpoint perform (a : activity) (dl : DynLoader) : P DynLoader :=
  match a with
  | Return => mret dl
  | Compute f k => λ s, s' ← f s; perform (k s') dl s'
  | OpenLibrary filename k =>
      '(h, g) ← sloader_dlopen tls_block (Some dl) filename;
      dl ← GetDynLoader g;
      perform (k h) dl
  | LookUp name k => a ← sloader_dlsym (Some dl) name; perform (k a) dl
  end.

(** Its own computations end, and are steps a program may take. *)
Fixpoint own_code_returns (a : activity) : Prop :=
  match a with
  | Return => True
  | Compute f k => (∀ s, in_fuel (f s)) ∧ (∀ s s', f s = Ok s' → program_step s s') ∧ ∀ s, own_code_returns (k s)
  | OpenLibrary _ k | LookUp _ k => ∀ r, own_code_returns (k r)
  end.

(** Functions that consist of such activities. *)
Definition loaded_code (body : Z → activity) : Prop :=
  ∀ fn, own_code_returns (body fn) ∧ ∀ dl s, run_function fn dl s = perform (body fn) dl s.

(** The calls of the loader return, too. *)
Lemma in_fuel_perform a dl s :
  includes_bounded → own_code_returns a → session_ok (dl, s) → in_fuel (perform a dl s).
Proof.
  intros Hconf%read_ldsoconf_in_fuel. revert dl s. induction a as [|f k IH|filename k IH|name k IH]; intros dl s Hown Hok; cbn [perform].
  - done.
  - destruct Hown as (Hf & Hstep & Hk). apply in_fuel_bind; [apply Hf|]. intros s' Hs. apply IH; [apply Hk|].
    by apply (session_step_ok tls_block _ _ (step_program tls_block dl s s' (Hstep _ _ Hs))).
  - apply in_fuel_st_bind; [by apply in_fuel_sloader_dlopen|]. intros [h g] s1 Hopen.
    destruct g as [dl1|]; [|done]. apply IH; [apply Hown|].
    by apply (session_step_ok tls_block _ _ (step_dlopen tls_block _ _ _ _ _ _ Hopen)).
  - apply in_fuel_st_bind; [apply in_fuel_sloader_dlsym; destruct Hok as [Hm _ _]; pose proof (mem_ok_size _ Hm); cbn in *; lia|].
    intros r s1 Hsym. apply IH; [apply Hown|]. by apply (session_step_ok tls_block _ _ (step_dlsym tls_block _ _ _ _ _ Hsym)).
Qed.

(** Calls of functions that return, as long as the loader is in order. *)
Definition functions_return : Prop := ∀ fn dl s, session_ok (dl, s) → in_fuel (run_function fn dl s).

Lemma loaded_code_returns body : includes_bounded → loaded_code body → functions_return.
Proof. intros Hconf Hbody fn dl s Hok. destruct (Hbody fn) as [Hown ->]. by apply in_fuel_perform. Qed.

Lemma in_fuel_call_constructor fn n_envs dl s :
  functions_return → session_ok (dl, s) → in_fuel (call_constructor fn n_envs dl s).
Proof. intros Hret Hok. unfold call_constructor. apply in_fuel_st_bind; [done|]. intros ? s1 [= _ <-]. by apply Hret, session_ok_event. Qed.

Lemma in_fuel_binary_at dl i s : in_fuel (binary_at dl i s).
Proof. unfold binary_at. by destruct (binaries_ dl !! i). Qed.

Lemma object_arraysz dl s i b : session_ok (dl, s) → binaries_ dl !! i = Some b → init_arraysz_ b < 2 ^ 64.
Proof.
  intros [_ [Hw _ _] _] Hb. apply init_arraysz_word. rewrite Forall_forall in Hw. apply Hw. by eapply list_elem_of_lookup_2.
Qed.

Lemma in_fuel_call_constructor_array i funs n_envs dl s b :
  functions_return → session_ok (dl, s) → binaries_ dl !! i = Some b → in_fuel (call_constructor_array i funs n_envs dl s).
Proof.
  intros Hret Hok Hb. pose proof (object_arraysz _ _ _ _ Hok Hb) as Hsz. unfold call_constructor_array. set (count := init_arraysz_ b / 8).
  assert (count < 2 ^ 64) by (unfold count; lia_div).
  apply (in_fuel_while _ (λ jst, stays (dl, s) jst.2 ∧ jst.1 ≤ Z.max 0 count) (λ jst, Z.max 0 count - jst.1)); [| | |cbn; lia].
  - intros [j st] [j' st'] [Hst Hj] Hstep. cbn [fst snd] in *.
    apply (constructor_round_stays _ _ _ _ _ b) in Hstep as (Hlt & -> & Hst'); [|by apply (stays_object _ _ _ _ Hst)|apply Hst].
    fold count in Hlt. split; [split; [by eapply stays_trans|lia]|lia].
  - intros [j [dl1 s1]] [Hst _]. cbn [fst snd] in *.
    rewrite (constructor_round_at _ _ _ _ _ _ b) by by apply (stays_object _ _ _ _ Hst).
    destruct (_ <? _); [|done]. apply in_fuel_bind; [auto with fuel|]. intros fn _. destruct (fn =? 0); [done|].
    apply in_fuel_bind; [by apply in_fuel_call_constructor; [|apply Hst]|done].
  - cbn. split; [by apply stays_refl|lia].
Qed.

Lemma in_fuel_construct_object n_envs dl i s :
  functions_return → session_ok (dl, s) → in_fuel (construct_object n_envs dl i s).
Proof.
  intros Hret Hok. unfold construct_object. apply in_fuel_st_bind; [apply in_fuel_binary_at|]. intros b s0 [Hb ->]%binary_at_ok.
  apply in_fuel_st_bind; [destruct (negb _); [by apply in_fuel_call_constructor|done]|]. intros dl1 s1 Hinit.
  assert (session_ok (dl1, s1)) as Hok1.
  { destruct (negb (init_ b =? 0)); [by eapply call_constructor_session|by injection Hinit as <- <-]. }
  apply in_fuel_st_bind; [apply in_fuel_binary_at|]. intros b1 s2 [Hb1 ->]%binary_at_ok.
  destruct (negb (init_arraysz_ b1 =? 0)); [|done]. apply in_fuel_st_bind; [auto with fuel|]. intros ? s2 [_ ->]%CHECK_st_ok.
  by eapply in_fuel_call_constructor_array.
Qed.

Lemma in_fuel_Execute_reentrant dl s :
  functions_return → session_ok (dl, s) → in_fuel (Execute_reentrant tls_block dl s).
Proof.
  intros Hret Hok. unfold Execute_reentrant. apply in_fuel_st_bind.
  { unfold construct_objects. apply (in_fuel_st_foldM (λ dl s, session_ok (dl, s))); [| |exact Hok].
    - intros dl1 i s1 _ Hok1. by apply in_fuel_construct_object.
    - intros dl1 i s1 dl2 s2 _ Hok1 Hrun. by eapply construct_object_stays. }
  intros dl1 s1 _. apply in_fuel_st_bind; [auto with fuel|]. intros ? s2 _.
  apply in_fuel_st_bind; [by rewrite (proj1 (build_stack_spec _ _ _))|]. intros stack s3 _.
  apply in_fuel_st_bind; [apply in_fuel_setup_tls|]. intros ? s4 _. destruct (binaries_ dl1); [done|].
  apply in_fuel_st_bind; [apply in_fuel_ExecuteCore|done].
Qed.

(** C17: a run ends when constructors call the loader, too: whatever libraries
    they open and names they look up, if their own computations end and the
    configuration files do not include each other in a circle or in a chain of
    [ldsoconf_depth] files, then the loader ends with the jump into the program or
    with an error of the code. That the calls of [dlopen] and [dlsym] return is
    proved, not assumed. *)
Theorem Run_reentrant_terminates body dl s :
  includes_bounded → loaded_code body → mem_ok (p_mem s) → loader_words dl s →
  in_fuel (Run_reentrant tls_block dl s).
Proof.
  intros Hinc Hbody. pose proof (loaded_code_returns body Hinc Hbody) as Hret. revert Hinc.
  intros Hconf%read_ldsoconf_in_fuel Hok Hw. unfold Run_reentrant. apply in_fuel_st_bind; [by apply LoadDependingLibs_terminates|].
  intros dl1 s1 Hl. apply in_fuel_st_bind.
  { pose proof (mem_ok_size _ (LoadDependingLibs_mem_ok _ _ _ _ _ Hl Hok)). apply in_fuel_Relocate. lia. }
  intros dl2 s2 Hr. apply in_fuel_Execute_reentrant; [exact Hret|].
  by apply (load_and_relocate_session tls_block _ _ _ _ _ _ _ Hl Hr).
Qed.

(** *** Which of them are called *)

(** The part of memory with the constructor arrays, which constructors leave alone. *)
Context (known : memory).
Context (Hknown : ∀ fn dl s dl' s',
  run_function fn dl s = Ok (dl', s') → extends known (p_mem s) → extends known (p_mem s')).

(** What happens while the functions [fns] are called: besides the calls only what
    a session may do. *)
Record constructed (n_envs : nat) (fns : list Z) (st st' : DynLoader * proc) : Prop := {
  cn_ok : session_ok st';
  cn_known : extends known (p_mem st'.2);
  cn_binaries : binaries_ st.1 `prefix_of` binaries_ st'.1;
  cn_trace : p_trace st'.2 = p_trace st.2 ++ map (init_event n_envs) fns;
  cn_rsp : p_rsp st'.2 = p_rsp st.2;
  cn_offset : sloader_tls_offset st'.2 = sloader_tls_offset st.2
}.

Lemma constructed_nil n_envs st : session_ok st → extends known (p_mem st.2) → constructed n_envs [] st st.
Proof. intros. split; [done..|by rewrite app_nil_r|done|done]. Qed.

Lemma constructed_app n_envs fns1 fns2 st1 st2 st3 :
  constructed n_envs fns1 st1 st2 → constructed n_envs fns2 st2 st3 → constructed n_envs (fns1 ++ fns2) st1 st3.
Proof.
  intros [_ _ Hb1 Ht1 Hr1 Ho1] [Hok Hk Hb2 Ht2 Hr2 Ho2].
  split; [done|done|by etrans|by rewrite Ht2, Ht1, map_app, app_assoc|congruence|congruence].
Qed.

Lemma call_constructor_ok fn n_envs dl s dl' s' :
  session_ok (dl, s) → extends known (p_mem s) → call_constructor fn n_envs dl s = Ok (dl', s') →
  constructed n_envs [fn] (dl, s) (dl', s').
Proof.
  intros Hok Hk Hrun. destruct (call_constructor_session _ _ _ _ _ _ Hok Hrun) as ([Hok' Hb] & Ht & Hr & Ho).
  split; [exact Hok'| |exact Hb|exact Ht|exact Hr|exact Ho].
  unfold call_constructor, mbind, stM_bind in Hrun. cbn in Hrun. by eapply Hknown.
Qed.

Lemma constructed_object n_envs fns st st' i b :
  constructed n_envs fns st st' → binaries_ st.1 !! i = Some b → binaries_ st'.1 !! i = Some b.
Proof. intros Hc. apply stays_object. split; apply Hc. Qed.

Lemma constructor_array_ok i b n_envs st st' ws :
  binaries_ st.1 !! i = Some b → array_holds known b ws → session_ok st → extends known (p_mem st.2) →
  while (constructor_round i (wrap64 (init_array_ b + base_addr_ b)) n_envs) (0, st) = Ok st' →
  constructed n_envs (before_null ws) st st'.
Proof.
  intros Hi Hws Hok Hk Hrun. pose proof (array_holds_length _ _ _ Hws) as Hlen. set (count := init_arraysz_ b / 8) in *.
  assert (∀ j st1 w, 0 ≤ j < count → constructed n_envs (take (Z.to_nat j) ws) st st1 →
    ws !! Z.to_nat j = Some w → load64 (p_mem st1.2) (array_addr b j) = Ok w) as Hword.
  { intros j st1 w Hj Hc Hw. apply (load_word_covers _ _ (cn_known _ _ _ _ Hc)). eapply array_word; [exact Hws|lia|exact Hw]. }
  apply (while_invariant _ (λ jst, 0 ≤ jst.1 ∧ (Z.to_nat jst.1 ≤ length ws)%nat ∧
    constructed n_envs (take (Z.to_nat jst.1) ws) st jst.2 ∧
    ∀ i w, (i < Z.to_nat jst.1)%nat → ws !! i = Some w → w ≠ 0)) in Hrun as ([j [dl1 s1]] & (Hj & Hle & Hc & Hnz) & Hstep).
  - cbn [fst snd] in *. rewrite (constructor_round_at _ _ _ _ _ _ b) in Hstep by by eapply (constructed_object _ _ _ _ _ _ Hc).
    fold count (array_addr b j) in Hstep. destruct (Z.ltb_spec j count) as [Hlt|Hge].
    + destruct (lookup_lt_is_Some_2 ws (Z.to_nat j)) as [w Hw]; [lia|].
      pose proof (Hword j (dl1, s1) w ltac:(lia) Hc Hw) as Hload. cbn [snd] in Hload. rewrite Hload, bind_Ok in Hstep.
      destruct (Z.eqb_spec w 0) as [Hz|]; [|by apply outcome_bind_ok in Hstep as (? & _ & ?)].
      rewrite Hz in Hw. injection Hstep as <-. rewrite (before_null_take ws (Z.to_nat j)) by auto. exact Hc.
    + injection Hstep as <-. rewrite (before_null_take ws (length ws)) by first [by left|intros k w Hl; apply Hnz; lia].
      by replace (length ws) with (Z.to_nat j) by lia.
  - intros [j [dl1 s1]] st2 (Hj & Hle & Hc & Hnz) Hstep. cbn [fst snd] in *.
    rewrite (constructor_round_at _ _ _ _ _ _ b) in Hstep by by eapply (constructed_object _ _ _ _ _ _ Hc).
    fold count (array_addr b j) in Hstep. destruct (Z.ltb_spec j count) as [Hlt|Hge]; [|done].
    destruct (lookup_lt_is_Some_2 ws (Z.to_nat j)) as [w Hw]; [lia|].
    pose proof (Hword j (dl1, s1) w ltac:(lia) Hc Hw) as Hload. cbn [snd] in Hload. rewrite Hload, bind_Ok in Hstep.
    destruct (Z.eqb_spec w 0) as [|Hwz]; [done|]. apply outcome_bind_ok in Hstep as ([dl2 s2] & Hcall & [= <-]).
    apply call_constructor_ok in Hcall; [|apply Hc|apply Hc].
    cbn [fst snd]. replace (Z.to_nat (j + 1)) with (S (Z.to_nat j)) by lia. split_and!; [lia|lia| |].
    + rewrite (take_S_r _ _ w) by done. by eapply constructed_app.
    + intros k w' Hl Hw'. destruct (decide (k = Z.to_nat j)) as [->|]; [congruence|]. apply (Hnz k); [lia|done].
  - cbn. split_and!; [lia|lia|by apply constructed_nil|lia].
Qed.

Lemma construct_object_ok n_envs dl i s dl' s' b fns :
  construct_object n_envs dl i s = Ok (dl', s') → binaries_ dl !! i = Some b → init_functions known b = Ok fns →
  session_ok (dl, s) → extends known (p_mem s) → constructed n_envs fns (dl, s) (dl', s').
Proof.
  intros Hrun Hb Hfns Hok Hk. unfold init_functions, array_words in Hfns.
  apply outcome_bind_ok in Hfns as (ws & Hws & [= <-]). unfold construct_object in Hrun.
  apply stM_bind_ok in Hrun as (b0 & s0 & [Hb0 ->]%binary_at_ok & Hrun). rewrite Hb in Hb0. injection Hb0 as <-.
  apply stM_bind_ok in Hrun as (dl1 & s1 & Hinit & Hrun).
  assert (constructed n_envs (if init_ b =? 0 then [] else [wrap64 (init_ b + base_addr_ b)]) (dl, s) (dl1, s1)) as Hc1.
  { destruct (init_ b =? 0); cbn [negb] in Hinit; [injection Hinit as <- <-; by apply constructed_nil|by apply call_constructor_ok]. }
  pose proof (constructed_object _ _ _ _ _ _ Hc1 Hb) as Hb1. cbn [fst] in Hb1.
  apply stM_bind_ok in Hrun as (b0 & s0 & [Hb0 ->]%binary_at_ok & Hrun). rewrite Hb1 in Hb0. injection Hb0 as <-.
  eapply constructed_app; [exact Hc1|]. pose proof (cn_ok _ _ _ _ Hc1) as Hok1. pose proof (cn_known _ _ _ _ Hc1) as Hk1.
  destruct (init_arraysz_ b =? 0); cbn [negb] in Hrun.
  { injection Hws as <-. injection Hrun as <- <-. by apply constructed_nil. }
  apply stM_bind_ok in Hrun as (? & s2 & [_ ->]%CHECK_st_ok & Hrun).
  by eapply constructor_array_ok.
Qed.

Lemma construct_indices_ok n_envs ixs bins dl s dl' s' fns :
  Forall2 (λ i b, binaries_ dl !! i = Some b) ixs bins → traverse (init_functions known) bins = Ok fns →
  session_ok (dl, s) → extends known (p_mem s) → foldM (construct_object n_envs) dl ixs s = Ok (dl', s') →
  constructed n_envs (concat fns) (dl, s) (dl', s').
Proof.
  intros Hall. revert dl s fns Hall. revert bins. induction ixs as [|i ixs IH]; intros bins dl s fns Hall Hfns Hok Hk Hrun.
  { apply Forall2_nil_inv_l in Hall as ->. injection Hfns as <-. injection Hrun as <- <-. by apply constructed_nil. }
  apply Forall2_cons_inv_l in Hall as (b & bins' & Hb & Hall & ->). cbn [foldM traverse] in *.
  apply outcome_bind_ok in Hfns as (f & Hf & Hfns). apply outcome_bind_ok in Hfns as (fs & Hfs & [= <-]).
  apply stM_bind_ok in Hrun as (dl1 & s1 & Hobj & Hrun).
  pose proof (construct_object_ok _ _ _ _ _ _ _ _ Hobj Hb Hf Hok Hk) as Hc. cbn [concat].
  eapply constructed_app; [exact Hc|]. apply (IH bins'); [|exact Hfs|apply Hc|apply Hc|exact Hrun].
  eapply Forall2_impl; [exact Hall|]. intros k b' Hk'. by apply (constructed_object _ _ _ _ _ _ Hc).
Qed.

(** All the constructors: those of the objects that were there at the start, each
    once, the last object's first. *)
Lemma construct_objects_ok n_envs dl s dl' s' fns :
  traverse (init_functions known) (rev (binaries_ dl)) = Ok fns → session_ok (dl, s) → extends known (p_mem s) →
  construct_objects n_envs dl s = Ok (dl', s') → constructed n_envs (concat fns) (dl, s) (dl', s').
Proof.
  intros Hfns Hok Hk Hrun. unfold construct_objects in Hrun.
  eapply construct_indices_ok; [|exact Hfns|exact Hok|exact Hk|exact Hrun].
  apply rev_indices.
Qed.

(** ** The start as a whole *)

Lemma session_ok_kept dl s s' : memory_kept s s' → session_ok (dl, s) → session_ok (dl, s').
Proof.
  intros [Hm Hb] [Hok [Hw1 Hw2 Hw3] Hmk]. split; [by apply Hm|split; [exact Hw1|exact Hw2|by apply Hb]|exact Hmk].
Qed.

Lemma setup_tls_offset bins s u s' :
  setup_tls tls_block bins s = Ok (u, s') → Forall tls_object_wf bins → tls_total bins ≤ sloader_tls_offset s < 2 ^ 64 →
  sloader_tls_offset s' = sloader_tls_offset s - tls_total bins.
Proof.
  intros Hrun%setup_tls_ok Hwf. revert s Hrun. destruct u. induction Hwf as [|b bins Hb Hwf IH]; intros s Hrun Hle.
  { injection Hrun as <-. unfold tls_total. cbn. lia. }
  cbn [foldM] in Hrun. apply stM_bind_ok in Hrun as ([] & s1 & Hobj & Hrun).
  pose proof (tls_total_nonneg _ Hwf) as Hnn. pose proof (tls_size_nonneg _ Hb) as Hsz.
  change (tls_total (b :: bins)) with (tls_size b + tls_total bins) in *.
  assert (sloader_tls_offset s1 = sloader_tls_offset s - tls_size b) as Ho.
  { unfold setup_tls_object in Hobj. unfold tls_size in *. destruct (has_tls_ b) eqn:Et; [|injection Hobj as <-; lia].
    destruct (has_tls_some b (proj1 Hb) Et) as (ph & Hph & Hsize). unfold tls_size in Hsize. rewrite Et in Hsize. rewrite Hsize in *.
    unfold file_tls in Hobj. rewrite Hph, bind_Ok in Hobj. cbv zeta in Hobj.
    apply outcome_bind_ok in Hobj as (m1 & _ & Hobj). apply outcome_bind_ok in Hobj as (m2 & _ & Hobj).
    apply outcome_bind_ok in Hobj as (m3 & _ & Hobj). injection Hobj as <-. cbn. apply wrap_small. lia. }
  rewrite (IH s1 Hrun); lia.
Qed.

Lemma ExecuteCore_offset stack entry s u s' :
  ExecuteCore stack entry s = Ok (u, s') → sloader_tls_offset s' = sloader_tls_offset s.
Proof.
  unfold ExecuteCore. intros Hcore. apply stM_bind_ok in Hcore as ([] & s1 & Hpush & Hcore).
  assert (sloader_tls_offset s1 = sloader_tls_offset s) as <- by
    (eapply (foldM_st_invariant _ (λ _ s1, sloader_tls_offset s1 = sloader_tls_offset s)); [|done|exact Hpush];
     intros ? v s2 ? s3 _ <- [_ ->]%push_ok; done).
  by inv_ok.
Qed.

Lemma Execute_reentrant_ok dl s dl' s' :
  Execute_reentrant tls_block dl s = Ok (dl', s') →
  ∃ s1 s2 b rest,
    construct_objects (length (envs_ dl)) dl s = Ok (dl', s1) ∧ setup_tls tls_block (binaries_ dl') s1 = Ok (tt, s2) ∧
    binaries_ dl' = b :: rest ∧
    ExecuteCore (rev (abi_stack aux_tvs (length (envs_ dl)) (length (args_ dl))))
      (wrap64 (e_entry (ehdr_ b) + base_addr_ b)) s2 = Ok (tt, s').
Proof.
  unfold Execute_reentrant. intros Hrun. apply stM_bind_ok in Hrun as (dl1 & s1 & Hinit & Hrun).
  apply stM_bind_ok in Hrun as (? & s2 & [_ ->]%CHECK_st_ok & Hrun).
  apply stM_bind_ok in Hrun as (stack & s2 & [Hst ->]%lift_ok & Hrun).
  rewrite (proj1 (build_stack_spec _ _ _)) in Hst. injection Hst as <-.
  apply stM_bind_ok in Hrun as ([] & s2 & Htls & Hrun). destruct (binaries_ dl1) as [|b rest] eqn:Eb; [done|].
  apply stM_bind_ok in Hrun as ([] & s3 & Hcore & Hrun). injection Hrun as <- <-.
  exists s1, s2, b, rest. by rewrite Eb.
Qed.

(** C16: whatever libraries the constructors open, exactly the constructors of the
    objects that were there at the start run, each once, from the last object to the first, and
    then the program is entered at the entry point of the first object, with the
    ABI's stack. The libraries that were opened come after the other objects; none
    of their constructors runs, but they do get thread-local blocks, below those of
    the others. And no constructor runs later, whatever the program does. *)
Theorem Execute_reentrant_enters dl s dl' s' fns b rest :
  Execute_reentrant tls_block dl s = Ok (dl', s') → session_ok (dl, s) → extends known (p_mem s) →
  traverse (init_functions known) (rev (binaries_ dl)) = Ok fns → binaries_ dl = b :: rest →
  let st := abi_stack aux_tvs (length (envs_ dl)) (length (args_ dl)) in
  8 * Z.of_nat (length st) ≤ p_rsp s < 2 ^ 64 →
  let rsp := p_rsp s - 8 * Z.of_nat (length st) in
  ∃ opened, binaries_ dl' = binaries_ dl ++ opened ∧
    p_trace s' = p_trace s ++ map (init_event (length (envs_ dl))) (concat fns) ++
                 [EvJump (wrap64 (e_entry (ehdr_ b) + base_addr_ b)) rsp] ∧ p_rsp s' = rsp ∧
    (∀ k v, st !! k = Some v → load64 (p_mem s') (rsp + 8 * Z.of_nat k) = Ok (wrap64 v)) ∧
    (Forall tls_object_wf (binaries_ dl ++ opened) → tls_total (binaries_ dl ++ opened) ≤ sloader_tls_offset s < 2 ^ 64 →
     sloader_tls_offset s' = sloader_tls_offset s - tls_total (binaries_ dl) - tls_total opened) ∧
    ∀ st, rtc (session_step tls_block) (dl', s') st →
      session_ok st ∧ binaries_ dl' `prefix_of` binaries_ st.1 ∧ p_trace st.2 = p_trace s'.
Proof.
  intros Hrun Hok Hk Hfns Hb st Hrsp rsp.
  apply Execute_reentrant_ok in Hrun as (s1 & s2 & b0 & rest0 & Hinit & Htls & Hb0 & Hcore). fold st in Hcore.
  destruct (construct_objects_ok _ _ _ _ _ _ Hfns Hok Hk Hinit) as [Hok1 _ [opened Hop] Htr Hr Ho]. cbn [fst snd] in *.
  rewrite Hop, Hb in Hb0. injection Hb0 as <- _. pose proof (setup_tls_rsp _ _ _ _ _ Htls) as [Hr2 Htr2].
  destruct (ExecuteCore_ok _ _ _ _ _ Hcore) as (Hr3 & Htr3 & Hload); rewrite length_rev, Hr2, Hr in *; [exact Hrsp|].
  fold rsp in Hr3, Htr3, Hload. rewrite rev_involutive in Hload.
  assert (session_ok (dl', s')) as Hok'.
  { eapply session_ok_kept; [by eapply ExecuteCore_kept|]. eapply session_ok_kept; [by eapply setup_tls_kept|exact Hok1]. }
  exists opened. split_and!; [exact Hop|by rewrite Htr3, Htr2, Htr, <-app_assoc|exact Hr3|exact Hload| |].
  2: { intros st' Hrtc. destruct (session_ok_grows tls_block _ _ Hrtc Hok') as [Hok2 [Hb2 _ _ Ht2 _]]. by split_and!. }
  intros Hwf Hle. rewrite (ExecuteCore_offset _ _ _ _ _ Hcore), (setup_tls_offset _ _ _ _ Htls), Ho, Hop, tls_total_app; [lia|by rewrite Hop|].
  by rewrite Ho, Hop.
Qed.
End reentrant.
