(* ===== verification/ExecLoader.v ===== *)
(** * The loader of static executables (exec_loader.h)

    The older class for [ET_EXEC] files: it keeps pointers into the mapped file
    instead of copies, maps the segments at their own addresses, can unmap them
    again, and builds the stack like [DynLoader] with one argument. The program no
    longer uses it. *)

From S2P Require Import Prelude Memory Digits Elf Utils Os ElfBinary ElfDynamic ElfFile FindLibrary DynLoader Accept Symbols Execute.

Record ExecLoader := mkExecLoader {
  head_ : Z;
  size_ : Z;
  filename_ : string;
  phdrs_ : list Z;                 (** pointers to the program headers *)
  ph_dynamic_ : Z;                 (** null when there is none *)
  memories_ : list (Z * Z)         (** mappings, the size cut to 32 bits *)
}.

#[export] Instance ExecLoader_settable : Settable ExecLoader := λ e,
  mkExecLoader (head_ e) (size_ e) (filename_ e) (phdrs_ e) (ph_dynamic_ e) (memories_ e).

Section exec_loader.
Context `{FileSystem} `{Kernel}.

(** ** Construction *)

Definition find_dynamic (m : memory) (e : ExecLoader) (ph : Z) : outcome ExecLoader :=
  type ← load_word m 4 ph;
  if type =? PT_DYNAMIC then
    CHECK (ph_dynamic_ e =? 0) ;; mret (e <| ph_dynamic_ := ph |>)
  else mret e.

Definition ExecLoader_new (m : memory) (filename : string) (head size : Z) : outcome ExecLoader :=
  h ← read_ehdr m head;
  phdrs ← traverse (phdr_address head h) (seqZ 0 (e_phnum h));
  foldM (find_dynamic m) (mkExecLoader head size filename phdrs 0 []) phdrs.

Definition MakeExecLoader (filepath argv0 : string) : P ExecLoader :=
  contents ← (match open_file filepath with
              | Some bs => mret bs
              | None => mthrow CheckFailed
              end : P (list Z));
  let size := Z.of_nat (length contents) in
  CHECK (8 + 16 <? size) ;;
  let mapped_size := page_up size in
  p ← mmap_file mapped_size (PROT_READ + PROT_WRITE + PROT_EXEC) contents;
  CHECK (negb (p =? MAP_FAILED)) ;;
  with_mem (λ m, ExecLoader_new m argv0 p mapped_size).

(** ** Load *)

Definition exec_load_segment (e : ExecLoader) (php : Z) : P ExecLoader :=
  ph ← with_mem (λ m, read_phdr m php);
  if negb (p_type ph =? PT_LOAD) then mret e
  else
    let mmap_start := page_mask (p_vaddr ph) in
    let mmap_end := page_up (p_vaddr ph + p_memsz ph) in
    let mmap_size := wrap64 (mmap_end - mmap_start) in
    p ← mmap_anonymous mmap_start mmap_size (PROT_READ + PROT_WRITE + PROT_EXEC);
    CHECK (mmap_start =? p) ;;
    CHECK (mmap_start <=? p_vaddr ph) ;;
    CHECK (wrap64 (p_vaddr ph + p_memsz ph) <? mmap_end) ;;
    update_mem (λ m, memcpy m (p_vaddr ph) (wrap64 (head_ e + p_offset ph)) (p_filesz ph)) ;;
    ph ← with_mem (λ m, read_phdr m php);         (* [ph] points into the mapped file, which may have changed *)
    mret (e <| memories_ := memories_ e ++ [(p, wrap32 (p_memsz ph))] |>).

Definition ExecLoader_Load (e : ExecLoader) : P ExecLoader := foldM exec_load_segment e (phdrs_ e).

(** The size of a mapping is kept in a [uint32_t]. *)
Definition ExecLoader_Unload (e : ExecLoader) : P unit := foldM (λ _ p, munmap p.1 p.2) tt (memories_ e).

(** Nothing is printed, but the operands are read. *)
Definition ExecLoader_Show (e : ExecLoader) : P unit :=
  with_mem (λ m,
    load64 m (wrap64 (head_ e + 24)) ;;
    foldM (λ _ p, load64 m (wrap64 (p + 16)) ;; load64 m (wrap64 (p + 8)) ;; load64 m (wrap64 (p + 32)) ;; mret tt)
      tt (phdrs_ e)).

(** ** Execute *)

Definition exec_stack_num (n_aux n_envs : nat) : nat := 4 + 2 + 2 * n_aux + 1 + n_envs + 3.

(** The environment is put on the stack in the order of the vector, and the
    only argument is the file name. *)
Definition exec_build_stack `{Strings} (tvs : list (Z * Z)) (n_envs : nat) : outcome (list Z) :=
  let num := exec_stack_num (length tvs) n_envs in
  let st := leave 2 (leave 4 (replicate num 0, 0%nat)) in
  let st := foldl (λ st tv, put tv.1 (put tv.2 st)) st tvs in
  let st := leave 1 st in
  let st := foldl (λ st i, put (envs_c_str i) st) st (seq 0 n_envs) in
  let st := leave 1 st in
  let st := put main_path_c_str st in
  let '(stack, stack_index) := put 1 st in
  CHECK (bool_decide (stack_index = num)) ;;
  mret stack.

(** Static executables have nothing to relocate. *)
Definition ExecLoader_Relocate (e : ExecLoader) : P unit := mret tt.

(** The same pushes and jump as in [DynLoader]. *)
Definition ExecLoader_ExecuteCore (stack : list Z) (entry : Z) : P unit := ExecuteCore stack entry.

Definition ExecLoader_Execute `{Strings} `{Environment} (e : ExecLoader) (n_envs : nat) : P unit :=
  CHECK (negb (getauxval AT_RANDOM =? 0)) ;;
  stack ← lift (exec_build_stack aux_tvs n_envs);
  h ← with_mem (λ m, read_ehdr m (head_ e));
  ExecLoader_ExecuteCore stack (e_entry h).
End exec_loader.

(** * Theorems *)

(** The stack of the ABI, but for the order of the environment. *)
Definition exec_abi_stack `{Strings} (tvs : list (Z * Z)) (n_envs : nat) : list Z :=
  [1; main_path_c_str; 0] ++ rev (map envs_c_str (seq 0 n_envs)) ++ [0] ++
  (rev tvs ≫= λ tv, [tv.1; tv.2]) ++ [0; 0] ++ [0; 0; 0; 0].

Lemma length_exec_abi_stack `{Strings} tvs n_envs :
  length (exec_abi_stack tvs n_envs) = exec_stack_num (length tvs) n_envs.
Proof.
  unfold exec_abi_stack, exec_stack_num.
  rewrite !length_app, length_rev, length_map, length_seq, <-rev_bind_pairs, length_rev, length_bind_pairs. cbn. lia.
Qed.

(** The stack that is built for a static executable is the ABI's for one
    argument, except that the environment is in reverse. *)
Lemma exec_build_stack_spec `{Strings} tvs n_envs :
  exec_build_stack tvs n_envs = Ok (rev (exec_abi_stack tvs n_envs)).
Proof.
  assert (Hst : ∀ num, num = exec_stack_num (length tvs) n_envs →
    (replicate num 0, 0%nat) = filled [] (4 + (2 + (2 * length tvs + (1 + (n_envs + (1 + 2))))))).
  { intros num ->. unfold filled, exec_stack_num. cbn [app length]. f_equal. f_equal. lia. }
  unfold exec_build_stack. rewrite (Hst _ eq_refl), !leave_filled, foldl_put2_filled, leave_filled.
  pose proof (foldl_put_filled envs_c_str (seq 0 n_envs)) as He. rewrite length_seq in He.
  rewrite He, leave_filled, !put_filled. unfold filled. cbn [replicate]. rewrite app_nil_r.
  match goal with |- context [CHECK (bool_decide (length ?l = _))] =>
    assert (l = rev (exec_abi_stack tvs n_envs)) as -> end.
  { unfold exec_abi_stack. rewrite !rev_app_distr, <-rev_bind_pairs, !rev_involutive. cbn. by rewrite <-!app_assoc. }
  rewrite bool_decide_true; [done|]. by rewrite length_rev, length_exec_abi_stack.
Qed.

Section exec_theorems.
Context `{KernelSpec}.

(** A segment is rejected when its memory ends on a page boundary - where
    the loader of dynamic objects accepts it: the check on the end of the
    mapping is strict. *)
Lemma exec_load_rejects_boundary e php s ph :
  read_phdr (p_mem s) php = Ok ph → p_type ph = PT_LOAD →
  0 ≤ p_vaddr ph → 0 ≤ p_memsz ph → p_vaddr ph + p_memsz ph + 0xfff < 2 ^ 64 →
  (p_vaddr ph + p_memsz ph) mod 4096 = 0 →
  exec_load_segment e php s = Err CheckFailed.
Proof.
  intros Hph Ht Hv Hm Hend Hal. unfold exec_load_segment, mbind, stM_bind, with_mem. rewrite Hph, Ht. cbn [Z.eqb negb].
  change (PT_LOAD =? PT_LOAD) with true. cbn [negb].
  assert (page_up (p_vaddr ph + p_memsz ph) = p_vaddr ph + p_memsz ph) as ->.
  { rewrite page_up_ceil by lia. unfold page_ceil. lia_div. }
  rewrite (wrap_small 64 (p_vaddr ph + p_memsz ph)), Z.ltb_irrefl by lia.
  destruct (mmap_anonymous _ _ _ s) as [[p s1]|err] eqn:Ep.
  2: { unfold mmap_anonymous in Ep. by destruct (mmap_place _ _ _). }
  by destruct (_ =? p), (_ <=? p_vaddr ph).
Qed.
End exec_theorems.

(** ** Load and Unload *)

Section unload.
Context `{KernelSpec}.

Definition exec_start (ph : Elf64_Phdr) : Z := page_mask (p_vaddr ph).
Definition exec_end (ph : Elf64_Phdr) : Z := page_up (p_vaddr ph + p_memsz ph).

Definition exec_segment_wf (ph : Elf64_Phdr) : Prop :=
  0 ≤ p_vaddr ph ∧ 0 ≤ p_filesz ph ≤ p_memsz ph ∧ p_vaddr ph + p_memsz ph + 0xfff < 2 ^ 64.

Lemma exec_bounds ph :
  exec_segment_wf ph →
  exec_start ph mod 4096 = 0 ∧ 0 ≤ exec_start ph ≤ p_vaddr ph ∧ p_vaddr ph + p_memsz ph ≤ exec_end ph < 2 ^ 64 ∧
  exec_start ph + page_ceil (p_memsz ph) ≤ exec_end ph.
Proof.
  intros (Hv & Hf & Hend). unfold exec_start, exec_end. rewrite page_mask_floor, page_up_ceil by lia.
  unfold page_ceil. split; [by rewrite Z.mod_mul by lia|]. split_and!; lia_div.
Qed.

(** What is unmapped of a segment lies within its mapping. *)
Lemma exec_unmapped ph :
  exec_segment_wf ph → 0 ≤ wrap32 (p_memsz ph) ∧ exec_start ph + page_ceil (wrap32 (p_memsz ph)) ≤ exec_end ph.
Proof.
  intros Hwf. destruct (exec_bounds _ Hwf) as (_ & _ & _ & Hc). destruct Hwf as (_ & Hf & _).
  pose proof (wrap_bound 32 (p_memsz ph) ltac:(lia)) as Hw. split; [lia|].
  assert (wrap32 (p_memsz ph) ≤ p_memsz ph) as Hle by (unfold wrap; apply Z.mod_le; lia).
  assert (page_ceil (wrap32 (p_memsz ph)) ≤ page_ceil (p_memsz ph)); [|lia].
  revert Hle. generalize (wrap32 (p_memsz ph)) as n, (p_memsz ph) as k. intros n k Hle. unfold page_ceil. lia_div.
Qed.

Lemma exec_load_segment_ok e php s e' s' ph :
  exec_load_segment e php s = Ok (e', s') → read_phdr (p_mem s) php = Ok ph → p_type ph = PT_LOAD →
  exec_segment_wf ph →
  e' = e <| memories_ := memories_ e ++ [(exec_start ph, wrap32 (p_memsz ph))] |> ∧
  extends (p_mem s) (p_mem s') ∧ exec_end ph ≤ 2 ^ 47 ∧
  (∀ x, exec_start ph ≤ x < exec_end ph → mapped (p_mem s) x = false) ∧
  ∀ x, mapped (p_mem s') x = true ↔ exec_start ph ≤ x < exec_end ph ∨ mapped (p_mem s) x = true.
Proof.
  intros Hrun Hph Ht Hwf. destruct (exec_bounds _ Hwf) as (Hal & Hs & He & _). destruct Hwf as (_ & Hf & _).
  unfold exec_load_segment in Hrun. apply stM_bind_ok in Hrun as (ph' & s0 & [Hph' ->]%with_mem_ok & Hrun).
  rewrite Hph in Hph'. injection Hph' as <-. rewrite Ht in Hrun. cbn [Z.eqb negb] in Hrun. change (PT_LOAD =? PT_LOAD) with true in Hrun.
  cbn [negb] in Hrun. cbv zeta in Hrun. fold (exec_start ph) (exec_end ph) in Hrun.
  rewrite (wrap_small 64 (exec_end ph - exec_start ph)) in Hrun by lia. inv_proc.
  match goal with H : (_ =? _) = true |- _ => apply Z.eqb_eq in H; subst end.
  match goal with H : mmap_anonymous _ _ _ _ = _ |- _ => apply mmap_anonymous_ok in H as [[Hfail _]|[Hp ->]] end.
  { exfalso. unfold MAP_FAILED in Hfail. rewrite Hfail in Hal. vm_compute in Hal. done. }
  match goal with H : memcpy _ _ _ _ = _ |- _ => apply memcpy_ok in H as (_ & _ & ->) end.
  destruct (mmap_user _ _ _ _ Hp) as (_ & _ & Hu). rewrite Zplus_minus in Hu. cbn [set_mem p_mem] in *.
  assert (∀ x, exec_start ph ≤ x < exec_end ph → mapped (p_mem s) x = false) as Hfree.
  { intros x Hx. apply not_true_iff_false. intros (r & Hr & Hxr)%mapped_spec.
    pose proof (mmap_fresh _ _ _ _ _ Hp Hr) as Hov. rewrite Zplus_minus in Hov.
    pose proof (overlaps_false_range _ _ _ _ Hov Hxr). lia. }
  match goal with |- context [poke ?m ?a ?bs] => assert (extends (p_mem s) (poke m a bs)) as Hext end.
  { intros x Hx. destruct (map_zero_extends _ _ _ _ (PROT_READ + PROT_WRITE + PROT_EXEC) Hp x Hx) as [Hm Hb].
    rewrite mapped_poke, byte_at_poke_out; [done|]. rewrite length_peek.
    destruct (decide (exec_start ph ≤ x < exec_end ph)) as [Hin|]; [by rewrite (Hfree x Hin) in Hx|lia]. }
  match goal with H : read_phdr _ php = Ok ?ph2 |- context [p_memsz ?ph2] =>
    rewrite (read_phdr_covers _ _ Hext _ _ Hph) in H; injection H as <- end.
  split_and!; [reflexivity|exact Hext|exact Hu|exact Hfree|].
  - intros x. rewrite mapped_poke, mapped_map_zero, Zplus_minus, orb_true_iff, bool_decide_eq_true. done.
Qed.

Lemma exec_load_ok phps phs e s e' s' :
  foldM exec_load_segment e phps s = Ok (e', s') →
  Forall2 (λ php ph, read_phdr (p_mem s) php = Ok ph) phps phs → Forall exec_segment_wf (loads phs) →
  memories_ e' = memories_ e ++ map (λ ph, (exec_start ph, wrap32 (p_memsz ph))) (loads phs) ∧
  (∀ ph, ph ∈ loads phs → exec_end ph ≤ 2 ^ 47 ∧ ∀ x, exec_start ph ≤ x < exec_end ph → mapped (p_mem s) x = false) ∧
  ∀ x, mapped (p_mem s') x = true ↔
    mapped (p_mem s) x = true ∨ ∃ ph, ph ∈ loads phs ∧ exec_start ph ≤ x < exec_end ph.
Proof.
  intros Hrun Hphs. revert e s Hrun Hphs. revert phs. induction phps as [|php phps IH]; intros phs e s Hrun Hphs Hwf.
  { apply Forall2_nil_inv_l in Hphs as ->. cbn in Hrun. injection Hrun as <- <-. cbn. rewrite app_nil_r.
    split_and!; [done|set_solver|set_solver]. }
  apply Forall2_cons_inv_l in Hphs as (ph & phs' & Hph & Hphs & ->). cbn [foldM] in Hrun.
  apply stM_bind_ok in Hrun as (e1 & s1 & Hstep & Hrun). unfold loads in *. rewrite filter_cons in *.
  destruct (decide (p_type ph = PT_LOAD)) as [Ht|Ht].
  2: { assert (e1 = e ∧ s1 = s) as [-> ->]; [|by apply IH].
    unfold exec_load_segment in Hstep. apply stM_bind_ok in Hstep as (ph' & s0 & [Hph' ->]%with_mem_ok & Hstep).
    rewrite Hph in Hph'. injection Hph' as <-. apply Z.eqb_neq in Ht. rewrite Ht in Hstep. by injection Hstep as <- <-. }
  apply Forall_cons in Hwf as [Hwf1 Hwf].
  destruct (exec_load_segment_ok _ _ _ _ _ _ Hstep Hph Ht Hwf1) as (-> & He & Hhi & Hfree & Hm).
  destruct (IH phs' _ _ Hrun) as (Hmem & Hsegs & Hall); [|done|].
  { eapply Forall2_impl; [exact Hphs|]. intros php' ph'. by apply (read_phdr_covers _ _ He). }
  change (memories_ (e <| memories_ := _ |>)) with (memories_ e ++ [(exec_start ph, wrap32 (p_memsz ph))]) in Hmem.
  rewrite <-app_assoc in Hmem. split; [exact Hmem|]. split.
  - intros ph' [->|Hin]%elem_of_cons; [done|]. destruct (Hsegs ph' Hin) as [? Hx]. split; [done|]. intros x Hxx.
    specialize (Hx x Hxx). destruct (mapped (p_mem s) x) eqn:E; [|done]. destruct (He x E) as [E' _]. congruence.
  - intros x. rewrite Hall, Hm. split.
    + intros [[Hx|Hx]|(ph' & Hin & Hx)]; [right; exists ph; by split; [left|]|by left|right; exists ph'; by split; [right|]].
    + intros [Hx|(ph' & [->|Hin]%elem_of_cons & Hx)]; [by left; right|by left; left|right; by exists ph'].
Qed.

Lemma munmap_ok a n s :
  a mod 4096 = 0 → 0 ≤ a → 0 ≤ n → a + page_ceil n ≤ 2 ^ 47 →
  ∃ s', munmap a n s = Ok (tt, s') ∧
    ∀ x, mapped (p_mem s') x = true ↔ mapped (p_mem s) x = true ∧ ¬ (a ≤ x < a + page_ceil n).
Proof.
  intros Hal Ha Hn Hend. unfold munmap. rewrite Hal, Z.eqb_refl, (proj2 (Z.leb_le 0 a)), (proj2 (Z.leb_le _ _) Hend) by done.
  destruct (Z.ltb_spec 0 n) as [Hpos|Hneg]; cbn [andb].
  - eexists. split; [reflexivity|]. intros x. apply mapped_unmap. pose proof (page_ceil_bound n). lia.
  - exists s. split; [done|]. assert (n = 0) as -> by lia. change (page_ceil 0) with 0. intros x. split; [intros; split; [done|lia]|tauto].
Qed.

Lemma unload_ok phs s :
  Forall exec_segment_wf phs → Forall (λ ph, exec_end ph ≤ 2 ^ 47) phs →
  ∃ s', foldM (λ _ p, munmap p.1 p.2) tt (map (λ ph, (exec_start ph, wrap32 (p_memsz ph))) phs) s = Ok (tt, s') ∧
    ∀ x, mapped (p_mem s') x = true ↔
      mapped (p_mem s) x = true ∧ ∀ ph, ph ∈ phs → ¬ (exec_start ph ≤ x < exec_start ph + page_ceil (wrap32 (p_memsz ph))).
Proof.
  intros Hwf Hhi. revert s. induction Hwf as [|ph phs Hph Hwf IH]; intros s; [exists s; set_solver|].
  apply Forall_cons in Hhi as [Hhi1 Hhi]. destruct (exec_bounds _ Hph) as (Hal & Hs & _).
  destruct (exec_unmapped _ Hph) as [Hw Hc].
  destruct (munmap_ok (exec_start ph) (wrap32 (p_memsz ph)) s) as (s1 & Hrun & Hm1); [done|lia|lia|lia|].
  destruct (IH Hhi s1) as (s' & Hrun' & Hm'). exists s'. split.
  - cbn [map foldM]. by rewrite (stM_bind_run _ _ _ _ _ Hrun).
  - intros x. rewrite Hm', Hm1. setoid_rewrite elem_of_cons. naive_solver.
Qed.

(** C40: [Unload] after [Load] takes away exactly the first pages of every
    segment that its memory size - cut to 32 bits - fills when counted from the
    start of the mapping, and nothing that was mapped before; the other pages of
    the segments stay mapped. So everything is released if every mapping is as
    long as that, and pages are lost when a segment starts far enough into its
    first page or has 4 GiB or more. *)
Theorem exec_unload e phs s e' s1 :
  Forall2 (λ php ph, read_phdr (p_mem s) php = Ok ph) (phdrs_ e) phs → Forall exec_segment_wf (loads phs) →
  memories_ e = [] → ExecLoader_Load e s = Ok (e', s1) →
  ∃ s2, ExecLoader_Unload e' s1 = Ok (tt, s2) ∧
    (∀ x, mapped (p_mem s2) x = true ↔ mapped (p_mem s) x = true ∨
       (∃ ph, ph ∈ loads phs ∧ exec_start ph ≤ x < exec_end ph) ∧
       ∀ ph, ph ∈ loads phs → ¬ (exec_start ph ≤ x < exec_start ph + page_ceil (wrap32 (p_memsz ph)))) ∧
    ((∀ ph, ph ∈ loads phs → exec_end ph = exec_start ph + page_ceil (wrap32 (p_memsz ph))) →
     ∀ x, mapped (p_mem s2) x = mapped (p_mem s) x).
Proof.
  intros Hphs Hwf Hempty Hrun. destruct (exec_load_ok _ _ _ _ _ _ Hrun Hphs Hwf) as (Hmem & Hsegs & Hall).
  rewrite Hempty in Hmem. cbn [app] in Hmem.
  destruct (unload_ok (loads phs) s1 Hwf) as (s2 & Hun & Hm); [by apply Forall_forall; intros; apply Hsegs|].
  exists s2. unfold ExecLoader_Unload. rewrite Hmem. split; [exact Hun|].
  assert (∀ ph x, ph ∈ loads phs → mapped (p_mem s) x = true →
    ¬ (exec_start ph ≤ x < exec_start ph + page_ceil (wrap32 (p_memsz ph)))) as Hkeep.
  { intros ph x Hph Hx Hin. destruct (Hsegs ph Hph) as [_ Hfree]. rewrite Forall_forall in Hwf.
    destruct (exec_unmapped _ (Hwf ph Hph)) as [_ Hc].
    rewrite Hfree in Hx; [done|lia]. }
  assert (∀ x, mapped (p_mem s2) x = true ↔ mapped (p_mem s) x = true ∨
    (∃ ph, ph ∈ loads phs ∧ exec_start ph ≤ x < exec_end ph) ∧
    ∀ ph, ph ∈ loads phs → ¬ (exec_start ph ≤ x < exec_start ph + page_ceil (wrap32 (p_memsz ph)))) as Heq.
  { intros x. rewrite Hm, Hall. split; [intros [[?|?] ?]; [by left|by right]|].
    intros [Hx|[Hx Hn]]; [|by split; [right|]].
    split; [by left|]. intros ph Hph. by apply Hkeep. }
  split; [exact Heq|]. intros Hlen x. apply eq_true_iff_eq. rewrite Heq. split; [|by left].
  intros [?|[(ph & Hph & Hx) Hn]]; [done|]. destruct (Hn ph Hph). rewrite <-(Hlen ph Hph). exact Hx.
Qed.
End unload.
