(* ===== verification/ExecLaunch.v ===== *)
(** * Static executables, from the file to the jump

    What a file must look like for [ExecLoader] to accept it, as a condition on its
    bytes; and the theorem that it is then loaded and entered in every process where
    its pages are free: its segments are in memory at their own addresses, the stack
    is the one that [exec_build_stack] lays out, and nothing else has changed. *)

From S2P Require Import Prelude Memory Digits Elf Utils Os ElfBinary ElfDynamic ElfFile FindLibrary DynLoader Accept Symbols Execute Start ExecLoader.

(** ** What a file promises *)

(** A loadable segment: its pages are in user space, above the ones the kernel
    keeps free, its memory ends inside of its last page, and its bytes are in the
    mapping of the file, which is [size] bytes long. *)
Record exec_segment_ok (size : Z) (ph : Elf64_Phdr) : Prop := {
  xs_wf : exec_segment_wf ph;
  xs_low : 0x10000 ≤ exec_start ph;
  xs_high : exec_end ph ≤ 2 ^ 47;
  xs_inside : (p_vaddr ph + p_memsz ph) mod 4096 ≠ 0;
  xs_file : 0 ≤ p_offset ph ∧ p_offset ph + p_filesz ph ≤ page_ceil size
}.

Definition exec_region (ph : Elf64_Phdr) : region := mkRegion (exec_start ph) (exec_end ph) 7.

Record exec_file_wf (bs : list Z) : Prop := {
  xf_size : 24 < Z.of_nat (length bs);
  xf_phdrs i : 0 ≤ i < e_phnum (file_ehdr bs) →
    phdr_inside (file_ehdr bs) (page_ceil (Z.of_nat (length bs))) i;
  xf_dynamic : (length (filter (λ ph, p_type ph = PT_DYNAMIC) (file_phdrs bs)) ≤ 1)%nat;
  xf_segments ph : ph ∈ loads (file_phdrs bs) → exec_segment_ok (Z.of_nat (length bs)) ph;
  xf_disjoint : disjoint_regions (map exec_region (loads (file_phdrs bs)))
}.

(** All the pages of a segment as the file wants them: its bytes at its address, and
    zeros around them. *)
Record exec_image (m : memory) (bs : list Z) (ph : Elf64_Phdr) : Prop := {
  xi_mapped : mapped_range m (exec_start ph) (exec_end ph - exec_start ph) = true;
  xi_file : peek m (p_vaddr ph) (p_filesz ph) = file_bytes bs (p_offset ph) (p_filesz ph);
  xi_zero x : exec_start ph ≤ x < exec_end ph → ¬ (p_vaddr ph ≤ x < p_vaddr ph + p_filesz ph) → byte_at m x = 0
}.

Lemma exec_image_extends bs ph m m' :
  exec_segment_wf ph → extends m m' → exec_image m bs ph → exec_image m' bs ph.
Proof.
  intros Hwf He [Hm Hf Hz]. destruct (exec_bounds _ Hwf) as (_ & Hs & Hend & _). destruct Hwf as (_ & Hsz & _).
  destruct (extends_range _ _ _ _ He Hm) as [Hm' _].
  assert (mapped_range m (p_vaddr ph) (p_filesz ph) = true) as Hmf by (eapply mapped_range_sub; [exact Hm|lia..]).
  destruct (extends_range _ _ _ _ He Hmf) as [_ Hp]. split; [done|by rewrite Hp|].
  intros x Hx Hn. rewrite <-(Hz x Hx Hn). apply He. rewrite mapped_range_spec in Hm. apply Hm. lia.
Qed.

(** ** One segment *)

Section load_succeeds.
Context `{K : Kernel} `{!KernelSpec K} `{!KernelHint K}.

Lemma mmap_hint_runs s lo hi prot :
  lo mod 4096 = 0 → 0x10000 ≤ lo < hi → hi ≤ 2 ^ 47 → (∀ r, r ∈ regions (p_mem s) → overlaps lo hi r = false) →
  mmap_anonymous lo (hi - lo) prot s = Ok (lo, set_mem (map_zero (p_mem s) lo (hi - lo) prot) s) ∧
  extends (p_mem s) (map_zero (p_mem s) lo (hi - lo) prot).
Proof.
  intros Hal Hlo Hhi Hfree. assert (mmap_place (regions (p_mem s)) lo (hi - lo) = Some lo) as Hp.
  { apply mmap_at_hint; [done|lia..|]. by rewrite Zplus_minus. }
  split; [unfold mmap_anonymous; by rewrite Hp|by eapply map_zero_extends].
Qed.

(** A segment whose memory ends inside of its last page passes the strict check. *)
Lemma exec_end_strict ph :
  exec_segment_wf ph → (p_vaddr ph + p_memsz ph) mod 4096 ≠ 0 →
  wrap64 (p_vaddr ph + p_memsz ph) = p_vaddr ph + p_memsz ph ∧ p_vaddr ph + p_memsz ph < exec_end ph.
Proof.
  intros (Hv & Hf & Hend) Hmod. split; [apply wrap_small; lia|].
  unfold exec_end. rewrite page_up_ceil by lia. unfold page_ceil. lia_div.
Qed.

(** The pages of a segment, mapped and filled. *)
Definition exec_fill (bs : list Z) (ph : Elf64_Phdr) (m : memory) : memory :=
  poke (map_zero m (exec_start ph) (exec_end ph - exec_start ph) 7) (p_vaddr ph) (file_bytes bs (p_offset ph) (p_filesz ph)).

Lemma length_file_bytes bs off n : length (file_bytes bs off n) = Z.to_nat n.
Proof. unfold file_bytes. by rewrite length_map, length_range. Qed.

Lemma exec_fill_image bs ph m : exec_segment_wf ph → exec_image (exec_fill bs ph m) bs ph.
Proof.
  intros Hwf. destruct (exec_bounds _ Hwf) as (_ & Hs & He & _). destruct Hwf as (_ & Hf & _). split.
  - apply mapped_range_spec. intros x Hx. unfold exec_fill. rewrite mapped_poke, mapped_map_zero, bool_decide_true by lia. done.
  - apply peek_poke_len. rewrite length_file_bytes. lia.
  - intros x Hx Hn. unfold exec_fill. rewrite byte_at_poke_out by (rewrite length_file_bytes; lia).
    apply byte_at_map_zero_in. lia.
Qed.

Lemma exec_fill_extends bs ph m :
  exec_segment_wf ph → (∀ r, r ∈ regions m → overlaps (exec_start ph) (exec_end ph) r = false) →
  extends m (exec_fill bs ph m).
Proof.
  intros Hwf Hfree x Hx. destruct (exec_bounds _ Hwf) as (_ & Hs & He & _). destruct Hwf as (_ & Hf & _).
  unfold exec_fill. rewrite mapped_poke, mapped_map_zero, Hx, orb_true_r. split; [done|].
  apply mapped_spec in Hx as (r & Hr & Hx). pose proof (overlaps_false_range _ _ _ _ (Hfree r Hr) Hx).
  rewrite byte_at_poke_out by (rewrite length_file_bytes; lia). apply byte_at_map_zero_out. lia.
Qed.

Lemma exec_load_segment_succeeds e php s ph bs size :
  read_phdr (p_mem s) php = Ok ph → p_type ph = PT_LOAD → exec_segment_ok size ph →
  0 ≤ head_ e → head_ e + page_ceil size < 2 ^ 64 →
  mapped_range (p_mem s) (head_ e) (page_ceil size) = true →
  peek (p_mem s) (head_ e + p_offset ph) (p_filesz ph) = file_bytes bs (p_offset ph) (p_filesz ph) →
  (∀ r, r ∈ regions (p_mem s) → overlaps (exec_start ph) (exec_end ph) r = false) →
  exec_load_segment e php s =
  Ok (e <| memories_ := memories_ e ++ [(exec_start ph, wrap32 (p_memsz ph))] |>, set_mem (exec_fill bs ph (p_mem s)) s).
Proof.
  intros Hph Ht [Hwf Hlow Hhigh Hmod Hfile] Hh0 Hh Hmap Hbs Hfree.
  destruct (exec_bounds _ Hwf) as (Hal & Hs & He & _). destruct (exec_end_strict _ Hwf Hmod) as [Hw Hlt].
  pose proof Hwf as (Hv & Hf & Hend). set (m1 := map_zero (p_mem s) (exec_start ph) (exec_end ph - exec_start ph) 7).
  destruct (mmap_hint_runs s (exec_start ph) (exec_end ph) 7 Hal) as [Hrun Hext]; [lia|done|done|]. fold m1 in Hrun, Hext.
  assert (mapped_range (p_mem s) (head_ e + p_offset ph) (p_filesz ph) = true) as Hsrc.
  { eapply mapped_range_sub; [exact Hmap|lia..]. }
  destruct (extends_range _ _ _ _ Hext Hsrc) as [Hsrc' Hpk]. rewrite Hbs in Hpk.
  assert (memcpy m1 (p_vaddr ph) (head_ e + p_offset ph) (p_filesz ph) = Ok (exec_fill bs ph (p_mem s))) as Hcopy.
  { apply memcpy_ok. rewrite Hpk. split_and!; [done| |done]. apply mapped_range_spec. intros x Hx. unfold m1.
    rewrite mapped_map_zero, bool_decide_true by lia. done. }
  unfold exec_load_segment. rewrite (stM_bind_run _ _ s ph s) by (unfold with_mem; by rewrite Hph).
  rewrite Ht. change (negb (PT_LOAD =? PT_LOAD)) with false. cbv iota zeta. fold (exec_start ph) (exec_end ph).
  rewrite (wrap_small 64 (exec_end ph - _)) by lia. change (PROT_READ + PROT_WRITE + PROT_EXEC) with 7.
  rewrite (stM_bind_run _ _ _ _ _ Hrun), Z.eqb_refl, Hw, (proj2 (Z.leb_le _ _)), (proj2 (Z.ltb_lt _ _)) by lia.
  rewrite (wrap_small 64 (head_ e + _)) by lia. do 3 rewrite (stM_bind_run (CHECK true) _ _ tt (set_mem m1 s)) by done.
  rewrite (stM_bind_run _ _ _ tt (set_mem (exec_fill bs ph (p_mem s)) s)).
  2: { unfold update_mem. cbn [set_mem p_mem]. by rewrite Hcopy. }
  rewrite (stM_bind_run _ _ _ ph (set_mem (exec_fill bs ph (p_mem s)) s)); [done|].
  unfold with_mem. cbn [set_mem p_mem]. rewrite (read_phdr_covers _ _ (exec_fill_extends bs ph _ Hwf Hfree) _ _ Hph). done.
Qed.

(** ** All of them *)

(** Memory after the segments have been mapped and filled, in order. *)
Definition exec_loaded (bs : list Z) (phs : list Elf64_Phdr) (m : memory) : memory :=
  foldl (λ m ph, exec_fill bs ph m) m phs.

(** Pages that nothing else uses. *)
Definition exec_free (phs : list Elf64_Phdr) (m : memory) : Prop :=
  disjoint_regions (map exec_region phs) ∧
  ∀ ph r, ph ∈ phs → r ∈ regions m → overlaps (exec_start ph) (exec_end ph) r = false.

Lemma exec_free_cons bs ph phs m :
  exec_free (ph :: phs) m →
  (∀ r, r ∈ regions m → overlaps (exec_start ph) (exec_end ph) r = false) ∧ exec_free phs (exec_fill bs ph m).
Proof.
  intros [Hd Hf]. apply disjoint_regions_inv in Hd as [Hd Hph]. split; [by intros r; apply Hf; left|]. split; [exact Hd|].
  intros ph' r Hin Hr. cbn [exec_fill poke map_zero regions] in Hr. rewrite Zplus_minus in Hr. fold (exec_region ph) in Hr.
  apply elem_of_cons in Hr as [->|Hr]; [|by apply Hf; [right|]].
  change (overlaps (r_lo (exec_region ph')) (r_hi (exec_region ph')) (exec_region ph) = false).
  rewrite overlaps_sym. apply Hph. by apply list_elem_of_fmap_2.
Qed.

Lemma exec_loaded_ok bs phs m :
  Forall exec_segment_wf phs → exec_free phs m →
  extends m (exec_loaded bs phs m) ∧ regions (exec_loaded bs phs m) = rev (map exec_region phs) ++ regions m ∧
  ∀ ph, ph ∈ phs → exec_image (exec_loaded bs phs m) bs ph.
Proof.
  intros Hwf. revert m. induction Hwf as [|ph phs Hph Hwf IH]; intros m Hfree.
  { split_and!; [done|done|]. by intros ph ?%elem_of_nil. }
  apply (exec_free_cons bs) in Hfree as [Hfree1 Hfree].
  destruct (IH _ Hfree) as (Hext & Hreg & Himg). cbn [exec_loaded foldl]. split_and!.
  - etrans; [by apply exec_fill_extends|exact Hext].
  - unfold exec_loaded in Hreg. rewrite Hreg. cbn [exec_fill poke map_zero regions map rev]. rewrite Zplus_minus. fold (exec_region ph).
    by rewrite <-app_assoc.
  - intros ph' [->|Hin]%elem_of_cons; [|by apply Himg].
    eapply exec_image_extends; [exact Hph|exact Hext|by apply exec_fill_image].
Qed.

(** [m0] holds the mapped file, at the address the loader has noted. *)
Lemma exec_segments_succeed m0 bs size phps phs e s :
  extends m0 (p_mem s) → Forall2 (λ php ph, read_phdr m0 php = Ok ph) phps phs →
  0 ≤ head_ e → head_ e + page_ceil size < 2 ^ 64 → mapped_range m0 (head_ e) (page_ceil size) = true →
  (∀ ph, ph ∈ loads phs → exec_segment_ok size ph ∧
     peek m0 (head_ e + p_offset ph) (p_filesz ph) = file_bytes bs (p_offset ph) (p_filesz ph)) →
  exec_free (loads phs) (p_mem s) →
  foldM exec_load_segment e phps s =
  Ok (e <| memories_ := memories_ e ++ map (λ ph, (exec_start ph, wrap32 (p_memsz ph))) (loads phs) |>,
      set_mem (exec_loaded bs (loads phs) (p_mem s)) s).
Proof.
  intros Hext Hphs Hh0 Hh Hmap. revert e s Hext Hh0 Hh Hmap. induction Hphs as [|php ph phps phs Hph Hphs IH]; intros e s Hext Hh0 Hh Hmap Hsegs Hfree.
  { cbn. rewrite app_nil_r. by destruct e, s. }
  pose proof (read_phdr_covers _ _ Hext _ _ Hph) as Hph'. unfold loads in *. rewrite filter_cons in *. cbn [foldM].
  destruct (decide (p_type ph = PT_LOAD)) as [Ht|Ht].
  2: { rewrite (stM_bind_run _ _ _ e s); [by apply IH|]. unfold exec_load_segment.
    rewrite (stM_bind_run _ _ s ph s) by (unfold with_mem; by rewrite Hph'). apply Z.eqb_neq in Ht. by rewrite Ht. }
  destruct (Hsegs ph) as [Hok Hbs]; [by left|]. apply (exec_free_cons bs) in Hfree as [Hfree1 Hfree].
  destruct (extends_range _ _ _ _ Hext Hmap) as [Hmap' _].
  pose proof (xs_wf _ _ Hok) as Hwf. pose proof (xs_file _ _ Hok) as Hin.
  assert (mapped_range m0 (head_ e + p_offset ph) (p_filesz ph) = true) as Hr by (eapply mapped_range_sub; [exact Hmap|lia..]).
  destruct (extends_range _ _ _ _ Hext Hr) as [_ Hpk]. rewrite Hbs in Hpk.
  rewrite (stM_bind_run _ _ _ _ _ (exec_load_segment_succeeds e php s ph bs size Hph' Ht Hok Hh0 Hh Hmap' Hpk Hfree1)).
  rewrite IH; [|etrans; [exact Hext|by apply exec_fill_extends]|done..| |exact Hfree].
  - change (memories_ (e <| memories_ := _ |>)) with (memories_ e ++ [(exec_start ph, wrap32 (p_memsz ph))]). by rewrite <-app_assoc.
  - intros ph' Hin'. apply Hsegs. by right.
Qed.
End load_succeeds.

(** ** The constructor *)

Lemma read_phdr_type m a ph : read_phdr m a = Ok ph → load_word m 4 a = Ok (p_type ph).
Proof.
  unfold read_phdr. intros (bs & Hbs & [= <-])%outcome_bind_ok. apply load_bytes_ok in Hbs as [Hm ->].
  assert (load_bytes m a 4 = Ok (peek m a 4)) as Hl.
  { apply load_bytes_ok. split; [|done]. eapply mapped_range_sub; [exact Hm|unfold sizeof_Phdr; lia..]. }
  unfold load_word. rewrite Hl, bind_Ok. reflexivity.
Qed.

Lemma find_dynamic_succeeds m e phps phs :
  Forall2 (λ php ph, read_phdr m php = Ok ph) phps phs →
  (length (filter (λ ph, p_type ph = PT_DYNAMIC) phs) ≤ if (ph_dynamic_ e =? 0)%Z then 1 else 0)%nat →
  ∃ d, foldM (find_dynamic m) e phps = Ok (e <| ph_dynamic_ := d |>).
Proof.
  intros Hphs. revert e. induction Hphs as [|php ph phps phs Hph Hphs IH]; intros e Hlen; cbn [foldM].
  { exists (ph_dynamic_ e). by destruct e. }
  unfold find_dynamic at 2. rewrite (read_phdr_type _ _ _ Hph), bind_Ok. rewrite filter_cons in Hlen.
  destruct (decide (p_type ph = PT_DYNAMIC)) as [Ht|Ht].
  - rewrite Ht. change (PT_DYNAMIC =? PT_DYNAMIC) with true. cbn [length] in Hlen.
    destruct (ph_dynamic_ e =? 0) eqn:Ed; [|lia]. cbn [CHECK]. unfold mbind at 2, outcome_bind at 2.
    destruct (IH (e <| ph_dynamic_ := php |>)) as [d Hd].
    { change (ph_dynamic_ (e <| ph_dynamic_ := php |>)) with php. by destruct (php =? 0); lia. }
    exists d. exact Hd.
  - apply Z.eqb_neq in Ht. rewrite Ht. by apply IH.
Qed.

Section launch.
Context `{Environment} `{FS : FileSystem} `{!FileSystemSpec FS} `{K : Kernel} `{!KernelSpec K} `{!KernelHint K}.

(** The addresses of the program headers in a file that is mapped at [a]. *)
Definition exec_pointers (a : Z) (bs : list Z) : list Z :=
  map (λ i, wrap64 (a + e_phoff (file_ehdr bs) + i * e_phentsize (file_ehdr bs))) (seqZ 0 (e_phnum (file_ehdr bs))).

Lemma exec_pointers_read m a bs :
  let size := page_ceil (Z.of_nat (length bs)) in
  mmap_place (regions m) 0 size = Some a → exec_file_wf bs →
  Forall2 (λ php ph, read_phdr (map_bytes m a size 7 bs) php = Ok ph) (exec_pointers a bs) (file_phdrs bs).
Proof.
  intros size Ep Hwf. unfold exec_pointers, file_phdrs. apply Forall2_fmap, Forall_Forall2_diag, Forall_forall.
  intros i Hi%elem_of_seqZ. destruct (xf_phdrs _ Hwf i) as (H1 & H2 & _); [lia|].
  destruct (load_file_bytes m a bs _ 56 Ep H1) as (Hw & Hm & Hpk); [lia|lia|].
  unfold phdr_off in Hw at 1. rewrite Z.add_assoc in Hw. rewrite Hw. unfold read_phdr, load_bytes. change sizeof_Phdr with 56.
  replace (a + e_phoff (file_ehdr bs) + i * e_phentsize (file_ehdr bs)) with (a + phdr_off (file_ehdr bs) i)
    by (unfold phdr_off; lia). fold size in Hm, Hpk. by rewrite Hm, bind_Ok, Hpk.
Qed.

Lemma exec_pointers_computed a bs :
  exec_file_wf bs → traverse (phdr_address a (file_ehdr bs)) (seqZ 0 (e_phnum (file_ehdr bs))) = Ok (exec_pointers a bs).
Proof.
  intros Hwf. apply traverse_ok. unfold exec_pointers. apply Forall2_fmap_r, Forall_Forall2_diag, Forall_forall.
  intros i Hi%elem_of_seqZ. destruct (xf_phdrs _ Hwf i) as (_ & _ & H3); [lia|]. by apply phdr_address_ok.
Qed.

(** The header is read back from the mapping of the file. *)
Lemma exec_header_read m a bs :
  let size := page_ceil (Z.of_nat (length bs)) in
  mmap_place (regions m) 0 size = Some a → 24 < Z.of_nat (length bs) →
  read_ehdr (map_bytes m a size 7 bs) a = Ok (file_ehdr bs).
Proof.
  intros size Ep Hlen. pose proof (page_ceil_bound (Z.of_nat (length bs))) as Hc.
  pose proof (page_ceil_aligned (Z.of_nat (length bs))) as Hal.
  destruct (load_file_bytes m a bs 0 64 Ep) as (_ & Hm & Hpk); [lia|lia|lia_div|]. rewrite Z.add_0_r in *.
  unfold read_ehdr, load_bytes. change sizeof_Ehdr with 64. fold size in Hm, Hpk. by rewrite Hm, bind_Ok, Hpk.
Qed.

Lemma MakeExecLoader_succeeds path argv0 s bs a :
  let size := page_ceil (Z.of_nat (length bs)) in
  open_file path = Some bs → exec_file_wf bs → mmap_place (regions (p_mem s)) 0 size = Some a →
  ∃ d, MakeExecLoader path argv0 s =
    Ok (mkExecLoader a size argv0 (exec_pointers a bs) d [], set_mem (map_bytes (p_mem s) a size 7 bs) s).
Proof.
  intros size Ho Hwf Ep. pose proof (file_size _ _ Ho) as Hsz. pose proof (xf_size _ Hwf) as Hlen.
  destruct (mmap_user _ _ _ _ Ep) as (Hu1 & Hu2 & Hu3). unfold MakeExecLoader. rewrite Ho.
  rewrite (stM_bind_run _ _ s bs s) by done. cbv zeta. change (8 + 16) with 24. rewrite (proj2 (Z.ltb_lt _ _) Hlen).
  rewrite (stM_bind_run _ _ s tt s) by done. rewrite page_up_ceil by lia. fold size.
  change (PROT_READ + PROT_WRITE + PROT_EXEC) with 7. set (m1 := map_bytes (p_mem s) a size 7 bs).
  rewrite (stM_bind_run _ _ s a (set_mem m1 s)) by (unfold mmap_file; by rewrite Ep).
  rewrite (proj2 (Z.eqb_neq a MAP_FAILED)) by (unfold MAP_FAILED; lia).
  rewrite (stM_bind_run _ _ _ tt (set_mem m1 s)) by done.
  destruct (find_dynamic_succeeds m1 (mkExecLoader a size argv0 (exec_pointers a bs) 0 []) (exec_pointers a bs) (file_phdrs bs)) as [d Hd].
  { by apply exec_pointers_read. }
  { apply (xf_dynamic _ Hwf). }
  exists d. unfold with_mem, ExecLoader_new. cbn [set_mem p_mem].
  rewrite (exec_header_read (p_mem s) a bs Ep Hlen : read_ehdr m1 a = _), bind_Ok.
  by rewrite (exec_pointers_computed a bs Hwf), bind_Ok, Hd.
Qed.

Lemma exec_image_agree (W : Z → Prop) bs ph m m' :
  exec_segment_wf ph → agree_off W m m' → (∀ x, exec_start ph ≤ x < exec_end ph → ¬ W x) →
  exec_image m bs ph → exec_image m' bs ph.
Proof.
  intros Hwf [Hr Hb] HW [Hm Hf Hz]. destruct (exec_bounds _ Hwf) as (_ & Hs & He & _). destruct Hwf as (_ & Hsz & _). split.
  - by rewrite (mapped_range_regions m).
  - rewrite <-Hf. apply peek_ext. intros x Hx. apply Hb, HW. lia.
  - intros x Hx Hn. rewrite Hb; [by apply Hz|by apply HW].
Qed.

(** The segments go into memory next to the mapped file. *)
Lemma ExecLoader_Load_succeeds s bs a size d argv0 :
  let m1 := map_bytes (p_mem s) a (page_ceil (Z.of_nat (length bs))) 7 bs in
  let e := mkExecLoader a size argv0 (exec_pointers a bs) d [] in
  mmap_place (regions (p_mem s)) 0 (page_ceil (Z.of_nat (length bs))) = Some a → exec_file_wf bs →
  exec_free (loads (file_phdrs bs)) m1 →
  ExecLoader_Load e (set_mem m1 s) =
  Ok (e <| memories_ := map (λ ph, (exec_start ph, wrap32 (p_memsz ph))) (loads (file_phdrs bs)) |>,
      set_mem (exec_loaded bs (loads (file_phdrs bs)) m1) s).
Proof.
  intros m1 e Ep Hwf Hfree. destruct (mmap_user _ _ _ _ Ep) as (Hu1 & Hu2 & Hu3). unfold ExecLoader_Load.
  rewrite (exec_segments_succeed m1 bs (Z.of_nat (length bs)) (exec_pointers a bs) (file_phdrs bs));
    [reflexivity|by intros x|by apply exec_pointers_read|change (head_ e) with a; lia|change (head_ e) with a; lia| | |exact Hfree].
  - pose proof (page_ceil_bound (Z.of_nat (length bs))) as Hc.
    destruct (load_file_bytes (p_mem s) a bs 0 (page_ceil (Z.of_nat (length bs))) Ep) as (_ & Hm & _); [lia..|].
    by rewrite Z.add_0_r in Hm.
  - intros ph Hph. pose proof (xf_segments _ Hwf ph Hph) as Hok. split; [exact Hok|].
    destruct (xs_file _ _ Hok) as [Ho Hf]. destruct (xs_wf _ _ Hok) as (_ & Hsz & _).
    by destruct (load_file_bytes (p_mem s) a bs (p_offset ph) (p_filesz ph) Ep) as (_ & _ & Hpk); [lia..|].
Qed.

Definition exec_stack_size (n_envs : nat) : Z := 8 * Z.of_nat (exec_stack_num (length aux_tvs) n_envs).

Lemma ExecLoader_Execute_succeeds `{Strings} e n_envs s h :
  getauxval AT_RANDOM ≠ 0 → read_ehdr (p_mem s) (head_ e) = Ok h →
  mapped_range (p_mem s) (p_rsp s - exec_stack_size n_envs) (exec_stack_size n_envs) = true →
  exec_stack_size n_envs ≤ p_rsp s < 2 ^ 64 →
  let rsp := p_rsp s - exec_stack_size n_envs in
  ∃ s', ExecLoader_Execute e n_envs s = Ok (tt, s') ∧ p_rsp s' = rsp ∧
    p_trace s' = p_trace s ++ [EvJump (e_entry h) rsp] ∧
    (∀ k v, exec_abi_stack aux_tvs n_envs !! k = Some v → load64 (p_mem s') (rsp + 8 * Z.of_nat k) = Ok (wrap64 v)) ∧
    agree_off (stack_area rsp (p_rsp s)) (p_mem s) (p_mem s').
Proof.
  intros Hrand Hh Hm Hrsp rsp. set (stack := rev (exec_abi_stack aux_tvs n_envs)).
  assert (8 * Z.of_nat (length stack) = exec_stack_size n_envs) as Hlen.
  { unfold stack, exec_stack_size. by rewrite length_rev, length_exec_abi_stack. }
  destruct (ExecuteCore_runs stack (e_entry h) s) as (s' & Hrun & Hag); rewrite ?Hlen in *; [done|done|].
  exists s'. destruct (ExecuteCore_ok _ _ _ _ _ Hrun) as (Hr & Htr & Hload); rewrite ?Hlen in *; [done|].
  fold rsp in Hr, Htr, Hload, Hag. unfold stack in Hload. rewrite rev_involutive in Hload. split_and!; [|done..].
  unfold ExecLoader_Execute. rewrite (proj2 (Z.eqb_neq _ _) Hrand). rewrite (stM_bind_run _ _ s tt s) by done.
  rewrite (stM_bind_run _ _ s stack s) by (unfold lift; by rewrite exec_build_stack_spec).
  by rewrite (stM_bind_run _ _ s h s) by (unfold with_mem; by rewrite Hh).
Qed.

(** The pages of a segment are not the ones of the stack. *)
Lemma exec_free_mapped ph phs m W x :
  exec_free phs m → ph ∈ phs → (∀ x, W x → mapped m x = true) → exec_start ph ≤ x < exec_end ph → ¬ W x.
Proof.
  intros [_ Hfree] Hph HW Hx Hin. apply HW, mapped_spec in Hin as (r & Hr & Hxr).
  by apply (overlaps_false_range _ _ _ _ (Hfree ph r Hph Hr) Hxr).
Qed.

(** C20: a static executable is started: when the file is well formed - its
    segments page-disjoint, none of them ending on a page boundary - its pages are
    free and there is room for the initial stack, then [MakeExecLoader], [Load],
    [Relocate] and [Execute] succeed, and the program is entered at its entry point
    with the words of the stack in place; every segment is in memory at its own
    address, the file's bytes with zeros around them up to the page boundaries; and
    of what was mapped before only the stack has been written. *)
Theorem exec_launches `{Strings} path argv0 n_envs s bs a :
  let size := page_ceil (Z.of_nat (length bs)) in
  let rsp := p_rsp s - exec_stack_size n_envs in
  open_file path = Some bs → exec_file_wf bs → mmap_place (regions (p_mem s)) 0 size = Some a →
  exec_free (loads (file_phdrs bs)) (map_bytes (p_mem s) a size 7 bs) → getauxval AT_RANDOM ≠ 0 →
  mapped_range (p_mem s) rsp (exec_stack_size n_envs) = true → exec_stack_size n_envs ≤ p_rsp s < 2 ^ 64 →
  ∃ e s', (e ← MakeExecLoader path argv0; e ← ExecLoader_Load e; ExecLoader_Relocate e ;;
           ExecLoader_Execute e n_envs ;; mret e) s = Ok (e, s') ∧
    memories_ e = map (λ ph, (exec_start ph, wrap32 (p_memsz ph))) (loads (file_phdrs bs)) ∧
    p_trace s' = p_trace s ++ [EvJump (e_entry (file_ehdr bs)) rsp] ∧ p_rsp s' = rsp ∧
    (∀ k v, exec_abi_stack aux_tvs n_envs !! k = Some v → load64 (p_mem s') (rsp + 8 * Z.of_nat k) = Ok (wrap64 v)) ∧
    (∀ ph, ph ∈ loads (file_phdrs bs) → exec_image (p_mem s') bs ph) ∧
    (∀ x, mapped (p_mem s) x = true → ¬ stack_area rsp (p_rsp s) x →
       mapped (p_mem s') x = true ∧ byte_at (p_mem s') x = byte_at (p_mem s) x).
Proof.
  intros size rsp Ho Hwf Ep Hfree Hrand Hstack Hrsp. set (m1 := map_bytes (p_mem s) a size 7 bs) in *.
  destruct (MakeExecLoader_succeeds path argv0 s bs a Ho Hwf Ep) as [d Hmake]. fold size m1 in Hmake.
  pose proof (ExecLoader_Load_succeeds s bs a size d argv0 Ep Hwf Hfree) as Hload. cbv zeta in Hload. fold size m1 in Hload.
  set (segs := loads (file_phdrs bs)) in *. set (m2 := exec_loaded bs segs m1) in *. set (e := set_field memories_ _ _) in Hload.
  assert (Forall exec_segment_wf segs) as Hsegs by (apply Forall_forall; intros ph Hph; apply (xs_wf _ _ (xf_segments _ Hwf ph Hph))).
  destruct (exec_loaded_ok bs segs m1 Hsegs Hfree) as (Hext2 & _ & Himg). fold m2 in Hext2, Himg.
  assert (extends (p_mem s) m1) as Hext1 by by apply map_file_extends.
  assert (extends (p_mem s) m2) as Hext by by transitivity m1.
  destruct (ExecLoader_Execute_succeeds e n_envs (set_mem m2 s) (file_ehdr bs) Hrand) as (s' & Hexec & Hr & Htr & Hwords & Hag).
  { change (head_ e) with a. cbn [set_mem p_mem].
    apply (read_ehdr_covers m1 m2 Hext2). apply exec_header_read; [exact Ep|apply Hwf]. }
  { by apply (extends_range _ _ _ _ Hext). }
  { exact Hrsp. }
  change (p_rsp (set_mem m2 s)) with (p_rsp s) in *. fold rsp in Hr, Htr, Hwords, Hag. cbn [set_mem p_mem] in Hag.
  exists e, s'. split_and!; [|reflexivity|exact Htr|exact Hr|exact Hwords| |].
  - rewrite (stM_bind_run _ _ _ _ _ Hmake), (stM_bind_run _ _ _ _ _ Hload). unfold ExecLoader_Relocate.
    rewrite (stM_bind_run _ _ (set_mem m2 s) tt (set_mem m2 s)) by done. by rewrite (stM_bind_run _ _ _ _ _ Hexec).
  - intros ph Hph. eapply exec_image_agree; [by apply (proj1 (Forall_forall _ _) Hsegs)|exact Hag| |by apply Himg].
    intros x. apply (exec_free_mapped ph segs m1); [exact Hfree|exact Hph|]. intros y Hy. apply Hext1.
    rewrite mapped_range_spec in Hstack. apply Hstack. unfold stack_area in Hy. lia.
  - intros x Hx Hn. destruct (Hext x Hx) as [Hx' Hb]. destruct Hag as [Hreg Hag]. rewrite Hag by done.
    split; [|done]. unfold mapped in *. by rewrite Hreg.
Qed.
End launch.
