(* ===== verification/RawWrite.v ===== *)
(** * Printing without the C library (raw_write.h)

    The printing macros of the debugging header: the one for numbers writes the
    digits backwards into a buffer of 21 bytes, the one for strings counts the
    characters in an [int]. The text of all the writes is the result. *)

From S2P Require Import Prelude Memory Digits Elf Utils.

(** The locals of the macro: the number, the position, the length and the buffer. *)
Record raw_state := mkRaw { rw_n : Z; rw_p : Z; rw_l : Z; rw_buf : list ascii }.

(** [*p = c] on the buffer. *)
Definition put_char (buf : list ascii) (p : Z) (c : ascii) : outcome (list ascii) :=
  if (0 <=? p) && (p <? Z.of_nat (length buf)) then Ok (<[Z.to_nat p := c]> buf) else Err Segv.

(** The body of [do ... while (n != 0)]; a base of zero is a division by zero. *)
Definition raw_step (base : Z) (st : raw_state) : outcome (raw_state + raw_state) :=
  if base =? 0 then mthrow Sigfpe else
  let v := Z.rem (rw_n st) base in
  buf ← put_char (rw_buf st) (rw_p st) (if 9 <? v then char_of (97 + v - 10) else char_of (48 + v));
  let st' := mkRaw (Z.quot (rw_n st) base) (rw_p st - 1) (rw_l st + 1) buf in
  mret (if rw_n st' =? 0 then inr st' else inl st').

(** What [RAW_PRINT_BASE_N] writes; the buffer starts with arbitrary contents. The
    base is kept in an [int]. *)
Definition RAW_PRINT_BASE_N (junk : list ascii) (num base : Z) : outcome string :=
  let n := signed64 (wrap64 num) in
  let base := signed32 (wrap32 base) in
  let was_minus := n <? 0 in
  n ← (if was_minus then (if n =? - 2 ^ 63 then mthrow SignedOverflow else mret (- n)) else mret n);
  st ← while (raw_step base) (mkRaw n 20 0 junk);
  st ← (if was_minus
        then buf ← put_char (rw_buf st) (rw_p st) "-"%char; mret (mkRaw (rw_n st) (rw_p st) (rw_l st + 1) buf)
        else mret (mkRaw (rw_n st) (rw_p st + 1) (rw_l st) (rw_buf st)));
  mret (string_of_list (take (Z.to_nat (rw_l st)) (drop (Z.to_nat (rw_p st)) (rw_buf st)))).

Definition RAW_PRINT_HEX (junk : list ascii) (num : Z) : outcome string := RAW_PRINT_BASE_N junk num 16.
Definition RAW_PRINT_INT (junk : list ascii) (num : Z) : outcome string := RAW_PRINT_BASE_N junk num 10.
Definition RAW_PRINT_PTR (junk : list ascii) (num : Z) : outcome string :=
  s ← RAW_PRINT_BASE_N junk num 16; mret ("0x" +:+ s).

(** The loop that counts: [i] is an [int]. *)
Definition raw_strlen_step (m : memory) (p i : Z) : outcome (Z + Z) :=
  c ← load_byte m (p + i);
  if c =? 0 then mret (inr i) else if i =? 2 ^ 31 - 1 then mthrow SignedOverflow else mret (inl (i + 1)).

(** The system call on [count] bytes at [buf], to descriptor 1 in all uses: what is
    written, which is nothing when the bytes cannot be read ([EFAULT]; the result
    of the call is dropped). *)
Definition RAW_WRITE (m : memory) (buf count : Z) : string :=
  match load_bytes m buf count with
  | Ok bs => string_of_list (map char_of bs)
  | Err _ => EmptyString
  end.

Definition RAW_PRINT_STR (m : memory) (buf : Z) : outcome string :=
  i ← while (raw_strlen_step m buf) 0;
  mret (RAW_WRITE m buf i).

Definition RAW_PRINT_NL_AFTER_SOMETHING (print : outcome string) : outcome string :=
  s ← print; mret (s +:+ String "010"%char EmptyString).

Definition RAW_PUTS_STR (m : memory) (buf : Z) : outcome string := RAW_PRINT_NL_AFTER_SOMETHING (RAW_PRINT_STR m buf).
Definition RAW_PUTS_HEX (junk : list ascii) (num : Z) : outcome string := RAW_PRINT_NL_AFTER_SOMETHING (RAW_PRINT_HEX junk num).
Definition RAW_PUTS_INT (junk : list ascii) (num : Z) : outcome string := RAW_PRINT_NL_AFTER_SOMETHING (RAW_PRINT_INT junk num).
Definition RAW_PUTS_PTR (junk : list ascii) (num : Z) : outcome string := RAW_PRINT_NL_AFTER_SOMETHING (RAW_PRINT_PTR junk num).

(** The five writes of the message: [prefix], [file], [colon] and [nl] are the
    addresses of the literals, [line] is [__LINE__]. *)
Definition RAW_DEBUG_MESSAGE (m : memory) (prefix file colon nl : Z) (junk : list ascii) (line : Z) : outcome string :=
  s1 ← RAW_PRINT_STR m prefix;
  s2 ← RAW_PRINT_STR m file;
  s3 ← RAW_PRINT_STR m colon;
  s4 ← RAW_PRINT_INT junk line;
  s5 ← RAW_PRINT_STR m nl;
  mret (s1 +:+ s2 +:+ s3 +:+ s4 +:+ s5).

Example raw_int : RAW_PRINT_INT (replicate 21 "x"%char) (-1234567890123456789) = Ok "-1234567890123456789"%string.
Proof. vm_compute. reflexivity. Qed.

Example raw_ptr : RAW_PRINT_PTR (replicate 21 "x"%char) 0xffffffffffffff00 = Ok "0x-100"%string.
Proof. vm_compute. reflexivity. Qed.

(** * What is printed *)

Lemma raw_char v :
  (if 9 <? v then char_of (97 + v - 10) else char_of (48 + v)) = digit_char "a" v.
Proof.
  unfold digit_char. change (char_code "a") with 97. destruct (Z.ltb_spec 9 v), (Z.ltb_spec v 10); try lia; [|done].
  f_equal. lia.
Qed.

(** The loop writes the digits into the buffer from the position down, and what
    lies above it stays. *)
Lemma raw_runs base n l pre suf :
  2 ≤ base → 0 ≤ n → (length (digits base n) ≤ length pre)%nat →
  let k := length (digits base n) in
  runs (raw_step base) k (mkRaw n (Z.of_nat (length pre) - 1) l (pre ++ suf))
    (Ok (mkRaw 0 (Z.of_nat (length pre) - 1 - Z.of_nat k) (l + Z.of_nat k)
           (take (length pre - k) pre ++ map (digit_char "a") (rev (digits base n)) ++ suf))).
Proof.
  intros Hb. revert l pre suf. induction (Z.lt_wf 0 n) as [n _ IH]. intros l pre suf Hn Hlen.
  rewrite (digits_unfold base n Hb Hn) in *. cbn [length] in Hlen.
  destruct pre as [|c0 pre0] using rev_ind; [cbn in Hlen; lia|]. clear IHpre0. rename pre0 into pre.
  rewrite length_app in *. cbn [length] in *. set (d := n mod base) in *.
  assert (Hbuf : put_char ((pre ++ [c0]) ++ suf) (Z.of_nat (length pre + 1) - 1)
    (if 9 <? d then char_of (97 + d - 10) else char_of (48 + d)) = Ok (pre ++ digit_char "a" d :: suf)).
  { unfold put_char. rewrite !length_app. cbn [length].
    destruct (Z.leb_spec 0 (Z.of_nat (length pre + 1) - 1)), (Z.ltb_spec (Z.of_nat (length pre + 1) - 1)
      (Z.of_nat (length pre + 1 + length suf))); try lia. cbn [andb]. rewrite raw_char. f_equal.
    rewrite <-app_assoc. replace (Z.to_nat _) with (length pre + 0)%nat by lia. by rewrite insert_app_r. }
  assert (Hstep : raw_step base (mkRaw n (Z.of_nat (length pre + 1) - 1) l ((pre ++ [c0]) ++ suf)) =
    Ok (let st' := mkRaw (n / base) (Z.of_nat (length pre) - 1) (l + 1) (pre ++ digit_char "a" d :: suf) in
        if n / base =? 0 then inr st' else inl st')).
  { unfold raw_step. rewrite (proj2 (Z.eqb_neq base 0)) by lia. cbn [rw_n rw_p rw_l rw_buf]. rewrite Z.rem_mod_nonneg, Z.quot_div_nonneg by lia. fold d.
    rewrite Hbuf. cbn [mbind outcome_bind mret outcome_ret]. by replace (Z.of_nat (length pre + 1) - 1 - 1) with (Z.of_nat (length pre) - 1) by lia. }
  destruct (Z.eqb_spec (n / base) 0) as [E|E]; cbn [length rev app map] in *.
  - apply runs_done. rewrite Hstep, E. do 3 f_equal; [lia..|].
    replace (length pre + 1 - 1)%nat with (length pre) by lia. by rewrite take_app_length.
  - eapply runs_step; [exact Hstep|]. assert (0 ≤ n / base) by (apply Z.div_pos; lia).
    assert (n ≠ 0) by (intros ->; rewrite Z.div_0_l in E; lia). assert (n / base < n) by (apply Z.div_lt; lia).
    specialize (IH (n / base) ltac:(lia) (l + 1) pre (digit_char "a" d :: suf) ltac:(done) ltac:(lia)). cbv zeta in IH.
    match goal with |- runs _ _ _ (Ok ?r) => match type of IH with runs _ _ _ (Ok ?r') => replace r with r' end end; [exact IH|].
    f_equal; [lia..|]. rewrite map_app, <-app_assoc, take_app_le by lia. cbn [map app]. do 2 f_equal. lia.
Qed.

(** The loop as a whole, on the buffer of the macro. *)
Lemma raw_loop junk base n :
  length junk = 21%nat → 10 ≤ base → 0 ≤ n < 2 ^ 63 →
  let ds := digits base n in
  (0 < length ds ≤ 19)%nat ∧
  ∃ pre c, length pre = (20 - length ds)%nat ∧
    while (raw_step base) (mkRaw n 20 0 junk) =
    Ok (mkRaw 0 (20 - Z.of_nat (length ds)) (Z.of_nat (length ds))
          ((pre ++ [c]) ++ map (digit_char "a") (rev ds))).
Proof.
  intros Hj Hb Hn ds.
  assert (Hlen : (0 < length ds ≤ 19)%nat).
  { split; [apply digits_nonempty|]. apply digits_length; [lia| |lia]. split; [lia|].
    assert (10 ^ 19 ≤ base ^ Z.of_nat 19) by (apply Z.pow_le_mono_l; lia). lia. }
  split; [done|].
  pose proof (raw_runs base n 0 junk [] ltac:(lia) ltac:(lia)) as Hr. fold ds in Hr. rewrite Hj in Hr.
  specialize (Hr ltac:(lia)). cbv zeta in Hr. rewrite !app_nil_r in Hr.
  apply while_runs in Hr; [|lia].
  assert (length (take (21 - length ds) junk) = S (20 - length ds)) as Hl by (rewrite length_take; lia).
  destruct (take (21 - length ds) junk) as [|c pre _] using rev_ind; [done|].
  rewrite length_app in Hl. cbn [length] in Hl. exists pre, c. split; [lia|]. exact Hr.
Qed.

Lemma take_drop_buffer (pre : list ascii) (c : ascii) (l : list ascii) :
  take (length l) (drop (S (length pre)) ((pre ++ [c]) ++ l)) = l.
Proof.
  replace (S (length pre)) with (length (pre ++ [c])) by (rewrite length_app; cbn [length]; lia).
  rewrite drop_app_length. by apply take_ge.
Qed.

Lemma put_char_buffer (pre : list ascii) (c d : ascii) (l : list ascii) p :
  p = Z.of_nat (length pre) → put_char ((pre ++ [c]) ++ l) p d = Ok ((pre ++ [d]) ++ l).
Proof.
  intros ->. unfold put_char. rewrite !length_app. cbn [length].
  rewrite (proj2 (andb_true_iff _ _)) by (split; [apply Z.leb_le|apply Z.ltb_lt]; lia). f_equal.
  rewrite Nat2Z.id, <-!app_assoc. replace (length pre) with (length pre + 0)%nat by lia. by rewrite insert_app_r.
Qed.

Lemma raw_prints junk num base :
  length junk = 21%nat → 10 ≤ base < 2 ^ 31 → - 2 ^ 63 < num < 2 ^ 63 →
  RAW_PRINT_BASE_N junk num base =
  Ok ((if (num <? 0)%Z then "-" else "") +:+ print_digits "a" (digits base (Z.abs num)))%string.
Proof.
  intros Hj Hb Hnum. unfold RAW_PRINT_BASE_N.
  assert (signed64 (wrap64 num) = num) as ->.
  { unfold signed64, wrap. case_match; lia_div. }
  rewrite signed32_small by lia.
  destruct (raw_loop junk base (Z.abs num) Hj (proj1 Hb) ltac:(lia)) as (Hlen & pre & c & Hpre & Hloop).
  revert Hlen Hpre Hloop. generalize (digits base (Z.abs num)) as ds. intros ds Hlen Hpre Hloop.
  assert (Hds : length (map (digit_char "a") (rev ds)) = length ds) by by rewrite length_map, length_rev.
  unfold print_digits. revert Hloop Hds. generalize (map (digit_char "a") (rev ds)) as txt. intros txt Hloop Hds.
  destruct (Z.ltb_spec num 0) as [Hneg|Hpos].
  - destruct (Z.eqb_spec num (- 2 ^ 63)); [lia|]. rewrite bind_mret.
    replace (- num) with (Z.abs num) by lia. rewrite Hloop, bind_Ok. cbn [rw_n rw_p rw_l rw_buf].
    rewrite (put_char_buffer pre c "-" txt), bind_Ok, bind_mret by lia. cbn [rw_n rw_p rw_l rw_buf].
    replace (Z.to_nat (20 - Z.of_nat (length ds))) with (length pre) by lia.
    rewrite <-app_assoc, drop_app_length. rewrite take_ge by (cbn [length app]; lia). reflexivity.
  - rewrite bind_mret. replace num with (Z.abs num) at 1 by lia. rewrite Hloop, bind_Ok, bind_mret.
    cbn [rw_n rw_p rw_l rw_buf].
    replace (Z.to_nat (20 - Z.of_nat (length ds) + 1)) with (S (length pre)) by lia.
    rewrite Nat2Z.id, <-Hds, take_drop_buffer. reflexivity.
Qed.

Lemma signed32_fix base : signed32 (wrap32 (signed32 (wrap32 base))) = signed32 (wrap32 base).
Proof. f_equal. unfold signed32, wrap. case_match; lia_div. Qed.

(** C39: for every base that is ten or more as the [int] it is kept in, and every
    number but the least negative one, the macro stays inside its buffer of 21
    bytes, whatever was in it, and writes the number in positional notation with its
    sign. *)
Theorem RAW_PRINT_BASE_N_prints junk num base :
  let b := signed32 (wrap32 base) in
  length junk = 21%nat → 10 ≤ b → - 2 ^ 63 < num < 2 ^ 63 →
  RAW_PRINT_BASE_N junk num base =
  Ok ((if (num <? 0)%Z then "-" else "") +:+ print_digits "a" (digits b (Z.abs num)))%string.
Proof.
  intros b Hj Hb Hnum. rewrite <-(raw_prints junk num b Hj) by (unfold b, signed32, wrap in *; case_match; lia_div).
  unfold RAW_PRINT_BASE_N, b. by rewrite signed32_fix.
Qed.

Lemma raw_wrap junk num base : RAW_PRINT_BASE_N junk (num - 2 ^ 64) base = RAW_PRINT_BASE_N junk num base.
Proof.
  unfold RAW_PRINT_BASE_N. replace (wrap64 (num - 2 ^ 64)) with (wrap64 num); [done|].
  unfold wrap. lia_div.
Qed.

(** A pointer is printed so that it reads back - unless its top bit is set:
    it is then printed with a minus sign, as the distance from the top of the
    address space. *)
Lemma RAW_PRINT_PTR_prints junk num :
  length junk = 21%nat → 0 ≤ num < 2 ^ 64 → num ≠ 2 ^ 63 →
  ∃ ds, RAW_PRINT_PTR junk num = Ok ((if (num <? 2 ^ 63)%Z then "0x" else "0x-") +:+ ds)%string ∧
    read_digits 16 ds = Some (if num <? 2 ^ 63 then num else 2 ^ 64 - num).
Proof.
  intros Hj Hnum Hne. unfold RAW_PRINT_PTR.
  assert (Hread : ∀ n, 0 ≤ n → read_digits 16 (print_digits "a" (digits 16 n)) = Some n).
  { intros n Hn. rewrite read_print_digits; [by rewrite of_digits_digits by lia|by right|by apply digits_bound]. }
  destruct (Z.ltb_spec num (2 ^ 63)) as [Hlt|Hge].
  - exists (print_digits "a" (digits 16 num)). rewrite (raw_prints junk num 16), bind_Ok by lia.
    rewrite (proj2 (Z.ltb_ge num 0)), Z.abs_eq by lia. split; [done|]. apply Hread. lia.
  - exists (print_digits "a" (digits 16 (2 ^ 64 - num))). rewrite <-raw_wrap.
    rewrite (raw_prints junk (num - 2 ^ 64) 16), bind_Ok by lia.
    rewrite (proj2 (Z.ltb_lt (num - 2 ^ 64) 0)) by lia.
    replace (Z.abs (num - 2 ^ 64)) with (2 ^ 64 - num) by lia. split; [done|]. apply Hread. lia.
Qed.

(** ** Strings *)

Section strings.
Context (m : memory) (a : Z) (s : string) (Hs : cstr_at m a s).

Lemma raw_strlen_next i :
  (i < String.length s)%nat → Z.of_nat i ≠ 2 ^ 31 - 1 →
  raw_strlen_step m a (Z.of_nat i) = Ok (inl (Z.of_nat (S i))).
Proof.
  intros Hi Hne. destruct Hs as (Hm & Hc & _). rewrite mapped_range_spec in Hm. unfold raw_strlen_step.
  rewrite load_byte_mapped, bind_Ok by (apply Hm; lia). rewrite <-length_list_of_string in Hi.
  apply lookup_lt_is_Some_2 in Hi as [c Hl]. destruct (Hc _ _ Hl) as [Hnz _].
  rewrite (proj2 (Z.eqb_neq _ _) Hnz), (proj2 (Z.eqb_neq _ _) Hne). unfold mret, outcome_ret. do 2 f_equal. lia.
Qed.

Lemma raw_strlen_runs n :
  (n ≤ String.length s)%nat → Z.of_nat (String.length s) < 2 ^ 31 →
  runs (raw_strlen_step m a) (S n) (Z.of_nat (String.length s - n)) (Ok (Z.of_nat (String.length s))).
Proof.
  intros Hn Hlen. induction n as [|n IH].
  - constructor. rewrite Nat.sub_0_r. destruct Hs as (Hm & _ & Hz). rewrite mapped_range_spec in Hm.
    unfold raw_strlen_step. rewrite load_byte_mapped, bind_Ok, Hz by (apply Hm; lia). done.
  - eapply runs_step; [apply raw_strlen_next; lia|].
    replace (S (String.length s - S n)) with (String.length s - n)%nat by lia. apply IH. lia.
Qed.

Lemma raw_strlen_overflows N n :
  Z.of_nat N = 2 ^ 31 - 1 → (n ≤ N)%nat → (N < String.length s)%nat →
  runs (raw_strlen_step m a) (S n) (Z.of_nat (N - n)) (Err SignedOverflow).
Proof.
  intros HN Hn Hlen. induction n as [|n IH].
  - apply runs_err. rewrite Nat.sub_0_r. destruct Hs as (Hm & Hc & _). rewrite mapped_range_spec in Hm.
    unfold raw_strlen_step. rewrite load_byte_mapped, bind_Ok by (apply Hm; lia). rewrite <-length_list_of_string in Hlen.
    apply lookup_lt_is_Some_2 in Hlen as [c Hl]. destruct (Hc _ _ Hl) as [Hnz _].
    by rewrite (proj2 (Z.eqb_neq _ _) Hnz), HN, Z.eqb_refl.
  - eapply runs_step; [apply raw_strlen_next; lia|].
    replace (S (N - S n)) with (N - n)%nat by lia. apply IH. lia.
Qed.

Lemma peek_cstr : string_of_list (map char_of (peek m a (Z.of_nat (String.length s)))) = s.
Proof.
  destruct Hs as (_ & Hc & _). rewrite <-(string_of_list_of_string s) at 2. f_equal.
  apply list_eq_same_length with (n := String.length s);
    [by rewrite length_list_of_string|rewrite length_map, length_peek; lia|].
  intros i x y Hi Hx Hy. apply list_lookup_fmap_Some in Hx as (b & -> & Hb).
  rewrite <-(Nat2Z.id (String.length s)) in Hi.
  rewrite (peek_lookup m a _ _ Hi) in Hb. injection Hb as <-. by destruct (Hc _ _ Hy).
Qed.

(** A string shorter than [2 ^ 31] is printed as it is; the counter overflows on
    any other. *)
Lemma RAW_PRINT_STR_prints :
  RAW_PRINT_STR m a = if decide (Z.of_nat (String.length s) < 2 ^ 31) then Ok s else Err SignedOverflow.
Proof.
  unfold RAW_PRINT_STR. case_decide as Hlen.
  - pose proof (raw_strlen_runs (String.length s) ltac:(lia) Hlen) as Hr. rewrite Nat.sub_diag in Hr. change (Z.of_nat 0) with 0 in Hr.
    rewrite (while_runs _ _ _ _ Hr), bind_Ok by lia. destruct Hs as (Hm & _ & _). unfold RAW_WRITE, load_bytes.
    rewrite mapped_range_spec in Hm. rewrite (proj2 (mapped_range_spec m a _)) by (intros; apply Hm; lia).
    by rewrite peek_cstr.
  - pose proof (raw_strlen_overflows (Z.to_nat (2 ^ 31 - 1)) (Z.to_nat (2 ^ 31 - 1)) ltac:(lia) ltac:(lia) ltac:(lia)) as Hr.
    rewrite Nat.sub_diag in Hr. change (Z.of_nat 0) with 0 in Hr. by rewrite (while_runs _ _ _ _ Hr) by lia.
Qed.

Lemma RAW_PUTS_STR_prints :
  RAW_PUTS_STR m a =
  if decide (Z.of_nat (String.length s) < 2 ^ 31) then Ok (s +:+ String "010"%char EmptyString) else Err SignedOverflow.
Proof. unfold RAW_PUTS_STR, RAW_PRINT_NL_AFTER_SOMETHING. rewrite RAW_PRINT_STR_prints. by case_decide. Qed.
End strings.

(** The debug message names the file and the line. *)
Lemma RAW_DEBUG_MESSAGE_prints m prefix file colon nl junk line name :
  cstr_at m prefix "sloader debug message " → cstr_at m file name → cstr_at m colon ":" →
  cstr_at m nl (String "010"%char EmptyString) →
  Z.of_nat (String.length name) < 2 ^ 31 → length junk = 21%nat → 0 ≤ line < 2 ^ 31 →
  RAW_DEBUG_MESSAGE m prefix file colon nl junk line =
  Ok ("sloader debug message " +:+ name +:+ ":" +:+ decimal line +:+ String "010"%char EmptyString)%string.
Proof.
  intros H1 H2 H3 H4 Hlen Hj Hline. unfold RAW_DEBUG_MESSAGE, RAW_PRINT_INT.
  rewrite (RAW_PRINT_STR_prints _ _ _ H1), (RAW_PRINT_STR_prints _ _ _ H2), (RAW_PRINT_STR_prints _ _ _ H3),
    (RAW_PRINT_STR_prints _ _ _ H4), (raw_prints junk line 10) by lia.
  rewrite !decide_True by (done || cbn; lia). rewrite !bind_Ok.
  rewrite (proj2 (Z.ltb_ge line 0)), Z.abs_eq by lia. reflexivity.
Qed.
