(* ===== verification/Samples.v ===== *)
(** * A concrete system

    A small file system with a program and a library in ELF format, an
    environment, a process, and the parameters of the model (the kernel, the C
    library, the effect of the constructors) given by concrete functions. The
    theorems of the development are applied to it in WitnessLoad, WitnessLink, WitnessStart and
    WitnessProgram. *)

From S2P Require Import Prelude Memory Digits Elf Utils Os ElfBinary ElfDynamic ElfFile FindLibrary DynLoader Symbols Relocate Execute Sloader.

(** ** Images

    One loadable segment that starts with the headers. The dynamic section is at
    0x100, the relocations at 0x200, the data at 0x300 and the symbol table at
    0x380, directly followed by the string table. *)

Definition pad_to (n : nat) (l : list Z) : list Z := l ++ replicate (n - length l) 0.

Record image := mkImage {
  im_type : Z;
  im_entry : Z;
  im_tls : option (Z * Z * Z);       (** address, file size and memory size *)
  im_memsz : Z;
  im_dyns : list Elf64_Dyn;          (** besides the tables *)
  im_relas : list Elf64_Rela;
  im_plt : list Elf64_Rela;
  im_data : list Z;
  im_syms : list Elf64_Sym;
  im_strtab : list string
}.

Definition strtab_bytes (l : list string) : list Z :=
  l ≫= λ s, map (λ c, Z.of_N (N_of_ascii c)) (list_of_string s) ++ [0].

(** The offset of the [i]-th string. *)
Definition str_off (l : list string) (i : nat) : Z := Z.of_nat (length (strtab_bytes (take i l))).

Definition image_dyns (im : image) : list Elf64_Dyn :=
  let symsz := sizeof_Sym * Z.of_nat (length (im_syms im)) in
  let relasz := sizeof_Rela * Z.of_nat (length (im_relas im)) in
  im_dyns im ++
  [mkDyn DT_RELA 0x200; mkDyn DT_RELASZ relasz; mkDyn DT_RELAENT 24] ++
  (if bool_decide (im_plt im = []) then []
   else [mkDyn DT_JMPREL (0x200 + relasz);
         mkDyn DT_PLTRELSZ (sizeof_Rela * Z.of_nat (length (im_plt im))); mkDyn DT_PLTREL DT_RELA]) ++
  [mkDyn DT_SYMTAB 0x380; mkDyn DT_SYMENT 24; mkDyn DT_STRTAB (0x380 + symsz);
   mkDyn DT_STRSZ (Z.of_nat (length (strtab_bytes (im_strtab im)))); mkDyn 0 0].

Definition image_size (im : image) : Z :=
  0x380 + sizeof_Sym * Z.of_nat (length (im_syms im)) + Z.of_nat (length (strtab_bytes (im_strtab im))).

Definition image_phdrs (im : image) : list Elf64_Phdr :=
  [mkPhdr PT_LOAD 7 0 0 0 (image_size im) (im_memsz im) 0x1000;
   mkPhdr PT_DYNAMIC 6 0x100 0x100 0x100 (sizeof_Dyn * Z.of_nat (length (image_dyns im)))
     (sizeof_Dyn * Z.of_nat (length (image_dyns im))) 8] ++
  match im_tls im with
  | Some (a, filesz, memsz) => [mkPhdr PT_TLS 4 a a a filesz memsz 8]
  | None => []
  end.

Definition image_bytes (im : image) : list Z :=
  let phs := image_phdrs im in
  pad_to 0x100 (encode_ehdr (mkEhdr (im_type im) (im_entry im) 64 56 (Z.of_nat (length phs))) ++
                (phs ≫= encode_phdr)) ++
  pad_to 0x100 (image_dyns im ≫= encode_dyn) ++
  pad_to 0x100 ((im_relas im ++ im_plt im) ≫= encode_rela) ++
  pad_to 0x80 (im_data im) ++
  (im_syms im ≫= encode_sym) ++ strtab_bytes (im_strtab im).

(** ** The program and the library

    The program calls a function of the library and one of the C library, copies
    a variable of the library, tests for an optional function, and has a
    thread-local variable; the library has a constructor of each kind and a
    thread-local variable too, and needs the C library. *)

Definition info (bind type : Z) : Z := 16 * bind + type.
Definition r_info_of (sym type : Z) : Z := Z.lor (Z.shiftl sym 32) type.

Definition app_strings : list string :=
  [""; "libdemo.so"; "lib_fn"; "lib_var"; "app_tls"; "optional"; "memcpy"; "errno"]%string.

(** The data of the program: at 0x300 the slots of the relocations, at 0x340 its
    constructor array, at 0x350 its thread-local template. *)
Definition app_image : image := {|
  im_type := ET_DYN; im_entry := 0x60; im_memsz := 0x800;
  im_tls := Some (0x350, 16, 24);
  im_dyns := [mkDyn DT_NEEDED (str_off app_strings 1); mkDyn DT_INIT_ARRAY 0x340; mkDyn DT_INIT_ARRAYSZ 8];
  im_relas := [mkRela 0x300 (r_info_of 5 R_X86_64_GLOB_DAT) 0;
               mkRela 0x308 (r_info_of 6 R_X86_64_64) 4;
               mkRela 0x340 (r_info_of 0 R_X86_64_RELATIVE) 0x70;
               mkRela 0x318 (r_info_of 4 R_X86_64_TPOFF64) 0;
               mkRela 0x320 (r_info_of 3 R_X86_64_COPY) 0];
  im_plt := [mkRela 0x328 (r_info_of 2 R_X86_64_JUMP_SLOT) 0];
  im_data := pad_to 0x50 [] ++ le_split 8 0x1111 ++ le_split 8 0x2222;
  im_syms := [mkSym 0 0 0 0 0 0;
              mkSym 0 (info 0 3) 0 1 0 0;
              mkSym (str_off app_strings 2) (info 1 2) 0 SHN_UNDEF 0 0;
              mkSym (str_off app_strings 3) (info 1 1) 0 3 0x320 8;
              mkSym (str_off app_strings 4) (info 1 STT_TLS) 0 3 8 8;
              mkSym (str_off app_strings 5) (info STB_WEAK 0) 0 SHN_UNDEF 0 0;
              mkSym (str_off app_strings 6) (info 1 2) 0 SHN_UNDEF 0 0;
              mkSym (str_off app_strings 7) (info 1 STT_TLS) 0 SHN_UNDEF 0 0];
  im_strtab := app_strings
|}.

Definition lib_strings : list string := [""; "libc.so.6"; "lib_fn"; "lib_var"; "lib_tls"]%string.

(** The data of the library: at 0x300 its variable, at 0x308 its constructor
    array, at 0x318 its thread-local template. *)
Definition lib_image : image := {|
  im_type := ET_DYN; im_entry := 0; im_memsz := 0x1400;
  im_tls := Some (0x318, 8, 16);
  im_dyns := [mkDyn DT_NEEDED (str_off lib_strings 1); mkDyn DT_INIT 0x20;
              mkDyn DT_INIT_ARRAY 0x308; mkDyn DT_INIT_ARRAYSZ 16];
  im_relas := [mkRela 0x308 (r_info_of 0 R_X86_64_RELATIVE) 0x28];
  im_plt := [];
  im_data := le_split 8 0xabcdef ++ le_split 8 0 ++ le_split 8 0 ++ le_split 8 0x3333;
  im_syms := [mkSym 0 0 0 0 0 0;
              mkSym (str_off lib_strings 2) (info 1 2) 0 1 0x30 16;
              mkSym (str_off lib_strings 3) (info 1 1) 0 3 0x300 8;
              mkSym (str_off lib_strings 4) (info 1 STT_TLS) 0 4 0 8];
  im_strtab := lib_strings
|}.

Definition app_bytes : list Z := Eval vm_compute in image_bytes app_image.
Definition lib_bytes : list Z := Eval vm_compute in image_bytes lib_image.

(** ** The system *)

Lemma bytes_check bs : forallb (λ b, (0 <=? b) && (b <? 256)) bs = true → Forall byte bs.
Proof.
  rewrite forallb_forall, Forall_forall. setoid_rewrite <-list_elem_of_In. intros Hbs x Hx.
  specialize (Hbs x Hx). unfold byte. lia.
Qed.

Module Sys.
Definition conf_bytes : list Z := map (λ c, Z.of_N (N_of_ascii c)) (list_of_string "/opt/lib").

#[export] Instance environment : Environment := {|
  getenv := λ n,
    if bool_decide (n = "PATH"%string) then Some "/usr/local/bin:/bin:/root/bin:/usr/bin"%string else None;
  getauxval := λ t, if t =? AT_RANDOM then 0x7ffe00000ff0 else if t =? 6 then 4096 else 0
|}.

#[export] Instance file_system : FileSystem := {|
  open_file := λ f,
    if bool_decide (f = "/etc/ld.so.conf"%string) then Some conf_bytes
    else if bool_decide (f = "/bin/app"%string) then Some app_bytes
    else if bool_decide (f = "/opt/lib/libdemo.so"%string) then Some lib_bytes
    else None;
  path_exists := λ f, if starts_with "/root/" f then None else Some (bool_decide (f = "/bin/app"%string));
  is_regular_file := λ f, Some (bool_decide (f = "/bin/app"%string));
  is_directory := λ d, Some (bool_decide (d = "/opt/lib"%string));
  directory_throws := λ d, false;
  directory_entries := λ d, ["libother.so"; "libdemo.so"]%string;
  glob := λ p, []
|}.

#[export] Instance file_system_spec : FileSystemSpec file_system.
Proof.
  split; intros path bs H; cbn in H.
  - repeat (case_bool_decide; [injection H as <-; vm_compute; reflexivity|]). done.
  - repeat (case_bool_decide; [injection H as <-; apply bytes_check; vm_compute; reflexivity|]). done.
Qed.

#[export] Instance kernel : Kernel := first_fit_kernel.
#[export] Instance kernel_spec : KernelSpec kernel := first_fit_spec.
#[export] Instance kernel_hint : KernelHint kernel := first_fit_hint.

#[export] Instance libc : LibcMap := {|
  sloader_libc_map := λ n, if bool_decide (n = "memcpy"%string) then Some 0x501000 else None;
  sloader_libc_tls_variables := λ n, if bool_decide (n = "errno"%string) then Some 0x502000 else None
|}.

#[export] Instance strings : Strings := {|
  main_path_c_str := 0x503000;
  args_c_str := λ i, 0x503100 + 16 * Z.of_nat i;
  envs_c_str := λ i, 0x503200 + 16 * Z.of_nat i
|}.

(** A constructor notes its address in the last word of the loader's data. *)
Definition ctor_cell : Z := 0x502ff8.
#[export] Instance code : LoadedCode := {| call_function := λ fn m, store64 m ctor_cell fn |}.

Definition written (x : Z) : Prop := ctor_cell ≤ x < ctor_cell + 8.

Lemma code_writes fn m m' : call_function fn m = Ok m' → agree_off written m m'.
Proof.
  intros [_ ->]%store64_ok. apply agree_off_poke. rewrite le_split_length. done.
Qed.

(** The loader's own data, with the thread-local space, and a stack. *)
Definition tls_block : Z := 0x500000.
Definition memory0 : memory := {|
  regions := [mkRegion 0x500000 0x503000 3; mkRegion 0x7ffe00000000 0x7ffe00001000 3];
  byte_at := λ _, 0
|}.
Definition proc0 : proc := mkProc memory0 [] [] 0x7ffe00000f00 4096.

Definition args : list string := ["app"; "-v"]%string.
Definition envs : list string := ["A=1"; "B=2"; "C=3"]%string.
End Sys.
Import Sys.

(** ** What the loader makes of it

    The two objects and the table of names after loading, and the states the
    loader goes through. *)

Definition default_binary : ELFBinary := new_binary EmptyString 0 (mkEhdr 0 0 0 0 0).

Definition sys_binaries : list ELFBinary := Eval vm_compute in
  match LoadDependingLibs (DynLoader_new "/bin/app" args envs) "/bin/app" proc0 with
  | Ok (dl, _) => binaries_ dl
  | Err _ => []
  end.
Definition app_bin : ELFBinary := Eval vm_compute in nth 0 sys_binaries default_binary.
Definition lib_bin : ELFBinary := Eval vm_compute in nth 1 sys_binaries default_binary.

Definition sys_entries : list entry := Eval vm_compute in
  zip_with (λ '(j, n) s, mkEntry 0 j n s)
    (zip (seq 0 8) [""; ""; "lib_fn"; "lib_var"; "app_tls"; "optional"; "memcpy"; "errno"]%string) (symtabs_ app_bin) ++
  zip_with (λ '(j, n) s, mkEntry 1 j n s)
    (zip (seq 0 4) [""; "lib_fn"; "lib_var"; "lib_tls"]%string) (symtabs_ lib_bin).

(** The relocations as the address they write to and the number of bytes. *)
Definition sys_slots : list (Z * Z) :=
  [(0x1400328, 8); (0x1400300, 8); (0x1400308, 8); (0x1400340, 8); (0x1400318, 8); (0x1400320, 8); (0x1800308, 8)].

Definition sys_regions : list region :=
  [mkRegion 0x1800000 0x1802000 7; mkRegion 0x7ffe00002000 0x7ffe00003000 7;
   mkRegion 0x1400000 0x1401000 7; mkRegion 0x7ffe00001000 0x7ffe00002000 7;
   mkRegion 0x500000 0x503000 3; mkRegion 0x7ffe00000000 0x7ffe00001000 3].

(** Where the name of a symbol is: inside the string table. *)
Definition name_inside (m : memory) (b : ELFBinary) (s : Elf64_Sym) : bool :=
  match sym_name m b s with
  | Ok n => let a := wrap64 (st_name s + strtab_ b) in
            (strtab_ b <=? a) && (a + Z.of_nat (String.length n) <? strtab_ b + strsz_ b)
  | Err _ => false
  end.

(** Loading, relocation, thread-local storage and start, one after the other,
    where thread-local storage is also set up on its own. *)
Lemma chain_check `{Environment} `{FileSystem} `{Kernel} `{LibcMap} `{Strings} `{LoadedCode}
    tls_block dl0 path s0
    (P1 P2 : DynLoader → proc → Prop) (P3 P4 : proc → Prop) `{∀ dl s, Decision (P1 dl s)} `{∀ dl s, Decision (P2 dl s)}
    `{∀ s, Decision (P3 s)} `{∀ s, Decision (P4 s)} :
  match LoadDependingLibs dl0 path s0 with
  | Ok (dl1, s1) =>
      match Relocate tls_block dl1 s1 with
      | Ok (dl2, s2) =>
          match setup_tls tls_block (binaries_ dl2) s2, Execute tls_block dl2 s2 with
          | Ok (_, s3), Ok (_, s4) =>
              bool_decide (P1 dl1 s1) && bool_decide (P2 dl2 s2) && bool_decide (P3 s3) && bool_decide (P4 s4)
          | _, _ => false
          end
      | Err _ => false
      end
  | Err _ => false
  end = true →
  ∃ dl1 s1 dl2 s2 u s3 v s4, LoadDependingLibs dl0 path s0 = Ok (dl1, s1) ∧ P1 dl1 s1 ∧
    Relocate tls_block dl1 s1 = Ok (dl2, s2) ∧ P2 dl2 s2 ∧
    setup_tls tls_block (binaries_ dl2) s2 = Ok (u, s3) ∧ P3 s3 ∧
    Execute tls_block dl2 s2 = Ok (v, s4) ∧ P4 s4.
Proof.
  destruct (LoadDependingLibs dl0 path s0) as [[dl1 s1]|]; [|done].
  destruct (Relocate tls_block dl1 s1) as [[dl2 s2]|] eqn:E2; [|done].
  destruct (setup_tls tls_block (binaries_ dl2) s2) as [[u s3]|] eqn:E3; [|done].
  destruct (Execute tls_block dl2 s2) as [[v s4]|] eqn:E4; [|done].
  rewrite !andb_true_iff, !bool_decide_eq_true. intros [[[? ?] ?] ?]. eauto 20.
Qed.

(** [action_ok], as a test. *)
Definition runnable (m : memory) (a : Z) (act : action) : bool :=
  match act with
  | Keep => true
  | Store _ => mapped_range m a 8
  | Copy src n => mapped_range m src 8 && mapped_range m src n && mapped_range m a n
  | Stop _ => false
  end.

Lemma runnable_ok m a act : runnable m a act = true → action_ok m a act.
Proof. destruct act; cbn; rewrite ?andb_true_iff; tauto || done. Qed.

Definition loaded_facts (dl : DynLoader) (s : proc) : Prop :=
  binaries_ dl = [app_bin; lib_bin] ∧ relocated_ dl = ∅ ∧ regions (p_mem s) = sys_regions ∧
  entries (p_mem s) 0 (binaries_ dl) = Ok sys_entries ∧
  Forall (λ b, Forall (λ sy, name_inside (p_mem s) b sy = true) (symtabs_ b)) (binaries_ dl) ∧
  map (λ p, (slot p, action_size (action_at tls_block (p_mem s) (binaries_ dl) sys_entries p))) (plan dl) = sys_slots ∧
  length (plan dl) = 7%nat ∧
  action_at tls_block (p_mem s) (binaries_ dl) sys_entries
    (app_bin, mkRela 0x328 (r_info_of 2 R_X86_64_JUMP_SLOT) 0) = Store 0x1800030 ∧
  sym_name (p_mem s) app_bin (mkSym 12 18 0 0 0 0) = Ok "lib_fn"%string ∧
  mem_size (p_mem s) < 2 ^ 64 ∧
  nth_error (plan dl) 0 = Some (app_bin, mkRela 0x328 (r_info_of 2 R_X86_64_JUMP_SLOT) 0) ∧
  Forall (λ p, runnable (p_mem s) (slot p) (action_at tls_block (p_mem s) (binaries_ dl) sys_entries p) = true) (plan dl).

Definition linked_facts (dl : DynLoader) (s : proc) : Prop :=
  binaries_ dl = [app_bin; lib_bin] ∧ args_ dl = args ∧ envs_ dl = envs ∧
  regions (p_mem s) = sys_regions ∧ p_rsp s = 0x7ffe00000f00 ∧ sloader_tls_offset s = 4096 ∧ p_trace s = [] ∧
  entries (p_mem s) 0 (binaries_ dl) = Ok sys_entries ∧
  traverse (init_functions (p_mem s)) (rev (binaries_ dl)) = Ok [[0x1800020; 0x1800028]; [0x1400070]] ∧
  load64 (p_mem s) 0x1400320 = Ok 0xabcdef ∧ byte_at (p_mem s) 0x1400358 = 0x22.

#[local] Instance loaded_facts_dec dl s : Decision (loaded_facts dl s).
Proof. unfold loaded_facts. apply _. Defined.
#[local] Instance linked_facts_dec dl s : Decision (linked_facts dl s).
Proof. unfold linked_facts. apply _. Defined.

Lemma sys_runs :
  ∃ dl1 s1 dl2 s2 u s3 v s4,
    LoadDependingLibs (DynLoader_new "/bin/app" args envs) "/bin/app" proc0 = Ok (dl1, s1) ∧
    loaded_facts dl1 s1 ∧
    Relocate tls_block dl1 s1 = Ok (dl2, s2) ∧ linked_facts dl2 s2 ∧
    setup_tls tls_block (binaries_ dl2) s2 = Ok (u, s3) ∧ sloader_tls_offset s3 = 4056 ∧
    Execute tls_block dl2 s2 = Ok (v, s4) ∧ length (p_trace s4) = 4%nat.
Proof.
  apply (chain_check tls_block (DynLoader_new "/bin/app" args envs) "/bin/app" proc0
           loaded_facts linked_facts (λ s, sloader_tls_offset s = 4056) (λ s, length (p_trace s) = 4%nat)).
  vm_compute. reflexivity.
Qed.
