(* ===== verification/WitnessLoad.v ===== *)
(** * The theorems on loading objects at a concrete system *)

From S2P Require Import Prelude Memory Digits Elf Utils Os ElfBinary ElfDynamic ElfWellFormed ElfFile FindLibrary DynLoader Accept Symbols Relocate Execute Sloader Samples.
Import Sys.

(** The only loadable segment of the program, and where the file is mapped. *)
Definition app_load : Elf64_Phdr := mkPhdr PT_LOAD 7 0 0 0 1145 2048 4096.
Definition app_file : Z := 0x7ffe00001000.

Lemma load_check `{FileSystem} `{Kernel} path arg s0 (P : ELFBinary → proc → ELFBinary → proc → Prop)
    `{∀ b s b' s', Decision (P b s b' s')} :
  match ELFBinary_new path s0 with
  | Ok (b, s) => match Load b arg s with Ok ((_, b'), s') => bool_decide (P b s b' s') | Err _ => false end
  | Err _ => false
  end = true →
  ∃ b s next b' s', ELFBinary_new path s0 = Ok (b, s) ∧ Load b arg s = Ok ((next, b'), s') ∧ P b s b' s'.
Proof.
  destruct (ELFBinary_new path s0) as [[b s]|]; [|done]. destruct (Load b arg s) as [[[next b'] s']|] eqn:E; [|done].
  rewrite bool_decide_eq_true. eauto 10.
Qed.

(** The constructor and [Load] of the program, and what the hypotheses need to
    know of the results. *)
Definition load_facts (b : ELFBinary) (s : proc) (b' : ELFBinary) (s' : proc) : Prop :=
  file_phdrs_ b = image_phdrs app_image ∧ e_type (ehdr_ b) = ET_DYN ∧ file_base_addr_ b = app_file ∧
  mapped_range (p_mem s) app_file 1145 = true ∧
  regions (p_mem s) = mkRegion app_file (app_file + 4096) 7 :: regions memory0 ∧
  base_addr_ b' = 0x1400000 ∧ neededs_ b' = ["libdemo.so"]%string ∧ mem_size (p_mem s') < 2 ^ 64 ∧
  p_map_file s = [] ∧ path_ b = "/bin/app"%string.
#[local] Instance load_facts_dec b s b' s' : Decision (load_facts b s b' s').
Proof. unfold load_facts. apply _. Defined.

Lemma load_system :
  ∃ b s next b' s', ELFBinary_new "/bin/app" proc0 = Ok (b, s) ∧
    Load b 0x1400000 s = Ok ((next, b'), s') ∧ load_facts b s b' s'.
Proof. apply (load_check "/bin/app" 0x1400000 proc0 load_facts). vm_compute. reflexivity. Qed.

(** What [image_phdrs] says: one loadable segment. *)
Lemma app_loads b : file_phdrs_ b = image_phdrs app_image → loads (file_phdrs_ b) = [app_load].
Proof. intros ->. vm_compute. reflexivity. Qed.

Lemma app_load_only b ph :
  file_phdrs_ b = image_phdrs app_image → ph ∈ file_phdrs_ b → p_type ph = PT_LOAD → ph = app_load.
Proof.
  intros Hb Hph Ht. assert (ph ∈ loads (file_phdrs_ b)) as Hl by by apply list_elem_of_filter.
  rewrite (app_loads _ Hb) in Hl. by apply list_elem_of_singleton in Hl.
Qed.

Lemma app_load_nowrap : seg_nowrap 0x1400000 app_load.
Proof. by vm_compute. Qed.

Lemma app_load_wf m : mapped_range m app_file 1145 = true → seg_wf m 0x1400000 app_file app_load.
Proof. intros Hm. split; [exact app_load_nowrap|by vm_compute|exact Hm]. Qed.

Lemma app_base b : e_type (ehdr_ b) = ET_DYN → load_base b 0x1400000 = 0x1400000.
Proof. unfold load_base. by intros ->. Qed.

Lemma app_opens : open_file "/bin/app" = Some app_bytes.
Proof. reflexivity. Qed.

Lemma app_ehdr : parse_ehdr (file_bytes app_bytes 0 64) = mkEhdr ET_DYN 0x60 64 56 3.
Proof. vm_compute. reflexivity. Qed.

Lemma app_pages : page_ceil (Z.of_nat (length app_bytes)) = 4096.
Proof. vm_compute. reflexivity. Qed.

Lemma ELFBinary_new_reads_file_witness :
  ∃ b s, ELFBinary_new "/bin/app" proc0 = Ok (b, s) ∧
    ehdr_ b = parse_ehdr (file_bytes app_bytes 0 64) ∧ file_tls_ b = Some (mkPhdr PT_TLS 4 0x350 0x350 0x350 16 24 8).
Proof.
  destruct load_system as (b & s & _ & _ & _ & Hnew & _ & Hphdrs & _). exists b, s.
  destruct (ELFBinary_new_reads_file _ _ _ _ Hnew) as (bs & Hbs & _ & _ & Hh & Hrest).
  rewrite app_opens in Hbs. injection Hbs as <-. split_and!; [done|done|].
  destruct Hrest as (Hf & _ & _ & ->).
  - rewrite Hh, app_ehdr, app_pages. unfold phdr_off. cbn [e_phoff e_phnum e_phentsize]. lia.
  - rewrite <-Hf, Hphdrs. vm_compute. reflexivity.
Defined.

Lemma Load_image_witness :
  ∃ b s next b' s', Load b 0x1400000 s = Ok ((next, b'), s') ∧
    seg_image (p_mem s) (p_mem s') 0x1400000 app_file app_load.
Proof.
  destruct load_system as (b & s & next & b' & s' & _ & Hload & Hphdrs & Ht & Hfile & Hm & _).
  exists b, s, next, b', s'. split; [done|].
  destruct (Load_image _ _ _ _ _ _ Hload) as [_ Himg]. cbv zeta in Himg.
  rewrite (app_base _ Ht), Hfile, (app_loads _ Hphdrs) in Himg. apply Himg; [|left].
  intros ph ->%list_elem_of_singleton. by apply app_load_wf.
Defined.

(** A segment at the end of its page whose file part goes on in the next page,
    which is that of another mapping. *)
Lemma load_segment_spills_witness :
  let victim := mkRegion 0x1401000 0x1402000 7 in
  let m := mkMemory [mkRegion 0x600000 0x602000 7; victim] (λ x, if 0x600000 <=? x then (if x <? 0x602000 then 0xAA else 0xBB) else 0) in
  ∃ b' s', load_segment (new_binary "/bin/long" 0x600000 (mkEhdr ET_EXEC 0 0 0 0)) (mkPhdr PT_LOAD 7 0 0x1400ff0 0x1400ff0 0x20 0x10 0x1000)
             (mkProc m [] [] 0 0) = Ok (b', s') ∧
    byte_at m 0x1401008 = 0xBB ∧ byte_at (p_mem s') 0x1401008 = 0xAA.
Proof.
  intros victim m. set (b := new_binary _ _ _). set (ph := mkPhdr _ _ _ _ _ _ _ _). set (s := mkProc _ _ _ _ _).
  destruct (run_succeeds (load_segment b ph s) (λ _, True)) as ([b' s'] & Hrun & _); [vm_compute; reflexivity|].
  exists b', s'. split; [exact Hrun|]. split; [reflexivity|].
  rewrite (load_segment_spills b ph s b' s' 0x1401008 Hrun eq_refl); [vm_compute; reflexivity|vm_compute; reflexivity|].
  split; vm_compute; [discriminate|reflexivity].
Defined.

Lemma Load_mappings_witness :
  ∃ b s next b' s', Load b 0x1400000 s = Ok ((next, b'), s') ∧
    regions (p_mem s') = mkRegion 0x1400000 0x1401000 7 :: regions (p_mem s).
Proof.
  destruct load_system as (b & s & next & b' & s' & _ & Hload & Hphdrs & Ht & _).
  exists b, s, next, b', s'. split; [done|].
  destruct (Load_mappings _ _ _ _ _ _ Hload) as (_ & _ & Hr & _); rewrite (app_base _ Ht) in *.
  - intros ph Hph Hl. rewrite (app_load_only _ _ Hphdrs Hph Hl). exact app_load_nowrap.
  - rewrite (app_loads _ Hphdrs) in Hr. exact Hr.
Defined.

Lemma Load_window_witness :
  ∃ b s next b' s', Load b 0x1400000 s = Ok ((next, b'), s') ∧
    next mod 0x400000 = 0 ∧ 0x1401000 ≤ next.
Proof.
  destruct load_system as (b & s & next & b' & s' & _ & Hload & Hphdrs & Ht & _).
  exists b, s, next, b', s'. split; [done|].
  destruct (Load_window _ _ _ _ _ _ Hload) as (Hm & _ & _ & Hseg); rewrite ?(app_base _ Ht), ?(app_loads _ Hphdrs) in *.
  - lia.
  - reflexivity.
  - intros ph ->%list_elem_of_singleton. exact app_load_nowrap.
  - intros ph ph' ->%list_elem_of_singleton [= <-]. reflexivity.
  - split; [done|]. apply (Hseg app_load). by apply list_elem_of_singleton.
Defined.

Lemma ParseDynamic_spec_witness :
  ∃ m b b' ds, ParseDynamic m b = Ok b' ∧ neededs_ b' = ["libdemo.so"]%string ∧
    dyn_entries m b = Ok ds ∧ dynamic_spec m b ds b'.
Proof.
  destruct load_system as (b & s & next & b' & s' & _ & Hload & Hf).
  destruct (Load_ok _ _ _ _ _ _ Hload) as (b1 & _ & Hdyn & _).
  destruct (ParseDynamic_spec _ _ _ Hdyn) as (ds & Hds & Hspec).
  exists (p_mem s'), b1, b', ds. unfold load_facts in Hf. by destruct_and!.
Defined.

Lemma ParseDynamic_succeeds_witness :
  ∃ m b ds, mem_size m < 2 ^ 64 ∧ dyn_entries m b = Ok ds ∧ dynamic_wf m b ds.
Proof.
  destruct load_system as (b & s & next & b' & s' & _ & Hload & Hf).
  destruct (Load_ok _ _ _ _ _ _ Hload) as (b1 & _ & Hdyn & _).
  assert (mem_size (p_mem s') < 2 ^ 64) as Hsz by (unfold load_facts in Hf; by destruct_and!).
  destruct (proj1 (ParseDynamic_succeeds (p_mem s') b1 Hsz) (ex_intro _ b' Hdyn)) as (ds & Hds & Hwf).
  exists (p_mem s'), b1, ds. exact (conj Hsz (conj Hds Hwf)).
Defined.

(** ** A well-formed file *)

Lemma app_file_wf : file_wf app_bytes 0x1400000.
Proof.
  assert (loads (file_phdrs app_bytes) = [app_load]) as Hl by (vm_compute; reflexivity).
  split.
  - vm_compute. reflexivity.
  - assert (e_phoff (file_ehdr app_bytes) = 64) as H1 by (vm_compute; reflexivity).
    assert (e_phentsize (file_ehdr app_bytes) = 56) as H2 by (vm_compute; reflexivity).
    assert (e_phnum (file_ehdr app_bytes) ≤ 10) as H3 by (vm_compute; discriminate).
    assert (page_ceil (Z.of_nat (length app_bytes)) = 4096) as H4 by (vm_compute; reflexivity).
    intros i Hi. unfold phdr_inside, phdr_off. rewrite H1, H2, H4. lia.
  - rewrite Hl. clear Hl. intros ph ->%list_elem_of_singleton. split; [|by vm_compute].
    split; [exact app_load_nowrap|by vm_compute].
  - rewrite Hl. clear Hl. intros [|i] [|j] r1 r2; try done. all: by rewrite ?lookup_nil.
  - vm_compute. reflexivity.
Qed.

Lemma load_binary_succeeds_witness :
  ∃ b dl s, load_binary (DynLoader_new "/bin/app" args envs) "/bin/app" proc0 = Ok ((b, dl), s).
Proof.
  assert (loads (file_phdrs app_bytes) = [app_load]) as Hl by (vm_compute; reflexivity).
  assert (file_base app_bytes 0x1400000 = 0x1400000) as Hbase by (vm_compute; reflexivity).
  pose proof (load_binary_succeeds (DynLoader_new "/bin/app" args envs) "/bin/app" proc0 app_bytes app_file) as H.
  cbv zeta in H. change (next_base_addr_ _) with 0x1400000 in H. rewrite Hbase, Hl in H.
  destruct H as (b & dl & s & _ & Hrun & _); [reflexivity|exact app_file_wf|vm_compute; reflexivity| |eauto].
  intros ph r ->%list_elem_of_singleton. revert r. apply Forall_forall. repeat constructor.
Defined.

(** ** The dependencies *)

Lemma memory0_ok : mem_ok memory0.
Proof.
  split; [|repeat constructor; vm_compute; done].
  apply disjoint_regions_cons; [|apply disjoint_regions_cons; [|intros [|?] ????; done]].
  - intros r ->%list_elem_of_singleton. reflexivity.
  - intros r Hr. by apply elem_of_nil in Hr.
Qed.

Lemma LoadDependingLibs_bfs_witness :
  ∃ dl s root libs, LoadDependingLibs (DynLoader_new "/bin/app" args envs) "/bin/app" proc0 = Ok (dl, s) ∧
    [app_bin; lib_bin] = root :: libs ∧
    Forall2 found (fresh {["app"%string]} [mkRequest "libdemo.so" None None; mkRequest "libc.so.6" None None]) libs.
Proof.
  destruct sys_runs as (dl & s & _ & _ & _ & _ & _ & _ & Hrun & Hf & _).
  destruct (LoadDependingLibs_bfs _ _ _ _ _ Hrun) as (root & libs & Hb & _ & Hfound & _).
  exists dl, s, root, libs. rewrite (proj1 Hf) in Hb. cbn [binaries_ DynLoader_new app] in Hb.
  split_and!; [done|done|]. injection Hb as <- <-.
  change (({[path_filename "/bin/app"]} ∪ loaded_ (DynLoader_new "/bin/app" args envs))) with ({["app"%string]} ∪ ∅ : gset string) in Hfound.
  rewrite (right_id_L ∅ (∪)) in Hfound. exact Hfound.
Defined.

Lemma LoadDependingLibs_terminates_witness :
  in_fuel (LoadDependingLibs (DynLoader_new "/bin/app" args envs) "/bin/app" proc0).
Proof. apply LoadDependingLibs_terminates; [vm_compute; done|exact memory0_ok]. Defined.

Lemma sys_object_wf : Forall object_wf [app_bin; lib_bin].
Proof.
  apply Forall_cons; split; [|apply Forall_cons; split; [|constructor]]; intros bs ph Hbs Hph; vm_compute in Hbs; injection Hbs as <-;
    vm_compute in Hph; apply list_elem_of_singleton in Hph as ->; vm_compute; done.
Qed.

Lemma LoadDependingLibs_images_witness :
  ∃ dl s, LoadDependingLibs (DynLoader_new "/bin/app" args envs) "/bin/app" proc0 = Ok (dl, s) ∧
    in_memory (p_mem s) app_bin ∧ in_memory (p_mem s) lib_bin.
Proof.
  destruct sys_runs as (dl & s & _ & _ & _ & _ & _ & _ & Hrun & Hf & _). exists dl, s. split; [done|].
  destruct (LoadDependingLibs_images _ _ _ _ _ Hrun) as (new & Hb & _ & Himg).
  rewrite (proj1 Hf) in Hb. cbn [binaries_ DynLoader_new app] in Hb. subst new.
  destruct (Himg sys_object_wf) as [_ [Ha [Hl _]%Forall_cons]%Forall_cons]. exact (conj Ha Hl).
Defined.
