(* ===== verification/WitnessLink.v ===== *)
(** * The theorems on symbols and relocation at the concrete system *)

From S2P Require Import Prelude Memory Digits Elf Utils Os ElfBinary ElfDynamic ElfFile FindLibrary DynLoader Symbols Relocate Execute Sloader Samples.
Import Sys.

(** ** Symbols *)

(** The table of names is there after loading. *)
Lemma sys_entries_loaded :
  ∃ dl s, LoadDependingLibs (DynLoader_new "/bin/app" args envs) "/bin/app" proc0 = Ok (dl, s) ∧
    entries (p_mem s) 0 [app_bin; lib_bin] = Ok sys_entries.
Proof.
  destruct sys_runs as (dl & s & _ & _ & _ & _ & _ & _ & Hrun & (Hb & _ & _ & Hes & _) & _).
  exists dl, s. rewrite <-Hb. exact (conj Hrun Hes).
Qed.

Lemma SearchSym_resolve_witness :
  ∃ m, SearchSym m [app_bin; lib_bin] "lib_fn" false = Ok (Some (1%nat, 1%nat)) ∧
    SearchSym m [app_bin; lib_bin] "optional" false = Ok (Some (0%nat, 5%nat)) ∧
    SearchSym m [app_bin; lib_bin] "absent" false = Ok None.
Proof.
  destruct sys_entries_loaded as (_ & s & _ & Hes). exists (p_mem s).
  split_and!; rewrite (SearchSym_resolve _ _ _ false _ Hes); vm_compute; reflexivity.
Defined.

Lemma sys_tls_wf : Forall tls_wf [app_bin; lib_bin].
Proof. repeat (apply Forall_cons; split; [reflexivity|]). constructor. Qed.

Lemma TLSSymOffset_layout_witness :
  ∃ m, TLSSymOffset tls_block m [app_bin; lib_bin] "app_tls" = Ok (2 ^ 64 - 24 + 8) ∧
    TLSSymOffset tls_block m [app_bin; lib_bin] "lib_tls" = Ok (2 ^ 64 - 40).
Proof.
  destruct sys_entries_loaded as (_ & s & _ & Hes). exists (p_mem s). split.
  - exact (TLSSymOffset_layout tls_block _ _ "app_tls" _ 0 4 app_bin _ _ Hes sys_tls_wf eq_refl eq_refl eq_refl eq_refl).
  - exact (TLSSymOffset_layout tls_block _ _ "lib_tls" _ 1 3 lib_bin _ _ Hes sys_tls_wf eq_refl eq_refl eq_refl eq_refl).
Defined.

Lemma TLSSymOffset_libc_mirrored_witness :
  ∃ m off, TLSSymOffset tls_block m [app_bin; lib_bin] "errno" = Ok off ∧
    wrap64 (tls_block + 4096 + off) = 0x500000 ∧ sloader_libc_tls_variables "errno" = Some 0x502000.
Proof.
  destruct sys_entries_loaded as (_ & s & _ & Hes). exists (p_mem s).
  destruct (TLSSymOffset_libc_mirrored tls_block _ _ "errno" _ 0x502000 Hes sys_tls_wf) as (off & Hoff & Hm & _);
    [reflexivity|reflexivity|by vm_compute|done|done|].
  exists off. split_and!; [exact Hoff|exact Hm|reflexivity].
Defined.

(** ** Relocation *)

Lemma sys_size m : regions m = sys_regions → mem_size m < 2 ^ 64.
Proof. unfold mem_size. intros ->. vm_compute. reflexivity. Qed.

(** What the relocations write is not among the names. *)
Definition data_area (x : Z) : Prop := 0x1400300 ≤ x < 0x1400348 ∨ 0x1800308 ≤ x < 0x1800310.

Lemma sys_targets dl s x :
  loaded_facts dl s → targets tls_block (p_mem s) (binaries_ dl) sys_entries (plan dl) x → data_area x.
Proof.
  intros (_ & _ & _ & _ & _ & Hslots & _) (p & Hp & Hx).
  assert ((slot p, action_size (action_at tls_block (p_mem s) (binaries_ dl) sys_entries p)) ∈ sys_slots) as Hin.
  { rewrite <-Hslots. apply list_elem_of_fmap. eauto. }
  unfold target in Hx. unfold data_area. unfold sys_slots in Hin.
  repeat (apply elem_of_cons in Hin as [Hin|Hin]; [injection Hin as Hs Hn; rewrite Hs, Hn in Hx; lia|]).
  by apply elem_of_nil in Hin.
Qed.

Lemma sys_names_off dl s :
  loaded_facts dl s →
  names_off (targets tls_block (p_mem s) (binaries_ dl) sys_entries (plan dl)) (p_mem s) (binaries_ dl).
Proof.
  intros Hf b sy n x Hb Hsy Hn a Hx Ht. apply (sys_targets _ _ _ Hf) in Ht.
  destruct Hf as (Hbins & _ & _ & _ & Hnames & _). rewrite Forall_forall in Hnames.
  pose proof (proj1 (Forall_forall _ _) (Hnames b Hb) sy Hsy) as Hin. unfold name_inside in Hin.
  rewrite Hn, andb_true_iff, Z.leb_le, Z.ltb_lt in Hin. rewrite Hbins in Hb. unfold data_area in Ht. subst a.
  apply elem_of_cons in Hb as [->|Hb%list_elem_of_singleton]; [|subst b]; cbn [strtab_ strsz_ app_bin lib_bin] in *; lia.
Qed.

Definition plt_reloc : ELFBinary * Elf64_Rela := (app_bin, mkRela 0x328 (r_info_of 2 R_X86_64_JUMP_SLOT) 0).

Lemma relocate_step_action_witness :
  ∃ m m', relocate_step tls_block [app_bin; lib_bin] app_bin m (mkRela 0x328 (r_info_of 2 R_X86_64_JUMP_SLOT) 0) = Ok m' ∧
    load64 m' 0x1400328 = Ok 0x1800030.
Proof.
  destruct sys_runs as (dl & s & _ & _ & _ & _ & _ & _ & _ & (Hb & _ & Hr & Hes & _ & _ & _ & _ & Hname & _) & _).
  rewrite Hb in *. exists (p_mem s), (poke (p_mem s) 0x1400328 (le_split 8 0x1800030)).
  assert (mapped_range (p_mem s) 0x1400328 8 = true) as Hmap by (unfold mapped_range, mapped; rewrite Hr; reflexivity).
  assert (Forall tls_wf [app_bin; lib_bin]) as Hwf by (repeat constructor; reflexivity).
  rewrite (relocate_step_action tls_block _ _ _ app_bin (mkRela 0x328 (r_info_of 2 R_X86_64_JUMP_SLOT) 0) (λ _, conj Hes Hwf)). split.
  - change (symtabs_ app_bin !! _) with (Some (mkSym 12 18 0 0 0 0)). cbv iota beta. rewrite Hname.
    change (reloc_addr _ _) with 0x1400328.
    replace (reference_action _ _ _ _ _ _) with (Store 0x1800030) by (vm_compute; reflexivity).
    cbn [run_action]. apply store64_ok. done.
  - by rewrite load64_poke_split.
Defined.

Lemma sys_plan dl s :
  loaded_facts dl s → plan dl = plt_reloc :: drop 1 (plan dl) ∧
  ∀ x, target tls_block (p_mem s) (binaries_ dl) sys_entries plt_reloc x →
       ¬ targets tls_block (p_mem s) (binaries_ dl) sys_entries (drop 1 (plan dl)) x.
Proof.
  intros (_ & _ & _ & _ & _ & Hslots & _ & _ & _ & _ & Hhead & _).
  destruct (plan dl) as [|p ps]; [discriminate|]. assert (p = plt_reloc) as -> by (injection Hhead as ->; reflexivity). split; [reflexivity|].
  cbn [map drop sys_slots] in *. injection Hslots as Hn Hslots. intros x Hx (p & Hp & Hx').
  assert ((slot p, action_size (action_at tls_block (p_mem s) (binaries_ dl) sys_entries p)) ∈ drop 1 sys_slots) as Hin.
  { cbn [drop sys_slots]. rewrite <-Hslots. apply list_elem_of_fmap. eauto. }
  unfold target in *. rewrite Hn in Hx. change (slot plt_reloc) with 0x1400328 in Hx. cbn [drop sys_slots] in Hin.
  repeat (apply elem_of_cons in Hin as [Hin|Hin]; [injection Hin as Hs' Hn'; rewrite Hs', Hn' in Hx'; lia|]).
  by apply elem_of_nil in Hin.
Qed.

Lemma Relocate_links_witness :
  ∃ dl s dl' s', Relocate tls_block dl s = Ok (dl', s') ∧
    load64 (p_mem s') 0x1400328 = Ok 0x1800030.
Proof.
  destruct sys_runs as (dl & s & dl' & s' & _ & _ & _ & _ & _ & Hf & Hrun & _). exists dl, s, dl', s'.
  destruct (sys_plan _ _ Hf) as [Hplan Hdisj]. pose proof (sys_names_off _ _ Hf) as Hnames.
  destruct Hf as (_ & _ & _ & Hes & _ & _ & _ & Hact & _ & Hsz & _).
  destruct (Relocate_links tls_block _ _ _ _ _ Hrun Hsz Hes Hnames) as [_ Hlinks].
  specialize (Hlinks [] plt_reloc (drop 1 (plan dl)) Hplan Hdisj). unfold plt_reloc in Hlinks at 1.
  rewrite Hact in Hlinks. exact (conj Hrun Hlinks).
Defined.

Lemma Relocate_succeeds_witness :
  ∃ dl s dl' s', length (plan dl) = 7%nat ∧ Relocate tls_block dl s = Ok (dl', s').
Proof.
  destruct sys_runs as (dl & s & _ & _ & _ & _ & _ & _ & _ & Hf & _). pose proof (sys_names_off _ _ Hf) as Hnames.
  destruct Hf as (_ & _ & _ & Hes & _ & _ & Hlen & _ & _ & Hsz & _ & Hok).
  destruct (Relocate_succeeds tls_block dl s sys_entries Hsz Hes Hnames) as (dl' & s' & Hrun).
  - eapply Forall_impl; [exact Hok|]. intros p. apply runnable_ok.
  - exists dl, s, dl', s'. exact (conj Hlen Hrun).
Defined.

Lemma Relocate_idempotent_witness :
  ∃ dl s dl' s', Relocate tls_block dl s = Ok (dl', s') ∧ length (plan dl) = 7%nat ∧
    Relocate tls_block dl' s' = Ok (dl', s').
Proof.
  destruct sys_runs as (dl & s & dl' & s' & _ & _ & _ & _ & _ & Hf & Hrun & _). exists dl, s, dl', s'.
  destruct Hf as (_ & _ & _ & _ & _ & _ & Hlen & _).
  exact (conj Hrun (conj Hlen (Relocate_idempotent tls_block _ _ _ _ Hrun))).
Defined.

(** The library opened a second time, at another base. *)
Lemma Relocate_same_path_witness :
  ∃ dl s, let again := lib_bin <| base_addr_ := 0x2000000 |> in
    relocations again ≠ [] ∧
    Relocate tls_block (dl <| binaries_ := [app_bin; lib_bin] ++ [again] |>) s =
    Ok (dl <| binaries_ := [app_bin; lib_bin] ++ [again] |>, s).
Proof.
  destruct sys_runs as (dl & s & dl' & s' & _ & _ & _ & _ & _ & _ & Hrun & Hf & _). exists dl', s'.
  split; [done|]. destruct Hf as [Hb _]. rewrite <-Hb.
  apply (Relocate_same_path tls_block _ _ _ _ _ Hrun). rewrite Hb. right. left.
Defined.

Lemma weak_undefined_value_witness :
  ∃ m, symbol_address m [app_bin; lib_bin] "optional" = Ok (Some 0x1400000).
Proof.
  destruct sys_entries_loaded as (_ & s & _ & Hes). exists (p_mem s).
  exact (weak_undefined_value (p_mem s) _ _ "optional" 0 5 app_bin
           (mkSym 35 32 0 0 0 0) Hes eq_refl eq_refl eq_refl eq_refl eq_refl eq_refl).
Defined.
