(* ===== verification/WitnessStart.v ===== *)
(** * The theorems on starting the program, on libdl and on the tables at the concrete system *)

From S2P Require Import Prelude Memory Digits Elf Utils Os ElfBinary ElfDynamic ElfFile FindLibrary DynLoader Symbols Relocate Execute LibcMapping LibcCode Sloader ExecLoader RawWrite Samples.
Import Sys.

(** ** Thread-local storage *)

Lemma sys_tls_object_wf : Forall tls_object_wf [app_bin; lib_bin].
Proof.
  repeat (apply Forall_cons; split; [split; [reflexivity|intros ph [= <-]; cbn; lia]|]). constructor.
Qed.

Lemma sys_tls_sources : tls_sources_off tls_block 4096 [app_bin; lib_bin] [app_bin; lib_bin].
Proof.
  intros b ph x Hb _ Hph Hx [Hlo Hhi]. unfold tls_block in *.
  change (tls_total _) with 40 in Hlo.
  apply elem_of_cons in Hb as [->|Hb%list_elem_of_singleton]; [|subst b]; injection Hph as <-.
  - change (tls_src _ _) with 0x1400350 in Hx. lia.
  - change (tls_src _ _) with 0x1800318 in Hx. lia.
Qed.

(** The set-up of the blocks after relocation. *)
Lemma sys_tls_run :
  ∃ s s', setup_tls tls_block [app_bin; lib_bin] s = Ok (tt, s') ∧ sloader_tls_offset s = 4096 ∧
    entries (p_mem s) 0 [app_bin; lib_bin] = Ok sys_entries ∧ byte_at (p_mem s) 0x1400358 = 0x22.
Proof.
  destruct sys_runs as (_ & _ & dl & s & [] & s' & _ & _ & _ & _ & _ & Hf & Hrun & _).
  destruct Hf as (Hb & _ & _ & _ & _ & Ho & _ & Hes & _ & _ & Hbyte). rewrite Hb in *. exists s, s'.
  exact (conj Hrun (conj Ho (conj Hes Hbyte))).
Qed.

Lemma setup_tls_blocks_witness :
  ∃ s s', setup_tls tls_block [app_bin; lib_bin] s = Ok (tt, s') ∧ sloader_tls_offset s' = 4056 ∧
    byte_at (p_mem s') (tls_block + 4096 - 24 + 16) = 0.
Proof.
  destruct sys_tls_run as (s & s' & Hrun & Ho & _). exists s, s'.
  destruct (setup_tls_blocks tls_block _ _ _ _ Hrun sys_tls_object_wf) as (Hoff & _ & Hblocks);
    rewrite ?Ho; [done|by vm_compute|done|exact sys_tls_sources|]. rewrite Ho in *.
  split_and!; [exact Hrun|exact Hoff|].
  apply (Hblocks [] app_bin [lib_bin] eq_refl (mkPhdr PT_TLS 4 0x350 0x350 0x350 16 24 8) 16); [done|done|cbn; lia|left; lia].
Defined.

Lemma setup_tls_clobbers_witness :
  ∃ s s', setup_tls tls_block [app_bin; lib_bin] s = Ok (tt, s') ∧
    load64 (p_mem s') (tls_block + 4096 - 24) = Ok (tls_block + 4096 - 24).
Proof.
  destruct sys_tls_run as (s & s' & Hrun & Ho & _). exists s, s'. split; [exact Hrun|].
  pose proof (setup_tls_clobbers tls_block [] app_bin [] lib_bin [] _ _ _ Hrun) as Hc. rewrite Ho in Hc.
  apply Hc; [exact sys_tls_object_wf|done|by vm_compute|done|exact sys_tls_sources|constructor|done|constructor].
Defined.

Lemma tls_variable_initialised_witness :
  ∃ s s' o, setup_tls tls_block [app_bin; lib_bin] s = Ok (tt, s') ∧
    TLSSymOffset tls_block (p_mem s) [app_bin; lib_bin] "app_tls" = Ok o ∧
    byte_at (p_mem s') (wrap64 (tls_block + 4096 + o)) = 0x22.
Proof.
  destruct sys_tls_run as (s & s' & Hrun & Ho & Hes & Hbyte).
  destruct (tls_variable_initialised tls_block (p_mem s) [app_bin; lib_bin] "app_tls" sys_entries 0 4 app_bin
    (mkSym 27 22 0 3 8 8) (mkPhdr PT_TLS 4 0x350 0x350 0x350 16 24 8) s tt s' Hes eq_refl eq_refl eq_refl eq_refl
    eq_refl Hrun Ho sys_tls_object_wf) as (o & Hoff & Hb);
    [done|by vm_compute|done|exact sys_tls_sources|cbn; lia|left; cbn; lia|].
  exists s, s', o. change (tls_src _ _ + _) with 0x1400358 in Hb. cbn [st_value p_filesz] in Hb.
  change (8 <? 16) with true in Hb. cbv iota in Hb.
  rewrite Hbyte in Hb. exact (conj Hrun (conj Hoff Hb)).
Defined.

(** ** Execute *)

Lemma Execute_stack_witness :
  ∃ dl s s' u, Execute tls_block dl s = Ok (u, s') ∧ binaries_ dl = [app_bin; lib_bin] ∧
    last (p_trace s') = Some (EvJump 0x1400060 0x7ffe00000e70) ∧
    load64 (p_mem s') 0x7ffe00000e70 = Ok 2 ∧ load64 (p_mem s') 0x7ffe00000e78 = Ok 0x503100.
Proof.
  destruct sys_runs as (_ & _ & dl & s & _ & _ & v & s' & _ & _ & _ & Hf & _ & _ & Hrun & _).
  destruct Hf as (Hb & Ha & He & _ & Hrsp & _). exists dl, s, s', v.
  pose proof (Execute_stack tls_block _ _ _ _ _ _ Hrun Hb) as Hst. rewrite Ha, He, Hrsp in Hst.
  destruct Hst as (Hlast & _ & Hst); [vm_compute; discriminate|vm_compute; reflexivity|].
  split_and!; [exact Hrun|exact Hb|exact Hlast|exact (Hst 0%nat _ eq_refl)|exact (Hst 1%nat _ eq_refl)].
Defined.

Lemma sys_arrays_protected : Forall (array_protected written) [app_bin; lib_bin].
Proof.
  apply Forall_cons; split; [|apply Forall_cons; split; [|constructor]]; intros j x Hj Hx [Hlo Hhi]; unfold ctor_cell in *.
  - change (init_arraysz_ app_bin / 8) with 1 in Hj. assert (j = 0) as -> by lia.
    change (array_addr app_bin 0) with 0x1400340 in Hx. lia.
  - change (init_arraysz_ lib_bin / 8) with 2 in Hj. assert (j = 0 ∨ j = 1) as [-> | ->] by lia.
    + change (array_addr lib_bin 0) with 0x1800308 in Hx. lia.
    + change (array_addr lib_bin 1) with 0x1800310 in Hx. lia.
Qed.

Lemma Execute_order_witness :
  ∃ dl s s' u rsp, Execute tls_block dl s = Ok (u, s') ∧
    p_trace s' = map (init_event 3) [0x1800020; 0x1800028; 0x1400070] ++ [EvJump 0x1400060 rsp].
Proof.
  destruct sys_runs as (_ & _ & dl & s & _ & _ & v & s' & _ & _ & _ & Hf & _ & _ & Hrun & _).
  destruct Hf as (Hb & Ha & He & _ & Hrsp & _ & Ht & _ & Hfns & _).
  destruct (λ Hp, Execute_order tls_block written dl s _ _ _ _ _ code_writes Hrun Hb Hp Hfns) as (rsp & Htr).
  - rewrite Hb. exact sys_arrays_protected.
  - rewrite Ha, He, Hrsp. vm_compute. split; [discriminate|reflexivity].
  - exists dl, s, s', v, rsp. split; [exact Hrun|]. rewrite Ht, He in Htr. exact Htr.
Defined.

(** ** The command *)

Lemma main_enters_program_witness :
  ∃ dl s rsp, main tls_block args envs proc0 = Ok (dl, s) ∧ last (p_trace s) = Some (EvJump 0x1400060 rsp) ∧
    load64 (p_mem s) rsp = Ok 2.
Proof.
  destruct (run_succeeds (main tls_block args envs proc0) (λ _, True)) as ([dl s] & Hrun & _); [vm_compute; reflexivity|].
  destruct (main_enters_program tls_block args envs proc0 dl s Hrun) as (argv0 & path & bs & rsp & Ha & Hp & Hbs & Hl & Hst).
  { vm_compute. split; [discriminate|reflexivity]. }
  injection Ha as <-. vm_compute in Hp. injection Hp as <-.
  change (open_file _) with (Some app_bytes) in Hbs. injection Hbs as <-.
  exists dl, s, rsp. split; [exact Hrun|]. split.
  - rewrite Hl. vm_compute. reflexivity.
  - pose proof (Hst 0%nat 2 eq_refl) as H0. change (8 * Z.of_nat 0) with 0 in H0. rewrite Z.add_0_r in H0. exact H0.
Defined.

Lemma find_program_path_witness : find_program "app" = Ok "/bin/app"%string.
Proof.
  rewrite (find_program_path "app" ["/usr/local/bin"; "/bin"; "/root/bin"]%string "/usr/bin");
    [reflexivity|reflexivity| |done|reflexivity|reflexivity].
  repeat (apply Forall_cons; split; [vm_compute; set_solver|]). constructor.
Defined.

Lemma find_program_unreadable_witness : find_program "ls" = Err Exception.
Proof.
  apply (find_program_unreadable "ls" ["/usr/local/bin"; "/bin"]%string "/root/bin" [] "/usr/bin");
    [reflexivity| |done|reflexivity|reflexivity| |reflexivity].
  - repeat (apply Forall_cons; split; [vm_compute; set_solver|]). constructor.
  - repeat (apply Forall_cons; split; [reflexivity|]). constructor.
Defined.

Lemma main_refuses_witness :
  main tls_block [] envs proc0 = Err Exception ∧ main tls_block ["./missing"]%string envs proc0 = Err CheckFailed ∧
  ∃ argv0 path bs s1, head args = Some argv0 ∧ find_program argv0 = Ok path ∧ open_file path = Some bs ∧
    extends memory0 (p_mem s1) ∧ quiet proc0 s1 ∧
    main tls_block args envs proc0 =
    (write_sloader_dummy_to_secure_tls_space tls_block ;; Run tls_block (DynLoader_new path args envs)) s1.
Proof.
  assert (refusal ["./missing"]%string (regions (p_mem proc0)) = Some CheckFailed) as E1 by (vm_compute; reflexivity).
  assert (refusal args (regions (p_mem proc0)) = None) as E2 by (vm_compute; reflexivity).
  pose proof (main_refuses tls_block ["./missing"]%string envs proc0) as H1. rewrite E1 in H1.
  pose proof (main_refuses tls_block args envs proc0) as H2. rewrite E2 in H2.
  exact (conj (main_refuses tls_block [] envs proc0) (conj H1 H2)).
Defined.

Lemma sloader_dlopen_adds_witness :
  ∃ dl s, sloader_dlopen tls_block (Some (DynLoader_new "/bin/app" args envs)) (Some "libdemo.so"%string) proc0 =
            Ok ((0xdeadbeefdeadbeef, Some dl), s) ∧
    p_trace s = [] ∧ Forall (path_marked (relocated_ dl)) (binaries_ dl) ∧ binaries_ dl ≠ [].
Proof.
  destruct (run_succeeds (sloader_dlopen tls_block (Some (DynLoader_new "/bin/app" args envs)) (Some "libdemo.so"%string) proc0)
    (λ '(h, g, _), h = 0xdeadbeefdeadbeef)) as ([[h g] s] & Hrun & Hh); [vm_compute; reflexivity|].
  cbv beta iota in Hh. rewrite Hh in Hrun.
  destruct (sloader_dlopen_adds tls_block _ _ _ _ _ Hrun) as (path & root & libs & dl & -> & _ & _ & Hb & Hm & Hq & _).
  exists dl, s. split_and!; [exact Hrun|exact Hq|exact Hm|by rewrite Hb].
Defined.

Lemma sloader_dlsym_resolves_witness :
  ∃ dl s, binaries_ dl = [app_bin; lib_bin] ∧ sloader_dlsym (Some dl) "lib_fn" s = Ok (0x1800030, s) ∧
    sloader_dlsym (Some dl) "memcpy" s = Err CheckFailed.
Proof.
  destruct sys_runs as (_ & _ & dl & s & _ & _ & _ & _ & _ & _ & _ & Hf & _).
  destruct Hf as (Hb & _ & _ & _ & _ & _ & _ & Hes & _). exists dl, s.
  rewrite (sloader_dlsym_resolves dl "lib_fn" s _ Hes), (sloader_dlsym_resolves dl "memcpy" s _ Hes), Hb.
  split_and!; reflexivity.
Defined.

(** ** The tables *)

(** Objects of the C library at addresses that tell their names apart here. *)
#[local] Instance objects : CObjects := {| address_of := λ n, 0x7f0000000000 + 16 * Z.of_nat (String.length n) |}.

Lemma libc_lookup_check name r (a : Z) :
  bool_decide (libc_table !! name = Some r) && (c_ref_address r =? a) = true →
  sloader_libc_map (LibcMap := sloader_libc) name = Some a.
Proof. rewrite andb_true_iff, bool_decide_eq_true, Z.eqb_eq. intros [Hn <-]. by rewrite sloader_libc_map_lookup, Hn. Qed.

Lemma libc_map_functions_witness :
  (∃ f, f ∉ pointer_variables ∧ address_of f = 0x7f0000000060) ∧
  (∃ v f, (v, f) ∈ function_pointers ∧ address_of v = 0x7f0000000080) ∧
  sloader_libc_map (LibcMap := sloader_libc) "rindex" = Some 0x7f0000000080.
Proof.
  assert (sloader_libc_map (LibcMap := sloader_libc) "memcpy" = Some 0x7f0000000060) as Hf.
  { apply (libc_lookup_check _ (AddressOf "memcpy")). vm_compute. reflexivity. }
  assert (sloader_libc_map (LibcMap := sloader_libc) "rindex" = Some 0x7f0000000080) as Hv.
  { apply (libc_lookup_check _ (AddressOf "rindex_c")). vm_compute. reflexivity. }
  apply libc_map_functions in Hf. pose proof (libc_map_functions "rindex" 0x7f0000000080 Hv) as Hr.
  rewrite decide_False in Hf by (apply (bool_decide_unpack _); reflexivity).
  rewrite decide_True in Hr by (apply (bool_decide_unpack _); reflexivity).
  destruct Hf as (f & Hf & Ha), Hr as (v & g & Hg & Hb). split_and!; [eauto|eauto|exact Hv].
Defined.

Lemma tls_get_addr_last_witness :
  ∃ s s', setup_tls tls_block [app_bin; lib_bin] s = Ok (tt, s') ∧
    sloader_tls_get_addr tls_block (sloader_tls_offset s') (mkTlsIndex 1 8) ≠ tls_block + 4096 - 24 + 8 ∧
    sloader_tls_get_addr tls_block (sloader_tls_offset s') (mkTlsIndex 1 8) = tls_block + 4096 - 40 + 8.
Proof.
  destruct sys_tls_run as (s & s' & Hrun & Ho & _). exists s, s'. split; [exact Hrun|]. split.
  - pose proof (tls_get_addr_last tls_block [] app_bin [lib_bin] s tt s' 1 8 Hrun Ho sys_tls_object_wf) as Hl.
    intros Heq. apply Hl in Heq; [done|done|by vm_compute|done|exact sys_tls_sources|by vm_compute].
  - apply (tls_get_addr_last tls_block [app_bin] lib_bin [] s tt s' 1 8 Hrun Ho sys_tls_object_wf);
      [done|by vm_compute|done|exact sys_tls_sources|by vm_compute|reflexivity].
Defined.

(** ** Printing *)

Lemma RAW_PRINT_BASE_N_prints_witness :
  RAW_PRINT_BASE_N (replicate 21 "x"%char) (-255) 16 = Ok "-ff"%string.
Proof. apply (RAW_PRINT_BASE_N_prints (replicate 21 "x"%char) (-255) 16); done. Defined.

Lemma RAW_PRINT_PTR_prints_witness :
  ∃ ds, RAW_PRINT_PTR (replicate 21 "x"%char) 0xffffffffffffff00 = Ok ("0x-" +:+ ds)%string ∧
    read_digits 16 ds = Some 256.
Proof. apply (RAW_PRINT_PTR_prints (replicate 21 "x"%char) 0xffffffffffffff00); done. Defined.

(** ** Static executables *)

(** A segment that starts in the middle of a page: its second page is never unmapped. *)
Definition exec_phdr : Elf64_Phdr := mkPhdr PT_LOAD 5 0 0x400800 0x400800 64 0x1000 0x1000.
Definition exec_proc : proc := set_mem (poke memory0 0x500040 (encode_phdr exec_phdr)) proc0.
Definition exec_sample : ExecLoader := mkExecLoader 0x500000 4096 "a.out" [0x500040] 0 [].

Lemma exec_loads : ∃ e s, ExecLoader_Load exec_sample exec_proc = Ok (e, s).
Proof.
  destruct (run_succeeds (ExecLoader_Load exec_sample exec_proc) (λ _, True)) as ([e s] & Hrun & _); [vm_compute; reflexivity|].
  exists e, s. exact Hrun.
Qed.

Lemma exec_unload_witness :
  ∃ e s1 s2, ExecLoader_Load exec_sample exec_proc = Ok (e, s1) ∧ ExecLoader_Unload e s1 = Ok (tt, s2) ∧
    mapped (p_mem s2) 0x401000 = true ∧ mapped (p_mem s2) 0x400000 = false.
Proof.
  destruct exec_loads as (e & s1 & Hrun). assert (loads [exec_phdr] = [exec_phdr]) as Hl by reflexivity.
  destruct (exec_unload exec_sample [exec_phdr] exec_proc e s1) as (s2 & Hun & Hm & _); [| |reflexivity|exact Hrun|].
  - apply Forall2_cons_2; [vm_compute; reflexivity|apply Forall2_nil_2].
  - rewrite Hl. apply Forall_cons; split; [|apply Forall_nil_2]. unfold exec_segment_wf, exec_phdr. cbn. lia.
  - rewrite Hl in Hm. exists e, s1, s2. split; [exact Hrun|]. split; [exact Hun|]. split.
    + apply Hm. right. split; [exists exec_phdr; split; [by left|vm_compute; split; [discriminate|reflexivity]]|].
      intros ph ->%list_elem_of_singleton. vm_compute. intros [_ H]. discriminate H.
    + apply not_true_iff_false. intros [Hx|[_ Hx]]%Hm; [discriminate Hx|].
      apply (Hx exec_phdr); [by left|vm_compute; split; [discriminate|reflexivity]].
Defined.

Lemma exec_load_rejects_boundary_witness :
  exec_load_segment (mkExecLoader 0x500000 4096 "a.out" [0x500040] 0 []) 0x500040
    (set_mem (poke memory0 0x500040 (encode_phdr (mkPhdr PT_LOAD 5 0 0x400000 0x400000 64 0x1000 0x1000))) proc0) =
  Err CheckFailed.
Proof.
  apply (exec_load_rejects_boundary _ _ _ (mkPhdr PT_LOAD 5 0 0x400000 0x400000 64 0x1000 0x1000));
    [vm_compute; reflexivity|reflexivity|done..].
Defined.
