(* ===== verification/WitnessExec.v ===== *)
(** * A static executable at the concrete system

    A file with a text and a data segment, the second longer in memory than in the
    file; it is loaded by the older loader and entered. *)

From S2P Require Import Prelude Memory Digits Elf Utils Os ElfBinary ElfDynamic ElfFile FindLibrary DynLoader Accept Symbols Execute Start ExecLoader ExecLaunch Samples.
Import Sys.

Definition static_text : Elf64_Phdr := mkPhdr PT_LOAD 5 0 0x400000 0x400000 184 184 4096.
Definition static_data : Elf64_Phdr := mkPhdr PT_LOAD 6 176 0x4010b0 0x4010b0 8 32 4096.
Definition static_bytes : list Z := Eval vm_compute in
  encode_ehdr (mkEhdr 2 0x400080 64 56 2) ++ encode_phdr static_text ++ encode_phdr static_data ++ [1; 2; 3; 4; 5; 6; 7; 8].

#[local] Instance static_files : FileSystem := {|
  open_file := λ f, if bool_decide (f = "/bin/static"%string) then Some static_bytes else None;
  path_exists := λ _, Some false;
  is_regular_file := λ _, Some false;
  is_directory := λ _, Some false;
  directory_entries := λ _, [];
  directory_throws := λ _, false;
  glob := λ _, []
|}.

#[local] Instance static_files_spec : FileSystemSpec static_files.
Proof.
  split; intros path bs Hf; cbn in Hf; (case_bool_decide; [injection Hf as <-|done]).
  - vm_compute. reflexivity.
  - apply bytes_check. vm_compute. reflexivity.
Qed.

Definition static_file : Z := 0x7ffe00001000.

Lemma static_loads : loads (file_phdrs static_bytes) = [static_text; static_data].
Proof. vm_compute. reflexivity. Qed.

Lemma static_file_wf : exec_file_wf static_bytes.
Proof.
  split; [vm_compute; reflexivity| |vm_compute; lia| |].
  - change (e_phnum (file_ehdr static_bytes)) with 2. intros i Hi. unfold phdr_inside, phdr_off.
    change (e_phoff (file_ehdr static_bytes)) with 64. change (e_phentsize (file_ehdr static_bytes)) with 56.
    change (page_ceil _) with 4096. lia.
  - rewrite static_loads. intros ph Hph. apply elem_of_cons in Hph as [->|Hph%list_elem_of_singleton]; [|subst ph];
      (split; [repeat split; vm_compute; first [reflexivity|discriminate]|vm_compute; discriminate..|vm_compute; split; discriminate]).
  - rewrite static_loads. apply disjoint_regions_cons; [intros r ->%list_elem_of_singleton; reflexivity|].
    apply disjoint_regions_cons; [by intros r ?%elem_of_nil|]. intros [|?] ? ? ? Hi; discriminate Hi.
Qed.

Lemma static_room : exec_free (loads (file_phdrs static_bytes)) (map_bytes memory0 static_file 4096 7 static_bytes).
Proof.
  split; [apply (xf_disjoint _ static_file_wf)|]. rewrite static_loads. intros ph r Hph Hr.
  assert (r ∈ [mkRegion 0x7ffe00001000 0x7ffe00002000 7; mkRegion 0x500000 0x503000 3; mkRegion 0x7ffe00000000 0x7ffe00001000 3]) as Hr' by exact Hr.
  apply elem_of_cons in Hph as [->|Hph%list_elem_of_singleton]; [|subst ph];
    (repeat (apply elem_of_cons in Hr' as [->|Hr']; [reflexivity|]); by apply elem_of_nil in Hr').
Qed.

Lemma exec_launches_witness :
  ∃ e s', (e ← MakeExecLoader "/bin/static" "static"; e ← ExecLoader_Load e; ExecLoader_Relocate e ;;
           ExecLoader_Execute e 3 ;; mret e) proc0 = Ok (e, s') ∧
    p_trace s' = [EvJump 0x400080 (p_rsp s')] ∧ load64 (p_mem s') (p_rsp s') = Ok 1 ∧
    peek (p_mem s') 0x4010b0 8 = [1; 2; 3; 4; 5; 6; 7; 8] ∧ byte_at (p_mem s') 0x4010b8 = 0.
Proof.
  destruct (exec_launches (FS := static_files) "/bin/static" "static" 3 proc0 static_bytes static_file)
    as (e & s' & Hrun & _ & Htr & Hr & Hwords & Himg & _);
    [reflexivity|exact static_file_wf|vm_compute; reflexivity|exact static_room|vm_compute; discriminate
    |vm_compute; reflexivity|vm_compute; split; [discriminate|reflexivity]|].
  exists e, s'. split; [exact Hrun|]. rewrite static_loads in Himg. destruct (Himg static_data) as [_ Hf Hz]; [right; by left|].
  rewrite <-Hr in Htr, Hwords. split; [exact Htr|]. split; [|split; [exact Hf|]].
  - pose proof (Hwords 0%nat 1 eq_refl) as Hw. by rewrite Z.add_0_r in Hw.
  - apply Hz; vm_compute; [split; [discriminate|reflexivity]|intros [_ Hx]; discriminate Hx].
Defined.
