(* ===== verification/WitnessProgram.v ===== *)
(** * The theorems on the program as a whole at the concrete system *)

From S2P Require Import Prelude Memory Digits Elf Utils Os ElfBinary ElfDynamic ElfFile FindLibrary DynLoader Words MapFile Symbols Relocate Execute Sloader Program Samples WitnessLoad WitnessLink.
Import Sys.

Lemma memory0_bytes : bytes_ok memory0.
Proof. intros x. unfold byte. cbn. lia. Qed.

Lemma main_terminates_witness : in_fuel (main tls_block args envs proc0).
Proof.
  apply main_terminates; [apply _|apply _|..].
  - intros p Hp. vm_compute in Hp. injection Hp as <-. vm_compute. reflexivity.
  - apply read_ldsoconf_in_fuel. vm_compute. discriminate.
  - intros fn m. cbn. unfold store64, store_bytes. by destruct (mapped_range _ _ _).
  - exact memory0_ok.
  - exact memory0_bytes.
Defined.

Lemma addr_to_offset_Load_witness :
  ∃ b s next b' s', Load b 0x1400000 s = Ok ((next, b'), s') ∧
    addr_to_offset (map (λ l, l +:+ newline) (p_map_file s')) 0x1400358 = Some [("/bin/app"%string, 0x358)] ∧
    addr_to_offset (map (λ l, l +:+ newline) (p_map_file s')) 0x1401000 = Some [("/bin/app"%string, 0x1000)].
Proof.
  destruct load_system as (b & s & next & b' & s' & Hnew & Hload & Hf). unfold load_facts in Hf. destruct_and!.
  destruct (ELFBinary_new_words _ _ _ _ Hnew memory0_bytes) as [[_ _ [Hphs _] _ _ _] _].
  assert (" "%char ∉ list_of_string (path_ b)) as Hpath.
  { match goal with H : path_ b = _ |- _ => rewrite H end. apply (bool_decide_unpack _). vm_compute. exact I. }
  assert (load_base b 0x1400000 = 0x1400000) as Hbase by by apply app_base.
  assert (∀ ph, ph ∈ loads (file_phdrs_ b) → seg_nowrap (load_base b 0x1400000) ph) as Hn.
  { intros ph. rewrite Hbase, app_loads by done. intros ->%list_elem_of_singleton. exact app_load_nowrap. }
  exists b, s, next, b', s'. split; [exact Hload|].
  rewrite (addr_to_offset_Load _ _ _ _ _ _ 0x1400358 Hload ltac:(done) Hphs Hpath Hn).
  rewrite (addr_to_offset_Load _ _ _ _ _ _ 0x1401000 Hload ltac:(done) Hphs Hpath Hn).
  match goal with H : path_ b = _ |- _ => rewrite H, Hbase, app_loads by done end. split; vm_compute; reflexivity.
Defined.

Lemma LoadDependingLibs_words_witness :
  ∃ dl s, LoadDependingLibs (DynLoader_new "/bin/app" args envs) "/bin/app" proc0 = Ok (dl, s) ∧
    binaries_ dl = [app_bin; lib_bin] ∧ Forall binary_words (binaries_ dl) ∧ bytes_ok (p_mem s).
Proof.
  destruct sys_runs as (dl & s & _ & _ & _ & _ & _ & _ & Hrun & [Hb _] & _). exists dl, s.
  assert (loader_words (DynLoader_new "/bin/app" args envs) proc0) as H0.
  { constructor; [exact (Forall_nil_2 _)| |exact memory0_bytes].
    change (word64 0x1400000). unfold word64. lia. }
  destruct (LoadDependingLibs_words _ _ _ _ _ Hrun H0) as [Hw _ Hm].
  exact (conj Hrun (conj Hb (conj Hw Hm))).
Defined.

Lemma load_and_relocate_links_witness :
  ∃ dl s m, linked tls_block (p_mem s) m [app_bin; lib_bin] sys_entries (plan dl) ∧ length (plan dl) = 7%nat ∧
    byte_at m 0x1400358 = 0x22 ∧ load64 m 0x1400328 = Ok 0x1800030.
Proof.
  destruct sys_runs as (dl & s & dl' & s' & _ & _ & _ & _ & Hl & Hf & Hr & (Hb' & _) & _).
  pose proof (sys_names_off _ _ Hf) as Hnames. destruct (sys_plan _ _ Hf) as [Hplan Hdisj].
  assert (¬ targets tls_block (p_mem s) (binaries_ dl) sys_entries (plan dl) 0x1400358) as Hfree.
  { intros Ht%(sys_targets _ _ _ Hf). unfold data_area in Ht. lia. }
  destruct Hf as (Hb & _ & _ & Hes & _ & _ & Hlen & Hact & _).
  assert (linked tls_block (p_mem s) (p_mem s') (binaries_ dl') sys_entries (plan dl)) as Hlinked.
  { apply (load_and_relocate_links tls_block _ _ _ _ _ _ _ _ Hl Hr eq_refl memory0_ok); [|exact Hes|exact Hnames].
    rewrite Hb. exact sys_object_wf. }
  exists dl, s, (p_mem s'). rewrite <-Hb'. split; [exact Hlinked|]. split; [exact Hlen|]. destruct Hlinked as [Hseg Hrel].
  rewrite Hb' in *. rewrite Hb in *. split.
  - rewrite (proj2 (Hseg app_bin app_bytes app_load 0x1400358 ltac:(left) eq_refl ltac:(by apply list_elem_of_singleton)
               ltac:(cbn; lia) Hfree)). vm_compute. reflexivity.
  - specialize (Hrel [] plt_reloc (drop 1 (plan dl)) Hplan Hdisj). unfold relocated_value, plt_reloc in Hrel.
    rewrite Hact in Hrel. exact Hrel.
Defined.
