(* ===== verification/WitnessLaunch.v ===== *)
(** * The theorems on plans, launching and sessions at the concrete system *)

From stdpp Require Import relations.
From S2P Require Import Prelude Memory Digits Elf Utils Os ElfBinary ElfDynamic ElfFile FindLibrary DynLoader Words Accept Plan Symbols Relocate Execute Start Sloader Program Link Launch Session Samples WitnessLoad WitnessLink WitnessStart WitnessProgram.
Import Sys.

#[export] Instance kernel_room : KernelRoom kernel := first_fit_room.

(** ** The plan for the program *)

Definition app_obj : ELFBinary := forget_file app_bin.
Definition lib_obj : ELFBinary := forget_file lib_bin.
Definition sys_objs : list ELFBinary := [app_obj; lib_obj].

Lemma sys_root : ∃ b, compute_object "/bin/app" 0x1400000 = Ok b ∧ b = app_obj.
Proof. apply (run_succeeds _ (λ b, b = app_obj)). vm_compute. reflexivity. Qed.

Lemma sys_libs :
  ∃ r, compute_plan 5 ({["app"%string]} ∪ ∅) (round_base (end_addr_ app_obj)) (requests app_obj) = Ok r ∧ r.1.1 = [lib_obj].
Proof. apply (run_succeeds _ (λ r, r.1.1 = [lib_obj])). vm_compute. reflexivity. Qed.

Lemma sys_planned : ∃ seen' next', planned_root ∅ 0x1400000 "/bin/app" sys_objs seen' next'.
Proof.
  destruct sys_root as (b & Hroot & ->), sys_libs as ([[libs seen'] next'] & Hlibs & Hl). cbn [fst] in Hl. subst libs.
  exists seen', next', app_obj, [lib_obj]. split; [reflexivity|]. split; [by apply compute_object_spec|].
  exact (compute_plan_sound _ _ _ _ _ _ _ Hlibs).
Qed.

Definition sys_segments : list region := [mkRegion 0x1400000 0x1401000 7; mkRegion 0x1800000 0x1802000 7].

Lemma sys_segments_eq : sys_objs ≫= object_segments = sys_segments.
Proof. apply (bool_decide_unpack _). vm_compute. exact I. Qed.

Lemma memory0_room n : n ≤ 12288 → room (regions memory0) n.
Proof.
  assert (above_all (regions memory0) = 0x7ffe00001000) as Ha by (apply (bool_decide_unpack _); vm_compute; exact I).
  intros Hn. change (0x700000000000 ≤ above_all (regions memory0) ∧ above_all (regions memory0) + n ≤ 2 ^ 47). rewrite Ha. lia.
Qed.

(** Room for the objects, and for one more file of a page. *)
Lemma sys_fits : plan_fits (regions memory0) sys_objs ∧ room (regions memory0) (4096 + plan_pages sys_objs).
Proof.
  assert (plan_pages sys_objs = 8192) as Hp by (apply (bool_decide_unpack _); vm_compute; exact I).
  split; [|apply memory0_room; rewrite Hp; lia]. split; rewrite ?sys_segments_eq.
  - apply (bool_decide_unpack _). vm_compute. exact I.
  - intros r r' Hr Hr'. assert (forallb (λ r, forallb (λ r', negb (overlaps (r_lo r) (r_hi r) r')) (regions memory0)) sys_segments = true) as Hall
      by (vm_compute; reflexivity).
    rewrite forallb_forall in Hall. specialize (Hall r (proj1 (list_elem_of_In _ _) Hr)). rewrite forallb_forall in Hall.
    apply negb_true_iff, Hall. by apply list_elem_of_In.
  - intros r Hr. assert (forallb (λ r, r_hi r <=? 0x700000000000) sys_segments = true) as Hall by (vm_compute; reflexivity).
    rewrite forallb_forall in Hall. apply Z.leb_le, Hall. by apply list_elem_of_In.
  - apply memory0_room. rewrite Hp. lia.
Qed.

Lemma LoadDependingLibs_succeeds_witness :
  ∃ dl s, LoadDependingLibs (DynLoader_new "/bin/app" args envs) "/bin/app" proc0 = Ok (dl, s) ∧ length (binaries_ dl) = 2%nat.
Proof.
  destruct sys_planned as (seen' & next' & Hp).
  destruct (LoadDependingLibs_succeeds seen' next' sys_objs (DynLoader_new "/bin/app" args envs) "/bin/app" proc0 Hp (proj1 sys_fits) memory0_ok)
    as (dl & s & Hrun & [(new & Hb & Hnew) _ _ _ _ _]).
  exists dl, s. split; [exact Hrun|]. rewrite Hb. symmetry. exact (Forall2_length _ _ _ Hnew).
Defined.

(** ** The link of the plan *)

Definition sys_images : memory := plan_memory no_memory sys_objs.
Definition sys_relocations : list (ELFBinary * Elf64_Rela) := relocation_list ∅ sys_objs.

Lemma sys_obj_entries : ∃ es, entries sys_images 0 sys_objs = Ok es ∧ es = sys_entries.
Proof. apply (run_succeeds _ (λ es, es = sys_entries)). vm_compute. reflexivity. Qed.

Lemma sys_link_checks :
  map (λ p, (slot p, action_size (action_at tls_block sys_images sys_objs sys_entries p))) sys_relocations = sys_slots ∧
  Forall (λ b, Forall (λ sy, name_inside sys_images b sy = true) (symtabs_ b)) sys_objs ∧
  Forall (λ p, runnable sys_images (slot p) (action_at tls_block sys_images sys_objs sys_entries p) = true) sys_relocations.
Proof. apply (bool_decide_unpack _). vm_compute. exact I. Qed.

Lemma sys_linkable : linkable tls_block sys_images sys_objs sys_entries sys_relocations.
Proof.
  destruct sys_obj_entries as (es & Hes & ->), sys_link_checks as (Hslots & Hnames & Hrun). split; [exact Hes| |].
  - intros b sy n x Hb Hsy Hn a Hx (p & Hp & Ht).
    assert ((slot p, action_size (action_at tls_block sys_images sys_objs sys_entries p)) ∈ sys_slots) as Hin.
    { rewrite <-Hslots. apply list_elem_of_fmap. eauto. }
    rewrite Forall_forall in Hnames. pose proof (proj1 (Forall_forall _ _) (Hnames b Hb) sy Hsy) as Hname. unfold name_inside in Hname.
    rewrite Hn, andb_true_iff, Z.leb_le, Z.ltb_lt in Hname. unfold target in Ht. subst a.
    assert (0x1400348 ≤ strtab_ b ∧ strtab_ b + strsz_ b ≤ 0x1800300 ∨ 0x1800310 ≤ strtab_ b) as Hs.
    { apply elem_of_cons in Hb as [->|Hb%list_elem_of_singleton]; [left|subst b; right]; vm_compute; [split|]; discriminate. }
    unfold sys_slots in Hin.
    repeat (apply elem_of_cons in Hin as [Hin|Hin]; [injection Hin as Hsl Hsz; rewrite Hsl, Hsz in Ht; lia|]).
    by apply elem_of_nil in Hin.
  - eapply Forall_impl; [exact Hrun|]. intros p. apply runnable_ok.
Qed.

(** The images after relocation, and what the theorems need of them. *)
Definition sys_memory_facts (m : memory) : Prop :=
  traverse (init_functions m) (rev sys_objs) = Ok [[0x1800020; 0x1800028]; [0x1400070]] ∧
  load64 m 0x1400328 = Ok 0x1800030 ∧ mapped_range m 0x1400350 24 = true ∧ mapped_range m 0x1800318 16 = true.
#[local] Instance sys_memory_facts_dec m : Decision (sys_memory_facts m).
Proof. unfold sys_memory_facts. apply _. Defined.

Lemma sys_linked_memory :
  ∃ m, linked_memory tls_block (DynLoader_new "/bin/app" args envs) no_memory sys_objs sys_entries = Ok m ∧ sys_memory_facts m.
Proof. apply (run_succeeds _ sys_memory_facts). vm_compute. reflexivity. Qed.

Lemma load_and_relocate_succeed_witness :
  ∃ dl1 s1 dl2 s2, LoadDependingLibs (DynLoader_new "/bin/app" args envs) "/bin/app" proc0 = Ok (dl1, s1) ∧
    Relocate tls_block dl1 s1 = Ok (dl2, s2) ∧ length (binaries_ dl2) = 2%nat ∧ load64 (p_mem s2) 0x1400328 = Ok 0x1800030.
Proof.
  destruct sys_planned as (seen' & next' & Hp), sys_linked_memory as (m & Hm & _ & Hword & _).
  destruct (load_and_relocate_succeed tls_block (DynLoader_new "/bin/app" args envs) no_memory proc0 "/bin/app" sys_objs sys_entries
    seen' next' m) as (dl1 & s1 & dl2 & s2 & Hload & Hrel & Hobjs & Hext & _).
  - split; [exact Hp|by intros x|exact (proj1 sys_fits)|exact sys_linkable].
  - exact memory0_ok.
  - reflexivity.
  - exact Hm.
  - exists dl1, s1, dl2, s2. split; [exact Hload|]. split; [exact Hrel|]. split; [symmetry; exact (Forall2_length _ _ _ Hobjs)|].
    exact (load_word_covers _ _ Hext 8 0x1400328 _ Hword).
Defined.

(** ** Starting *)

(** The constructors of the system return wherever the loader's data is mapped. *)
Lemma code_returns m fn : stays_mapped memory0 m → ∃ m', call_function fn m = Ok m'.
Proof.
  intros Hm. eexists. apply store64_ok. split; [|reflexivity].
  apply (stays_mapped_range memory0); [exact Hm|]. vm_compute. reflexivity.
Qed.

Lemma code_kept fn m m' : call_function fn m = Ok m' → regions m' = regions m ∧ (bytes_ok m → bytes_ok m').
Proof.
  intros [_ ->]%store64_ok. split; [reflexivity|]. intros Hb. apply bytes_ok_poke; [exact Hb|exact (le_split_bytes 8 _)].
Qed.

Lemma sys_array_wf : Forall array_wf [app_bin; lib_bin].
Proof. repeat (apply Forall_cons; split; [split; reflexivity|]). apply Forall_nil_2. Qed.

Lemma sys_regions_mapped m : regions m = sys_regions → stays_mapped memory0 m.
Proof.
  intros Hr x. rewrite !mapped_spec, Hr. intros (r & Hin & Hx). exists r. split; [|exact Hx].
  unfold sys_regions. do 4 right. exact Hin.
Qed.

Lemma Execute_succeeds_witness :
  ∃ dl s s', Execute tls_block dl s = Ok (tt, s') ∧ length (binaries_ dl) = 2%nat ∧
    p_trace s' = map (init_event 3) [0x1800020; 0x1800028; 0x1400070] ++ [EvJump 0x1400060 0x7ffe00000e70].
Proof.
  destruct sys_runs as (_ & _ & dl & s & _ & _ & _ & _ & _ & _ & _ & Hf & _).
  destruct Hf as (Hb & Ha & He & Hr & Hrsp & Ho & Htr & _ & Hfns & _).
  destruct (Execute_succeeds tls_block written code_writes dl s [[0x1800020; 0x1800028]; [0x1400070]] app_bin [lib_bin]) as (s' & Hrun & Htrace & _).
  - split; rewrite ?Hb; [by rewrite <-Hb| |exact sys_arrays_protected|exact sys_array_wf|done| |by vm_compute| |].
    + apply Forall_forall. intros fn _ m Hm. apply code_returns, sys_regions_mapped. congruence.
    + rewrite Ho. split; [exact sys_tls_object_wf|by vm_compute|by vm_compute| |].
      * rewrite (mapped_range_regions (mkMemory sys_regions (λ _, 0))) by exact Hr. vm_compute. reflexivity.
      * repeat (apply Forall_cons; split; [intros _ ph [= <-]; rewrite (mapped_range_regions (mkMemory sys_regions (λ _, 0))) by exact Hr; vm_compute; reflexivity|]).
        apply Forall_nil_2.
    + unfold stack_size. rewrite Ha, He, Hrsp, (mapped_range_regions (mkMemory sys_regions (λ _, 0))) by exact Hr. vm_compute. reflexivity.
    + unfold stack_size. rewrite Ha, He, Hrsp. vm_compute. split; [discriminate|reflexivity].
  - exact Hb.
  - exists dl, s, s'. split; [exact Hrun|]. split; [by rewrite Hb|]. rewrite Htrace, Htr, Ha, He, Hrsp. reflexivity.
Defined.

(** ** The whole command *)

Lemma sys_files : ∃ m, program_files tls_block written args envs "/bin/app" app_bytes sys_objs sys_entries m [[0x1800020; 0x1800028]; [0x1400070]].
Proof.
  destruct sys_linked_memory as (m & Hm & Hfns & _ & Hs1 & Hs2). exists m. split.
  - vm_compute. reflexivity.
  - reflexivity.
  - reflexivity.
  - left. vm_compute. reflexivity.
  - exact sys_planned.
  - exact sys_linkable.
  - exact Hm.
  - exact Hfns.
  - pose proof sys_arrays_protected as Hp. apply Forall_cons in Hp as [H1 [H2 _]%Forall_cons].
    apply Forall_cons; split; [exact H1|]. apply Forall_cons; split; [exact H2|apply Forall_nil_2].
  - repeat (apply Forall_cons; split; [split; reflexivity|]). apply Forall_nil_2.
  - repeat (apply Forall_cons; split; [split; [reflexivity|intros ph [= <-]; cbn; lia]|]). apply Forall_nil_2.
  - by vm_compute.
  - apply Forall_cons; split; [intros _ ph [= <-]; exact Hs1|]. apply Forall_cons; split; [intros _ ph [= <-]; exact Hs2|apply Forall_nil_2].
Qed.

Lemma sys_room : process_room tls_block args envs proc0 app_bytes sys_objs [[0x1800020; 0x1800028]; [0x1400070]].
Proof.
  split.
  - exact memory0_ok.
  - exact (proj1 sys_fits).
  - rewrite app_pages. exact (proj2 sys_fits).
  - vm_compute. reflexivity.
  - by vm_compute.
  - reflexivity.
  - done.
  - cbv zeta. split; [vm_compute; reflexivity|vm_compute; split; [discriminate|reflexivity]].
  - intros fn _ m Hm. by apply code_returns.
Qed.

Lemma main_succeeds_witness :
  ∃ dl s, main tls_block args envs proc0 = Ok (dl, s) ∧ length (binaries_ dl) = 2%nat ∧
    p_trace s = map (init_event 3) [0x1800020; 0x1800028; 0x1400070] ++ [EvJump 0x1400060 0x7ffe00000e70].
Proof.
  destruct sys_files as (m & Hf).
  destruct (main_succeeds tls_block written code_writes args envs "/bin/app" app_bytes sys_objs sys_entries m _ proc0 Hf sys_room)
    as (dl & s & Hrun & Hobjs & Htr & _).
  exists dl, s. split; [exact Hrun|]. split; [symmetry; exact (Forall2_length _ _ _ Hobjs)|]. rewrite Htr. vm_compute. reflexivity.
Defined.
