(* ===== verification/WitnessSession.v ===== *)
(** * The theorems on sessions at the concrete system *)

From stdpp Require Import relations.
From S2P Require Import Prelude Memory Digits Elf Utils Os ElfBinary ElfDynamic ElfFile FindLibrary DynLoader Words Accept Plan Symbols Relocate Execute Start Sloader Program Link Launch Session Samples WitnessLoad WitnessProgram WitnessLaunch.
Import Sys.

(** ** A session: the program is started and opens its library once more *)

(** The bytes of the string tables of the two objects. *)
Definition name_tables : memory := {|
  regions := [mkRegion (strtab_ app_obj) (strtab_ app_obj + strsz_ app_obj) 1; mkRegion (strtab_ lib_obj) (strtab_ lib_obj + strsz_ lib_obj) 1];
  byte_at := byte_at sys_images
|}.

(** [extends], as a test. *)
Definition holds (known m : memory) : bool :=
  forallb (λ x, mapped m x && (byte_at m x =? byte_at known x)) (addresses (regions known)).

Lemma holds_extends known m : holds known m = true → extends known m.
Proof.
  unfold holds. rewrite forallb_forall. intros Hall x (r & Hr & Hx)%mapped_spec.
  specialize (Hall x). rewrite <-list_elem_of_In, andb_true_iff, Z.eqb_eq in Hall. apply Hall.
  apply elem_of_addresses. eauto.
Qed.

Lemma session_check (P : DynLoader → proc → DynLoader → proc → Prop) `{∀ dl s dl' s', Decision (P dl s dl' s')} :
  match main tls_block args envs proc0 with
  | Ok (dl, s) =>
      match sloader_dlopen tls_block (Some dl) (Some "libdemo.so"%string) s with
      | Ok ((_, Some dl'), s') => bool_decide (P dl s dl' s')
      | _ => false
      end
  | Err _ => false
  end = true →
  ∃ dl s dl' s', main tls_block args envs proc0 = Ok (dl, s) ∧ rtc (session_step tls_block) (dl, s) (dl', s') ∧ P dl s dl' s'.
Proof.
  destruct (main tls_block args envs proc0) as [[dl s]|]; [|done].
  destruct (sloader_dlopen tls_block (Some dl) (Some "libdemo.so"%string) s) as [[[h [dl'|]] s']|] eqn:E; [|done..].
  rewrite bool_decide_eq_true. intros HP. exists dl, s, dl', s'. split; [reflexivity|]. split; [|exact HP].
  apply rtc_once. by eapply step_dlopen.
Qed.

Definition session_facts (dl : DynLoader) (s : proc) (dl' : DynLoader) (s' : proc) : Prop :=
  map path_ (binaries_ dl') = ["/bin/app"; "/opt/lib/libdemo.so"; "/opt/lib/libdemo.so"]%string ∧
  forget_file <$> binaries_ dl = sys_objs ∧ entries name_tables 0 (binaries_ dl) = Ok sys_entries ∧
  holds name_tables (p_mem s') = true ∧ length (p_trace s) = 4%nat.
#[local] Instance session_facts_dec dl s dl' s' : Decision (session_facts dl s dl' s').
Proof. unfold session_facts. apply _. Defined.

Lemma sys_session :
  ∃ dl s dl' s', main tls_block args envs proc0 = Ok (dl, s) ∧ rtc (session_step tls_block) (dl, s) (dl', s') ∧ session_facts dl s dl' s'.
Proof. apply (session_check session_facts). vm_compute. reflexivity. Qed.

Lemma session_invariant_witness :
  ∃ dl s dl' s', rtc (session_step tls_block) (dl, s) (dl', s') ∧ length (binaries_ dl') = 3%nat ∧
    session_ok (dl', s') ∧ p_trace s' = p_trace s.
Proof.
  destruct sys_session as (dl & s & dl' & s' & Hmain & Hrtc & Hpaths & _).
  destruct (session_invariant tls_block args envs proc0 dl s dl' s' code_kept Hmain memory0_ok memory0_bytes Hrtc) as [Hok [_ _ _ Htr _]].
  exists dl, s, dl', s'. split; [exact Hrtc|]. split; [by rewrite <-(length_map path_), Hpaths|]. split; [exact Hok|exact Htr].
Defined.

Lemma session_dlopen_terminates_witness :
  ∃ dl s, in_fuel (sloader_dlopen tls_block (Some dl) (Some "libother.so"%string) s).
Proof.
  destruct sys_session as (dl & s & dl' & s' & Hmain & Hrtc & _). exists dl', s'.
  refine (session_dlopen_terminates tls_block args envs proc0 dl s dl' s' _ code_kept Hmain memory0_ok memory0_bytes _ Hrtc).
  apply read_ldsoconf_in_fuel. vm_compute. discriminate.
Defined.

Lemma dlsym_stable_witness :
  ∃ dl s dl' s', rtc (session_step tls_block) (dl, s) (dl', s') ∧ length (binaries_ dl') = 3%nat ∧
    sloader_dlsym (Some dl') "lib_fn" s' = Ok (0x1800030, s').
Proof.
  destruct sys_session as (dl & s & dl' & s' & Hmain & Hrtc & Hpaths & Hobjs & Hes & Hk%holds_extends & _).
  destruct (dlsym_stable tls_block name_tables dl s dl' s' sys_entries "lib_fn" (1%nat, 1%nat)
    (main_session tls_block _ _ _ _ _ code_kept Hmain memory0_ok memory0_bytes) Hrtc Hk Hes eq_refl) as (b & sym & Hat & Hrun).
  exists dl, s, dl', s'. split; [exact Hrtc|]. split; [by rewrite <-(length_map path_), Hpaths|]. rewrite Hrun.
  pose proof (symbol_at_forget (binaries_ dl) (1%nat, 1%nat)) as Hf. rewrite Hobjs, Hat in Hf.
  apply (f_equal (from_option (λ p, st_value p.2 + base_addr_ p.1) 0)) in Hf.
  assert (st_value sym + base_addr_ b = 0x1800030) as Haddr by (etrans; [symmetry; exact Hf|vm_compute; reflexivity]).
  by rewrite Haddr.
Defined.

(** ** A library opened by a fresh loader *)

Definition demo_obj : ELFBinary := Eval vm_compute in
  match compute_object "/opt/lib/libdemo.so" 0x1400000 with Ok b => b | Err _ => default_binary end.
Definition demo_entries : list entry := Eval vm_compute in
  match entries (plan_memory no_memory [demo_obj]) 0 [demo_obj] with Ok es => es | Err _ => [] end.

Lemma demo_planned : ∃ seen' next', planned_root ∅ 0x1400000 "/opt/lib/libdemo.so" [demo_obj] seen' next'.
Proof.
  destruct (run_succeeds (compute_object "/opt/lib/libdemo.so" 0x1400000) (λ b, b = demo_obj)) as (b & Hroot & ->); [vm_compute; reflexivity|].
  destruct (run_succeeds (compute_plan 5 ({["libdemo.so"%string]} ∪ ∅) (round_base (end_addr_ demo_obj)) (requests demo_obj))
    (λ r, r.1.1 = [])) as ([[libs seen'] next'] & Hlibs & Hl); [vm_compute; reflexivity|]. cbn [fst] in Hl. subst libs.
  exists seen', next', demo_obj, []. split; [reflexivity|]. split; [exact (proj1 (compute_object_spec _ _ _) Hroot)|].
  exact (compute_plan_sound _ _ _ _ _ _ _ Hlibs).
Qed.

Definition demo_images : memory := plan_memory no_memory [demo_obj].
Definition demo_relocations : list (ELFBinary * Elf64_Rela) := relocation_list ∅ [demo_obj].

Lemma demo_checks :
  entries demo_images 0 [demo_obj] = Ok demo_entries ∧
  map (λ p, (slot p, action_size (action_at tls_block demo_images [demo_obj] demo_entries p))) demo_relocations = [(0x1400308, 8)] ∧
  Forall (λ sy, name_inside demo_images demo_obj sy = true) (symtabs_ demo_obj) ∧
  Forall (λ p, runnable demo_images (slot p) (action_at tls_block demo_images [demo_obj] demo_entries p) = true) demo_relocations.
Proof. apply (bool_decide_unpack _). vm_compute. exact I. Qed.

Lemma demo_linkable : linkable tls_block demo_images [demo_obj] demo_entries demo_relocations.
Proof.
  destruct demo_checks as (Hes & Hslots & Hnames & Hrun). split; [exact Hes| |].
  - intros b sy n x ->%list_elem_of_singleton Hsy Hn a Hx (p & Hp & Ht).
    assert ((slot p, action_size (action_at tls_block demo_images [demo_obj] demo_entries p)) ∈ [(0x1400308, 8)]) as Hin.
    { rewrite <-Hslots. apply list_elem_of_fmap. eauto. }
    apply list_elem_of_singleton in Hin. injection Hin as Hsl Hsz. unfold target in Ht. rewrite Hsl, Hsz in Ht.
    pose proof (proj1 (Forall_forall _ _) Hnames sy Hsy) as Hname. unfold name_inside in Hname.
    rewrite Hn, andb_true_iff, Z.leb_le, Z.ltb_lt in Hname. subst a. change (strtab_ demo_obj) with 0x14003e0 in *. lia.
  - eapply Forall_impl; [exact Hrun|]. intros p. apply runnable_ok.
Qed.

Lemma demo_fits : plan_fits (regions memory0) [demo_obj].
Proof.
  assert (plan_pages [demo_obj] = 4096) as Hp by (apply (bool_decide_unpack _); vm_compute; exact I).
  assert ([demo_obj] ≫= object_segments = [mkRegion 0x1400000 0x1402000 7]) as Hs by (apply (bool_decide_unpack _); vm_compute; exact I).
  split; rewrite ?Hs.
  - apply (bool_decide_unpack _). vm_compute. exact I.
  - intros r r' Hr [Hr1|Hr1%list_elem_of_singleton]%elem_of_cons; apply list_elem_of_singleton in Hr; subst; reflexivity.
  - intros r ->%list_elem_of_singleton. by vm_compute.
  - apply memory0_room. rewrite Hp. lia.
Qed.

Lemma demo_memory :
  ∃ m, linked_memory tls_block (DynLoader_new "/bin/app" args envs) no_memory [demo_obj] demo_entries = Ok m ∧
    load64 m 0x1400308 = Ok 0x1400028 ∧ entries m 0 [demo_obj] = Ok demo_entries.
Proof. apply (run_succeeds _ (λ m, load64 m 0x1400308 = Ok 0x1400028 ∧ entries m 0 [demo_obj] = Ok demo_entries)). vm_compute. reflexivity. Qed.

Lemma sloader_dlopen_succeeds_witness :
  ∃ dl s, sloader_dlopen tls_block (Some (DynLoader_new "/bin/app" args envs)) (Some "libdemo.so"%string) proc0 =
            Ok ((0xdeadbeefdeadbeef, Some dl), s) ∧
    length (binaries_ dl) = 1%nat ∧ load64 (p_mem s) 0x1400308 = Ok 0x1400028 ∧
    sloader_dlsym (Some dl) "lib_fn" s = Ok (0x1400030, s).
Proof.
  destruct demo_planned as (seen' & next' & Hp), demo_memory as (m & Hm & Hword & Hes).
  destruct (sloader_dlopen_succeeds tls_block no_memory (DynLoader_new "/bin/app" args envs) proc0 "libdemo.so" "/opt/lib/libdemo.so"
    [demo_obj] demo_entries seen' next' m) as (dl & s & new & Hrun & Hb & Hnew & _ & _ & Hext & Hsym);
    [reflexivity|vm_compute; reflexivity|exact memory0_ok| |exact Hm|].
  - split; [exact Hp|by intros x|exact demo_fits|exact demo_linkable].
  - exists dl, s. split; [exact Hrun|]. split; [rewrite Hb; symmetry; exact (Forall2_length _ _ _ Hnew)|].
    split; [exact (load_word_covers _ _ Hext 8 0x1400308 _ Hword)|].
    exact (Hsym "lib_fn"%string demo_entries (0%nat, 1%nat) demo_obj (mkSym 11 18 0 1 0x30 16) Hes eq_refl eq_refl).
Defined.
