(* ===== verification/WitnessReentrant.v ===== *)
(** * Constructors that open a library, at the concrete system

    The constructor of the application opens the library once more; every function
    looks whether the constructor arrays are untouched before it returns. *)

From stdpp Require Import relations.
From S2P Require Import Prelude Memory Digits Elf Utils Os ElfBinary ElfDynamic ElfFile FindLibrary DynLoader Words Accept Plan Symbols Relocate Execute Start Sloader Program Link Launch Session Reentrant Samples WitnessLoad WitnessProgram WitnessLaunch WitnessSession.
Import Sys.

(** ** Functions that open nothing *)

Definition plain_program : LoadedProgram :=
  {| run_function := λ fn dl, update_mem (call_function fn) ;; mret dl |}.

Section plain.
#[local] Existing Instance plain_program.

Lemma plain_program_opens_nothing fn dl s : run_function fn dl s = (update_mem (call_function fn) ;; mret dl) s.
Proof. reflexivity. Qed.

Lemma Execute_reentrant_plain_witness :
  ∃ dl s s', Execute_reentrant tls_block dl s = Ok (dl, s') ∧ length (p_trace s') = 4%nat.
Proof.
  destruct sys_runs as (_ & _ & dl & s & _ & _ & [] & s' & _ & _ & _ & _ & _ & _ & Hrun & Htr).
  exists dl, s, s'. split; [|exact Htr].
  rewrite (Execute_reentrant_plain tls_block plain_program_opens_nothing dl s), (stM_bind_run _ _ _ _ _ Hrun). reflexivity.
Defined.

End plain.

(** ** Functions that open a library *)

(** The constructor arrays after relocation. *)
Definition sys_arrays : memory :=
  poke (poke (mkMemory [mkRegion 0x1400340 0x1400348 1; mkRegion 0x1800308 0x1800318 1] (λ _, 0))
    0x1400340 (le_split 8 0x1400070)) 0x1800308 (le_split 8 0x1800028 ++ le_split 8 0).

(** The activity ends with a look at the constructor arrays. *)
Definition check_arrays : activity :=
  Compute (λ s, CHECK (holds sys_arrays (p_mem s)) ;; Ok s) (λ _, Return).

Definition note_call (fn : Z) (s : proc) : outcome proc := m ← store64 (p_mem s) ctor_cell fn; Ok (set_mem m s).

Definition opening_body (fn : Z) : activity :=
  if fn =? 0x1400070 then OpenLibrary (Some "libdemo.so"%string) (λ _, check_arrays)
  else Compute (note_call fn) (λ _, check_arrays).

#[local] Instance opening_program : LoadedProgram := {| run_function := λ fn, perform tls_block (opening_body fn) |}.

Lemma check_arrays_ok dl s dl' s' :
  perform tls_block check_arrays dl s = Ok (dl', s') → dl' = dl ∧ s' = s ∧ extends sys_arrays (p_mem s).
Proof.
  cbn [perform check_arrays]. destruct (holds sys_arrays (p_mem s)) eqn:Hk; [|done]. intros [= <- <-].
  split_and!; [done..|exact (holds_extends _ _ Hk)].
Qed.

Lemma note_call_step fn s s' : note_call fn s = Ok s' → program_step s s' ∧ p_rsp s' = p_rsp s.
Proof.
  intros (m & [_ ->]%store64_ok & [= <-])%outcome_bind_ok. split; [|done]. split; [|done..].
  eapply memory_kept_poke; [reflexivity|]. intros _. exact (le_split_bytes 8 fn).
Qed.

Lemma opening_function_ok fn dl s dl' s' :
  perform tls_block (opening_body fn) dl s = Ok (dl', s') →
  rtc (session_step tls_block) (dl, s) (dl', s') ∧ p_rsp s' = p_rsp s ∧ extends sys_arrays (p_mem s').
Proof.
  unfold opening_body. destruct (fn =? 0x1400070); cbn [perform]; intros Hrun.
  - apply stM_bind_ok in Hrun as ([h g] & s1 & Hopen & Hrun). apply stM_bind_ok in Hrun as (dl1 & s2 & Hg & Hrun).
    destruct g as [dl2|]; [|done]. injection Hg as -> ->. apply check_arrays_ok in Hrun as (-> & -> & Hk).
    split_and!; [apply rtc_once; by eapply step_dlopen| |exact Hk].
    apply sloader_dlopen_ok in Hopen as [(_ & -> & _)|(name & path & dl0 & s1 & dl2 & _ & _ & _ & Hload & Hrel & _)]; [done|].
    apply LoadDependingLibs_quiet in Hload as (_ & Hr1 & _). apply Relocate_quiet in Hrel as (_ & Hr2 & _). congruence.
  - apply outcome_bind_ok in Hrun as (s1 & [Hst Hrsp]%note_call_step & Hrun). apply check_arrays_ok in Hrun as (-> & -> & Hk).
    split_and!; [apply rtc_once; by apply step_program|exact Hrsp|exact Hk].
Qed.

#[local] Instance opening_spec : LoadedProgramSpec tls_block.
Proof. split; intros fn dl s dl' s' Hrun; by apply opening_function_ok in Hrun as (? & ? & _). Qed.

Lemma opening_keeps fn dl s dl' s' :
  run_function fn dl s = Ok (dl', s') → extends sys_arrays (p_mem s) → extends sys_arrays (p_mem s').
Proof. intros Hrun _. by apply opening_function_ok in Hrun as (_ & _ & ?). Qed.

Lemma check_arrays_returns : own_code_returns check_arrays.
Proof.
  cbn [own_code_returns check_arrays]. split_and!; [..|done].
  - intros s. apply in_fuel_bind; [auto with fuel|done].
  - intros s s'. destruct (holds sys_arrays (p_mem s)); [|done]. intros [= <-]. by split.
Qed.

Lemma opening_code : loaded_code tls_block opening_body.
Proof.
  intros fn. split; [|done]. unfold opening_body. destruct (fn =? 0x1400070); cbn [own_code_returns].
  - intros _. exact check_arrays_returns.
  - split_and!; [|by intros s s' [? _]%note_call_step|intros _; exact check_arrays_returns].
    intros s. apply in_fuel_bind; [|done]. unfold store64, store_bytes. by destruct (mapped_range _ _ _).
Qed.

Lemma Run_reentrant_terminates_witness :
  in_fuel (Run_reentrant tls_block (DynLoader_new "/bin/app" args envs) proc0).
Proof.
  assert includes_bounded as Hinc by (apply read_ldsoconf_in_fuel; vm_compute; discriminate).
  refine (Run_reentrant_terminates tls_block opening_body (DynLoader_new "/bin/app" args envs) proc0 Hinc opening_code memory0_ok _).
  split; [apply Forall_nil_2|unfold word64; cbn; lia|exact memory0_bytes].
Defined.

(** The constructor of the application has opened the library when the program is
    entered; three constructors have run, none of them of the second copy. *)
Definition opened_facts (dl : DynLoader) (s : proc) (dl' : DynLoader) : Prop :=
  linked_facts dl s ∧ holds sys_arrays (p_mem s) = true ∧
  traverse (init_functions sys_arrays) (rev [app_bin; lib_bin]) = Ok [[0x1800020; 0x1800028]; [0x1400070]] ∧
  map path_ (binaries_ dl') = ["/bin/app"; "/opt/lib/libdemo.so"; "/opt/lib/libdemo.so"]%string.
#[local] Instance opened_facts_dec dl s dl' : Decision (opened_facts dl s dl').
Proof. unfold opened_facts. apply _. Defined.

Lemma opening_check (P : DynLoader → proc → DynLoader → Prop) `{∀ dl s dl', Decision (P dl s dl')} :
  match LoadDependingLibs (DynLoader_new "/bin/app" args envs) "/bin/app" proc0 with
  | Ok (dl1, s1) =>
      match Relocate tls_block dl1 s1 with
      | Ok (dl2, s2) => match Execute_reentrant tls_block dl2 s2 with Ok (dl3, _) => bool_decide (P dl2 s2 dl3) | Err _ => false end
      | Err _ => false
      end
  | Err _ => false
  end = true →
  ∃ dl1 s1 dl2 s2 dl3 s3, LoadDependingLibs (DynLoader_new "/bin/app" args envs) "/bin/app" proc0 = Ok (dl1, s1) ∧
    Relocate tls_block dl1 s1 = Ok (dl2, s2) ∧ Execute_reentrant tls_block dl2 s2 = Ok (dl3, s3) ∧ P dl2 s2 dl3.
Proof.
  destruct (LoadDependingLibs _ _ _) as [[dl1 s1]|]; [|done]. destruct (Relocate tls_block dl1 s1) as [[dl2 s2]|] eqn:E; [|done].
  destruct (Execute_reentrant tls_block dl2 s2) as [[dl3 s3]|] eqn:E'; [|done]. rewrite bool_decide_eq_true.
  intros HP. by exists dl1, s1, dl2, s2, dl3, s3.
Qed.

Lemma opening_run :
  ∃ dl1 s1 dl2 s2 dl3 s3, LoadDependingLibs (DynLoader_new "/bin/app" args envs) "/bin/app" proc0 = Ok (dl1, s1) ∧
    Relocate tls_block dl1 s1 = Ok (dl2, s2) ∧ Execute_reentrant tls_block dl2 s2 = Ok (dl3, s3) ∧ opened_facts dl2 s2 dl3.
Proof. apply (opening_check opened_facts). vm_compute. reflexivity. Qed.

Lemma Execute_reentrant_enters_witness :
  ∃ dl s dl' s' opened rsp, Execute_reentrant tls_block dl s = Ok (dl', s') ∧ binaries_ dl' = [app_bin; lib_bin] ++ opened ∧
    length opened = 1%nat ∧
    p_trace s' = map (init_event 3) [0x1800020; 0x1800028; 0x1400070] ++ [EvJump 0x1400060 rsp].
Proof.
  destruct opening_run as (dl1 & s1 & dl & s & dl' & s' & Hload & Hrel & Hrun & Hf & Hk%holds_extends & Hfns & Hpaths).
  destruct Hf as (Hb & Ha & He & _ & Hrsp & _ & Htr & _).
  assert (session_ok (dl, s)) as Hok.
  { apply (load_and_relocate_session tls_block _ _ _ _ _ _ _ Hload Hrel); [exact memory0_ok|].
    split; [apply Forall_nil_2|unfold word64; cbn; lia|exact memory0_bytes]. }
  rewrite <-Hb in Hfns.
  destruct (Execute_reentrant_enters tls_block sys_arrays opening_keeps dl s dl' s' _ _ _ Hrun Hok Hk Hfns Hb) as (opened & Hop & Htr' & _).
  { rewrite Ha, He, Hrsp. vm_compute. split; [discriminate|reflexivity]. }
  rewrite Hb in Hop. rewrite Htr, Ha, He, Hrsp in Htr'. do 6 eexists. split; [exact Hrun|]. split; [exact Hop|]. split; [|exact Htr'].
  rewrite Hop in Hpaths. apply (f_equal length) in Hpaths. rewrite length_map, length_app in Hpaths. cbn in Hpaths. lia.
Defined.
