(* ===== verification/WitnessOrder.v ===== *)
(** * The order of constructors, on a concrete diamond

    A program that needs two libraries, the second of which needs the first: the
    search loads them in the order of the requests of the program, and [Execute]
    runs the constructors in the reverse order, so the second library is
    initialised before the first, which it depends on. *)

From S2P Require Import Prelude Memory Digits Elf Utils Os ElfBinary ElfDynamic ElfFile FindLibrary DynLoader Symbols Relocate Execute Sloader Samples.
Import Sys.

Definition diamond_image (strings : list string) (dyns : list Elf64_Dyn) : image := {|
  im_type := ET_DYN; im_entry := 0x60; im_memsz := 0x800; im_tls := None; im_dyns := dyns;
  im_relas := []; im_plt := []; im_data := []; im_syms := [mkSym 0 0 0 0 0 0; mkSym 0 (info 0 3) 0 1 0 0];
  im_strtab := strings
|}.

(** The program needs libb.so and liba.so; liba.so needs libb.so. Both libraries have a constructor. *)
Definition top_strings : list string := [""; "libb.so"; "liba.so"]%string.
Definition top_bytes : list Z := Eval vm_compute in
  image_bytes (diamond_image top_strings
    [mkDyn DT_NEEDED (str_off top_strings 1); mkDyn DT_NEEDED (str_off top_strings 2)]).
Definition liba_bytes : list Z := Eval vm_compute in
  image_bytes (diamond_image top_strings [mkDyn DT_NEEDED (str_off top_strings 1); mkDyn DT_INIT 0x20]).
Definition libb_bytes : list Z := Eval vm_compute in
  image_bytes (diamond_image top_strings [mkDyn DT_INIT 0x20]).

Definition diamond : FileSystem := {|
  open_file := λ f,
    if bool_decide (f = "/bin/top"%string) then Some top_bytes
    else if bool_decide (f = "/usr/lib/liba.so"%string) then Some liba_bytes
    else if bool_decide (f = "/usr/lib/libb.so"%string) then Some libb_bytes
    else None;
  path_exists := λ f, Some false;
  is_regular_file := λ f, Some false;
  is_directory := λ d, Some (bool_decide (d = "/usr/lib"%string));
  directory_entries := λ d, ["liba.so"; "libb.so"]%string;
  directory_throws := λ d, false;
  glob := λ p, []
|}.

Section order.
#[local] Existing Instance diamond.

Definition order_facts (r : DynLoader * proc) : Prop :=
  map (λ b, (path_ b, neededs_ b, base_addr_ b)) (binaries_ r.1) =
    [("/bin/top"%string, ["libb.so"; "liba.so"]%string, 0x1400000);
     ("/usr/lib/libb.so"%string, [], 0x1800000);
     ("/usr/lib/liba.so"%string, ["libb.so"]%string, 0x1c00000)] ∧
  take 2 (p_trace r.2) = map (init_event 3) [0x1c00020; 0x1800020] ∧ length (p_trace r.2) = 3%nat.

#[local] Instance order_facts_dec r : Decision (order_facts r).
Proof. unfold order_facts. apply _. Defined.

(** The constructor of liba.so, at 0x1c00020, is called before that of libb.so, which it needs. *)
Lemma constructor_before_dependency :
  ∃ r, Run tls_block (DynLoader_new "/bin/top" args envs) proc0 = Ok r ∧ order_facts r.
Proof.
  apply (run_succeeds (Run tls_block (DynLoader_new "/bin/top" args envs) proc0) order_facts).
  vm_compute. reflexivity.
Qed.
End order.
